(** * HNBigTrie: a shallow embedding of uBlock's hostname trie

    The development follows the sources of the repository:

    - [src/src/js/hnbigtrie.js] (the [hnBigTrieManager] object) is embedded
      in module [Manager];
    - the WebAssembly matcher of [src/src/js/wasm/hnbigtrie.wat], lines
      45-230, is embedded in module [Wasm];
    - the [HNBigTrieContainer] prototype that the same file carries at
      lines 1468-2027 (and its earlier iterator, lines 939-989) is embedded
      in module [Container].

    JavaScript numbers are modelled by [Z] (all the quantities at hand are
    integers far below 2^53, where doubles are exact), with the 32-bit
    conversions of the bitwise operators written out. Typed arrays are views
    over one byte store; a read out of range yields [Undefined] and a write
    out of range is dropped, as in JavaScript. *)

From Stdlib Require Import ZArith Lia Bool List.
From stdpp Require Import base option list gmap strings.
Import ListNotations.
Local Open Scope Z_scope.

(** ** JavaScript values *)

Module JS.

Inductive jsval : Type :=
  | Num (z : Z)
  | Undefined
  | NaN.

Coercion Num : Z >-> jsval.

Definition ToInt32 (v : jsval) : Z :=
  match v with
  | Num z => (z + 2 ^ 31) mod 2 ^ 32 - 2 ^ 31
  | _ => 0
  end.

Definition ToUint32 (v : jsval) : Z :=
  match v with
  | Num z => z mod 2 ^ 32
  | _ => 0
  end.

Definition ToUint8 (v : jsval) : Z :=
  match v with
  | Num z => z mod 256
  | _ => 0
  end.

(** [a + b] and [a - b] on numbers; [undefined] converts to [NaN]. *)
Definition jadd (a b : jsval) : jsval :=
  match a, b with
  | Num x, Num y => Num (x + y)
  | _, _ => NaN
  end.

Definition jsub (a b : jsval) : jsval :=
  match a, b with
  | Num x, Num y => Num (x - y)
  | _, _ => NaN
  end.

(** [a === b] *)
Definition jeq (a b : jsval) : bool :=
  match a, b with
  | Num x, Num y => x =? y
  | Undefined, Undefined => true
  | _, _ => false
  end.

(** [a !== b] *)
Definition jne (a b : jsval) : bool := negb (jeq a b).

(** [a < b] and [a > b]: false as soon as one side is not a number. *)
Definition jlt (a b : jsval) : bool :=
  match a, b with
  | Num x, Num y => x <? y
  | _, _ => false
  end.

Definition jgt (a b : jsval) : bool := jlt b a.

(** [a >>> k], [a << k], [a | b], [a & b], [~a]: always numbers. *)
Definition ushr (a : jsval) (k : Z) : Z :=
  Z.shiftr (ToUint32 a) (k mod 32).

Definition shl (a : jsval) (k : Z) : Z :=
  ToInt32 (Num (Z.shiftl (ToInt32 a) (k mod 32))).

Definition bor (a b : jsval) : Z := Z.lor (ToInt32 a) (ToInt32 b).

Definition band (a b : jsval) : Z := Z.land (ToInt32 a) (ToInt32 b).

Definition bnot (a : jsval) : Z := Z.lnot (ToInt32 a).

(** Truthiness of a number, as tested by [while ( i-- )]. *)
Definition truthy (a : jsval) : bool :=
  match a with
  | Num z => negb (z =? 0)
  | _ => false
  end.

(** A JavaScript string is its sequence of UTF-16 code units. *)
Definition jsstring : Type := list Z.

Fixpoint js (s : string) : jsstring :=
  match s with
  | EmptyString => []
  | String c s' => Z.of_N (Ascii.N_of_ascii c) :: js s'
  end.

(** [s.charCodeAt(i)] *)
Definition charCodeAt (s : jsstring) (i : Z) : jsval :=
  if (0 <=? i) && (i <? Z.of_nat (length s))
  then Num (nth (Z.to_nat i) s 0)
  else NaN.

(** [s.slice(0, e)] *)
Definition slice0 (s : jsstring) (e : jsval) : jsstring :=
  match e with
  | Num n =>
      if 0 <=? n then firstn (Z.to_nat n) s
      else firstn (Z.to_nat (Z.of_nat (length s) + n)) s
  | Undefined => s
  | NaN => []
  end.

Inductive exn : Type := TypeError | RangeError.

(** Outcome of a call that mutates a receiver of type [S]: normal return,
    an exception (the receiver as the throw left it), or a loop that did
    not finish within the fuel. *)
Inductive outcome (S A : Type) : Type :=
  | Ret (a : A) (s : S)
  | Throw (e : exn) (s : S)
  | OutOfFuel.

Arguments Ret {S A} a s.
Arguments Throw {S A} e s.
Arguments OutOfFuel {S A}.

Definition bind {S A B} (m : outcome S A) (k : A -> S -> outcome S B)
  : outcome S B :=
  match m with
  | Ret a s => k a s
  | Throw e s => Throw e s
  | OutOfFuel => OutOfFuel
  end.

End JS.

Import JS.

(** ** Typed arrays over one ArrayBuffer *)

Module TypedArray.

(** The bytes of an [ArrayBuffer]; [Uint8Array] and [Uint32Array] views
    alias the same store (little-endian, as the source requires). *)
Record ArrayBuffer : Type := {
  byteLength : Z;
  byte : Z -> Z
}.

(** [new Uint8Array(n)]: zero filled. *)
Definition alloc (n : Z) : ArrayBuffer :=
  {| byteLength := n; byte := fun _ => 0 |}.

Definition in_range (b : ArrayBuffer) (i : Z) : bool :=
  (0 <=? i) && (i <? byteLength b).

(** [buf[i]] on the [Uint8Array] view. *)
Definition get8 (b : ArrayBuffer) (i : jsval) : jsval :=
  match i with
  | Num i => if in_range b i then Num (byte b i mod 256) else Undefined
  | _ => Undefined
  end.

(** [buf[i] = v] on the [Uint8Array] view. *)
Definition set8 (b : ArrayBuffer) (i v : jsval) : ArrayBuffer :=
  match i with
  | Num i =>
      if in_range b i
      then {| byteLength := byteLength b;
              byte := fun j => if j =? i then ToUint8 v else byte b j |}
      else b
  | _ => b
  end.

(** Length of the [Uint32Array] view. *)
Definition length32 (b : ArrayBuffer) : Z := byteLength b / 4.

Definition word (b : ArrayBuffer) (a : Z) : Z :=
  byte b a mod 256
  + 2 ^ 8 * (byte b (a + 1) mod 256)
  + 2 ^ 16 * (byte b (a + 2) mod 256)
  + 2 ^ 24 * (byte b (a + 3) mod 256).

(** [buf32[i]] *)
Definition get32 (b : ArrayBuffer) (i : jsval) : jsval :=
  match i with
  | Num i =>
      if (0 <=? i) && (i <? length32 b) then Num (word b (4 * i))
      else Undefined
  | _ => Undefined
  end.

(** [buf32[i] = v] *)
Definition set32 (b : ArrayBuffer) (i v : jsval) : ArrayBuffer :=
  match i with
  | Num i =>
      if (0 <=? i) && (i <? length32 b)
      then
        let w := ToUint32 v in
        {| byteLength := byteLength b;
           byte := fun j =>
             if j =? 4 * i then w mod 256
             else if j =? 4 * i + 1 then (w / 2 ^ 8) mod 256
             else if j =? 4 * i + 2 then (w / 2 ^ 16) mod 256
             else if j =? 4 * i + 3 then (w / 2 ^ 24) mod 256
             else byte b j |}
      else b
  | _ => b
  end.

(** [buf.fill(0)] *)
Definition fill0 (b : ArrayBuffer) : ArrayBuffer := alloc (byteLength b).

(** [new Uint8Array(src, off, len)]: a view; it throws a [RangeError]
    when the window does not fit in [src]. *)
Definition view_ok (src : ArrayBuffer) (off len : Z) : bool :=
  (0 <=? off) && (0 <=? len) && (off + len <=? byteLength src).

(** [dst.set(new Uint8Array(src, off, len), at)]; it throws a
    [RangeError] when the source does not fit at [at]. *)
Definition set_ok (dst : ArrayBuffer) (len at_ : Z) : bool :=
  (0 <=? at_) && (at_ + len <=? byteLength dst).

Definition blit (src : ArrayBuffer) (off len : Z) (dst : ArrayBuffer) (at_ : Z)
  : ArrayBuffer :=
  {| byteLength := byteLength dst;
     byte := fun j =>
       if (at_ <=? j) && (j <? at_ + len) then byte src (j - at_ + off) mod 256
       else byte dst j |}.

#[global] Arguments get8 : simpl never.
#[global] Arguments set8 : simpl never.
#[global] Arguments get32 : simpl never.
#[global] Arguments set32 : simpl never.

End TypedArray.

Import TypedArray.

(** ** [hnBigTrieManager] of src/src/js/hnbigtrie.js *)

Module Manager.

(** The fields of [hnBigTrieManager]. [buf] stands for [this.buf] and for
    the [Uint32Array] view [this.buf32] that [create] allocates over the same
    buffer (every [iroot] comes from [create], so the view exists whenever
    [add] or [matchesJS] index it). [wasmMemory] is [true] when
    [this.wasmMemory] is not [null]. *)
Record state : Type := mkState {
  buf : ArrayBuffer;
  trie0 : Z;
  trie1 : Z;
  char0 : Z;
  char1 : Z;
  id : Z;
  needle : jsstring;
  wasmMemory : bool;
  segments : gmap jsstring Z
}.

Definition with_buf (st : state) (b : ArrayBuffer) : state :=
  mkState b (trie0 st) (trie1 st) (char0 st) (char1 st) (id st)
          (needle st) (wasmMemory st) (segments st).

Definition with_trie1 (st : state) (t : Z) : state :=
  mkState (buf st) (trie0 st) t (char0 st) (char1 st) (id st)
          (needle st) (wasmMemory st) (segments st).

Definition with_char1 (st : state) (c : Z) : state :=
  mkState (buf st) (trie0 st) (trie1 st) (char0 st) c (id st)
          (needle st) (wasmMemory st) (segments st).

Definition with_segments (st : state) (m : gmap jsstring Z) : state :=
  mkState (buf st) (trie0 st) (trie1 st) (char0 st) (char1 st) (id st)
          (needle st) (wasmMemory st) m.

Definition read8 (st : state) (i : jsval) : jsval := get8 (buf st) i.
Definition read32 (st : state) (i : jsval) : jsval := get32 (buf st) i.
Definition write8 (i v : jsval) (st : state) : state :=
  with_buf st (set8 (buf st) i v).
Definition write32 (i v : jsval) (st : state) : state :=
  with_buf st (set32 (buf st) i v).

(** The object literal, lines 47-58. *)
Definition fresh : state :=
  mkState (alloc 131072) 256 256 65536 65536 0 [] false ∅.

(** [HNBigTrieRef], lines 371-374. *)
Record HNBigTrieRef : Type := mkRef {
  ref_id : Z;
  iroot : jsval
}.

(** [reset], lines 60-71. The file is in strict mode: the assignment to
    [this.buf.byteLength], an accessor without setter, throws a
    [TypeError] before anything else is done. *)
Definition reset (st : state) : outcome state unit :=
  if negb (wasmMemory st) && (byteLength (buf st) >? 131072)
  then Throw TypeError st
  else
    Ret tt (mkState (fill0 (buf st)) 256 256 65536 65536 (id st + 1)
                    [] (wasmMemory st) ∅).

(** [setNeedle], lines 79-91. *)
Fixpoint setNeedle_loop (s : jsstring) (i : nat) (b : ArrayBuffer)
  : ArrayBuffer :=
  match i with
  | O => b
  | S i' =>
      setNeedle_loop s i'
        (set8 b (Num (Z.of_nat i')) (charCodeAt s (Z.of_nat i')))
  end.

Definition setNeedle (s : jsstring) (st : state) : state :=
  if decide (s = needle st) then st
  else
    let i := Z.of_nat (length s) in
    let i := if i >? 255 then 255 else i in
    let b := set8 (buf st) 255 i in
    let b := setNeedle_loop s (Z.to_nat i) b in
    mkState b (trie0 st) (trie1 st) (char0 st) (char1 st) (id st)
            s (wasmMemory st) (segments st).

(** [indexOfMismatch], lines 248-260. The loop runs at most [n] times,
    [n <= 255]. *)
Fixpoint indexOfMismatch_loop (k : nat) (st : state)
    (i0 i1 ineedle i : jsval) : jsval :=
  match k with
  | O => i
  | S k' =>
      if jlt (jadd i0 i) i1 then
        if jne (read8 st (jadd i0 i)) (read8 st (jsub (jsub ineedle 1) i))
        then i
        else indexOfMismatch_loop k' st i0 i1 ineedle (jadd i 1)
      else i
  end.

Definition indexOfMismatch (st : state) (vcell ineedle : jsval) : jsval :=
  let n : jsval := Num (ushr vcell 24) in
  let n := if jgt n ineedle then ineedle else n in
  if jeq n 0 then Num 0
  else
    let i0 := jadd (char0 st) (band vcell 16777215) in
    let i1 := jadd i0 n in
    indexOfMismatch_loop (Z.to_nat (ToUint32 n)) st i0 i1 ineedle 0.

(** [labelBoundary], lines 262-264. *)
Definition labelBoundary (st : state) (i : jsval) : bool :=
  jeq i 0 || jeq (read8 st (jsub i 1)) 46.

(** [matchesJS], lines 93-118. One unit of fuel per test of the [while]
    condition. *)
Fixpoint matchesJS_loop (fuel : nat) (st : state) (icell ineedle : jsval)
  : option jsval :=
  match fuel with
  | O => None
  | S fuel' =>
      if jne icell 0 then
        let vcell3 := read32 st (jadd icell 2) in
        let imismatch := indexOfMismatch st vcell3 ineedle in
        if jeq imismatch 0 then
          matchesJS_loop fuel' st (read32 st (jadd icell 0)) ineedle
        else if jlt imismatch (ushr vcell3 24) then Some (Num (-1))
        else
          let ineedle := jsub ineedle imismatch in
          let icell := read32 st (jadd icell 1) in
          if jeq (read32 st (jadd icell 2)) 0 then
            if labelBoundary st ineedle then Some (Num 1)
            else matchesJS_loop fuel' st (read32 st (jadd icell 1)) ineedle
          else matchesJS_loop fuel' st icell ineedle
      else
        Some (if labelBoundary st ineedle then ineedle else Num (-1))
  end.

Definition matchesJS (fuel : nat) (st : state) (iroot : jsval)
  : option jsval :=
  let ineedle := read8 st 255 in
  if jeq ineedle 0 then Some (Num (-1))
  else matchesJS_loop fuel st iroot ineedle.

(** [create], lines 122-132. *)
Definition create (st : state) : HNBigTrieRef * state :=
  let iroot : jsval := Num (ushr (trie1 st) 2) in
  let st := with_trie1 st (trie1 st + 12) in
  let st := write32 (jadd iroot 0) 0 st in
  let st := write32 (jadd iroot 1) 0 st in
  let st := write32 (jadd iroot 2) 0 st in
  (mkRef (id st) iroot, st).

(** [newCell], lines 224-231. *)
Definition newCell (idown iright v : jsval) (st : state) : jsval * state :=
  let icell : jsval := Num (ushr (trie1 st) 2) in
  let st := with_trie1 st (trie1 st + 12) in
  let st := write32 (jadd icell 0) idown st in
  let st := write32 (jadd icell 1) iright st in
  let st := write32 (jadd icell 2) v st in
  (icell, st).

(** [storeSegment], lines 233-246. *)
Fixpoint storeSegment_loop (i : nat) (st : state) : state :=
  match i with
  | O => st
  | S i' =>
      let at_ := char1 st in
      let st := with_char1 st (char1 st + 1) in
      storeSegment_loop i'
        (write8 at_ (read8 st (Num (Z.of_nat i'))) st)
  end.

Definition storeSegment (len : jsval) (st : state) : jsval * state :=
  if jeq len 0 then (Num 0, st)
  else
    let segment := slice0 (needle st) len in
    match (segments st !! segment : option Z) with
    | Some ichar => (Num (bor (shl len 24) (Num ichar)), st)
    | None =>
        let ichar : Z := char1 st - char0 st in
        let st := with_segments st (<[segment := ichar]> (segments st)) in
        let st := storeSegment_loop (Z.to_nat (ToUint32 len)) st in
        (Num (bor (shl len 24) (Num ichar)), st)
    end.

(** [resizeBuf], lines 280-297. *)
Definition resizeBuf (c0 c1 buf1 : Z) (st : state) : outcome state unit :=
  if buf1 =? byteLength (buf st) then Ret tt st
  else if buf1 <? 0 then Throw RangeError st
  else
    let b := alloc buf1 in
    if negb (view_ok (buf st) 0 (trie1 st) && set_ok b (trie1 st) 0)
    then Throw RangeError st
    else
      let b := blit (buf st) 0 (trie1 st) b 0 in
      let n := char1 st - char0 st in
      if negb (view_ok (buf st) (char0 st) n && set_ok b n c0)
      then Throw RangeError st
      else
        let b := blit (buf st) (char0 st) n b c0 in
        let st' := mkState b (trie0 st) (trie1 st) c0 c1 (id st)
                           (needle st) (wasmMemory st) (segments st) in
        if buf1 mod 4 =? 0 then Ret tt st' else Throw RangeError st'.

(** [growBuf], lines 266-271. *)
Definition growBuf (st : state) : outcome state unit :=
  let c0 := band (Num (trie1 st + 24 + 65535)) (bnot 65535) in
  let c1 := c0 + char1 st - char0 st in
  let buf1 := band (Num (c1 + 256 + 65535)) (bnot 65535) in
  resizeBuf c0 c1 buf1 st.

(** [shrinkBuf], lines 273-278. *)
Definition shrinkBuf (st : state) : outcome state unit :=
  let c0 := band (Num (trie1 st + 3)) (bnot 3) in
  let c1 := c0 + char1 st - char0 st in
  let buf1 := band (Num (c1 + 3)) (bnot 3) in
  resizeBuf c0 c1 buf1 st.

(** [optimize], lines 210-213. *)
Definition optimize (st : state) : outcome state unit :=
  shrinkBuf (with_segments st ∅).

(** [add], lines 134-208. One unit of fuel per turn of [for (;;)]. *)
Fixpoint add_loop (fuel : nat) (icell ihnchar : jsval) (st : state)
  : outcome state jsval :=
  match fuel with
  | O => OutOfFuel
  | S fuel' =>
      let v := read32 st (jadd icell 2) in
      if jeq v 0 then add_loop fuel' (read32 st (jadd icell 1)) ihnchar st
      else
        let imismatch := indexOfMismatch st v ihnchar in
        if jeq imismatch 0 then
          let inext := read32 st (jadd icell 0) in
          if jne inext 0 then add_loop fuel' inext ihnchar st
          else
            let '(seg, st) := storeSegment ihnchar st in
            let '(c, st) := newCell 0 0 seg st in
            Ret (Num 1) (write32 (jadd icell 0) c st)
        else
          let ihnchar := jsub ihnchar imismatch in
          let lsegchar : jsval := Num (ushr v 24) in
          let inext := read32 st (jadd icell 1) in
          if jeq imismatch lsegchar then
            if jne ihnchar 0 then
              if jne inext 0 then add_loop fuel' inext ihnchar st
              else
                let '(b, st) := newCell 0 0 0 st in
                let st := write32 (jadd icell 1) b st in
                let at_ := jadd (read32 st (jadd icell 1)) 1 in
                let '(seg, st) := storeSegment ihnchar st in
                let '(c, st) := newCell 0 0 seg st in
                Ret (Num 1) (write32 at_ c st)
            else if jeq inext 0 || jeq (read32 st (jadd inext 2)) 0
            then Ret (Num 0) st
            else
              let '(b, st) := newCell 0 (read32 st (jadd icell 1)) 0 st in
              Ret (Num 1) (write32 (jadd icell 1) b st)
          else
            let isegchar : jsval := Num (band v 16777215) in
            let st := write32 (jadd icell 2)
                        (bor (shl imismatch 24) isegchar) st in
            let '(t, st) :=
              newCell 0 (read32 st (jadd icell 1))
                (bor (shl (jsub lsegchar imismatch) 24)
                     (jadd isegchar imismatch)) st in
            let st := write32 (jadd icell 1) t st in
            if jne ihnchar 0 then
              let at_ := jadd (read32 st (jadd icell 1)) 0 in
              let '(seg, st) := storeSegment ihnchar st in
              let '(c, st) := newCell 0 0 seg st in
              Ret (Num 1) (write32 at_ c st)
            else
              let '(b, st) := newCell 0 (read32 st (jadd icell 1)) 0 st in
              Ret (Num 1) (write32 (jadd icell 1) b st)
  end.

Definition add (fuel : nat) (iroot : jsval) (st : state)
  : outcome state jsval :=
  let ihnchar := read8 st 255 in
  if jeq ihnchar 0 then Ret (Num 0) st
  else
    bind (growBuf st) (fun _ st =>
      let icell := iroot in
      if jeq (read32 st (jadd icell 2)) 0 then
        let st := write32 (jadd icell 0) 0 st in
        let st := write32 (jadd icell 1) 0 st in
        let '(seg, st) := storeSegment ihnchar st in
        Ret (Num 1) (write32 (jadd icell 2) seg st)
      else add_loop fuel icell ihnchar st).

(** [HNBigTrieRef.prototype.isValid], lines 380-382. *)
Definition isValid (r : HNBigTrieRef) (st : state) : bool :=
  jeq (ref_id r) (id st).

(** [HNBigTrieRef.prototype.add] and [matchesJS], lines 377-388. *)
Definition ref_add (fuel : nat) (r : HNBigTrieRef) (hn : jsstring)
    (st : state) : outcome state jsval :=
  add fuel (iroot r) (setNeedle hn st).

Definition ref_matchesJS (fuel : nat) (r : HNBigTrieRef) (hn : jsstring)
    (st : state) : option jsval * state :=
  let st := setNeedle hn st in
  (matchesJS fuel st (iroot r), st).

(** The loop of [fromIterable], lines 215-219, without [optimize]. *)
Fixpoint add_all (fuel : nat) (r : HNBigTrieRef) (hns : list jsstring)
    (st : state) : outcome state unit :=
  match hns with
  | [] => Ret tt st
  | hn :: hns' =>
      bind (ref_add fuel r hn st) (fun _ st => add_all fuel r hns' st)
  end.

(** A trie filled the way [fromIterable] does, lines 216-219: [create],
    then [setNeedle(hn).add(iroot)] for each hostname. *)
Definition build (fuel : nat) (hns : list jsstring)
  : outcome state HNBigTrieRef :=
  let '(r, st) := create fresh in
  bind (add_all fuel r hns st) (fun _ st => Ret r st).

(** [trieRef.matchesJS(q)] on the trie built from [hns]. *)
Definition query (fuel : nat) (hns : list jsstring) (q : jsstring)
  : option jsval :=
  match build fuel hns with
  | Ret r st => fst (ref_matchesJS fuel r q st)
  | _ => None
  end.

(** [n] further calls of [create]. *)
Fixpoint creates (n : nat) (st : state) : state :=
  match n with
  | O => st
  | S n' => creates n' (snd (create st))
  end.

(** [fromIterable], lines 215-222. *)
Definition fromIterable (fuel : nat) (hns : list jsstring) (st : state)
  : outcome state HNBigTrieRef :=
  let '(r, st) := create st in
  bind (add_all fuel r hns st) (fun _ st =>
  bind (optimize st) (fun _ st => Ret r st)).

End Manager.

(** ** The WebAssembly [matches] of src/src/js/wasm/hnbigtrie.wat, lines 45-230 *)

Module Wasm.

Inductive result : Type :=
  | Return (v : Z)
  | Trap
  | OutOfFuel.

(** Inside a block: go on with a value, or leave the function. *)
Inductive step (A : Type) : Type :=
  | Go (a : A)
  | Done (r : result).

Arguments Go {A} a.
Arguments Done {A} r.

Definition i32 (z : Z) : Z := z mod 2 ^ 32.

(** The value a JavaScript caller sees for an [i32] result. *)
Definition signed (z : Z) : Z := if z <? 2 ^ 31 then z else z - 2 ^ 32.

(** [i32.load offset=off] and [i32.load8_u offset=off]: the linear memory
    is the buffer; an access past its end traps. *)
Definition load (m : ArrayBuffer) (addr off : Z) : option Z :=
  let ea := addr + off in
  if ea + 4 <=? byteLength m then Some (word m ea) else None.

Definition load8_u (m : ArrayBuffer) (addr off : Z) : option Z :=
  let ea := addr + off in
  if ea + 1 <=? byteLength m then Some (byte m ea mod 256) else None.

(** [block $foundSegment loop $findSegment], lines 85-113. *)
Fixpoint findSegment (fuel : nat) (m : ArrayBuffer) (char0 c icell : Z)
  : step (Z * Z * Z) :=
  match fuel with
  | O => Done OutOfFuel
  | S fuel' =>
      match load m icell 8 with
      | None => Done Trap
      | Some v =>
          let i0 := i32 (Z.land v 16777215 + char0) in
          match load8_u m i0 0 with
          | None => Done Trap
          | Some b =>
              if b =? c then Go (icell, v, i0)
              else
                match load m icell 0 with
                | None => Done Trap
                | Some d =>
                    let icell := i32 (Z.shiftl d 2) in
                    if icell =? 0 then Done (Return (-1))
                    else findSegment fuel' m char0 c icell
                end
          end
      end
  end.

(** The [do ... while ( i0 < i1 )] loop, lines 144-168; it runs [n] times. *)
Fixpoint compareSegment (k : nat) (m : ArrayBuffer) (ineedle i0 i1 : Z)
  : step Z :=
  match k with
  | O => Done OutOfFuel
  | S k' =>
      let ineedle := i32 (ineedle + (2 ^ 32 - 1)) in
      match load8_u m ineedle 0, load8_u m i0 0 with
      | Some a, Some b =>
          if negb (a =? b) then Done (Return (-1))
          else
            let i0 := i32 (i0 + 1) in
            if i0 <? i1 then compareSegment k' m ineedle i0 i1
            else Go ineedle
      | _, _ => Done Trap
      end
  end.

(** Lines 212-229. *)
Definition atBoundary (m : ArrayBuffer) (ineedle : Z) : result :=
  if ineedle =? 0 then Return 0
  else
    match load8_u m (i32 (ineedle + (2 ^ 32 - 1))) 0 with
    | None => Trap
    | Some b => if b =? 46 then Return (signed ineedle) else Return (-1)
    end.

(** [block $noSegment loop $nextSegment], lines 68-211. The test at lines
    180-182 loads the word at [icell] with no offset. *)
Fixpoint nextSegment (fuel : nat) (m : ArrayBuffer) (char0 icell ineedle : Z)
  : result :=
  match fuel with
  | O => OutOfFuel
  | S fuel' =>
      if ineedle =? 0 then Return (-1)
      else
        let ineedle := i32 (ineedle + (2 ^ 32 - 1)) in
        match load8_u m ineedle 0 with
        | None => Trap
        | Some c =>
            match findSegment fuel' m char0 c icell with
            | Done r => r
            | Go (icell, v, i0) =>
                let n := Z.shiftr v 24 in
                let tail :=
                  if n >? 1 then
                    let n := i32 (n + (2 ^ 32 - 1)) in
                    if n >? ineedle then Done (Return (-1))
                    else
                      let i0 := i32 (i0 + 1) in
                      let i1 := i32 (i0 + n) in
                      compareSegment (Z.to_nat n) m ineedle i0 i1
                  else Go ineedle in
                match tail with
                | Done r => r
                | Go ineedle =>
                    match load m icell 4 with
                    | None => Trap
                    | Some r =>
                        let icell := i32 (Z.shiftl r 2) in
                        if icell =? 0 then atBoundary m ineedle
                        else
                          match load m icell 0 with
                          | None => Trap
                          | Some d =>
                              if d =? 0 then
                                if ineedle =? 0 then Return 0
                                else
                                  match load8_u m (i32 (ineedle + (2 ^ 32 - 1))) 0 with
                                  | None => Trap
                                  | Some b =>
                                      if b =? 46 then Return (signed ineedle)
                                      else
                                        match load m icell 4 with
                                        | None => Trap
                                        | Some r =>
                                            nextSegment fuel' m char0
                                              (i32 (Z.shiftl r 2)) ineedle
                                        end
                                  end
                              else nextSegment fuel' m char0 icell ineedle
                          end
                    end
                end
            end
        end
  end.

(** [(func (export "matches") (param $icell i32) (result i32)], lines 45-230. *)
Definition matches (fuel : nat) (m : ArrayBuffer) (icell : Z) : result :=
  match load m 264 0 with
  | None => Trap
  | Some char0 =>
      let icell := i32 (Z.shiftl (i32 icell) 2) in
      match load8_u m 255 0 with
      | None => Trap
      | Some ineedle => nextSegment fuel m char0 icell ineedle
      end
  end.

End Wasm.

(** ** [HNBigTrieContainer] of src/src/js/wasm/hnbigtrie.wat, lines 1468-2027 *)

Module Container.

(** The container keeps its four offsets in the buffer itself. [buf] stands
    for [this.buf] and [this.buf32]; [wasmMemory] is [true] when
    [this.wasmMemory] is not [null]. *)
Record state : Type := mkState {
  buf : ArrayBuffer;
  needle : jsstring;
  wasmMemory : bool
}.

Definition with_buf (st : state) (b : ArrayBuffer) : state :=
  mkState b (needle st) (wasmMemory st).

Definition read8 (st : state) (i : jsval) : jsval := get8 (buf st) i.
Definition read32 (st : state) (i : jsval) : jsval := get32 (buf st) i.
Definition write8 (i v : jsval) (st : state) : state :=
  with_buf st (set8 (buf st) i v).
Definition write32 (i v : jsval) (st : state) : state :=
  with_buf st (set32 (buf st) i v).

(** Lines 1539-1544. *)
Definition HNBIGTRIE_TRIE0_SLOT : Z := ushr 256 2.
Definition HNBIGTRIE_TRIE1_SLOT : Z := HNBIGTRIE_TRIE0_SLOT + 1.
Definition HNBIGTRIE_CHAR0_SLOT : Z := HNBIGTRIE_TRIE0_SLOT + 2.
Definition HNBIGTRIE_CHAR1_SLOT : Z := HNBIGTRIE_TRIE0_SLOT + 3.
Definition HNBIGTRIE_TRIE0_START : Z := shl (HNBIGTRIE_TRIE0_SLOT + 4) 2.

(** [new HNBigTrieContainer()], lines 1525-1537, with the default
    [byteLength] and [char0]. *)
Definition fresh : state :=
  let st := mkState (alloc 131072) [] false in
  let st := write32 HNBIGTRIE_TRIE0_SLOT HNBIGTRIE_TRIE0_START st in
  let st := write32 HNBIGTRIE_TRIE1_SLOT (read32 st HNBIGTRIE_TRIE0_SLOT) st in
  let st := write32 HNBIGTRIE_CHAR0_SLOT 65536 st in
  write32 HNBIGTRIE_CHAR1_SLOT (read32 st HNBIGTRIE_CHAR0_SLOT) st.

(** [HNBigTrieRef], lines 1939-1943. *)
Record HNBigTrieRef : Type := mkRef {
  iroot : jsval;
  size : Z
}.

(** [reset], lines 1553-1556. *)
Definition reset (st : state) : state :=
  let st := write32 HNBIGTRIE_TRIE1_SLOT (read32 st HNBIGTRIE_TRIE0_SLOT) st in
  write32 HNBIGTRIE_CHAR1_SLOT (read32 st HNBIGTRIE_CHAR0_SLOT) st.

(** [setNeedle], lines 1567-1579. *)
Fixpoint setNeedle_loop (s : jsstring) (i : nat) (b : ArrayBuffer)
  : ArrayBuffer :=
  match i with
  | O => b
  | S i' =>
      setNeedle_loop s i'
        (set8 b (Num (Z.of_nat i')) (charCodeAt s (Z.of_nat i')))
  end.

Definition setNeedle (s : jsstring) (st : state) : state :=
  if decide (s = needle st) then st
  else
    let i := Z.of_nat (length s) in
    let i := if i >? 254 then 254 else i in
    let b := set8 (buf st) 255 i in
    let b := setNeedle_loop s (Z.to_nat i) b in
    mkState b s (wasmMemory st).

(** [matchesJS], lines 1581-1622. *)

(** Lines 1591-1597: the first cell of the [down] chain whose segment
    starts with [c]; [None] stands for [return -1]. *)
Fixpoint matchesJS_find (fuel : nat) (st : state) (char0 c icell : jsval)
  : option (option (jsval * jsval * jsval)) :=
  match fuel with
  | O => None
  | S fuel' =>
      let v := read32 st (jadd icell 2) in
      let i0 := jadd char0 (band v 16777215) in
      if jeq (read8 st i0) c then Some (Some (icell, v, i0))
      else
        let icell := read32 st (jadd icell 0) in
        if jeq icell 0 then Some None
        else matchesJS_find fuel' st char0 c icell
  end.

(** Lines 1605-1609: [do ... while ( i0 < i1 )]; [None] stands for
    [return -1]. *)
Fixpoint matchesJS_cmp (k : nat) (st : state) (ineedle i0 i1 : jsval)
  : option (option jsval) :=
  match k with
  | O => None
  | S k' =>
      let ineedle := jsub ineedle 1 in
      if jne (read8 st i0) (read8 st ineedle) then Some None
      else
        let i0 := jadd i0 1 in
        if jlt i0 i1 then matchesJS_cmp k' st ineedle i0 i1
        else Some (Some ineedle)
  end.

Definition labelBoundary (st : state) (ineedle : jsval) : bool :=
  jeq ineedle 0 || jeq (read8 st (jsub ineedle 1)) 46.

Fixpoint matchesJS_loop (fuel : nat) (st : state) (char0 icell ineedle : jsval)
  : option jsval :=
  match fuel with
  | O => None
  | S fuel' =>
      if jeq ineedle 0 then Some (Num (-1))
      else
        let ineedle := jsub ineedle 1 in
        let c := read8 st ineedle in
        match matchesJS_find fuel' st char0 c icell with
        | None => None
        | Some None => Some (Num (-1))
        | Some (Some (icell, v, i0)) =>
            let n : jsval := Num (ushr v 24) in
            let rest :=
              if jgt n 1 then
                let n := jsub n 1 in
                if jgt n ineedle then Some None
                else
                  let i0 := jadd i0 1 in
                  let i1 := jadd i0 n in
                  matchesJS_cmp (Z.to_nat (ToUint32 n)) st ineedle i0 i1
              else Some (Some ineedle) in
            match rest with
            | None => None
            | Some None => Some (Num (-1))
            | Some (Some ineedle) =>
                let icell := read32 st (jadd icell 1) in
                if jeq icell 0 then
                  Some (if labelBoundary st ineedle then ineedle
                        else Num (-1))
                else if jeq (read32 st (jadd icell 2)) 0 then
                  if labelBoundary st ineedle then Some ineedle
                  else
                    matchesJS_loop fuel' st char0
                      (read32 st (jadd icell 1)) ineedle
                else matchesJS_loop fuel' st char0 icell ineedle
            end
        end
  end.

Definition matchesJS (fuel : nat) (st : state) (iroot : jsval)
  : option jsval :=
  let char0 := read32 st HNBIGTRIE_CHAR0_SLOT in
  let ineedle := read8 st 255 in
  matchesJS_loop fuel st char0 iroot ineedle.

(** [create], lines 1626-1633. *)
Definition create (st : state) : HNBigTrieRef * state :=
  let iroot : jsval := Num (ushr (read32 st HNBIGTRIE_TRIE1_SLOT) 2) in
  let st := write32 HNBIGTRIE_TRIE1_SLOT
              (jadd (read32 st HNBIGTRIE_TRIE1_SLOT) 12) st in
  let st := write32 (jadd iroot 0) 0 st in
  let st := write32 (jadd iroot 1) 0 st in
  let st := write32 (jadd iroot 2) 0 st in
  (mkRef iroot 0, st).

(** [addCell], lines 1758-1766. *)
Definition addCell (idown iright v : jsval) (st : state) : jsval * state :=
  let icell := read32 st HNBIGTRIE_TRIE1_SLOT in
  let st := write32 HNBIGTRIE_TRIE1_SLOT (jadd icell 12) st in
  let icell : jsval := Num (ushr icell 2) in
  let st := write32 (jadd icell 0) idown st in
  let st := write32 (jadd icell 1) iright st in
  let st := write32 (jadd icell 2) v st in
  (icell, st).

(** [addSegment], lines 1768-1778. The [do ... while ( i !== 0 )] loop
    ends after [lsegchar] turns when [lsegchar] is a positive integer and
    not at all otherwise. *)
Fixpoint addSegment_loop (k : nat) (i char1 : jsval) (st : state)
  : outcome state jsval :=
  match k with
  | O => OutOfFuel
  | S k' =>
      let at_ := char1 in
      let char1 := jadd char1 1 in
      let i := jsub i 1 in
      let st := write8 at_ (read8 st i) st in
      if jne i 0 then addSegment_loop k' i char1 st else Ret char1 st
  end.

Definition addSegment (lsegchar : jsval) (st : state) : outcome state jsval :=
  if jeq lsegchar 0 then Ret (Num 0) st
  else
    let char1 := read32 st HNBIGTRIE_CHAR1_SLOT in
    let isegchar := jsub char1 (read32 st HNBIGTRIE_CHAR0_SLOT) in
    bind (addSegment_loop (Z.to_nat (ToUint32 lsegchar)) lsegchar char1 st)
      (fun char1 st =>
         let st := write32 HNBIGTRIE_CHAR1_SLOT char1 st in
         Ret (Num (bor (shl lsegchar 24) isegchar)) st).

(** [Math.max] of two values. *)
Definition jmax (a b : jsval) : jsval :=
  match a, b with
  | Num x, Num y => Num (Z.max x y)
  | _, _ => NaN
  end.

(** [resizeBuf], lines 1801-1843. [growBuf] and [shrinkBuf] pass numbers,
    and the three offsets read from the header are numbers as long as the
    buffer holds its first 272 bytes; the last branch of the [match] stands
    for the other cases, which no caller in this file reaches. *)
Definition resizeBuf (c0 c1 buf1 : jsval) (st : state) : outcome state unit :=
  if jeq buf1 (byteLength (buf st)) then Ret tt st
  else
    let t1 := read32 st HNBIGTRIE_TRIE1_SLOT in
    let o0 := read32 st HNBIGTRIE_CHAR0_SLOT in
    let o1 := read32 st HNBIGTRIE_CHAR1_SLOT in
    match buf1, t1, o0, jsub o1 o0, c0 with
    | Num buf1, Num t1, Num o0, Num n, Num c0z =>
        if wasmMemory st then
          let pageCount :=
            ushr (Num (buf1 + 65535)) 16
            - ushr (Num (byteLength (buf st) + 65535)) 16 in
          let b :=
            if pageCount >? 0
            then {| byteLength := byteLength (buf st) + 65536 * pageCount;
                    byte := byte (buf st) |}
            else buf st in
          if jne c0 o0 then
            if negb (view_ok b o0 n && set_ok b n c0z)
            then Throw RangeError (with_buf st b)
            else
              let st := with_buf st (blit b o0 n b c0z) in
              let st := write32 HNBIGTRIE_CHAR0_SLOT c0 st in
              Ret tt (write32 HNBIGTRIE_CHAR1_SLOT c1 st)
          else
            let st := with_buf st b in
            let st := write32 HNBIGTRIE_CHAR0_SLOT c0 st in
            Ret tt (write32 HNBIGTRIE_CHAR1_SLOT c1 st)
        else if buf1 <? 0 then Throw RangeError st
        else
          let b := alloc buf1 in
          if negb (view_ok (buf st) 0 t1 && set_ok b t1 0)
          then Throw RangeError (with_buf st b)
          else
            let b := blit (buf st) 0 t1 b 0 in
            if negb (view_ok (buf st) o0 n && set_ok b n c0z)
            then Throw RangeError (with_buf st b)
            else
              let b := blit (buf st) o0 n b c0z in
              if negb (buf1 mod 4 =? 0) then Throw RangeError (with_buf st b)
              else
                let st := with_buf st b in
                let st := write32 HNBIGTRIE_CHAR0_SLOT c0 st in
                Ret tt (write32 HNBIGTRIE_CHAR1_SLOT c1 st)
    | _, _, _, _, _ => Throw RangeError st
    end.

(** [growBuf], lines 1780-1791. *)
Definition growBuf (st : state) : outcome state unit :=
  let c0 :=
    jmax (Num (band (jadd (jadd (read32 st HNBIGTRIE_TRIE1_SLOT) 24) 65535)
                    (bnot 65535)))
         (read32 st HNBIGTRIE_CHAR0_SLOT) in
  let c1 := jsub (jadd c0 (read32 st HNBIGTRIE_CHAR1_SLOT))
                 (read32 st HNBIGTRIE_CHAR0_SLOT) in
  let buf1 :=
    jmax (Num (band (jadd (jadd c1 256) 65535) (bnot 65535)))
         (byteLength (buf st)) in
  resizeBuf c0 c1 buf1 st.

(** [shrinkBuf], lines 1793-1799. *)
Definition shrinkBuf (st : state) : outcome state unit :=
  if wasmMemory st then Ret tt st
  else
    let c0 : jsval :=
      Num (band (jadd (jadd (read32 st HNBIGTRIE_TRIE1_SLOT) 24) 3)
                (bnot 3)) in
    let c1 := jsub (jadd c0 (read32 st HNBIGTRIE_CHAR1_SLOT))
                   (read32 st HNBIGTRIE_CHAR0_SLOT) in
    let buf1 : jsval := Num (band (jadd (jadd c1 256) 3) (bnot 3)) in
    resizeBuf c0 c1 buf1 st.

(** [optimize], lines 1735-1741; the result is [{byteLength, char0}]. *)
Definition optimize (st : state) : outcome state (Z * jsval) :=
  bind (shrinkBuf st) (fun _ st =>
    Ret (byteLength (buf st), read32 st HNBIGTRIE_CHAR0_SLOT) st).

(** [addJS], lines 1635-1731. *)

(** Lines 1679-1685: first mismatch in the rest of the segment. *)
Fixpoint addJS_mismatch (k : nat) (st : state)
    (isegchar0 lsegchar isegchar lhnchar : jsval) : option (jsval * jsval) :=
  match k with
  | O => None
  | S k' =>
      if jeq isegchar lsegchar then Some (isegchar, lhnchar)
      else if jeq lhnchar 0 then Some (isegchar, lhnchar)
      else if jne (read8 st (jadd isegchar0 isegchar))
                  (read8 st (jsub lhnchar 1))
      then Some (isegchar, lhnchar)
      else addJS_mismatch k' st isegchar0 lsegchar
             (jadd isegchar 1) (jsub lhnchar 1)
  end.

Fixpoint addJS_loop (fuel : nat) (char0 icell lhnchar : jsval) (st : state)
  : outcome state jsval :=
  match fuel with
  | O => OutOfFuel
  | S fuel' =>
      let vseg := read32 st (jadd icell 2) in
      if jeq vseg 0 then
        addJS_loop fuel' char0 (read32 st (jadd icell 1)) lhnchar st
      else
        let isegchar0 := jadd char0 (band vseg 16777215) in
        if jne (read8 st isegchar0) (read8 st (jsub lhnchar 1)) then
          let inext := read32 st (jadd icell 0) in
          if jeq inext 0 then
            bind (addSegment lhnchar st) (fun seg st =>
              let '(c, st) := addCell 0 0 seg st in
              Ret (Num 1) (write32 (jadd icell 0) c st))
          else addJS_loop fuel' char0 inext lhnchar st
        else
          let isegchar : jsval := Num 1 in
          let lhnchar := jsub lhnchar 1 in
          let lsegchar : jsval := Num (ushr vseg 24) in
          match
            (if jne lsegchar 1
             then addJS_mismatch 256 st isegchar0 lsegchar isegchar lhnchar
             else Some (isegchar, lhnchar))
          with
          | None => OutOfFuel
          | Some (isegchar, lhnchar) =>
              if jeq isegchar lsegchar then
                let inext := read32 st (jadd icell 1) in
                if jeq lhnchar 0 then
                  if jeq inext 0 || jeq (read32 st (jadd inext 2)) 0
                  then Ret (Num 0) st
                  else
                    let '(b, st) := addCell 0 inext 0 st in
                    Ret (Num 1) (write32 (jadd icell 1) b st)
                else if jne inext 0 then
                  addJS_loop fuel' char0 inext lhnchar st
                else
                  let '(inext, st) := addCell 0 0 0 st in
                  let st := write32 (jadd icell 1) inext st in
                  bind (addSegment lhnchar st) (fun seg st =>
                    let '(c, st) := addCell 0 0 seg st in
                    Ret (Num 1) (write32 (jadd inext 1) c st))
              else
                let isegchar0 := jsub isegchar0 char0 in
                let st := write32 (jadd icell 2)
                            (bor (shl isegchar 24) isegchar0) st in
                let '(inext, st) :=
                  addCell 0 (read32 st (jadd icell 1))
                    (bor (shl (jsub lsegchar isegchar) 24)
                         (jadd isegchar0 isegchar)) st in
                let st := write32 (jadd icell 1) inext st in
                if jeq lhnchar 0 then
                  let '(b, st) := addCell 0 inext 0 st in
                  Ret (Num 1) (write32 (jadd icell 1) b st)
                else
                  bind (addSegment lhnchar st) (fun seg st =>
                    let '(c, st) := addCell 0 0 seg st in
                    Ret (Num 1) (write32 (jadd inext 0) c st))
          end
  end.

Definition addJS (fuel : nat) (iroot : jsval) (st : state)
  : outcome state jsval :=
  let lhnchar := read8 st 255 in
  if jeq lhnchar 0 then Ret (Num 0) st
  else
    let icell := iroot in
    if jeq (read32 st (jadd icell 2)) 0 then
      bind (addSegment lhnchar st) (fun seg st =>
        Ret (Num 1) (write32 (jadd icell 2) seg st))
    else
      bind
        (if jlt (jsub (read32 st HNBIGTRIE_CHAR0_SLOT)
                      (read32 st HNBIGTRIE_TRIE1_SLOT)) 24
            || jlt (jsub (byteLength (buf st))
                         (read32 st HNBIGTRIE_CHAR1_SLOT)) 256
         then growBuf st else Ret tt st)
        (fun _ st =>
           let char0 := read32 st HNBIGTRIE_CHAR0_SLOT in
           addJS_loop fuel char0 icell lhnchar st).

(** [HNBigTrieRef.prototype.addJS] and [matchesJS], lines 1953-1972. *)
Definition ref_addJS (fuel : nat) (r : HNBigTrieRef) (hn : jsstring)
    (st : state) : outcome state (bool * HNBigTrieRef) :=
  bind (addJS fuel (iroot r) (setNeedle hn st)) (fun a st =>
    if jeq a 1 then Ret (true, mkRef (iroot r) (size r + 1)) st
    else Ret (false, r) st).

Definition ref_matchesJS (fuel : nat) (r : HNBigTrieRef) (hn : jsstring)
    (st : state) : option jsval * state :=
  let st := setNeedle hn st in
  (matchesJS fuel st (iroot r), st).

(** The loop of [fromIterable], lines 1743-1752. *)
Fixpoint add_all (fuel : nat) (r : HNBigTrieRef) (hns : list jsstring)
    (st : state) : outcome state HNBigTrieRef :=
  match hns with
  | [] => Ret r st
  | hn :: hns' =>
      bind (ref_addJS fuel r hn st) (fun a st => add_all fuel (snd a) hns' st)
  end.

(** *** The iterator, lines 1976-2026, and its earlier form, lines 939-989 *)

(** The iterator object. [forks] is the JavaScript array used as a stack,
    top first. [value] is [None] for [undefined]; a decoded hostname is kept
    as its bytes (the hostnames are ASCII, which [TextDecoder] maps to the
    same code units). *)
Record iterator : Type := mkIter {
  value : option jsstring;
  done : bool;
  icell : jsval;
  charBuf : ArrayBuffer;
  charPtr : jsval;
  forks : list jsval
}.

Definition pop (l : list jsval) : jsval * list jsval :=
  match l with
  | [] => (Undefined, [])
  | x :: l' => (x, l')
  end.

(** [trieRef[Symbol.iterator]()] *)
Definition iterator_of (r : HNBigTrieRef) : iterator :=
  mkIter None false (iroot r) (alloc 256) 256 [].

(** Lines 1998-2002: [while ( i0 < i1 )], at most 255 turns. *)
Fixpoint next_copy (k : nat) (st : state) (i0 i1 : jsval)
    (cb : ArrayBuffer) (cp : jsval) : ArrayBuffer * jsval :=
  match k with
  | O => (cb, cp)
  | S k' =>
      if jlt i0 i1 then
        let cp := jsub cp 1 in
        next_copy k' st (jadd i0 1) i1 (set8 cb cp (read8 st i0)) cp
      else (cb, cp)
  end.

Fixpoint bytes_from (cb : ArrayBuffer) (from : Z) (k : nat) : jsstring :=
  match k with
  | O => []
  | S k' => byte cb from mod 256 :: bytes_from cb (from + 1) k'
  end.

(** [toHostname], lines 2013-2018: the bytes of [charBuf] from [charPtr]. *)
Definition toHostname (it : iterator) : option jsstring :=
  let off := match charPtr it with Num z => z | _ => 0 end in
  if (0 <=? off) && (off <=? byteLength (charBuf it))
  then Some (bytes_from (charBuf it) off
               (Z.to_nat (byteLength (charBuf it) - off)))
  else None.

Definition yield (it : iterator) (ic : jsval) (cb : ArrayBuffer)
    (cp : jsval) (fk : list jsval) : outcome iterator unit :=
  let it' := mkIter (value it) (done it) ic cb cp fk in
  match toHostname it' with
  | Some hn => Ret tt (mkIter (Some hn) (done it) ic cb cp fk)
  | None => Throw RangeError it'
  end.

(** The [for (;;)] of [next]. [c0] is the offset of the character data:
    [this.container.buf32[HNBIGTRIE_CHAR0_SLOT]] at line 1996 and
    [this.container.char0] at line 959. *)
Fixpoint next_loop (fuel : nat) (st : state) (c0 : jsval) (it : iterator)
    (ic : jsval) (cb : ArrayBuffer) (cp : jsval) (fk : list jsval)
  : outcome iterator unit :=
  match fuel with
  | O => OutOfFuel
  | S fuel' =>
      let idown := read32 st (jadd ic 0) in
      let fk := if jne idown 0 then cp :: idown :: fk else fk in
      let v := read32 st (jadd ic 2) in
      let i0 := jadd c0 (band v 16777215) in
      let i1 := jadd i0 (ushr v 24) in
      let '(cb, cp) := next_copy (Z.to_nat (ushr v 24)) st i0 i1 cb cp in
      let ic := read32 st (jadd ic 1) in
      if jeq ic 0 then yield it ic cb cp fk
      else if jeq (read32 st (jadd ic 2)) 0 then
        yield it (read32 st (jadd ic 1)) cb cp fk
      else next_loop fuel' st c0 it ic cb cp fk
  end.

Definition next_with (c0 : jsval) (fuel : nat) (st : state) (it : iterator)
  : outcome iterator unit :=
  if jeq (icell it) 0 then
    if Z.of_nat (length (forks it)) =? 0 then
      Ret tt (mkIter None true (icell it) (charBuf it) (charPtr it) (forks it))
    else
      let '(cp, fk) := pop (forks it) in
      let '(ic, fk) := pop fk in
      next_loop fuel st c0 it ic (charBuf it) cp fk
  else
    next_loop fuel st c0 it (icell it) (charBuf it) (charPtr it) (forks it).

(** Lines 1976-2026. *)
Definition next (fuel : nat) (st : state) (it : iterator)
  : outcome iterator unit :=
  next_with (read32 st HNBIGTRIE_CHAR0_SLOT) fuel st it.

(** Lines 939-989: the container has no [char0] property, so
    [this.container.char0] is [undefined]. *)
Definition next_939 (fuel : nat) (st : state) (it : iterator)
  : outcome iterator unit :=
  next_with Undefined fuel st it.

(** What [for ( const hn of trieRef )] collects: [calls] bounds the number
    of calls of [next]. *)
Fixpoint collect (step : iterator -> outcome iterator unit) (calls : nat)
    (it : iterator) : outcome iterator (list (option jsstring)) :=
  match calls with
  | O => OutOfFuel
  | S calls' =>
      bind (step it) (fun _ it =>
        if done it then Ret [] it
        else
          let hn := value it in
          bind (collect step calls' it) (fun l it => Ret (hn :: l) it))
  end.

(** A trie filled the way [fromIterable] does, lines 1747-1751. *)
Definition build (fuel : nat) (hns : list jsstring)
  : outcome state HNBigTrieRef :=
  let '(r, st) := create fresh in
  add_all fuel r hns st.

Definition query (fuel : nat) (hns : list jsstring) (q : jsstring)
  : option jsval :=
  match build fuel hns with
  | Ret r st => fst (ref_matchesJS fuel r q st)
  | _ => None
  end.

(** [Array.from(trieRef)] on the trie built from [hns], with either form
    of [next]. *)
Definition hostnames
    (next : nat -> state -> iterator -> outcome iterator unit)
    (fuel : nat) (hns : list jsstring) : option (list (option jsstring)) :=
  match build fuel hns with
  | Ret r st =>
      match collect (next fuel st) fuel (iterator_of r) with
      | Ret l _ => Some l
      | _ => None
      end
  | _ => None
  end.

(** [fromIterable], lines 1743-1752, on a container in any state. *)
Definition fromIterable (fuel : nat) (hns : list jsstring) (st : state)
  : outcome state HNBigTrieRef :=
  let '(r, st) := create st in
  add_all fuel r hns st.

End Container.

(** ** The trie that the cells encode *)

Module Trie.

(** A chain of cells as a tree: [Nil] is the null pointer 0, [Seg] a cell
    with a segment (its word index, the offset of its segment in the
    character data, the bytes of the segment, and what [down] and [right]
    point to) and [Bnd] a boundary cell. *)
Inductive tr : Type :=
  | Nil
  | Seg (c off : Z) (s : list Z) (down right : tr)
  | Bnd (c : Z) (right : tr).

Definition ptr (t : tr) : Z :=
  match t with
  | Nil => 0
  | Seg c _ _ _ _ => c
  | Bnd c _ => c
  end.

Definition is_seg (t : tr) : bool :=
  match t with
  | Seg _ _ _ _ _ => true
  | _ => false
  end.

Definition is_bnd (t : tr) : bool :=
  match t with
  | Bnd _ _ => true
  | _ => false
  end.

(** What may follow a segment along [right]: the end of a hostname, a
    boundary cell (a hostname ends here and longer ones go on), or more
    segments. *)
Definition rest_strs (strs : tr -> list (list Z)) (r : tr) : list (list Z) :=
  match r with
  | Nil => [[]]
  | Bnd _ r' => [] :: strs r'
  | Seg _ _ _ _ _ => strs r
  end.

(** The hostnames of a chain, each as the bytes the matcher consumes: the
    last character of the hostname first. *)
Fixpoint strs (t : tr) : list (list Z) :=
  match t with
  | Nil => []
  | Seg _ _ s d r => map (app s) (rest_strs strs r) ++ strs d
  | Bnd _ r => strs r
  end.

(** The first bytes of the segments of a [down] chain. *)
Fixpoint heads (t : tr) : list Z :=
  match t with
  | Seg _ _ s d _ => hd 0 s :: heads d
  | _ => []
  end.

Fixpoint size (t : tr) : nat :=
  match t with
  | Nil => O
  | Seg _ _ _ d r => S (size d + size r)
  | Bnd _ r => S (size r)
  end.

(** The word indices of the cells of a chain. *)
Fixpoint cells (t : tr) : list Z :=
  match t with
  | Nil => []
  | Seg c _ _ d r => c :: cells d ++ cells r
  | Bnd c r => c :: cells r
  end.

(** Segments are not empty, the segments of a [down] chain start with
    different bytes, a [down] pointer leads to a segment and a boundary cell
    is followed by one. *)
Fixpoint wf (t : tr) : Prop :=
  match t with
  | Nil => True
  | Seg _ _ s d r =>
      s <> [] /\ is_bnd d = false
      /\ ~ In (hd 0 s) (heads d) /\ wf d /\ wf r
  | Bnd _ r => is_seg r = true /\ wf r
  end.

(** Field [k] of the cell at word index [c]. *)
Definition fld (b : ArrayBuffer) (c k : Z) : Z := word b (4 * (c + k)).

Fixpoint bytes_at (b : ArrayBuffer) (a : Z) (n : nat) : list Z :=
  match n with
  | O => []
  | S n' => byte b a mod 256 :: bytes_at b (a + 1) n'
  end.

(** The buffer [b], with the cells from word [lo] up to byte [t1] and the
    character data in [c0, c1), lays the tree out. *)
Fixpoint shape (lo : Z) (b : ArrayBuffer) (c0 c1 t1 : Z) (t : tr) : Prop :=
  match t with
  | Nil => True
  | Seg c off s d r =>
      lo <= c /\ 4 * c + 12 <= t1
      /\ fld b c 0 = ptr d /\ fld b c 1 = ptr r
      /\ fld b c 2 = Z.of_nat (length s) * 2 ^ 24 + off
      /\ (length s <= 255)%nat
      /\ 0 <= off < 2 ^ 24 /\ off + Z.of_nat (length s) <= c1 - c0
      /\ bytes_at b (c0 + off) (length s) = s
      /\ shape lo b c0 c1 t1 d /\ shape lo b c0 c1 t1 r
  | Bnd c r =>
      lo <= c /\ 4 * c + 12 <= t1
      /\ fld b c 0 = 0 /\ fld b c 1 = ptr r /\ fld b c 2 = 0
      /\ shape lo b c0 c1 t1 r
  end.

(** Length of the longest common prefix. *)
Fixpoint lcp (a b : list Z) : nat :=
  match a, b with
  | x :: a', y :: b' => if x =? y then S (lcp a' b') else O
  | _, _ => O
  end.

(** The bytes [setNeedle] stores for a string, at most [lim] of them. *)
Definition needle_bytes (lim : nat) (s : jsstring) : list Z :=
  map (fun z => z mod 256) (firstn lim s).

(** A hostname ends where the bytes still to consume are none, or start
    with a dot. *)
Definition boundary (w : list Z) : bool :=
  match w with
  | [] => true
  | c :: _ => c =? 46
  end.

(** The cell of a [down] chain whose segment starts with [c]. *)
Fixpoint find_head (t : tr) (c : Z) : tr :=
  match t with
  | Seg _ _ s d _ => if hd 0 s =? c then t else find_head d c
  | _ => Nil
  end.

(** The matcher on a tree: the number of bytes left when the shortest
    stored hostname that ends at a label boundary has been consumed,
    or -1. *)
Fixpoint walk (t : tr) (w : list Z) : Z :=
  match t with
  | Nil => -1
  | Bnd _ r => if boundary w then Z.of_nat (length w) else walk r w
  | Seg _ _ s d r =>
      match w with
      | [] => -1
      | c :: _ =>
          if hd 0 s =? c then
            if (lcp s w =? length s)%nat then
              let w' := skipn (length s) w in
              match r with
              | Nil => if boundary w' then Z.of_nat (length w') else -1
              | _ => walk r w'
              end
            else -1
          else walk d w
      end
  end.

(** A cell with a cell below it. *)
Definition forked (t : tr) : Prop :=
  match t with
  | Seg _ _ _ d _ => d <> Nil
  | _ => True
  end.

(** A segment that follows a segment has a cell below it: the two were one
    segment, until a hostname left it there. *)
Fixpoint branch (t : tr) : Prop :=
  match t with
  | Nil => True
  | Seg _ _ _ d r => (is_seg r = true -> forked r) /\ branch d /\ branch r
  | Bnd _ r => branch r
  end.

End Trie.

(** ** Well-formed states of the manager *)

Module ManagerInv.

Import Trie Manager.

(** The regions of the buffer are in order and small enough for the 32-bit
    arithmetic of [growBuf]. *)
Definition geom (st : state) : Prop :=
  256 <= trie1 st /\ trie1 st <= char0 st /\ char0 st <= char1 st
  /\ char1 st <= byteLength (buf st) /\ byteLength (buf st) <= 2 ^ 30.

(** The needle area holds the bytes of [this.needle]. *)
Definition needle_ok (st : state) : Prop :=
  let nb := needle_bytes 255 (needle st) in
  byte (buf st) 255 mod 256 = Z.of_nat (length nb)
  /\ bytes_at (buf st) 0 (length nb) = nb.

(** The trie rooted at the cell [ptr t] is [t]. *)
Definition trie_at (st : state) (t : tr) : Prop :=
  geom st /\ needle_ok st
  /\ shape 64 (buf st) (char0 st) (char1 st) (trie1 st) t
  /\ wf t /\ is_seg t = true.

(** The bytes still to consume, [w], are the needle bytes below offset
    [length w], last one first. *)
Definition needle_rem (st : state) (w : list Z) : Prop :=
  (length w <= 255)%nat
  /\ forall x : nat, (x < length w)%nat ->
       read8 st (Num (Z.of_nat (length w) - 1 - Z.of_nat x))
       = Num (nth x w 0).

(** The segment at offset [off] of the character data is [s]. *)
Definition seg_at (st : state) (off : Z) (s : list Z) : Prop :=
  forall x : nat, (x < length s)%nat ->
    read8 st (Num (char0 st + off + Z.of_nat x)) = Num (nth x s 0).

(** [st'] holds the same cells and the same character data as [st],
    possibly at another offset. *)
Definition same_trie (st st' : state) : Prop :=
  trie1 st' = trie1 st /\ needle st' = needle st
  /\ char1 st' - char0 st' = char1 st - char0 st
  /\ 0 <= char0 st' /\ char1 st' <= byteLength (buf st')
  /\ trie1 st' <= byteLength (buf st')
  /\ (forall a, 0 <= a < trie1 st ->
        byte (buf st') a mod 256 = byte (buf st) a mod 256)
  /\ (forall i, 0 <= i < char1 st - char0 st ->
        byte (buf st') (char0 st' + i) mod 256
        = byte (buf st) (char0 st + i) mod 256).

(** The hostname [hn] is stored in [t]: its needle bytes, last one first,
    are one of the strings of [t]. *)
Definition stored (t : tr) (hn : jsstring) : Prop :=
  In (rev (needle_bytes 255 hn)) (strs t).

(** Cells are allocated 12 bytes apart, from byte 256 on. *)
Definition aligned (c : Z) : Prop := (c - 64) mod 3 = 0.

(** No cell is used twice. *)
Definition arena (t : tr) : Prop :=
  NoDup (cells t) /\ Forall aligned (cells t).

(** The bytes still to consume are the last bytes of the needle, last one
    first. *)
Definition rem_of (st : state) (w : list Z) : Prop :=
  exists p, rev (needle_bytes 255 (needle st)) = p ++ w.

(** Every entry of [this.segments] gives the offset at which the bytes of
    its key are stored, last one first. *)
Definition segs_ok (st : state) : Prop :=
  forall (k : jsstring) (o : Z), segments st !! k = Some o ->
    0 <= o /\ o + Z.of_nat (length k) <= char1 st - char0 st
    /\ bytes_at (buf st) (char0 st + o) (length k)
       = rev (map (fun z => z mod 256) k).

(** [st'] differs from [st] by new cells, new character data, and the
    fields of the cells [cs]. *)
Definition frame (cs : list Z) (st st' : state) : Prop :=
  char0 st' = char0 st /\ byteLength (buf st') = byteLength (buf st)
  /\ needle st' = needle st
  /\ trie1 st <= trie1 st' /\ char1 st <= char1 st'
  /\ (forall c k, 64 <= c -> aligned c -> 4 * c + 12 <= trie1 st ->
        0 <= k < 3 -> ~ In c cs -> fld (buf st') c k = fld (buf st) c k)
  /\ (forall a, 0 <= a < 256 \/ char0 st <= a < char1 st ->
        byte (buf st') a mod 256 = byte (buf st) a mod 256).

(** Room for [k] more cells and [p] more bytes of character data. *)
Definition room (k p : Z) (st : state) : Prop :=
  256 <= trie1 st /\ (trie1 st - 256) mod 12 = 0
  /\ trie1 st + 12 * k <= char0 st /\ char0 st <= char1 st
  /\ char1 st + p <= byteLength (buf st) /\ byteLength (buf st) <= 2 ^ 30
  /\ char1 st - char0 st + p <= 2 ^ 24.

(** A state in which [add] may run: room for [k] cells and [p] bytes, the
    needle area and the segment cache in step with the buffer. *)
Definition ok (k p : Z) (st : state) : Prop :=
  room k p st /\ needle_ok st /\ segs_ok st.

(** [add] has turned the chain [u] of [st] into the chain [u'] of [st'],
    which stores [w] too. *)
Definition inserted (w : list Z) (st : state) (u : tr) (st' : state) (u' : tr)
  : Prop :=
  ptr u' = ptr u /\ is_seg u' = is_seg u /\ is_bnd u' = is_bnd u
  /\ shape 64 (buf st') (char0 st') (char1 st') (trie1 st') u'
  /\ wf u'
  /\ (exists new, Permutation (cells u') (new ++ cells u)
        /\ NoDup new
        /\ Forall (fun n => aligned n /\ trie1 st <= 4 * n) new)
  /\ (forall x, In x (strs u') <-> x = w \/ In x (strs u))
  /\ (forall h, In h (heads u') -> h = hd 0 w \/ In h (heads u))
  /\ (size u' <= size u + 2)%nat
  /\ frame (cells u) st st'
  /\ trie1 st' <= trie1 st + 24 /\ (trie1 st' - 256) mod 12 = 0
  /\ char1 st' <= char1 st + Z.of_nat (length w)
  /\ segs_ok st'.

(** The geometry that [growBuf] and [add] keep: both regions start at a
    multiple of 65536, as close to what they follow as [growBuf] puts
    them. *)
Definition settled (st : state) : Prop :=
  256 <= trie1 st /\ (trie1 st - 256) mod 12 = 0
  /\ trie1 st <= char0 st /\ char0 st <= char1 st
  /\ char1 st <= byteLength (buf st)
  /\ char0 st mod 65536 = 0 /\ byteLength (buf st) mod 65536 = 0
  /\ char0 st < trie1 st + 24 + 65536
  /\ byteLength (buf st) < char1 st + 256 + 65536.

(** Sizes after [n] calls of [add] on one root. *)
Definition within (n : Z) (st : state) : Prop :=
  trie1 st <= 268 + 24 * n /\ char1 st - char0 st <= 255 * n.

(** The cell [root] is the root of a trie that stores the strings of [ws]
    that are not empty: an empty root cell, or the first cell of a chain. *)
Definition holds (n : Z) (st : state) (root : Z) (ws : list (list Z)) : Prop :=
  (64 <= root /\ aligned root /\ 4 * root + 12 <= trie1 st
   /\ fld (buf st) root 0 = 0 /\ fld (buf st) root 1 = 0
   /\ fld (buf st) root 2 = 0
   /\ forall x, In x ws -> x = [])
  \/ (exists t, ptr t = root /\ is_seg t = true
        /\ shape 64 (buf st) (char0 st) (char1 st) (trie1 st) t
        /\ wf t /\ arena t /\ Z.of_nat (size t) <= 1 + 2 * n
        /\ forall x, In x (strs t) <-> In x ws /\ x <> []).

(** The invariant of [fromIterable] after [n] hostnames. *)
Definition inv (n : Z) (st : state) (root : Z) (ws : list (list Z)) : Prop :=
  settled st /\ within n st /\ needle_ok st /\ segs_ok st
  /\ holds n st root ws.

(** The bytes [add] consumes for a hostname. *)
Definition key (hn : jsstring) : list Z := rev (needle_bytes 255 hn).

(** A hostname that [setNeedle] stores as it is: at most 255 characters,
    all below 256. *)
Definition plain (hn : jsstring) : Prop :=
  (length hn <= 255)%nat /\ Forall (fun c => 0 <= c < 256) hn.

End ManagerInv.

(** ** Well-formed states of the container *)

Module ContainerInv.

Import Trie Container.

(** The four offsets kept in the header. *)
Definition TRIE1 (st : state) : Z := fld (buf st) HNBIGTRIE_TRIE1_SLOT 0.
Definition CHAR0 (st : state) : Z := fld (buf st) HNBIGTRIE_CHAR0_SLOT 0.
Definition CHAR1 (st : state) : Z := fld (buf st) HNBIGTRIE_CHAR1_SLOT 0.

(** The regions of the buffer are in order, below 2^30, and the buffer is
    an ordinary one (the scalar [addJS] is in use). *)
Definition geom (st : state) : Prop :=
  272 <= TRIE1 st /\ TRIE1 st <= CHAR0 st /\ CHAR0 st <= CHAR1 st
  /\ CHAR1 st <= byteLength (buf st) /\ byteLength (buf st) <= 2 ^ 30
  /\ wasmMemory st = false.

(** The needle area holds the bytes of [this.needle]. *)
Definition needle_ok (st : state) : Prop :=
  let nb := needle_bytes 254 (needle st) in
  byte (buf st) 255 mod 256 = Z.of_nat (length nb)
  /\ bytes_at (buf st) 0 (length nb) = nb.

(** The trie rooted at the cell [ptr t] is [t]. *)
Definition trie_at (st : state) (t : tr) : Prop :=
  geom st /\ needle_ok st
  /\ shape 68 (buf st) (CHAR0 st) (CHAR1 st) (TRIE1 st) t
  /\ wf t /\ is_seg t = true.

Definition needle_rem (st : state) (w : list Z) : Prop :=
  (length w <= 255)%nat
  /\ forall x : nat, (x < length w)%nat ->
       read8 st (Num (Z.of_nat (length w) - 1 - Z.of_nat x))
       = Num (nth x w 0).

Definition seg_at (st : state) (off : Z) (s : list Z) : Prop :=
  forall x : nat, (x < length s)%nat ->
    read8 st (Num (CHAR0 st + off + Z.of_nat x)) = Num (nth x s 0).

(** [st'] holds the same cells and the same character data as [st],
    possibly at another offset. *)
Definition same_trie (st st' : state) : Prop :=
  TRIE1 st' = TRIE1 st /\ needle st' = needle st
  /\ CHAR1 st' - CHAR0 st' = CHAR1 st - CHAR0 st
  /\ 0 <= CHAR0 st' /\ CHAR1 st' <= byteLength (buf st')
  /\ TRIE1 st' <= byteLength (buf st')
  /\ (forall a, 0 <= a < 256 ->
        byte (buf st') a mod 256 = byte (buf st) a mod 256)
  /\ (forall a, 272 <= a < TRIE1 st ->
        byte (buf st') a mod 256 = byte (buf st) a mod 256)
  /\ (forall i, 0 <= i < CHAR1 st - CHAR0 st ->
        byte (buf st') (CHAR0 st' + i) mod 256
        = byte (buf st) (CHAR0 st + i) mod 256).

(** The hostname [hn] is stored in [t]. *)
Definition stored (t : tr) (hn : jsstring) : Prop :=
  In (rev (needle_bytes 254 hn)) (strs t).

(** Cells are allocated 12 bytes apart, from byte 272 on. *)
Definition aligned (c : Z) : Prop := (c - 68) mod 3 = 0.

(** No cell is used twice. *)
Definition arena (t : tr) : Prop :=
  NoDup (cells t) /\ Forall aligned (cells t).

(** The bytes still to consume are the last bytes of the needle, last one
    first. *)
Definition rem_of (st : state) (w : list Z) : Prop :=
  exists p, rev (needle_bytes 254 (needle st)) = p ++ w.

(** [st'] differs from [st] by new cells, new character data, and the
    fields of the cells [cs]. *)
Definition frame (cs : list Z) (st st' : state) : Prop :=
  CHAR0 st' = CHAR0 st /\ byteLength (buf st') = byteLength (buf st)
  /\ needle st' = needle st /\ wasmMemory st' = wasmMemory st
  /\ TRIE1 st <= TRIE1 st' /\ CHAR1 st <= CHAR1 st'
  /\ (forall c k, 68 <= c -> aligned c -> 4 * c + 12 <= TRIE1 st ->
        0 <= k < 3 -> ~ In c cs -> fld (buf st') c k = fld (buf st) c k)
  /\ (forall a, 0 <= a < 256 \/ CHAR0 st <= a < CHAR1 st ->
        byte (buf st') a mod 256 = byte (buf st) a mod 256).

(** Room for [k] more cells and [p] more bytes of character data. *)
Definition room (k p : Z) (st : state) : Prop :=
  272 <= TRIE1 st /\ (TRIE1 st - 272) mod 12 = 0
  /\ TRIE1 st + 12 * k <= CHAR0 st /\ CHAR0 st <= CHAR1 st
  /\ CHAR1 st + p <= byteLength (buf st) /\ byteLength (buf st) <= 2 ^ 30
  /\ CHAR1 st - CHAR0 st + p <= 2 ^ 24.

(** A state in which [addJS] may run. *)
Definition ok (k p : Z) (st : state) : Prop :=
  room k p st /\ needle_ok st.

(** [addJS] has turned the chain [u] of [st] into the chain [u'] of [st'],
    which stores [w] too; cells that had a cell below them still have. *)
Definition inserted (w : list Z) (st : state) (u : tr) (st' : state) (u' : tr)
  : Prop :=
  ptr u' = ptr u /\ is_seg u' = is_seg u /\ is_bnd u' = is_bnd u
  /\ shape 68 (buf st') (CHAR0 st') (CHAR1 st') (TRIE1 st') u'
  /\ wf u'
  /\ (exists new, Permutation (cells u') (new ++ cells u)
        /\ NoDup new
        /\ Forall (fun n => aligned n /\ TRIE1 st <= 4 * n) new)
  /\ (forall x, In x (strs u') <-> x = w \/ In x (strs u))
  /\ (forall h, In h (heads u') -> h = hd 0 w \/ In h (heads u))
  /\ (Trie.size u' <= Trie.size u + 2)%nat
  /\ frame (cells u) st st'
  /\ TRIE1 st' <= TRIE1 st + 24 /\ (TRIE1 st' - 272) mod 12 = 0
  /\ CHAR1 st' <= CHAR1 st + Z.of_nat (length w)
  /\ (forked u -> forked u') /\ (branch u -> branch u').

(** The geometry that [growBuf] and [addJS] keep. *)
Definition settled (st : state) : Prop :=
  272 <= TRIE1 st /\ (TRIE1 st - 272) mod 12 = 0
  /\ TRIE1 st <= CHAR0 st /\ CHAR0 st <= CHAR1 st
  /\ CHAR1 st <= byteLength (buf st)
  /\ CHAR0 st mod 65536 = 0 /\ byteLength (buf st) mod 65536 = 0
  /\ CHAR0 st < TRIE1 st + 24 + 65536
  /\ byteLength (buf st) < CHAR1 st + 256 + 65536
  /\ wasmMemory st = false
  /\ CHAR0 st < byteLength (buf st).

(** Sizes after [n] calls of [addJS] on one root. *)
Definition within (n : Z) (st : state) : Prop :=
  TRIE1 st <= 284 + 24 * n /\ CHAR1 st - CHAR0 st <= 254 * n.

(** The cell [root] is the root of a trie that stores the strings of [ws]
    that are not empty: an empty root cell (and no character data yet), or
    the first cell of a chain, whose other cells were allocated later. *)
Definition holds (n : Z) (st : state) (root : Z) (ws : list (list Z)) : Prop :=
  (68 <= root /\ aligned root /\ 4 * root + 12 <= TRIE1 st
   /\ fld (buf st) root 0 = 0 /\ fld (buf st) root 1 = 0
   /\ fld (buf st) root 2 = 0
   /\ CHAR1 st + 254 <= byteLength (buf st)
   /\ forall x, In x ws -> x = [])
  \/ (exists t, ptr t = root /\ is_seg t = true
        /\ shape 68 (buf st) (CHAR0 st) (CHAR1 st) (TRIE1 st) t
        /\ wf t /\ arena t /\ Z.of_nat (Trie.size t) <= 1 + 2 * n
        /\ (forall x, In x (strs t) <-> In x ws /\ x <> [])
        /\ branch t
        /\ Forall (fun c => root <= c) (cells t)).

(** The invariant of [fromIterable] after [n] hostnames. *)
Definition inv (n : Z) (st : state) (root : Z) (ws : list (list Z)) : Prop :=
  settled st /\ within n st /\ needle_ok st /\ holds n st root ws.

(** The bytes [addJS] consumes for a hostname. *)
Definition key (hn : jsstring) : list Z := rev (needle_bytes 254 hn).

(** What a call on the trie at [root] leaves alone: a chain laid out in
    cells below [root] is still laid out. *)
Definition keeps (root : Z) (st st' : state) : Prop :=
  forall t, Forall (fun c => aligned c /\ c < root) (cells t) ->
    shape 68 (buf st) (CHAR0 st) (CHAR1 st) (TRIE1 st) t ->
    shape 68 (buf st') (CHAR0 st') (CHAR1 st') (TRIE1 st') t.

(** A hostname that [setNeedle] stores as it is: at most 254 characters,
    all below 256. *)
Definition plain (hn : jsstring) : Prop :=
  (length hn <= 254)%nat /\ Forall (fun c => 0 <= c < 256) hn.

(** A hostname of at most 254 ASCII characters: the iterator's
    [TextDecoder] gives back its code units. *)
Definition ascii (hn : jsstring) : Prop :=
  (length hn <= 254)%nat /\ Forall (fun c => 0 <= c < 128) hn.

(** *** The iterator *)

(** The stack of the iterator: the chains still to visit, each with the
    bytes that lead to it. *)
Fixpoint flat (stk : list (tr * list Z)) : list jsval :=
  match stk with
  | [] => []
  | (d, pd) :: stk' =>
      Num (256 - Z.of_nat (length pd)) :: Num (ptr d) :: flat stk'
  end.

(** Each entry of the stack was pushed on the way to the next one. *)
Fixpoint chain (p : list Z) (stk : list (tr * list Z)) : Prop :=
  match stk with
  | [] => True
  | (_, pd) :: stk' => (exists x, p = pd ++ x) /\ chain pd stk'
  end.

Fixpoint pending_forks (stk : list (tr * list Z)) : list (list Z) :=
  match stk with
  | [] => []
  | (d, pd) :: stk' => map (app pd) (strs d) ++ pending_forks stk'
  end.

(** The hostnames still to come, in the order of the iteration. *)
Definition pending (cur : tr) (p : list Z) (stk : list (tr * list Z))
  : list (list Z) :=
  map (app p) (strs cur) ++ pending_forks stk.

(** [charBuf] ends with the bytes [p], last one first. *)
Definition held (cb : ArrayBuffer) (p : list Z) : Prop :=
  byteLength cb = 256 /\ (length p <= 256)%nat
  /\ forall i : nat, (i < length p)%nat ->
       byte cb (255 - Z.of_nat i) mod 256 = nth i p 0.

(** [u] is a chain of the trie, of at most [n] cells. *)
Definition node (st : state) (n : nat) (u : tr) : Prop :=
  is_seg u = true
  /\ shape 68 (buf st) (CHAR0 st) (CHAR1 st) (TRIE1 st) u
  /\ wf u /\ (Trie.size u <= n)%nat.

(** The iterator [it] is about to visit [cur], reached by the bytes [p],
    and then the chains of [stk]. *)
Definition visits (st : state) (n : nat) (it : iterator) (cur : tr)
    (p : list Z) (stk : list (tr * list Z)) : Prop :=
  done it = false /\ icell it = Num (ptr cur)
  /\ charPtr it = Num (256 - Z.of_nat (length p))
  /\ forks it = flat stk /\ held (charBuf it) p /\ chain p stk
  /\ (cur = Nil \/ node st n cur)
  /\ Forall (fun e => node st n (fst e)) stk
  /\ Forall (fun y => (length y <= 256)%nat) (pending cur p stk).

End ContainerInv.

(** ** The properties of the specification, in its own words *)

Module Spec.

(** [q] ends with [s]. *)
Definition ends_with (q s : jsstring) : Prop := exists p, q = p ++ s.

(** A stored hostname [h] matches a query [q]: they are equal, or [q] ends
    with a dot followed by [h]. *)
Definition label_match (q h : jsstring) : Prop :=
  q = h \/ ends_with q (46 :: h).

(** Some hostname of [H] matches [q]. *)
Definition some_match (H : list jsstring) (q : jsstring) : Prop :=
  exists h, In h H /\ label_match q h.

(** [q[k..]] *)
Definition suffix_from (k : Z) (q : jsstring) : jsstring :=
  skipn (Z.to_nat k) q.

End Spec.

(** ** Inputs of the evaluations below *)

Module Inputs.

Definition fuel : nat := 1000.

Definition example_com : list jsstring :=
  [js "example.com"; js "sub.example.com"].

(** Thirteen one-letter names: the twelfth one, ["x"], lands in the cell at
    word index 97 and the thirteenth one in the cell at word index 100. *)
Definition singles : list jsstring :=
  map js ["c"; "e"; "f"; "g"; "h"; "i"; "j"; "k"; "l"; "m"; "n"; "x"; "y"]%string.

Definition order_1 : list jsstring := singles ++ [js "zzzza"; js "zzzzd"].
Definition order_2 : list jsstring := singles ++ [js "zzzzd"; js "zzzza"].

(** A string of 300 characters. *)
Definition long_name : jsstring := repeat 97 300.

(** A manager whose buffer has grown: 5439 tries created, one hostname
    added to the first one. *)
Definition grown : outcome Manager.state Manager.HNBigTrieRef :=
  let '(r, st) := Manager.create Manager.fresh in
  let st := Manager.creates (Z.to_nat 5438) st in
  bind (Manager.ref_add fuel r (js "a") st) (fun _ st => Ret r st).

(** The manager after ["example.com"] and ["sub.example.com"], and the
    trie its cells encode: the root at word 64 with the segment
    ["example.com"] (stored last byte first at offset 0), a boundary cell at
    word 67 and the cell of ["sub."] at word 70. *)
Definition example_state : Manager.state :=
  match Manager.build fuel example_com with
  | Ret _ st => st
  | _ => Manager.fresh
  end.

Definition example_trie : Trie.tr :=
  Trie.Seg 64 0 (rev (js "example.com")) Trie.Nil
    (Trie.Bnd 67 (Trie.Seg 70 11 (rev (js "sub.")) Trie.Nil Trie.Nil)).

(** The container after the same two hostnames: the root at word 68, the
    boundary cell at word 71 and the cell of ["sub."] at word 74. *)
Definition example_container : Container.state :=
  match Container.build fuel example_com with
  | Ret _ st => st
  | _ => Container.fresh
  end.

(** Queries put to the trie of [example_com]. *)
Definition queries : list jsstring :=
  map js ["example.com"; "sub.example.com"; "other.example.com";
          "x.sub.example.com"; "xexample.com"; "com"; "a."; "."; "";
          "zzz.example.comm"]%string.

Definition example_container_trie : Trie.tr :=
  Trie.Seg 68 0 (rev (js "example.com")) Trie.Nil
    (Trie.Bnd 71 (Trie.Seg 74 11 (rev (js "sub.")) Trie.Nil Trie.Nil)).

(** Two tries in one container, ["example.com"] added to the first one:
    what each of them answers to a query. *)
Definition two_tries (q : jsstring) : option (jsval * jsval) :=
  let '(r1, st) := Container.create Container.fresh in
  let '(r2, st) := Container.create st in
  match Container.add_all fuel r1 [js "example.com"] st with
  | Ret r1 st =>
      match fst (Container.ref_matchesJS fuel r1 q st),
            fst (Container.ref_matchesJS fuel r2 q st) with
      | Some a, Some b => Some (a, b)
      | _, _ => None
      end
  | _ => None
  end.

(** A container with two tries, ["example.com"] added to the first one,
    and the needle ["x.m"]. The root of the second trie, in which nothing
    is inserted, is the cell at word 71. *)
Definition shared_container : Container.state :=
  let '(r1, st) := Container.create Container.fresh in
  let '(r2, st) := Container.create st in
  match Container.ref_addJS fuel r1 (js "example.com") st with
  | Ret _ st => Container.setNeedle (js "x.m") st
  | _ => Container.fresh
  end.

End Inputs.

(** ** Theorems *)

Import Spec Inputs.

(** *** Typed arrays *)

Lemma byteLength_set8 (b : ArrayBuffer) (i v : jsval) :
  byteLength (set8 b i v) = byteLength b.
Proof.
  unfold set8. destruct i as [i| |]; try reflexivity.
  destruct (in_range b i); reflexivity.
Qed.

Lemma get8_set8_same (b : ArrayBuffer) (i : Z) (v : jsval) :
  in_range b i = true ->
  get8 (set8 b (Num i) v) (Num i) = Num (ToUint8 v mod 256).
Proof.
  intros H. unfold get8, set8. rewrite H.
  unfold in_range in *. cbn. rewrite H, Z.eqb_refl. reflexivity.
Qed.

Lemma get8_set8_other (b : ArrayBuffer) (i j : Z) (v : jsval) :
  i <> j ->
  get8 (set8 b (Num i) v) (Num j) = get8 b (Num j).
Proof.
  intros H. unfold get8, set8.
  destruct (in_range b i) eqn:E; [|reflexivity].
  unfold in_range. cbn.
  destruct ((0 <=? j) && (j <? byteLength b)); [|reflexivity].
  destruct (j =? i) eqn:E'; [lia|reflexivity].
Qed.

Lemma jeq_true_Num (a : jsval) (z : Z) : jeq a (Num z) = true -> a = Num z.
Proof.
  destruct a as [x| |]; cbn; try discriminate.
  intros H. apply Z.eqb_eq in H. congruence.
Qed.

(** C1 (hnbigtrie.js, [matchesJS]). On the trie that holds only ["b.c"],
    the query ["a."] returns 2, although ["a."] neither equals ["b.c"] nor
    ends with [".b.c"]: when no cell of the [down] chain matches, the loop
    ends with [icell === 0] and the final [labelBoundary] test looks at the
    last character of the query. *)
Theorem C1_matchesJS_accepts_trailing_dot :
  Manager.query fuel [js "b.c"] (js "a.") = Some (Num 2)
  /\ ~ some_match [js "b.c"] (js "a.").
Proof.
  split; [vm_compute; reflexivity|].
  intros [h [[<-|[]] [E|[p E]]]].
  - vm_compute in E. discriminate.
  - apply (f_equal (@length Z)) in E. rewrite length_app in E.
    cbn in E. lia.
Qed.

(** C1, the container of hnbigtrie.wat, lines 1581-1622, on the same
    input: the query is rejected. *)
Lemma Container_matchesJS_rejects_trailing_dot :
  Container.query fuel [js "b.c"] (js "a.") = Some (Num (-1)).
Proof. vm_compute; reflexivity. Qed.

(** C2 (hnbigtrie.js, [matchesJS]). With ["example.com"] and
    ["sub.example.com"] stored, the query ["other.example.com"] returns 1
    at the boundary cell, not the 6 characters left to consume; the suffix
    from offset 1 is not a stored hostname. *)
Theorem C2_matchesJS_returns_1_at_boundary :
  Manager.query fuel example_com (js "other.example.com") = Some (Num 1)
  /\ ~ In (suffix_from 1 (js "other.example.com")) example_com
  /\ In (suffix_from 6 (js "other.example.com")) example_com.
Proof.
  split; [vm_compute; reflexivity|]. split.
  - vm_compute. intros [E|[E|[]]]; discriminate.
  - vm_compute. left; reflexivity.
Qed.

(** C2, the container of hnbigtrie.wat, lines 1581-1622, on the same
    input: the offset 6 is returned. *)
Lemma Container_matchesJS_returns_offset :
  Container.query fuel example_com (js "other.example.com") = Some (Num 6).
Proof. vm_compute; reflexivity. Qed.

(** The container of hnbigtrie.wat with two tries: the second one, in which
    nothing was inserted, answers 0 to ["m"] and 2 to ["x.m"]. Its root cell
    has the segment word 0, and line 1594 compares the first byte of the
    character data, the last letter of ["example.com"], with the last byte
    of the query. *)
Lemma Container_empty_trie_matches :
  two_tries (js "m") = Some (Num (-1), Num 0)
  /\ two_tries (js "x.m") = Some (Num (-1), Num 2)
  /\ two_tries (js "a.example.com") = Some (Num 2, Num (-1)).
Proof. vm_compute. repeat split. Qed.


(** C3, the container of hnbigtrie.wat: on the buffer that its [addJS]
    builds for the same two hostnames, its [matchesJS] (lines 1581-1622)
    and the WebAssembly [matches] return the same number for each of
    [queries]. *)
Lemma Container_scalar_and_wasm_agree_examples :
  match Container.build fuel example_com with
  | Ret r st =>
      Container.iroot r = Num 68
      /\ Forall (fun q =>
            let st' := Container.setNeedle q st in
            exists k,
              Container.matchesJS fuel st' (Container.iroot r)
              = Some (Num k)
              /\ Wasm.matches fuel (Container.buf st') 68 = Wasm.Return k)
          queries
  | _ => False
  end.
Proof.
  assert (H :
    match Container.build fuel example_com with
    | Ret r st =>
        jeq (Container.iroot r) 68
        && forallb (fun q =>
             let st' := Container.setNeedle q st in
             match Container.matchesJS fuel st' (Container.iroot r),
                   Wasm.matches fuel (Container.buf st') 68 with
             | Some (Num a), Wasm.Return b => a =? b
             | _, _ => false
             end) queries
    | _ => false
    end = true) by (vm_compute; reflexivity).
  destruct (Container.build fuel example_com) as [r st| |];
    try discriminate.
  apply andb_true_iff in H. destruct H as [Hr H].
  apply jeq_true_Num in Hr. split; [exact Hr|].
  apply List.Forall_forall. intros q Hq.
  rewrite forallb_forall in H. specialize (H q Hq). cbv zeta in *.
  destruct (Container.matchesJS _ _ _) as [[a| |]|]; try discriminate.
  destruct (Wasm.matches _ _ _) as [b| |]; try discriminate.
  apply Z.eqb_eq in H. subst b. exists a. split; reflexivity.
Qed.

(** C5 (hnbigtrie.js, [add] and [matchesJS]). [order_1] and [order_2] are
    two permutations of the same fifteen hostnames; on fresh tries the query
    ["xc"] returns -1 after the first and 1 after the second. After the
    leaf ["c"], [matchesJS] reads [buf32[icell+2]] and [buf32[icell+1]] with
    [icell === 0], that is, bytes 4 to 11 of the needle area, where the last
    five-letter hostname inserted has left its last character: 100 (the
    cell of ["y"]) after [order_1], 97 (the cell of ["x"]) after [order_2]. *)
Theorem C5_insertion_order_changes_answer :
  Permutation order_1 order_2
  /\ Manager.query fuel order_1 (js "xc") = Some (Num (-1))
  /\ Manager.query fuel order_2 (js "xc") = Some (Num 1).
Proof.
  split.
  - unfold order_1, order_2. apply Permutation_app_head. apply perm_swap.
  - split; vm_compute; reflexivity.
Qed.

(** C5, the container of hnbigtrie.wat, lines 1581-1622, on the same
    input: -1 after both orders. *)
Lemma Container_matchesJS_same_after_both_orders :
  Container.query fuel order_1 (js "xc") = Some (Num (-1))
  /\ Container.query fuel order_2 (js "xc") = Some (Num (-1)).
Proof. split; vm_compute; reflexivity. Qed.

(** C6 (hnbigtrie.wat, the iterators at lines 1976-2026 and 939-989).
    Iterating a trie in which nothing was inserted yields one empty
    string; with the iterator of lines 939-989, which takes the offset of
    the character data from the missing property [container.char0], the
    trie that holds ["ads.example.com"] yields one empty string too. *)
Theorem C6_iterator_yields_empty_string :
  Container.hostnames Container.next fuel [] = Some [Some []]
  /\ Container.hostnames Container.next_939 fuel [] = Some [Some []]
  /\ Container.hostnames Container.next_939 fuel [js "ads.example.com"]
     = Some [Some []].
Proof. repeat split; vm_compute; reflexivity. Qed.

(** C6, the iterator of lines 1976-2026 on tries that are not empty. *)
Lemma Container_iterator_examples :
  Container.hostnames Container.next fuel [js "ads.example.com"]
  = Some [Some (js "ads.example.com")]
  /\ Container.hostnames Container.next fuel
       [js "example.com"; js "sub.example.com"; js "b.c"]
     = Some [Some (js "example.com"); Some (js "sub.example.com");
             Some (js "b.c")].
Proof. split; vm_compute; reflexivity. Qed.

(** C7 (hnbigtrie.js, [add] and [matchesJS]). With [NEEDLE_LEN = 0], [add]
    returns 0 and leaves the manager as it is, and [matchesJS] returns -1,
    whatever the trie and whatever the root. *)
Theorem C7_empty_needle_is_noop (st : Manager.state) (iroot : jsval)
    (n : nat) :
  Manager.read8 st 255 = Num 0 ->
  Manager.add n iroot st = Ret (Num 0) st
  /\ Manager.matchesJS n st iroot = Some (Num (-1)).
Proof.
  intros H. unfold Manager.add, Manager.matchesJS. rewrite H.
  split; reflexivity.
Qed.

Lemma C7_empty_needle_is_noop_witness :
  Manager.read8 Manager.fresh 255 = Num 0
  /\ Manager.add fuel (Num 64) Manager.fresh = Ret (Num 0) Manager.fresh
  /\ Manager.matchesJS fuel Manager.fresh (Num 64) = Some (Num (-1)).
Proof.
  split; [reflexivity|].
  apply (C7_empty_needle_is_noop Manager.fresh (Num 64) fuel). reflexivity.
Defined.

(** C7: [setNeedle("")] after any other needle stores the length 0. *)
Lemma Manager_setNeedle_empty (st : Manager.state) :
  Manager.needle st <> [] ->
  255 < byteLength (Manager.buf st) ->
  Manager.read8 (Manager.setNeedle [] st) 255 = Num 0.
Proof.
  intros Hn Hl. unfold Manager.setNeedle.
  case_decide; [congruence|].
  unfold Manager.read8. cbn [Manager.buf length].
  change (if Z.of_nat 0 >? 255 then 255 else Z.of_nat 0) with 0.
  change (Z.to_nat 0) with O. cbn [Manager.setNeedle_loop].
  rewrite get8_set8_same; [reflexivity|]. unfold in_range. lia.
Qed.

(** C8 (hnbigtrie.js, [setNeedle]). A string of 300 characters leaves
    [NEEDLE_LEN = 255] and 255 needle bytes, the last one at offset 254:
    the bound of lines 83 is 255. *)
Theorem C8_setNeedle_keeps_255_bytes :
  let st := Manager.setNeedle long_name Manager.fresh in
  Manager.read8 st 255 = Num 255 /\ Manager.read8 st 254 = Num 97.
Proof. split; vm_compute; reflexivity. Qed.

(** C8, the container of hnbigtrie.wat, lines 1567-1579: any string of
    more than 254 characters leaves [NEEDLE_LEN = 254]. *)
Lemma Container_setNeedle_loop_255 (s : jsstring) (i : nat) (b : ArrayBuffer) :
  (i <= 255)%nat ->
  get8 (Container.setNeedle_loop s i b) 255 = get8 b 255.
Proof.
  revert b. induction i as [|i IH]; intros b Hi; [reflexivity|].
  cbn [Container.setNeedle_loop]. rewrite IH by lia.
  apply get8_set8_other. lia.
Qed.

Lemma Container_setNeedle_truncates (s : jsstring) (st : Container.state) :
  s <> Container.needle st ->
  255 < byteLength (Container.buf st) ->
  (254 < length s)%nat ->
  Container.read8 (Container.setNeedle s st) 255 = Num 254.
Proof.
  intros Hn Hl Hs. unfold Container.setNeedle.
  case_decide; [congruence|].
  destruct (Z.of_nat (length s) >? 254) eqn:E; [|lia].
  unfold Container.read8. cbn [Container.buf].
  rewrite Container_setNeedle_loop_255 by (cbn; lia).
  rewrite get8_set8_same; [reflexivity|]. unfold in_range. lia.
Qed.

(** C9 (hnbigtrie.js, [shrinkBuf] and [resizeBuf]). After [optimize] on
    the trie that holds ["example.com"], the character data starts where
    the cells end and the buffer ends one byte after the character data:
    [shrinkBuf] reserves neither 24 bytes nor 256. *)
Theorem C9_optimize_leaves_no_reserve :
  exists r st st',
    Manager.build fuel [js "example.com"] = Ret r st
    /\ Manager.optimize st = Ret tt st'
    /\ Manager.char0 st' - Manager.trie1 st' = 0
    /\ byteLength (Manager.buf st') - Manager.char1 st' = 1.
Proof.
  assert (H :
    match Manager.build fuel [js "example.com"] with
    | Ret r st =>
        match Manager.optimize st with
        | Ret _ st' =>
            (Manager.char0 st' - Manager.trie1 st' =? 0)
            && (byteLength (Manager.buf st') - Manager.char1 st' =? 1)
        | _ => false
        end
    | _ => false
    end = true) by (vm_compute; reflexivity).
  destruct (Manager.build fuel [js "example.com"]) as [r st| |];
    try discriminate.
  destruct (Manager.optimize st) as [[] st'| |] eqn:E; try discriminate.
  exists r, st, st'. apply andb_true_iff in H. destruct H as [H1 H2].
  apply Z.eqb_eq in H1, H2. repeat split; assumption.
Qed.

(** C9: without the reserve, [create] after [optimize] puts its root cell
    over the first bytes of the character data: the query ["example.com"],
    answered by 0 before, is answered by -1, and [add] of ["example.com"]
    returns 1. *)
Lemma Manager_create_after_optimize_overwrites :
  match Manager.build fuel [js "example.com"] with
  | Ret r st =>
      match Manager.optimize st with
      | Ret _ st1 =>
          let st2 := snd (Manager.create st1) in
          fst (Manager.ref_matchesJS fuel r (js "example.com") st1)
          = Some (Num 0)
          /\ fst (Manager.ref_matchesJS fuel r (js "example.com") st2)
             = Some (Num (-1))
          /\ match Manager.ref_add fuel r (js "example.com") st2 with
             | Ret a _ => a = Num 1
             | _ => False
             end
      | _ => False
      end
  | _ => False
  end.
Proof.
  assert (H :
    match Manager.build fuel [js "example.com"] with
    | Ret r st =>
        match Manager.optimize st with
        | Ret _ st1 =>
            let st2 := snd (Manager.create st1) in
            match fst (Manager.ref_matchesJS fuel r (js "example.com") st1),
                  fst (Manager.ref_matchesJS fuel r (js "example.com") st2),
                  Manager.ref_add fuel r (js "example.com") st2 with
            | Some a, Some b, Ret c _ => jeq a 0 && jeq b (-1) && jeq c 1
            | _, _, _ => false
            end
        | _ => false
        end
    | _ => false
    end = true) by (vm_compute; reflexivity).
  destruct (Manager.build fuel [js "example.com"]) as [r st| |];
    try discriminate.
  destruct (Manager.optimize st) as [[] st1| |]; try discriminate.
  cbv zeta in *.
  destruct (fst (Manager.ref_matchesJS fuel r (js "example.com") st1))
    as [a|]; try discriminate.
  destruct (fst (Manager.ref_matchesJS fuel r (js "example.com")
                   (snd (Manager.create st1)))) as [b|]; try discriminate.
  destruct (Manager.ref_add fuel r (js "example.com")
              (snd (Manager.create st1))) as [c st3| |]; try discriminate.
  apply andb_true_iff in H. destruct H as [H Hc].
  apply andb_true_iff in H. destruct H as [Ha Hb].
  apply jeq_true_Num in Ha, Hb, Hc. subst. repeat split.
Qed.

(** C9, the container of hnbigtrie.wat, lines 1753-1799, on the same
    trie: after [optimize] 24 bytes are left before the character data and
    257 after it, and the query ["foo.example.com"] is answered as
    before. *)
Lemma Container_optimize_keeps_reserve :
  match Container.build fuel [js "example.com"] with
  | Ret r st =>
      match Container.optimize st with
      | Ret _ st1 =>
          ContainerInv.CHAR0 st1 - ContainerInv.TRIE1 st1 = 24
          /\ byteLength (Container.buf st1) - ContainerInv.CHAR1 st1 = 257
          /\ fst (Container.ref_matchesJS fuel r (js "foo.example.com") st)
             = Some (Num 4)
          /\ fst (Container.ref_matchesJS fuel r (js "foo.example.com") st1)
             = Some (Num 4)
      | _ => False
      end
  | _ => False
  end.
Proof.
  assert (H :
    match Container.build fuel [js "example.com"] with
    | Ret r st =>
        match Container.optimize st with
        | Ret _ st1 =>
            (ContainerInv.CHAR0 st1 - ContainerInv.TRIE1 st1 =? 24)
            && (byteLength (Container.buf st1) - ContainerInv.CHAR1 st1
                =? 257)
            && match
                 fst (Container.ref_matchesJS fuel r (js "foo.example.com")
                        st),
                 fst (Container.ref_matchesJS fuel r (js "foo.example.com")
                        st1)
               with
               | Some a, Some b => jeq a 4 && jeq b 4
               | _, _ => false
               end
        | _ => false
        end
    | _ => false
    end = true) by (vm_compute; reflexivity).
  destruct (Container.build fuel [js "example.com"]) as [r st| |];
    try discriminate.
  destruct (Container.optimize st) as [o st1| |]; try discriminate.
  apply andb_true_iff in H. destruct H as [H Hq].
  apply andb_true_iff in H. destruct H as [H1 H2].
  apply Z.eqb_eq in H1, H2.
  destruct (fst (Container.ref_matchesJS fuel r (js "foo.example.com") st))
    as [a|]; try discriminate.
  destruct (fst (Container.ref_matchesJS fuel r (js "foo.example.com") st1))
    as [b|]; try discriminate.
  apply andb_true_iff in Hq. destruct Hq as [Ha Hb].
  apply jeq_true_Num in Ha, Hb. subst. repeat split; assumption.
Qed.

(** C10 (hnbigtrie.js, [reset] and [isValid]). Once the buffer is larger
    than 131072 bytes, [reset] throws at its first statement: the
    generation id stays what it was and a reference created before still
    answers [true] to [isValid]. *)
Theorem C10_reset_throws_on_grown_buffer :
  exists r st,
    grown = Ret r st
    /\ byteLength (Manager.buf st) = 196608
    /\ Manager.reset st = Throw TypeError st
    /\ Manager.isValid r st = true.
Proof.
  assert (H :
    match grown with
    | Ret r st =>
        (byteLength (Manager.buf st) =? 196608)
        && negb (Manager.wasmMemory st) && Manager.isValid r st
    | _ => false
    end = true) by (vm_compute; reflexivity).
  destruct grown as [r st| |]; try discriminate.
  exists r, st. split; [reflexivity|].
  apply andb_true_iff in H. destruct H as [H Hv].
  apply andb_true_iff in H. destruct H as [Hl Hw].
  apply Z.eqb_eq in Hl. apply negb_true_iff in Hw.
  split; [exact Hl|]. split; [|exact Hv].
  unfold Manager.reset. rewrite Hw, Hl. reflexivity.
Qed.

(** C10: [reset] on a buffer of at most 131072 bytes does increment the id,
    and invalidates the references created before. *)
Lemma Manager_reset_small (st : Manager.state) (r : Manager.HNBigTrieRef) :
  byteLength (Manager.buf st) <= 131072 ->
  Manager.ref_id r = Manager.id st ->
  exists st', Manager.reset st = Ret tt st'
    /\ Manager.id st' = Manager.id st + 1
    /\ Manager.isValid r st' = false
    /\ Manager.isValid (fst (Manager.create st')) st' = true.
Proof.
  intros Hl Hr. unfold Manager.reset.
  destruct (byteLength (Manager.buf st) >? 131072) eqn:E; [lia|].
  rewrite andb_false_r. eexists. split; [reflexivity|].
  cbn. split; [reflexivity|]. unfold Manager.isValid. cbn. rewrite Hr.
  split; [apply Z.eqb_neq; lia | apply Z.eqb_refl].
Qed.

(** *** Words and cells *)

Section Words.

Import Trie.

Lemma word_range (b : ArrayBuffer) (a : Z) : 0 <= word b a < 2 ^ 32.
Proof.
  unfold word.
  pose proof (Z.mod_pos_bound (byte b a) 256).
  pose proof (Z.mod_pos_bound (byte b (a + 1)) 256).
  pose proof (Z.mod_pos_bound (byte b (a + 2)) 256).
  pose proof (Z.mod_pos_bound (byte b (a + 3)) 256).
  lia.
Qed.

Lemma word_ext (b b' : ArrayBuffer) (a a' : Z) :
  (forall i, 0 <= i < 4 -> byte b' (a' + i) mod 256 = byte b (a + i) mod 256) ->
  word b' a' = word b a.
Proof.
  intros H. unfold word.
  rewrite <- (Z.add_0_r a'), <- (Z.add_0_r a) at 1.
  rewrite !H by lia. rewrite !Z.add_0_r. reflexivity.
Qed.

Lemma get32_fld (b : ArrayBuffer) (c k : Z) :
  0 <= c + k -> 4 * (c + k) + 4 <= byteLength b ->
  get32 b (Num (c + k)) = Num (fld b c k).
Proof.
  intros H0 H1. unfold get32, fld, length32.
  assert (c + k < byteLength b / 4).
  { assert (c + k + 1 <= byteLength b / 4)
      by (apply Z.div_le_lower_bound; lia). lia. }
  destruct (0 <=? c + k) eqn:E0; [|lia].
  destruct (c + k <? byteLength b / 4) eqn:E1; [|lia].
  reflexivity.
Qed.

Lemma get8_in (b : ArrayBuffer) (a : Z) :
  0 <= a < byteLength b -> get8 b (Num a) = Num (byte b a mod 256).
Proof.
  intros H. unfold get8, in_range.
  destruct (0 <=? a) eqn:E0; [|lia].
  destruct (a <? byteLength b) eqn:E1; [|lia].
  reflexivity.
Qed.

Lemma bytes_at_length (b : ArrayBuffer) (a : Z) (n : nat) :
  length (bytes_at b a n) = n.
Proof. revert a. induction n; intros; cbn; [|rewrite IHn]; reflexivity. Qed.

Lemma bytes_at_nth (b : ArrayBuffer) (a : Z) (n i : nat) :
  (i < n)%nat ->
  nth i (bytes_at b a n) 0 = byte b (a + Z.of_nat i) mod 256.
Proof.
  revert a i. induction n as [|n IH]; intros a i Hi; [lia|].
  destruct i as [|i]; cbn [bytes_at nth].
  - rewrite Z.add_0_r. reflexivity.
  - rewrite IH by lia. f_equal. f_equal. lia.
Qed.

Lemma bytes_at_ext (b b' : ArrayBuffer) (a a' : Z) (n : nat) :
  (forall i, 0 <= i < Z.of_nat n ->
     byte b' (a' + i) mod 256 = byte b (a + i) mod 256) ->
  bytes_at b' a' n = bytes_at b a n.
Proof.
  revert a a'. induction n as [|n IH]; intros a a' H; [reflexivity|].
  cbn [bytes_at]. f_equal.
  - specialize (H 0). rewrite !Z.add_0_r in H. apply H. lia.
  - apply IH. intros i Hi. specialize (H (1 + i)).
    rewrite !Z.add_assoc in H. apply H. lia.
Qed.

(** The packed segment word [len << 24 | off]. *)
Lemma seg_word_len (len off : Z) :
  0 <= len < 256 -> 0 <= off < 2 ^ 24 ->
  ushr (Num (len * 2 ^ 24 + off)) 24 = len.
Proof.
  intros Hl Ho. unfold ushr, ToUint32.
  rewrite Z.mod_small by lia.
  change (24 mod 32) with 24. rewrite Z.shiftr_div_pow2 by lia.
  rewrite Z.div_add_l by lia. rewrite Z.div_small by lia. lia.
Qed.

Lemma ToInt32_mod (z : Z) : ToInt32 (Num z) mod 2 ^ 24 = z mod 2 ^ 24.
Proof.
  unfold ToInt32.
  rewrite Zminus_mod.
  change (2 ^ 31 mod 2 ^ 24) with 0. rewrite Z.sub_0_r, Z.mod_mod by lia.
  change (2 ^ 32) with (2 ^ 24 * 2 ^ 8).
  rewrite <- (Z.mul_1_r (2 ^ 24)) at 3.
  rewrite Z.rem_mul_r by lia.
  rewrite Z.mul_comm, Z.mod_add by lia. rewrite Z.mod_mod by lia.
  rewrite Zplus_mod. change (2 ^ 31 mod 2 ^ 24) with 0.
  rewrite Z.add_0_r, Z.mod_mod by lia. rewrite Z.mul_1_r. reflexivity.
Qed.

Lemma seg_word_off (len off : Z) :
  0 <= len < 256 -> 0 <= off < 2 ^ 24 ->
  band (Num (len * 2 ^ 24 + off)) (Num 16777215) = off.
Proof.
  intros Hl Ho. unfold band.
  change (ToInt32 (Num 16777215)) with (Z.ones 24).
  rewrite Z.land_ones by lia. rewrite ToInt32_mod.
  rewrite Z.add_comm, Z.mod_add by lia. apply Z.mod_small. lia.
Qed.

End Words.

(** *** Strings of a trie *)

Section Strings.

Import Trie.

Lemma lcp_app (s x : list Z) : lcp s (s ++ x) = length s.
Proof.
  induction s as [|a s IH]; [destruct x; reflexivity|].
  cbn. rewrite Z.eqb_refl, IH. reflexivity.
Qed.

Lemma lcp_hd_ne (s w : list Z) : hd 0 s <> hd 0 w -> lcp s w = O.
Proof.
  destruct s as [|a s], w as [|b w]; cbn; try reflexivity.
  intros H. destruct (a =? b) eqn:E; [lia|reflexivity].
Qed.

Lemma lcp_firstn (s w : list Z) (n : nat) :
  (Nat.min (length s) (length w) <= n)%nat ->
  lcp (firstn n s) w = lcp s w.
Proof.
  revert w n. induction s as [|a s IH]; intros w n H.
  - rewrite firstn_nil. reflexivity.
  - destruct w as [|b w]; [destruct n; reflexivity|].
    destruct n as [|n]; [cbn in H; lia|].
    cbn. destruct (a =? b); [|reflexivity].
    rewrite IH; [reflexivity|]. cbn in H. lia.
Qed.

Lemma strs_nonempty (t : tr) (w : list Z) :
  wf t -> In w (strs t) -> w <> [].
Proof.
  revert w. induction t as [|c off s d IHd r IHr|c r IHr]; intros w Hwf Hin.
  - destruct Hin.
  - cbn in Hwf. destruct Hwf as (Hs & _ & _ & Hd & Hr).
    cbn in Hin. apply in_app_or in Hin. destruct Hin as [Hin|Hin].
    + apply in_map_iff in Hin. destruct Hin as (x & <- & _).
      destruct s; [congruence|discriminate].
    + apply IHd; assumption.
  - cbn in Hwf. destruct Hwf as (_ & Hr). apply IHr; assumption.
Qed.

Lemma strs_heads (d : tr) (w : list Z) :
  wf d -> is_bnd d = false -> In w (strs d) -> In (hd 0 w) (heads d).
Proof.
  revert w. induction d as [|c off s d IHd r IHr|c r IHr]; intros w Hwf Hb Hin.
  - destruct Hin.
  - cbn in Hwf. destruct Hwf as (Hs & Hbd & _ & Hd & Hr).
    cbn in Hin. apply in_app_or in Hin. destruct Hin as [Hin|Hin].
    + apply in_map_iff in Hin. destruct Hin as (x & <- & _).
      left. destruct s; [congruence|reflexivity].
    + right. apply IHd; assumption.
  - discriminate.
Qed.

End Strings.

(** *** [indexOfMismatch] *)

Section IndexOfMismatch.

Import Trie Manager ManagerInv.

Lemma skipn_nth_cons (l : list Z) (i : nat) :
  (i < length l)%nat -> skipn i l = nth i l 0 :: skipn (S i) l.
Proof.
  revert i. induction l as [|a l IH]; intros i H; [cbn in H; lia|].
  destruct i as [|i]; [reflexivity|]. cbn in H. cbn [skipn nth].
  rewrite IH by lia. reflexivity.
Qed.

Lemma indexOfMismatch_loop_spec (st : state) (a j : Z) (s w : list Z)
    (n : nat) :
  (forall x : nat, (x < length s)%nat ->
     read8 st (Num (a + Z.of_nat x)) = Num (nth x s 0)) ->
  (forall x : nat, (x < length w)%nat ->
     read8 st (Num (j - 1 - Z.of_nat x)) = Num (nth x w 0)) ->
  (n <= length s)%nat -> (n <= length w)%nat ->
  forall (k i : nat), (i <= n)%nat -> (n - i <= k)%nat ->
    indexOfMismatch_loop k st (Num a) (Num (a + Z.of_nat n)) (Num j)
      (Num (Z.of_nat i))
    = Num (Z.of_nat (i + lcp (firstn (n - i) (skipn i s)) (skipn i w))).
Proof.
  intros Hs Hw Hns Hnw k. induction k as [|k IH]; intros i Hi Hk.
  - replace (n - i)%nat with O by lia.
    cbn [indexOfMismatch_loop firstn lcp]. rewrite Nat.add_0_r. reflexivity.
  - cbn [indexOfMismatch_loop jadd jsub jlt].
    destruct (a + Z.of_nat i <? a + Z.of_nat n) eqn:E.
    + assert (Hlt : (i < n)%nat) by lia.
      rewrite Hs by lia.
      replace (j - 1 - Z.of_nat i) with (j - 1 - Z.of_nat i) by lia.
      rewrite Hw by lia.
      rewrite (skipn_nth_cons s i) by lia.
      rewrite (skipn_nth_cons w i) by lia.
      replace (n - i)%nat with (S (n - S i)) by lia.
      cbn [firstn lcp]. unfold jne. cbn [jeq].
      destruct (nth i s 0 =? nth i w 0) eqn:E'; cbn [negb].
      * replace (Z.of_nat i + 1) with (Z.of_nat (S i)) by lia.
        rewrite IH by lia. do 2 f_equal. lia.
      * do 2 f_equal. lia.
    + assert (i = n) by lia. subst i.
      replace (n - n)%nat with O by lia.
      cbn [firstn lcp]. rewrite Nat.add_0_r. reflexivity.
Qed.

Lemma indexOfMismatch_spec (st : state) (off : Z) (s w : list Z) :
  (1 <= length s <= 255)%nat -> (1 <= length w <= 255)%nat ->
  0 <= off < 2 ^ 24 ->
  seg_at st off s -> needle_rem st w ->
  indexOfMismatch st (Num (Z.of_nat (length s) * 2 ^ 24 + off))
    (Num (Z.of_nat (length w)))
  = Num (Z.of_nat (lcp s w)).
Proof.
  intros Hs Hw Hoff Hseg [_ Hrem]. unfold indexOfMismatch.
  rewrite seg_word_len, seg_word_off by lia.
  set (n := Nat.min (length s) (length w)).
  assert (Hn :
    (if jgt (Num (Z.of_nat (length s))) (Num (Z.of_nat (length w)))
     then Num (Z.of_nat (length w)) else Num (Z.of_nat (length s)))
    = Num (Z.of_nat n)).
  { unfold jgt, jlt. subst n.
    destruct (Z.of_nat (length w) <? Z.of_nat (length s)) eqn:E;
      f_equal; lia. }
  rewrite Hn. cbn [jeq jadd ToUint32].
  destruct (Z.of_nat n =? 0) eqn:E; [apply Z.eqb_eq in E; subst n; lia|].
  rewrite Z.mod_small by (subst n; change (2 ^ 32) with 4294967296; lia).
  rewrite Nat2Z.id.
  rewrite (indexOfMismatch_loop_spec st (char0 st + off)
             (Z.of_nat (length w)) s w n Hseg Hrem)
    with (i := O) by (subst n; lia).
  rewrite Nat.sub_0_r, !skipn_O. cbn [Nat.add].
  rewrite lcp_firstn by (subst n; lia). reflexivity.
Qed.

End IndexOfMismatch.

(** *** [add] on a hostname that is stored *)

Section AddStored.

Import Trie Manager ManagerInv.

Lemma shape_seg_at (st : state) (c off : Z) (s : list Z) :
  0 <= char0 st -> char1 st <= byteLength (buf st) ->
  0 <= off -> off + Z.of_nat (length s) <= char1 st - char0 st ->
  bytes_at (buf st) (char0 st + off) (length s) = s ->
  seg_at st off s.
Proof.
  intros H0 H1 Ho Hl Hb x Hx. unfold read8.
  rewrite get8_in by lia. f_equal.
  transitivity (nth x (bytes_at (buf st) (char0 st + off) (length s)) 0).
  - rewrite bytes_at_nth by lia. reflexivity.
  - rewrite Hb. reflexivity.
Qed.

Lemma needle_rem_app (st : state) (s w : list Z) :
  needle_rem st (s ++ w) -> needle_rem st w.
Proof.
  intros [Hl H]. rewrite length_app in Hl. split; [lia|].
  intros x Hx. specialize (H (length s + x)%nat).
  rewrite length_app in H. rewrite app_nth2_plus in H.
  rewrite <- H by lia. do 2 f_equal. lia.
Qed.

Lemma jeq_Num (a b : Z) : jeq (Num a) (Num b) = (a =? b).
Proof. reflexivity. Qed.

Lemma jne_Num (a b : Z) : jne (Num a) (Num b) = negb (a =? b).
Proof. reflexivity. Qed.

Lemma add_loop_stored (st : state) (t : tr) :
  0 <= char0 st -> char1 st <= byteLength (buf st) ->
  trie1 st <= byteLength (buf st) ->
  shape 64 (buf st) (char0 st) (char1 st) (trie1 st) t -> wf t ->
  forall (w : list Z) (fuel : nat),
    needle_rem st w -> In w (strs t) -> (size t <= fuel)%nat ->
    add_loop fuel (Num (ptr t)) (Num (Z.of_nat (length w))) st
    = Ret (Num 0) st.
Proof.
  intros H0 H1 Ht.
  induction t as [|c off s d IHd r IHr|c r IHr];
    intros Hsh Hwf w fuel Hrem Hin Hfuel.
  - destruct Hin.
  - cbn [shape] in Hsh.
    destruct Hsh as (Hc & Hct & Fd & Fr & Fs & Hls & Hoff & Hend & Hb & Hd & Hr).
    cbn [wf] in Hwf. destruct Hwf as (Hs & Hbd & Hhd & Hwd & Hwr).
    assert (Hls1 : (1 <= length s)%nat) by (destruct s; [congruence|cbn; lia]).
    assert (Hw : w <> []).
    { apply (strs_nonempty (Seg c off s d r)); [cbn; tauto|exact Hin]. }
    assert (Hlw : (1 <= length w <= 255)%nat).
    { destruct Hrem as [Hl _]. destruct w; [congruence|cbn in *; lia]. }
    destruct fuel as [|fuel]; [cbn in Hfuel; lia|]. cbn [size] in Hfuel.
    cbn [add_loop ptr jadd]. unfold read32.
    rewrite !get32_fld by lia. rewrite Fs, Fd, Fr.
    rewrite jeq_Num.
    destruct (Z.of_nat (length s) * 2 ^ 24 + off =? 0) eqn:E;
      [apply Z.eqb_eq in E; lia|].
    rewrite (indexOfMismatch_spec st off s w) by
      (try lia; try assumption; apply (shape_seg_at st c); assumption || lia).
    rewrite seg_word_len by lia.
    cbn [strs] in Hin. apply in_app_or in Hin. destruct Hin as [Hin|Hin].
    + apply in_map_iff in Hin. destruct Hin as (w' & <- & Hin).
      rewrite lcp_app. rewrite jeq_Num.
      destruct (Z.of_nat (length s) =? 0) eqn:E1;
        [apply Z.eqb_eq in E1; lia|].
      cbn [jsub]. rewrite jeq_Num, Z.eqb_refl.
      rewrite length_app.
      replace (Z.of_nat (length s + length w') - Z.of_nat (length s))
        with (Z.of_nat (length w')) by lia.
      rewrite !jne_Num, !jeq_Num.
      destruct w' as [|x w'].
      * cbn [length]. change (Z.of_nat 0) with 0. cbn [Z.eqb negb].
        destruct r as [|rc roff rs rd rr|rc rr].
        -- cbn [ptr Z.eqb orb]. reflexivity.
        -- exfalso. apply (strs_nonempty _ [] Hwr Hin). reflexivity.
        -- cbn [shape] in Hr.
           destruct Hr as (Hrc & Hrt & _ & _ & Frs & _).
           cbn [ptr jadd]. rewrite get32_fld by lia. rewrite Frs.
           rewrite jeq_Num. cbn [Z.eqb]. rewrite orb_true_r. reflexivity.
      * assert (Hne : (Z.of_nat (length (x :: w')) =? 0) = false)
          by (apply Z.eqb_neq; cbn [length]; lia).
        rewrite Hne. cbn [negb].
        assert (Hin' : In (x :: w') (strs r) /\ 64 <= ptr r).
        { destruct r as [|rc roff rs rd rr|rc rr].
          - destruct Hin as [Hin|[]]. discriminate.
          - cbn [rest_strs] in Hin. split; [exact Hin|].
            cbn [shape] in Hr. cbn [ptr]. tauto.
          - cbn [rest_strs] in Hin. destruct Hin as [Hin|Hin]; [discriminate|].
            split; [exact Hin|]. cbn [shape] in Hr. cbn [ptr]. tauto. }
        destruct Hin' as [Hin' Hp].
        destruct (ptr r =? 0) eqn:E2; [apply Z.eqb_eq in E2; lia|].
        cbn [negb].
        apply IHr; try assumption.
        -- apply (needle_rem_app st s). exact Hrem.
        -- lia.
    + assert (Hd' : is_seg d = true /\ 64 <= ptr d).
      { destruct d as [|dc doff ds dd dr|dc dr]; [destruct Hin| |discriminate].
        split; [reflexivity|]. cbn [shape] in Hd. cbn [ptr]. tauto. }
      destruct Hd' as [_ Hp].
      assert (Hh : hd 0 s <> hd 0 w).
      { intros E'. apply Hhd. rewrite E'. apply strs_heads; assumption. }
      rewrite (lcp_hd_ne s w Hh). rewrite jeq_Num.
      change (Z.of_nat 0) with 0. cbn [Z.eqb].
      rewrite jne_Num.
      destruct (ptr d =? 0) eqn:E2; [apply Z.eqb_eq in E2; lia|].
      cbn [negb].
      apply IHd; try assumption. lia.
  - cbn [shape] in Hsh. destruct Hsh as (Hc & Hct & Fd & Fr & Fs & Hr).
    cbn [wf] in Hwf. destruct Hwf as (Hsr & Hwr).
    destruct fuel as [|fuel]; [cbn in Hfuel; lia|]. cbn [size] in Hfuel.
    cbn [add_loop ptr jadd]. unfold read32.
    rewrite !get32_fld by lia. rewrite Fs, Fr.
    rewrite jeq_Num. cbn [Z.eqb].
    apply IHr; try assumption. lia.
Qed.

End AddStored.

(** *** [setNeedle] and [growBuf] keep the trie *)

Section KeepTrie.

Import Trie Manager ManagerInv.

Lemma byte_set8_other (b : ArrayBuffer) (i a : Z) (v : jsval) :
  a <> i -> byte (set8 b (Num i) v) a = byte b a.
Proof.
  intros H. unfold set8. destruct (in_range b i); [|reflexivity].
  cbn. destruct (a =? i) eqn:E; [lia|reflexivity].
Qed.

Lemma byte_set8_same (b : ArrayBuffer) (i : Z) (v : jsval) :
  in_range b i = true -> byte (set8 b (Num i) v) i = ToUint8 v.
Proof.
  intros H. unfold set8. rewrite H. cbn. rewrite Z.eqb_refl. reflexivity.
Qed.

Lemma setNeedle_loop_length (s : jsstring) (i : nat) (b : ArrayBuffer) :
  byteLength (setNeedle_loop s i b) = byteLength b.
Proof.
  revert b. induction i as [|i IH]; intros b; [reflexivity|].
  cbn [setNeedle_loop]. rewrite IH. apply byteLength_set8.
Qed.

Lemma setNeedle_loop_above (s : jsstring) (i : nat) (b : ArrayBuffer) (a : Z) :
  Z.of_nat i <= a -> byte (setNeedle_loop s i b) a = byte b a.
Proof.
  revert b. induction i as [|i IH]; intros b H; [reflexivity|].
  cbn [setNeedle_loop]. rewrite IH by lia. apply byte_set8_other. lia.
Qed.

Lemma setNeedle_loop_below (s : jsstring) (i : nat) (b : ArrayBuffer) (x : nat) :
  (x < i)%nat -> (i <= length s)%nat -> Z.of_nat i <= byteLength b ->
  byte (setNeedle_loop s i b) (Z.of_nat x) = nth x s 0 mod 256.
Proof.
  revert b. induction i as [|i IH]; intros b Hx Hi Hb; [lia|].
  cbn [setNeedle_loop].
  destruct (Nat.eq_dec x i) as [->|Hne].
  - rewrite setNeedle_loop_above by lia.
    rewrite byte_set8_same by (unfold in_range; lia).
    unfold charCodeAt.
    destruct ((0 <=? Z.of_nat i) && (Z.of_nat i <? Z.of_nat (length s))) eqn:E;
      [|lia].
    cbn [ToUint8]. rewrite Nat2Z.id. reflexivity.
  - apply IH; [lia|lia|]. rewrite byteLength_set8. lia.
Qed.

Lemma needle_bytes_length (s : jsstring) :
  Z.of_nat (length (needle_bytes 255 s))
  = if Z.of_nat (length s) >? 255 then 255 else Z.of_nat (length s).
Proof.
  unfold needle_bytes. rewrite length_map, length_firstn.
  destruct (Z.of_nat (length s) >? 255) eqn:E; lia.
Qed.

Lemma needle_bytes_nth (s : jsstring) (x : nat) :
  (x < length (needle_bytes 255 s))%nat ->
  nth x (needle_bytes 255 s) 0 = nth x s 0 mod 256.
Proof.
  unfold needle_bytes. rewrite length_map, length_firstn. intros H.
  change 0 with ((fun z => z mod 256) 0) at 1.
  rewrite map_nth. f_equal. rewrite nth_firstn.
  destruct (x <? 255)%nat eqn:E; [reflexivity|apply Nat.ltb_ge in E; lia].
Qed.

Lemma bytes_at_eq (b : ArrayBuffer) (a : Z) (l : list Z) :
  (forall x : nat, (x < length l)%nat ->
     byte b (a + Z.of_nat x) mod 256 = nth x l 0) ->
  bytes_at b a (length l) = l.
Proof.
  revert a. induction l as [|y l IH]; intros a H; [reflexivity|].
  cbn [length bytes_at]. f_equal.
  - specialize (H O). cbn in H. rewrite Z.add_0_r in H. apply H. lia.
  - apply IH. intros x Hx. specialize (H (S x)). cbn [nth] in H.
    rewrite <- H by (cbn; lia). do 2 f_equal. lia.
Qed.

(** What [setNeedle] leaves in the manager. *)
Lemma setNeedle_spec (hn : jsstring) (st : state) :
  256 <= byteLength (buf st) -> needle_ok st ->
  let st' := setNeedle hn st in
  needle st' = hn /\ needle_ok st'
  /\ trie1 st' = trie1 st /\ char0 st' = char0 st /\ char1 st' = char1 st
  /\ byteLength (buf st') = byteLength (buf st)
  /\ (forall a, 256 <= a -> byte (buf st') a = byte (buf st) a).
Proof.
  intros Hl Hok. unfold setNeedle. case_decide as E.
  - subst hn. cbn zeta. repeat split; try reflexivity; apply Hok.
  - cbn zeta. cbn [needle trie1 char0 char1 buf].
    set (k := if Z.of_nat (length hn) >? 255 then 255
              else Z.of_nat (length hn)).
    assert (Hk : 0 <= k <= 255 /\ (Z.to_nat k <= length hn)%nat).
    { subst k. destruct (Z.of_nat (length hn) >? 255) eqn:E'; lia. }
    split; [reflexivity|]. split.
    + unfold needle_ok. cbn [needle buf].
      pose proof (needle_bytes_length hn) as Hnl. fold k in Hnl.
      split.
      * rewrite setNeedle_loop_above by lia.
        rewrite byte_set8_same by (unfold in_range; lia).
        cbn [ToUint8]. rewrite Z.mod_mod by lia.
        rewrite Z.mod_small by lia. lia.
      * apply bytes_at_eq. intros x Hx.
        rewrite Z.add_0_l.
        rewrite setNeedle_loop_below;
          [|lia|lia|rewrite byteLength_set8; lia].
        rewrite Z.mod_mod by lia. symmetry. apply needle_bytes_nth. exact Hx.
    + repeat split; try reflexivity.
      * rewrite setNeedle_loop_length. apply byteLength_set8.
      * intros a Ha. rewrite setNeedle_loop_above by lia.
        apply byte_set8_other. lia.
Qed.

Lemma needle_ok_rem (st : state) :
  256 <= byteLength (buf st) -> needle_ok st ->
  needle_rem st (rev (needle_bytes 255 (needle st))).
Proof.
  intros Hl [H255 Hb]. set (nb := needle_bytes 255 (needle st)) in *.
  assert (Hn : (length nb <= 255)%nat).
  { subst nb. unfold needle_bytes. rewrite length_map, length_firstn. lia. }
  split; [rewrite length_rev; exact Hn|].
  intros x Hx. rewrite length_rev in *. unfold read8.
  rewrite get8_in by lia. f_equal.
  rewrite rev_nth by exact Hx.
  transitivity (nth (length nb - S x) (bytes_at (buf st) 0 (length nb)) 0);
    [|rewrite Hb; reflexivity].
  rewrite bytes_at_nth by lia. do 2 f_equal. lia.
Qed.

(** [x & ~65535] *)
Lemma ToInt32_small (z : Z) : - 2 ^ 31 <= z < 2 ^ 31 -> ToInt32 (Num z) = z.
Proof. intros H. unfold ToInt32. rewrite Z.mod_small by lia. lia. Qed.

Lemma band_bnot_ones (x n : Z) :
  0 <= x < 2 ^ 31 -> 0 <= n < 31 ->
  band (Num x) (Num (bnot (Num (Z.ones n)))) = 2 ^ n * (x / 2 ^ n).
Proof.
  intros Hx Hn. unfold band, bnot.
  assert (Ho : 0 <= Z.ones n < 2 ^ 31).
  { rewrite Z.ones_equiv. pose proof (Z.pow_lt_mono_r 2 n 31).
    pose proof (Z.pow_pos_nonneg 2 n). lia. }
  rewrite (ToInt32_small (Z.ones n)) by lia.
  rewrite (ToInt32_small x) by lia.
  rewrite ToInt32_small by (unfold Z.lnot; lia).
  rewrite <- Z.ldiff_land, Z.ldiff_ones_r by lia.
  rewrite Z.shiftl_mul_pow2, Z.shiftr_div_pow2 by lia. lia.
Qed.

Lemma round_up_64k (x : Z) :
  0 <= x < 2 ^ 31 - 65536 ->
  let r := band (Num (x + 65535)) (Num (bnot 65535)) in
  x <= r < x + 65536 /\ r mod 65536 = 0.
Proof.
  intros Hx. cbn zeta.
  change (Num 65535) with (Num (Z.ones 16)).
  rewrite band_bnot_ones by lia.
  change (2 ^ 16) with 65536.
  pose proof (Z.div_mod (x + 65535) 65536 ltac:(lia)).
  pose proof (Z.mod_pos_bound (x + 65535) 65536 ltac:(lia)).
  split; [lia|]. rewrite Z.mul_comm. apply Z.mod_mul. lia.
Qed.

Lemma same_trie_refl (st : state) :
  geom st -> same_trie st st.
Proof.
  intros (H1 & H2 & H3 & H4 & H5). unfold same_trie.
  repeat split; try reflexivity; lia.
Qed.

Lemma growBuf_spec (st : state) :
  geom st -> exists st', growBuf st = Ret tt st' /\ same_trie st st'.
Proof.
  intros G. pose proof G as (H1 & H2 & H3 & H4 & H5).
  unfold growBuf.
  pose proof (round_up_64k (trie1 st + 24) ltac:(lia)) as R0. cbn zeta in R0.
  replace (trie1 st + 24 + 65535) with (trie1 st + 24 + 65535) in R0 by lia.
  set (c0 := band (Num (trie1 st + 24 + 65535)) (Num (bnot 65535))) in *.
  pose proof (round_up_64k (c0 + char1 st - char0 st + 256) ltac:(lia)) as R1.
  cbn zeta in R1.
  set (buf1 := band (Num (c0 + char1 st - char0 st + 256 + 65535))
                    (Num (bnot 65535))) in *.
  unfold resizeBuf.
  destruct (buf1 =? byteLength (buf st)) eqn:E.
  - exists st. split; [reflexivity|]. apply same_trie_refl. exact G.
  - destruct (buf1 <? 0) eqn:E0; [lia|].
    assert (V1 : view_ok (buf st) 0 (trie1 st) && set_ok (alloc buf1) (trie1 st) 0
                 = true).
    { unfold view_ok, set_ok. cbn [alloc byteLength].
      repeat (apply andb_true_intro; split); lia. }
    rewrite V1. cbn [negb].
    assert (V2 : view_ok (buf st) (char0 st) (char1 st - char0 st)
                 && set_ok (blit (buf st) 0 (trie1 st) (alloc buf1) 0)
                      (char1 st - char0 st) c0 = true).
    { unfold view_ok, set_ok. cbn [blit alloc byteLength].
      repeat (apply andb_true_intro; split); lia. }
    rewrite V2. cbn [negb].
    assert (M4 : (buf1 mod 4 =? 0) = true).
    { apply Z.eqb_eq. destruct R1 as [_ R1].
      apply Z.mod_divide in R1; [|lia]. destruct R1 as [q ->].
      replace (q * 65536) with (q * 16384 * 4) by lia. apply Z.mod_mul. lia. }
    rewrite M4. eexists. split; [reflexivity|].
    unfold same_trie. cbn [trie1 needle char0 char1 buf blit alloc byteLength byte].
    repeat split; try lia.
    + intros a Ha.
      destruct ((c0 <=? a) && (a <? c0 + (char1 st - char0 st))) eqn:Ea; [lia|].
      destruct ((0 <=? a) && (a <? 0 + trie1 st)) eqn:Eb; [|lia].
      rewrite Z.mod_mod by lia. do 2 f_equal. lia.
    + intros i Hi.
      destruct ((c0 <=? c0 + i) && (c0 + i <? c0 + (char1 st - char0 st)))
        eqn:Ea; [|lia].
      rewrite Z.mod_mod by lia. do 2 f_equal. lia.
Qed.

Lemma fld_ext (b b' : ArrayBuffer) (t1 c k : Z) :
  (forall a, 0 <= a < t1 -> byte b' a mod 256 = byte b a mod 256) ->
  64 <= c -> 4 * c + 12 <= t1 -> 0 <= k < 3 ->
  fld b' c k = fld b c k.
Proof.
  intros H Hc Ht Hk. unfold fld. apply word_ext. intros i Hi. apply H. lia.
Qed.

Lemma same_trie_shape (st st' : state) (t : tr) :
  same_trie st st' ->
  shape 64 (buf st) (char0 st) (char1 st) (trie1 st) t ->
  shape 64 (buf st') (char0 st') (char1 st') (trie1 st') t.
Proof.
  intros (T1 & _ & C & _ & _ & _ & Hc & Hp).
  induction t as [|c off s d IHd r IHr|c r IHr]; intros Hsh; [exact I| |].
  - cbn [shape] in *.
    destruct Hsh as (Hc0 & Hct & Fd & Fr & Fs & Hls & Hoff & Hend & Hb & Hd & Hr).
    rewrite T1, C.
    rewrite !(fld_ext (buf st) (buf st') (trie1 st)) by (assumption || lia).
    repeat split; try assumption; try lia;
      try (rewrite <- T1; auto; fail).
    rewrite <- Hb at 2. apply bytes_at_ext. intros i Hi.
    rewrite <- !Z.add_assoc. apply Hp. lia.
  - cbn [shape] in *. destruct Hsh as (Hc0 & Hct & Fd & Fr & Fs & Hr).
    rewrite T1.
    rewrite !(fld_ext (buf st) (buf st') (trie1 st)) by (assumption || lia).
    repeat split; try assumption. rewrite <- T1. auto.
Qed.

Lemma same_trie_needle_ok (st st' : state) :
  256 <= trie1 st -> same_trie st st' -> needle_ok st -> needle_ok st'.
Proof.
  intros Ht (T1 & N & _ & _ & _ & _ & Hc & _) [H255 Hb].
  unfold needle_ok. rewrite N. cbn zeta in *.
  set (nb := needle_bytes 255 (needle st)) in *.
  assert (Hn : (length nb <= 255)%nat).
  { subst nb. unfold needle_bytes. rewrite length_map, length_firstn. lia. }
  split.
  - rewrite Hc by lia. exact H255.
  - rewrite <- Hb at 2. apply bytes_at_ext. intros i Hi. apply Hc. lia.
Qed.

End KeepTrie.

Section AddIdempotent.

Import Trie Manager ManagerInv.

Lemma shape_ext (lo : Z) (b b' : ArrayBuffer) (c0 c0' c1 c1' t1 : Z) (t : tr) :
  0 <= lo ->
  (forall a, 4 * lo <= a < t1 -> byte b' a mod 256 = byte b a mod 256) ->
  (forall i, 0 <= i < c1 - c0 ->
     byte b' (c0' + i) mod 256 = byte b (c0 + i) mod 256) ->
  c1' - c0' = c1 - c0 ->
  shape lo b c0 c1 t1 t -> shape lo b' c0' c1' t1 t.
Proof.
  intros Hlo Hc Hp C.
  assert (F : forall c k, lo <= c -> 4 * c + 12 <= t1 -> 0 <= k < 3 ->
                fld b' c k = fld b c k).
  { intros c k H1 H2 H3. unfold fld. apply word_ext. intros i Hi.
    apply Hc. lia. }
  induction t as [|c off s d IHd r IHr|c r IHr]; intros Hsh; [exact I| |].
  - cbn [shape] in *.
    destruct Hsh as (Hc0 & Hct & Fd & Fr & Fs & Hls & Hoff & Hend & Hb & Hd & Hr).
    rewrite C, !F by lia.
    repeat split; try assumption; try lia; auto.
    rewrite <- Hb at 2. apply bytes_at_ext. intros i Hi.
    rewrite <- !Z.add_assoc. apply Hp. lia.
  - cbn [shape] in *. destruct Hsh as (Hc0 & Hct & Fd & Fr & Fs & Hr).
    rewrite !F by lia. repeat split; try assumption. auto.
Qed.

(** [add] on a manager whose needle is already one of the strings of the
    trie: 0 is returned, [growBuf] may have moved the character data, and
    the cells still encode the trie. *)
Lemma add_stored (st0 : state) (t : tr) (fuel : nat) :
  geom st0 -> needle_ok st0 ->
  shape 64 (buf st0) (char0 st0) (char1 st0) (trie1 st0) t ->
  wf t -> is_seg t = true ->
  In (rev (needle_bytes 255 (needle st0))) (strs t) ->
  (size t <= fuel)%nat ->
  exists st',
    add fuel (Num (ptr t)) st0 = Ret (Num 0) st'
    /\ trie1 st' = trie1 st0
    /\ shape 64 (buf st') (char0 st') (char1 st') (trie1 st') t.
Proof.
  intros G0 Nok0 Hsh0 Hwf Hseg Hst Hfuel.
  pose proof G0 as (G1 & G2 & G3 & G4 & G5).
  set (nb := needle_bytes 255 (needle st0)) in *.
  assert (Hn : (length nb <= 255)%nat).
  { subst nb. unfold needle_bytes. rewrite length_map, length_firstn. lia. }
  unfold add.
  assert (R255 : read8 st0 255 = Num (Z.of_nat (length nb))).
  { unfold read8. rewrite get8_in by lia. f_equal.
    destruct Nok0 as [H _]. exact H. }
  rewrite R255. rewrite jeq_Num.
  destruct (Z.of_nat (length nb) =? 0) eqn:E.
  - exists st0. repeat split; assumption.
  - destruct (growBuf_spec st0 G0) as (st1 & HG & Hsame).
    rewrite HG. cbn [bind].
    pose proof (same_trie_shape st0 st1 t Hsame Hsh0) as Hsh1.
    pose proof (same_trie_needle_ok st0 st1 ltac:(lia) Hsame Nok0) as Nok1.
    destruct Hsame as (T1 & N1 & Cd & Hc0 & Hc1 & Ht1 & _ & _).
    destruct t as [|c off s d r|]; try discriminate.
    pose proof Hsh1 as Hsh1'. cbn [shape] in Hsh1'.
    destruct Hsh1' as (Hc & Hct & _ & _ & Fs & Hls & Hoff & _).
    cbn [ptr jadd]. unfold read32. rewrite get32_fld by lia. rewrite Fs.
    rewrite jeq_Num.
    assert (Hs : s <> []) by (cbn [wf] in Hwf; tauto).
    destruct (Z.of_nat (length s) * 2 ^ 24 + off =? 0) eqn:E';
      [apply Z.eqb_eq in E'; destruct s; [congruence|cbn [length] in E'; lia]|].
    exists st1. split; [|split; [lia|exact Hsh1]].
    replace (length nb) with (length (rev nb)) by apply length_rev.
    apply (add_loop_stored st1 (Seg c off s d r)); try assumption.
    subst nb. rewrite <- N1. apply needle_ok_rem; [lia|exact Nok1].
Qed.

(** C4 (hnbigtrie.js, [add]). When the cells of the manager encode the
    trie [t] and the hostname [hn] is one of those [t] stores, [add]
    returns 0 (given one unit of fuel per cell), [trie1] is what it was and
    the cells still encode [t]. *)
Theorem C4_add_is_idempotent (st : state) (t : tr) (hn : jsstring)
    (fuel : nat) :
  trie_at st t -> stored t hn -> (size t <= fuel)%nat ->
  exists st',
    add fuel (Num (ptr t)) (setNeedle hn st) = Ret (Num 0) st'
    /\ trie1 st' = trie1 st
    /\ shape 64 (buf st') (char0 st') (char1 st') (trie1 st') t.
Proof.
  intros (G & Nok & Hsh & Hwf & Hseg) Hst Hfuel.
  pose proof G as (G1 & G2 & G3 & G4 & G5).
  destruct (setNeedle_spec hn st ltac:(lia) Nok)
    as (N0 & Nok0 & T0 & C0 & C1 & L0 & B0).
  set (st0 := setNeedle hn st) in *.
  assert (Hsh0 : shape 64 (buf st0) (char0 st0) (char1 st0) (trie1 st0) t).
  { rewrite T0. apply (shape_ext 64 (buf st) _ (char0 st) _ (char1 st)).
    - lia.
    - intros a Ha. rewrite B0 by lia. reflexivity.
    - intros i Hi. rewrite C0, B0 by lia. reflexivity.
    - lia.
    - exact Hsh. }
  assert (G0 : geom st0) by (unfold geom; rewrite T0, C0, C1, L0; exact G).
  destruct (add_stored st0 t fuel G0 Nok0 Hsh0 Hwf Hseg)
    as (st' & E & T' & Sh').
  - rewrite N0. exact Hst.
  - exact Hfuel.
  - exists st'. split; [exact E|]. split; [congruence|exact Sh'].
Qed.

End AddIdempotent.

(** *** Writing words *)

Section Set32.

Import Trie.

Lemma byteLength_set32 (b : ArrayBuffer) (i v : jsval) :
  byteLength (set32 b i v) = byteLength b.
Proof.
  unfold set32. destruct i as [i| |]; try reflexivity.
  destruct ((0 <=? i) && (i <? length32 b)); reflexivity.
Qed.

Lemma byte_set32_other (b : ArrayBuffer) (i a : Z) (v : jsval) :
  a < 4 * i \/ 4 * i + 4 <= a ->
  byte (set32 b (Num i) v) a = byte b a.
Proof.
  intros H. unfold set32.
  destruct ((0 <=? i) && (i <? length32 b)); [|reflexivity].
  cbn [byte].
  destruct (a =? 4 * i) eqn:E0; [lia|].
  destruct (a =? 4 * i + 1) eqn:E1; [lia|].
  destruct (a =? 4 * i + 2) eqn:E2; [lia|].
  destruct (a =? 4 * i + 3) eqn:E3; [lia|].
  reflexivity.
Qed.

Lemma word_of_bytes (w : Z) :
  0 <= w < 2 ^ 32 ->
  (w mod 256) mod 256
  + 2 ^ 8 * (((w / 2 ^ 8) mod 256) mod 256)
  + 2 ^ 16 * (((w / 2 ^ 16) mod 256) mod 256)
  + 2 ^ 24 * (((w / 2 ^ 24) mod 256) mod 256) = w.
Proof.
  intros H. rewrite !Z.mod_mod by lia.
  change (2 ^ 16) with (2 ^ 8 * 2 ^ 8).
  change (2 ^ 24) with (2 ^ 8 * 2 ^ 8 * 2 ^ 8).
  rewrite <- !Z.div_div by lia.
  change (2 ^ 8) with 256.
  pose proof (Z.div_mod w 256 ltac:(lia)).
  pose proof (Z.div_mod (w / 256) 256 ltac:(lia)).
  pose proof (Z.div_mod (w / 256 / 256) 256 ltac:(lia)).
  pose proof (Z.div_mod (w / 256 / 256 / 256) 256 ltac:(lia)).
  assert (w / 256 / 256 / 256 / 256 = 0).
  { rewrite !Z.div_div by lia. apply Z.div_small.
    change (2 ^ 32) with 4294967296 in H. lia. }
  lia.
Qed.

Lemma word_set32_same (b : ArrayBuffer) (i v : Z) :
  0 <= i -> 4 * i + 4 <= byteLength b -> 0 <= v < 2 ^ 32 ->
  word (set32 b (Num i) (Num v)) (4 * i) = v.
Proof.
  intros H0 H1 Hv. unfold set32, length32.
  assert (i < byteLength b / 4).
  { assert (i + 1 <= byteLength b / 4)
      by (apply Z.div_le_lower_bound; lia). lia. }
  destruct (0 <=? i) eqn:E0; [|lia].
  destruct (i <? byteLength b / 4) eqn:E1; [|lia].
  cbn [andb]. unfold word. cbn [byte ToUint32].
  rewrite (Z.mod_small v) by lia.
  rewrite Z.eqb_refl.
  destruct (4 * i + 1 =? 4 * i) eqn:A1; [lia|].
  destruct (4 * i + 2 =? 4 * i) eqn:A2; [lia|].
  destruct (4 * i + 3 =? 4 * i) eqn:A3; [lia|].
  rewrite Z.eqb_refl.
  destruct (4 * i + 2 =? 4 * i + 1) eqn:A4; [lia|].
  destruct (4 * i + 3 =? 4 * i + 1) eqn:A5; [lia|].
  rewrite Z.eqb_refl.
  destruct (4 * i + 3 =? 4 * i + 2) eqn:A6; [lia|].
  rewrite Z.eqb_refl.
  apply word_of_bytes. exact Hv.
Qed.

Lemma fld_set32_same (b : ArrayBuffer) (c k v : Z) :
  0 <= c + k -> 4 * (c + k) + 4 <= byteLength b -> 0 <= v < 2 ^ 32 ->
  fld (set32 b (Num (c + k)) (Num v)) c k = v.
Proof. intros. unfold fld. apply word_set32_same; assumption. Qed.

Lemma fld_set32_other (b : ArrayBuffer) (i c k : Z) (v : jsval) :
  i <> c + k ->
  fld (set32 b (Num i) v) c k = fld b c k.
Proof.
  intros H. unfold fld. apply word_ext. intros j Hj.
  rewrite byte_set32_other by lia. reflexivity.
Qed.

End Set32.

(** *** [addJS] of the container on a hostname that is stored *)

Section ContainerAdd.

Import Trie Container ContainerInv.

Lemma slot_TRIE1 : HNBIGTRIE_TRIE1_SLOT = 65.
Proof. reflexivity. Qed.

Lemma slot_CHAR0 : HNBIGTRIE_CHAR0_SLOT = 66.
Proof. reflexivity. Qed.

Lemma slot_CHAR1 : HNBIGTRIE_CHAR1_SLOT = 67.
Proof. reflexivity. Qed.

Lemma get32_word (b : ArrayBuffer) (i : Z) :
  0 <= i -> 4 * i + 4 <= byteLength b ->
  get32 b (Num i) = Num (fld b i 0).
Proof.
  intros H0 H1. rewrite <- (Z.add_0_r i) at 1. apply get32_fld; lia.
Qed.

Lemma read_TRIE1 (st : state) :
  272 <= byteLength (buf st) ->
  read32 st (Num HNBIGTRIE_TRIE1_SLOT) = Num (TRIE1 st).
Proof.
  intros H. unfold read32, TRIE1. rewrite slot_TRIE1.
  apply get32_word; lia.
Qed.

Lemma read_CHAR0 (st : state) :
  272 <= byteLength (buf st) ->
  read32 st (Num HNBIGTRIE_CHAR0_SLOT) = Num (CHAR0 st).
Proof.
  intros H. unfold read32, CHAR0. rewrite slot_CHAR0.
  apply get32_word; lia.
Qed.

Lemma read_CHAR1 (st : state) :
  272 <= byteLength (buf st) ->
  read32 st (Num HNBIGTRIE_CHAR1_SLOT) = Num (CHAR1 st).
Proof.
  intros H. unfold read32, CHAR1. rewrite slot_CHAR1.
  apply get32_word; lia.
Qed.

Lemma lcp_le_l (s w : list Z) : (lcp s w <= length s)%nat.
Proof.
  revert w. induction s as [|a s IH]; intros [|b w]; cbn; try lia.
  destruct (a =? b); [specialize (IH w)|]; lia.
Qed.

Lemma lcp_le_r (s w : list Z) : (lcp s w <= length w)%nat.
Proof.
  revert w. induction s as [|a s IH]; intros [|b w]; cbn; try lia.
  destruct (a =? b); [specialize (IH w)|]; lia.
Qed.

Lemma lcp_nth_eq (s w : list Z) (i : nat) :
  (i < lcp s w)%nat -> nth i s 0 = nth i w 0.
Proof.
  revert w i. induction s as [|a s IH]; intros [|b w] i; cbn; try lia.
  destruct (a =? b) eqn:E; [|lia]. apply Z.eqb_eq in E. subst b.
  destruct i as [|i]; [reflexivity|]. intros H. apply IH. lia.
Qed.

Lemma lcp_nth_ne (s w : list Z) :
  (lcp s w < length s)%nat -> (lcp s w < length w)%nat ->
  nth (lcp s w) s 0 <> nth (lcp s w) w 0.
Proof.
  revert w. induction s as [|a s IH]; intros [|b w]; cbn; try lia.
  destruct (a =? b) eqn:E.
  - intros H1 H2. apply IH; lia.
  - intros _ _. apply Z.eqb_neq in E. exact E.
Qed.

Lemma C_shape_seg_at (st : state) (off : Z) (s : list Z) :
  0 <= CHAR0 st -> CHAR1 st <= byteLength (buf st) ->
  0 <= off -> off + Z.of_nat (length s) <= CHAR1 st - CHAR0 st ->
  bytes_at (buf st) (CHAR0 st + off) (length s) = s ->
  seg_at st off s.
Proof.
  intros H0 H1 Ho Hl Hb x Hx. unfold read8.
  rewrite get8_in by lia. f_equal.
  transitivity (nth x (bytes_at (buf st) (CHAR0 st + off) (length s)) 0).
  - rewrite bytes_at_nth by lia. reflexivity.
  - rewrite Hb. reflexivity.
Qed.

Lemma C_needle_rem_app (st : state) (s w : list Z) :
  needle_rem st (s ++ w) -> needle_rem st w.
Proof.
  intros [Hl H]. rewrite length_app in Hl. split; [lia|].
  intros x Hx. specialize (H (length s + x)%nat).
  rewrite length_app in H. rewrite app_nth2_plus in H.
  rewrite <- H by lia. do 2 f_equal. lia.
Qed.

Lemma addJS_mismatch_spec (st : state) (off : Z) (s w : list Z) :
  seg_at st off s -> needle_rem st w ->
  forall (k i : nat),
    (i <= lcp s w)%nat -> (length s - i < k)%nat ->
    addJS_mismatch k st (Num (CHAR0 st + off)) (Num (Z.of_nat (length s)))
      (Num (Z.of_nat i)) (Num (Z.of_nat (length w) - Z.of_nat i))
    = Some (Num (Z.of_nat (lcp s w)),
            Num (Z.of_nat (length w) - Z.of_nat (lcp s w))).
Proof.
  intros Hseg [_ Hrem] k.
  pose proof (lcp_le_l s w) as Ll. pose proof (lcp_le_r s w) as Lr.
  induction k as [|k IH]; intros i Hi Hk; [lia|].
  cbn [addJS_mismatch]. rewrite !jeq_Num.
  destruct (Z.of_nat i =? Z.of_nat (length s)) eqn:E1.
  { apply Z.eqb_eq in E1. replace (lcp s w) with i by lia. reflexivity. }
  apply Z.eqb_neq in E1.
  destruct (Z.of_nat (length w) - Z.of_nat i =? 0) eqn:E2.
  { apply Z.eqb_eq in E2. replace (lcp s w) with i by lia. reflexivity. }
  apply Z.eqb_neq in E2.
  cbn [jadd jsub].
  rewrite (Hseg i) by lia.
  replace (Z.of_nat (length w) - Z.of_nat i - 1)
    with (Z.of_nat (length w) - 1 - Z.of_nat i) by lia.
  rewrite (Hrem i) by lia. rewrite jne_Num.
  destruct (nth i s 0 =? nth i w 0) eqn:E3; cbn [negb].
  - apply Z.eqb_eq in E3.
    assert (i <> lcp s w).
    { intros ->. apply (lcp_nth_ne s w); [lia|lia|exact E3]. }
    replace (Z.of_nat i + 1) with (Z.of_nat (S i)) by lia.
    replace (Z.of_nat (length w) - 1 - Z.of_nat i)
      with (Z.of_nat (length w) - Z.of_nat (S i)) by lia.
    apply IH; lia.
  - apply Z.eqb_neq in E3.
    assert (i = lcp s w).
    { destruct (Nat.eq_dec i (lcp s w)) as [e|n]; [exact e|].
      exfalso. apply E3. apply lcp_nth_eq. lia. }
    subst i. reflexivity.
Qed.

Lemma addJS_loop_stored (st : state) (t : tr) :
  0 <= CHAR0 st -> CHAR1 st <= byteLength (buf st) ->
  TRIE1 st <= byteLength (buf st) ->
  shape 68 (buf st) (CHAR0 st) (CHAR1 st) (TRIE1 st) t -> wf t ->
  forall (w : list Z) (fuel : nat),
    needle_rem st w -> In w (strs t) -> (Trie.size t <= fuel)%nat ->
    addJS_loop fuel (Num (CHAR0 st)) (Num (ptr t))
      (Num (Z.of_nat (length w))) st
    = Ret (Num 0) st.
Proof.
  intros H0 H1 Ht.
  induction t as [|c off s d IHd r IHr|c r IHr];
    intros Hsh Hwf w fuel Hrem Hin Hfuel.
  - destruct Hin.
  - cbn [shape] in Hsh.
    destruct Hsh as (Hc & Hct & Fd & Fr & Fs & Hls & Hoff & Hend & Hb & Hd & Hr).
    cbn [wf] in Hwf. destruct Hwf as (Hs & Hbd & Hhd & Hwd & Hwr).
    assert (Hls1 : (1 <= length s)%nat) by (destruct s; [congruence|cbn; lia]).
    assert (Hw : w <> []).
    { apply (strs_nonempty (Seg c off s d r)); [cbn; tauto|exact Hin]. }
    assert (Hlw : (1 <= length w <= 255)%nat).
    { destruct Hrem as [Hl _]. destruct w; [congruence|cbn in *; lia]. }
    assert (Hseg : seg_at st off s) by (apply C_shape_seg_at; assumption || lia).
    destruct fuel as [|fuel]; [cbn in Hfuel; lia|]. cbn [Trie.size] in Hfuel.
    cbn [addJS_loop ptr jadd]. unfold read32.
    rewrite !get32_fld by lia. rewrite Fs, Fd, Fr.
    rewrite jeq_Num.
    destruct (Z.of_nat (length s) * 2 ^ 24 + off =? 0) eqn:E;
      [apply Z.eqb_eq in E; lia|].
    rewrite seg_word_off, seg_word_len by lia.
    cbn [jadd jsub].
    pose proof (Hseg O ltac:(lia)) as Hs0.
    rewrite Z.add_0_r in Hs0. rewrite Hs0.
    pose proof (proj2 Hrem O ltac:(lia)) as Hw0.
    rewrite Z.sub_0_r in Hw0. rewrite Hw0. rewrite jne_Num.
    cbn [strs] in Hin. apply in_app_or in Hin. destruct Hin as [Hin|Hin].
    + apply in_map_iff in Hin. destruct Hin as (w' & <- & Hin).
      assert (Hhd0 : nth 0 s 0 = nth 0 (s ++ w') 0)
        by (destruct s; [congruence|reflexivity]).
      rewrite <- Hhd0, Z.eqb_refl. cbn [negb].
      assert (Hmis :
        (if jne (Num (Z.of_nat (length s))) (Num 1)
         then addJS_mismatch 256 st (Num (CHAR0 st + off))
                (Num (Z.of_nat (length s))) (Num 1)
                (Num (Z.of_nat (length (s ++ w')) - 1))
         else Some (Num 1, Num (Z.of_nat (length (s ++ w')) - 1)))
        = Some (Num (Z.of_nat (length s)),
                Num (Z.of_nat (length w')))).
      { rewrite jne_Num.
        destruct (Z.of_nat (length s) =? 1) eqn:E1; cbn [negb].
        - apply Z.eqb_eq in E1. rewrite length_app. do 3 f_equal; lia.
        - pose proof (addJS_mismatch_spec st off s (s ++ w') Hseg Hrem
                        256 1) as HM.
          rewrite lcp_app in HM. change (Z.of_nat 1) with 1 in HM.
          rewrite HM by lia.
          rewrite length_app. do 3 f_equal. lia. }
      rewrite Hmis. rewrite !jeq_Num, Z.eqb_refl.
      destruct w' as [|x w'].
      * cbn [length]. change (Z.of_nat 0) with 0. cbn [Z.eqb].
        destruct r as [|rc roff rs rd rr|rc rr].
        -- cbn [ptr Z.eqb orb]. reflexivity.
        -- exfalso. apply (strs_nonempty _ [] Hwr Hin). reflexivity.
        -- cbn [shape] in Hr.
           destruct Hr as (Hrc & Hrt & _ & _ & Frs & _).
           cbn [ptr jadd]. rewrite get32_fld by lia. rewrite Frs.
           rewrite jeq_Num. cbn [Z.eqb]. rewrite orb_true_r. reflexivity.
      * assert (Hne : (Z.of_nat (length (x :: w')) =? 0) = false)
          by (apply Z.eqb_neq; cbn [length]; lia).
        rewrite Hne.
        assert (Hin' : In (x :: w') (strs r) /\ 68 <= ptr r).
        { destruct r as [|rc roff rs rd rr|rc rr].
          - destruct Hin as [Hin|[]]. discriminate.
          - cbn [rest_strs] in Hin. split; [exact Hin|].
            cbn [shape] in Hr. cbn [ptr]. tauto.
          - cbn [rest_strs] in Hin. destruct Hin as [Hin|Hin]; [discriminate|].
            split; [exact Hin|]. cbn [shape] in Hr. cbn [ptr]. tauto. }
        destruct Hin' as [Hin' Hp].
        rewrite jne_Num.
        destruct (ptr r =? 0) eqn:E2; [apply Z.eqb_eq in E2; lia|].
        cbn [negb].
        apply IHr; try assumption.
        -- apply (C_needle_rem_app st s). exact Hrem.
        -- lia.
    + assert (Hd' : is_seg d = true /\ 68 <= ptr d).
      { destruct d as [|dc doff ds dd dr|dc dr]; [destruct Hin| |discriminate].
        split; [reflexivity|]. cbn [shape] in Hd. cbn [ptr]. tauto. }
      destruct Hd' as [_ Hp].
      assert (Hh : nth 0 s 0 <> nth 0 w 0).
      { intros E'. apply Hhd.
        replace (hd 0 s) with (hd 0 w).
        - apply strs_heads; assumption.
        - destruct s, w; try congruence. cbn in *. congruence. }
      destruct (nth 0 s 0 =? nth 0 w 0) eqn:E1; [apply Z.eqb_eq in E1; lia|].
      cbn [negb]. rewrite jeq_Num.
      destruct (ptr d =? 0) eqn:E2; [apply Z.eqb_eq in E2; lia|].
      apply IHd; try assumption. lia.
  - cbn [shape] in Hsh. destruct Hsh as (Hc & Hct & Fd & Fr & Fs & Hr).
    cbn [wf] in Hwf. destruct Hwf as (Hsr & Hwr).
    destruct fuel as [|fuel]; [cbn in Hfuel; lia|]. cbn [Trie.size] in Hfuel.
    cbn [addJS_loop ptr jadd]. unfold read32.
    rewrite !get32_fld by lia. rewrite Fs, Fr.
    rewrite jeq_Num. cbn [Z.eqb].
    apply IHr; try assumption. lia.
Qed.

End ContainerAdd.

Section ContainerKeep.

Import Trie Container ContainerInv.

Lemma C_setNeedle_loop_eq : Container.setNeedle_loop = Manager.setNeedle_loop.
Proof. reflexivity. Qed.

Lemma needle_bytes_length_le (lim : nat) (s : jsstring) :
  (length (needle_bytes lim s) <= lim)%nat
  /\ (length (needle_bytes lim s) <= length s)%nat.
Proof. unfold needle_bytes. rewrite length_map, length_firstn. lia. Qed.

Lemma needle_bytes_nth_gen (lim : nat) (s : jsstring) (x : nat) :
  (x < length (needle_bytes lim s))%nat ->
  nth x (needle_bytes lim s) 0 = nth x s 0 mod 256.
Proof.
  unfold needle_bytes. rewrite length_map, length_firstn. intros H.
  change 0 with ((fun z => z mod 256) 0) at 1.
  rewrite map_nth. f_equal. rewrite nth_firstn.
  destruct (x <? lim)%nat eqn:E; [reflexivity|apply Nat.ltb_ge in E; lia].
Qed.

Lemma C_setNeedle_spec (hn : jsstring) (st : state) :
  256 <= byteLength (buf st) -> needle_ok st ->
  let st' := setNeedle hn st in
  needle st' = hn /\ needle_ok st'
  /\ wasmMemory st' = wasmMemory st
  /\ byteLength (buf st') = byteLength (buf st)
  /\ (forall a, 256 <= a -> byte (buf st') a = byte (buf st) a).
Proof.
  intros Hl Hok. unfold setNeedle. case_decide as E.
  - subst hn. cbn zeta. repeat split; try reflexivity; apply Hok.
  - cbn zeta. cbn [needle wasmMemory buf]. rewrite C_setNeedle_loop_eq.
    set (k := if Z.of_nat (length hn) >? 254 then 254
              else Z.of_nat (length hn)).
    assert (Hk : 0 <= k <= 254 /\ (Z.to_nat k <= length hn)%nat).
    { subst k. destruct (Z.of_nat (length hn) >? 254) eqn:E'; lia. }
    assert (Hnl : Z.of_nat (length (needle_bytes 254 hn)) = k).
    { subst k. unfold needle_bytes. rewrite length_map, length_firstn.
      destruct (Z.of_nat (length hn) >? 254) eqn:E'; lia. }
    split; [reflexivity|]. split.
    + unfold needle_ok. cbn [needle buf]. split.
      * rewrite setNeedle_loop_above by lia.
        rewrite byte_set8_same by (unfold in_range; lia).
        cbn [ToUint8]. rewrite Z.mod_mod by lia.
        rewrite Z.mod_small by lia. lia.
      * apply bytes_at_eq. intros x Hx.
        rewrite Z.add_0_l.
        rewrite setNeedle_loop_below;
          [|lia|lia|rewrite byteLength_set8; lia].
        rewrite Z.mod_mod by lia. symmetry.
        apply needle_bytes_nth_gen. exact Hx.
    + repeat split; try reflexivity.
      * rewrite setNeedle_loop_length. apply byteLength_set8.
      * intros a Ha. rewrite setNeedle_loop_above by lia.
        apply byte_set8_other. lia.
Qed.

Lemma C_needle_ok_rem (st : state) :
  256 <= byteLength (buf st) -> needle_ok st ->
  needle_rem st (rev (needle_bytes 254 (needle st))).
Proof.
  intros Hl [H255 Hb]. set (nb := needle_bytes 254 (needle st)) in *.
  assert (Hn : (length nb <= 254)%nat)
    by (subst nb; apply needle_bytes_length_le).
  split; [rewrite length_rev; lia|].
  intros x Hx. rewrite length_rev in *. unfold read8.
  rewrite get8_in by lia. f_equal.
  rewrite rev_nth by exact Hx.
  transitivity (nth (length nb - S x) (bytes_at (buf st) 0 (length nb)) 0);
    [|rewrite Hb; reflexivity].
  rewrite bytes_at_nth by lia. do 2 f_equal. lia.
Qed.

Lemma C_same_trie_refl (st : state) : geom st -> same_trie st st.
Proof.
  intros (H1 & H2 & H3 & H4 & H5 & H6). unfold same_trie.
  repeat split; try reflexivity; lia.
Qed.

(** What [growBuf] computes and leaves. *)
Lemma C_growBuf_full (st : state) :
  geom st ->
  let c0 := Z.max (band (Num (TRIE1 st + 24 + 65535)) (Num (bnot 65535)))
                  (CHAR0 st) in
  let buf1 :=
    Z.max (band (Num (c0 + CHAR1 st - CHAR0 st + 256 + 65535))
                (Num (bnot 65535)))
          (byteLength (buf st)) in
  exists st',
    growBuf st = Ret tt st' /\ same_trie st st'
    /\ wasmMemory st' = wasmMemory st
    /\ ((buf1 = byteLength (buf st) /\ st' = st)
        \/ (buf1 <> byteLength (buf st) /\ CHAR0 st' = c0
            /\ byteLength (buf st') = buf1)).
Proof.
  intros G. pose proof G as (H1 & H2 & H3 & H4 & H5 & H6). cbn zeta.
  unfold growBuf.
  rewrite read_TRIE1, read_CHAR0, read_CHAR1 by lia.
  cbn [jadd].
  pose proof (round_up_64k (TRIE1 st + 24) ltac:(lia)) as R0. cbn zeta in R0.
  set (r0 := band (Num (TRIE1 st + 24 + 65535)) (Num (bnot 65535))) in *.
  cbn [jmax jadd jsub].
  set (c0 := Z.max r0 (CHAR0 st)).
  assert (Hc0 : TRIE1 st + 24 <= c0 /\ CHAR0 st <= c0
                /\ c0 <= CHAR0 st + TRIE1 st + 24 + 65536) by lia.
  pose proof (round_up_64k (c0 + CHAR1 st - CHAR0 st + 256) ltac:(lia)) as R1.
  cbn zeta in R1.
  set (r1 := band (Num (c0 + CHAR1 st - CHAR0 st + 256 + 65535))
                  (Num (bnot 65535))) in *.
  set (buf1 := Z.max r1 (byteLength (buf st))).
  unfold resizeBuf. rewrite jeq_Num.
  destruct (buf1 =? byteLength (buf st)) eqn:E.
  - apply Z.eqb_eq in E. exists st. split; [reflexivity|].
    split; [apply C_same_trie_refl; exact G|].
    split; [reflexivity|]. left. split; [exact E|reflexivity].
  - apply Z.eqb_neq in E.
    assert (Hb1 : buf1 = r1) by lia.
    rewrite read_TRIE1, read_CHAR0, read_CHAR1 by lia.
    cbn [jsub]. rewrite H6.
    destruct (buf1 <? 0) eqn:E0; [lia|].
    assert (V1 : view_ok (buf st) 0 (TRIE1 st)
                 && set_ok (alloc buf1) (TRIE1 st) 0 = true).
    { unfold view_ok, set_ok. cbn [alloc byteLength].
      repeat (apply andb_true_intro; split); lia. }
    rewrite V1. cbn [negb].
    assert (V2 : view_ok (buf st) (CHAR0 st) (CHAR1 st - CHAR0 st)
                 && set_ok (blit (buf st) 0 (TRIE1 st) (alloc buf1) 0)
                      (CHAR1 st - CHAR0 st) c0 = true).
    { unfold view_ok, set_ok. cbn [blit alloc byteLength].
      repeat (apply andb_true_intro; split); lia. }
    rewrite V2. cbn [negb].
    assert (M4 : (buf1 mod 4 =? 0) = true).
    { apply Z.eqb_eq. rewrite Hb1. destruct R1 as [_ R1].
      apply Z.mod_divide in R1; [|lia]. destruct R1 as [q ->].
      replace (q * 65536) with (q * 16384 * 4) by lia. apply Z.mod_mul. lia. }
    rewrite M4. cbn [negb].
    eexists. split; [reflexivity|].
    set (nb := blit (buf st) (CHAR0 st) (CHAR1 st - CHAR0 st)
                 (blit (buf st) 0 (TRIE1 st) (alloc buf1) 0) c0).
    assert (Lnb : byteLength nb = buf1) by reflexivity.
    assert (Low : forall a, 0 <= a < TRIE1 st ->
                    byte nb a mod 256 = byte (buf st) a mod 256).
    { intros a Ha. subst nb. cbn [blit byte].
      destruct ((c0 <=? a) && (a <? c0 + (CHAR1 st - CHAR0 st))) eqn:Ea; [lia|].
      destruct ((0 <=? a) && (a <? 0 + TRIE1 st)) eqn:Eb; [|lia].
      rewrite Z.mod_mod by lia. do 2 f_equal. lia. }
    assert (Pool : forall i, 0 <= i < CHAR1 st - CHAR0 st ->
                    byte nb (c0 + i) mod 256
                    = byte (buf st) (CHAR0 st + i) mod 256).
    { intros i Hi. subst nb. cbn [blit byte].
      destruct ((c0 <=? c0 + i) && (c0 + i <? c0 + (CHAR1 st - CHAR0 st)))
        eqn:Ea; [|lia].
      rewrite Z.mod_mod by lia. do 2 f_equal. lia. }
    clearbody nb.
    unfold write32, with_buf. cbn [buf needle wasmMemory].
    rewrite slot_CHAR0, slot_CHAR1.
    set (b1 := set32 nb (Num 66) (Num c0)).
    set (b2 := set32 b1 (Num 67) (Num (c0 + CHAR1 st - CHAR0 st))).
    assert (Lb2 : byteLength b2 = buf1).
    { subst b2 b1. rewrite !byteLength_set32. exact Lnb. }
    assert (Hbytes : forall a, a < 264 \/ 272 <= a -> byte b2 a = byte nb a).
    { intros a Ha. subst b2 b1. rewrite !byte_set32_other by lia. reflexivity. }
    assert (T' : fld b2 65 0 = TRIE1 st).
    { unfold TRIE1. rewrite slot_TRIE1. unfold fld. apply word_ext.
      intros i Hi. rewrite Hbytes by lia. apply Low. lia. }
    assert (C0' : fld b2 66 0 = c0).
    { subst b2. rewrite fld_set32_other by lia. subst b1.
      change (Num 66) with (Num (66 + 0)).
      apply fld_set32_same; lia. }
    assert (C1' : fld b2 67 0 = c0 + CHAR1 st - CHAR0 st).
    { subst b2 b1. change (Num 67) with (Num (67 + 0)).
      apply fld_set32_same; rewrite ?byteLength_set32; lia. }
    split; [|split; [exact H6|right; split; [exact E|split; [exact C0'|exact Lb2]]]].
    unfold same_trie, TRIE1, CHAR0, CHAR1. cbn [buf needle].
    rewrite slot_TRIE1, slot_CHAR0, slot_CHAR1, T', C0', C1'.
    fold (TRIE1 st) (CHAR0 st) (CHAR1 st).
    unfold TRIE1, CHAR0, CHAR1 in *.
    rewrite slot_TRIE1, slot_CHAR0, slot_CHAR1 in *.
    repeat split; try lia.
    + intros a Ha. rewrite Hbytes by lia. apply Low. lia.
    + intros a Ha. rewrite Hbytes by lia. apply Low. lia.
    + intros i Hi. rewrite Hbytes by lia. apply Pool. lia.
Qed.

Lemma C_growBuf_spec (st : state) :
  geom st -> exists st', growBuf st = Ret tt st' /\ same_trie st st'.
Proof.
  intros G. destruct (C_growBuf_full st G) as (st' & E & S & _).
  exists st'. split; assumption.
Qed.

Lemma C_same_trie_shape (st st' : state) (t : tr) :
  same_trie st st' ->
  shape 68 (buf st) (CHAR0 st) (CHAR1 st) (TRIE1 st) t ->
  shape 68 (buf st') (CHAR0 st') (CHAR1 st') (TRIE1 st') t.
Proof.
  intros (T1 & _ & C & _ & _ & _ & _ & Hc & Hp) Hsh. rewrite T1.
  apply (shape_ext 68 (buf st) _ (CHAR0 st) _ (CHAR1 st)); try assumption.
  lia.
Qed.

Lemma C_same_trie_needle_ok (st st' : state) :
  same_trie st st' -> needle_ok st -> needle_ok st'.
Proof.
  intros (T1 & N & _ & _ & _ & _ & Hn & _ & _) [H255 Hb].
  unfold needle_ok. rewrite N. cbn zeta in *.
  set (nb := needle_bytes 254 (needle st)) in *.
  assert (Hl : (length nb <= 254)%nat)
    by (subst nb; apply needle_bytes_length_le).
  split.
  - rewrite Hn by lia. exact H255.
  - rewrite <- Hb at 2. apply bytes_at_ext. intros i Hi. apply Hn. lia.
Qed.

(** C4 for the container (hnbigtrie.wat, [addJS], lines 1635-1731): on a
    hostname that the trie holds, [addJS] returns 0, the end of the cells
    is where it was and the cells still encode the trie. *)
Theorem Container_addJS_is_idempotent (st : state) (t : tr) (hn : jsstring)
    (fuel : nat) :
  trie_at st t -> stored t hn -> (Trie.size t <= fuel)%nat ->
  exists st',
    addJS fuel (Num (ptr t)) (setNeedle hn st) = Ret (Num 0) st'
    /\ TRIE1 st' = TRIE1 st
    /\ shape 68 (buf st') (CHAR0 st') (CHAR1 st') (TRIE1 st') t.
Proof.
  intros (G & Nok & Hsh & Hwf & Hseg) Hst Hfuel.
  pose proof G as (G1 & G2 & G3 & G4 & G5 & G6).
  destruct (C_setNeedle_spec hn st ltac:(lia) Nok)
    as (N0 & Nok0 & W0 & L0 & B0).
  set (st0 := setNeedle hn st) in *.
  assert (F0 : forall c k, 64 <= c -> 0 <= k ->
                 fld (buf st0) c k = fld (buf st) c k).
  { intros c k Hc Hk. unfold fld. apply word_ext. intros i Hi.
    rewrite B0 by lia. reflexivity. }
  assert (T0 : TRIE1 st0 = TRIE1 st)
    by (unfold TRIE1; rewrite slot_TRIE1; apply F0; lia).
  assert (C0 : CHAR0 st0 = CHAR0 st)
    by (unfold CHAR0; rewrite slot_CHAR0; apply F0; lia).
  assert (C1 : CHAR1 st0 = CHAR1 st)
    by (unfold CHAR1; rewrite slot_CHAR1; apply F0; lia).
  assert (Hsh0 : shape 68 (buf st0) (CHAR0 st0) (CHAR1 st0) (TRIE1 st0) t).
  { rewrite T0. apply (shape_ext 68 (buf st) _ (CHAR0 st) _ (CHAR1 st)).
    - lia.
    - intros a Ha. rewrite B0 by lia. reflexivity.
    - intros i Hi. rewrite C0, B0 by lia. reflexivity.
    - lia.
    - exact Hsh. }
  assert (G0 : geom st0)
    by (unfold geom; rewrite T0, C0, C1, L0, W0; exact G).
  set (nb := needle_bytes 254 hn) in *.
  assert (Hn : (length nb <= 254)%nat)
    by (subst nb; apply needle_bytes_length_le).
  unfold addJS.
  assert (R255 : read8 st0 255 = Num (Z.of_nat (length nb))).
  { unfold read8. rewrite get8_in by lia. f_equal.
    destruct Nok0 as [H _]. rewrite N0 in H. exact H. }
  rewrite R255. rewrite jeq_Num.
  destruct (Z.of_nat (length nb) =? 0) eqn:E.
  - exists st0. repeat split; assumption.
  - destruct t as [|c off s d r|]; try discriminate.
    pose proof Hsh0 as Hsh0'. cbn [shape] in Hsh0'.
    destruct Hsh0' as (Hc & Hct & _ & _ & Fs & Hls & Hoff & _).
    cbn [ptr jadd]. unfold read32 at 1. rewrite get32_fld by lia. rewrite Fs.
    rewrite jeq_Num.
    assert (Hs : s <> []) by (cbn [wf] in Hwf; tauto).
    destruct (Z.of_nat (length s) * 2 ^ 24 + off =? 0) eqn:E';
      [apply Z.eqb_eq in E'; destruct s; [congruence|cbn [length] in E'; lia]|].
    assert (HG : exists st1,
      (if jlt (jsub (read32 st0 HNBIGTRIE_CHAR0_SLOT)
                    (read32 st0 HNBIGTRIE_TRIE1_SLOT)) 24
          || jlt (jsub (byteLength (buf st0))
                       (read32 st0 HNBIGTRIE_CHAR1_SLOT)) 256
       then growBuf st0 else Ret tt st0) = Ret tt st1
      /\ same_trie st0 st1).
    { destruct (jlt _ _ || jlt _ _).
      - apply C_growBuf_spec. exact G0.
      - exists st0. split; [reflexivity|]. apply C_same_trie_refl. exact G0. }
    destruct HG as (st1 & HG & Hsame). rewrite HG. cbn [bind].
    pose proof (C_same_trie_shape st0 st1 _ Hsame Hsh0) as Hsh1.
    pose proof (C_same_trie_needle_ok st0 st1 Hsame Nok0) as Nok1.
    destruct Hsame as (T1 & N1 & Cd & Hc0 & Hc1 & Ht1 & _ & _ & _).
    assert (L1 : 272 <= byteLength (buf st1)) by lia.
    rewrite read_CHAR0 by lia.
    exists st1. split; [|split; [lia|exact Hsh1]].
    replace (length nb) with (length (rev nb)) by apply length_rev.
    apply (addJS_loop_stored st1 (Seg c off s d r)); try assumption.
    subst nb. replace hn with (needle st1) by (rewrite N1; exact N0).
    apply C_needle_ok_rem; [lia|exact Nok1].
Qed.

End ContainerKeep.

(** *** [add] on a hostname that is not stored, and [fromIterable] *)

Section Frames.
Import Trie Manager ManagerInv.

Lemma ToUint32_range (v : jsval) : 0 <= ToUint32 v < 2 ^ 32.
Proof.
  destruct v as [z| |]; cbn [ToUint32]; [apply Z.mod_pos_bound|..]; lia.
Qed.

Lemma set32_ToUint32 (b : ArrayBuffer) (i v : jsval) :
  set32 b i v = set32 b i (Num (ToUint32 v)).
Proof.
  unfold set32. destruct i as [i| |]; try reflexivity.
  destruct ((0 <=? i) && (i <? length32 b)); [|reflexivity].
  cbn [ToUint32]. rewrite (Z.mod_small (ToUint32 v) (2 ^ 32)) by apply ToUint32_range.
  reflexivity.
Qed.

Lemma fld_set32_any (b : ArrayBuffer) (c k : Z) (v : jsval) :
  0 <= c + k -> 4 * (c + k) + 4 <= byteLength b ->
  fld (set32 b (Num (c + k)) v) c k = ToUint32 v.
Proof.
  intros H0 H1. rewrite set32_ToUint32.
  apply fld_set32_same; [assumption..|apply ToUint32_range].
Qed.

Lemma frame_refl (cs : list Z) (st : state) : frame cs st st.
Proof. unfold frame. repeat split; try reflexivity; lia. Qed.

Lemma frame_trans (cs cs' : list Z) (st st1 st2 : state) :
  frame cs st st1 -> frame cs' st1 st2 -> frame (cs ++ cs') st st2.
Proof.
  intros (A1 & A2 & A3 & A4 & A5 & A6 & A7) (B1 & B2 & B3 & B4 & B5 & B6 & B7).
  unfold frame. repeat split; try congruence; try lia.
  - intros c k H1 H2 H3 H4 H5.
    rewrite B6, A6; try assumption; try lia; try reflexivity;
      intros Hin; apply H5; apply in_or_app; tauto.
  - intros a Ha. rewrite B7, A7; try reflexivity; try assumption.
    rewrite A1. lia.
Qed.

Lemma frame_weaken (cs cs' : list Z) (st st' : state) :
  incl cs cs' -> frame cs st st' -> frame cs' st st'.
Proof.
  intros Hi (A1 & A2 & A3 & A4 & A5 & A6 & A7).
  unfold frame. repeat split; try assumption.
  intros c k H1 H2 H3 H4 H5. apply A6; try assumption.
  intros Hin. apply H5, Hi, Hin.
Qed.

Lemma write32_frame (c k : Z) (v : jsval) (st : state) :
  64 <= c -> aligned c -> 0 <= k < 3 ->
  4 * c + 12 <= trie1 st -> trie1 st <= char0 st ->
  char0 st <= byteLength (buf st) ->
  let st' := write32 (Num (c + k)) v st in
  frame [c] st st'
  /\ trie1 st' = trie1 st /\ char1 st' = char1 st
  /\ segments st' = segments st
  /\ fld (buf st') c k = ToUint32 v
  /\ (forall k', k' <> k -> fld (buf st') c k' = fld (buf st) c k').
Proof.
  intros Hc Ha Hk Ht Hc0 Hb. cbn zeta. unfold write32, with_buf.
  cbn [buf trie1 char1 segments].
  split; [|split; [reflexivity|split; [reflexivity|split; [reflexivity|split]]]].
  - unfold frame. cbn [buf trie1 char0 char1 needle].
    rewrite byteLength_set32.
    repeat split; try reflexivity; try lia.
    + intros c' k' H1 H2 H3 H4 H5. apply fld_set32_other.
      unfold aligned in *. intros E. apply H5. left.
      Z.to_euclidean_division_equations. lia.
    + intros a Ha'. rewrite byte_set32_other by lia. reflexivity.
  - apply fld_set32_any; lia.
  - intros k' Hk'. apply fld_set32_other. lia.
Qed.

End Frames.

Section Alloc.
Import Trie Manager ManagerInv.

Lemma frame_new (cs : list Z) (st st' : state) :
  (forall c, In c cs -> trie1 st <= 4 * c) ->
  frame cs st st' -> frame [] st st'.
Proof.
  intros Hn (A1 & A2 & A3 & A4 & A5 & A6 & A7).
  unfold frame. repeat split; try assumption.
  intros c k H1 H2 H3 H4 _. apply A6; try assumption.
  intros Hin. apply Hn in Hin. lia.
Qed.

Lemma ushr_2 (t : Z) : 0 <= t < 2 ^ 32 -> ushr (Num t) 2 = t / 4.
Proof.
  intros H. unfold ushr, ToUint32. rewrite Z.mod_small by lia.
  change (2 mod 32) with 2. rewrite Z.shiftr_div_pow2 by lia. reflexivity.
Qed.

Lemma cell_of_trie1 (t : Z) :
  256 <= t -> (t - 256) mod 12 = 0 ->
  4 * (t / 4) = t /\ aligned (t / 4) /\ 64 <= t / 4.
Proof.
  intros H0 H1. unfold aligned. Z.to_euclidean_division_equations. lia.
Qed.

(** [newCell] takes the 12 bytes at [trie1]. *)
Lemma newCell_spec (d r v : jsval) (st : state) :
  256 <= trie1 st -> (trie1 st - 256) mod 12 = 0 ->
  trie1 st + 12 <= char0 st -> char0 st <= byteLength (buf st) ->
  byteLength (buf st) <= 2 ^ 30 ->
  let n := trie1 st / 4 in
  exists st',
    newCell d r v st = (Num n, st')
    /\ frame [] st st'
    /\ trie1 st' = trie1 st + 12 /\ char1 st' = char1 st
    /\ segments st' = segments st
    /\ fld (buf st') n 0 = ToUint32 d
    /\ fld (buf st') n 1 = ToUint32 r
    /\ fld (buf st') n 2 = ToUint32 v.
Proof.
  intros H0 H1 H2 H3 H4. cbn zeta.
  destruct (cell_of_trie1 (trie1 st) H0 H1) as (E4 & Al & Hn).
  unfold newCell. rewrite ushr_2 by lia. cbn [jadd].
  set (n := trie1 st / 4) in *.
  set (st0 := with_trie1 st (trie1 st + 12)).
  assert (F0 : frame [] st st0).
  { unfold frame, st0. cbn [with_trie1 buf trie1 char0 char1 needle].
    repeat split; try reflexivity; lia. }
  destruct (write32_frame n 0 d st0) as (F1 & T1 & C1 & S1 & V1 & O1);
    try assumption; try (subst st0; cbn [with_trie1 trie1 char0 buf]; lia).
  set (st1 := write32 (Num (n + 0)) d st0) in *.
  assert (B1 : byteLength (buf st1) = byteLength (buf st))
    by (destruct F1 as (_ & -> & _); reflexivity).
  assert (K1 : char0 st1 = char0 st)
    by (destruct F1 as (-> & _); reflexivity).
  destruct (write32_frame n 1 r st1) as (F2 & T2 & C2 & S2 & V2 & O2);
    try assumption;
    try (rewrite ?T1, ?K1, ?B1; subst st0;
         cbn [with_trie1 trie1 char0 buf]; lia).
  set (st2 := write32 (Num (n + 1)) r st1) in *.
  assert (B2 : byteLength (buf st2) = byteLength (buf st))
    by (destruct F2 as (_ & -> & _); exact B1).
  assert (K2 : char0 st2 = char0 st)
    by (destruct F2 as (-> & _); exact K1).
  destruct (write32_frame n 2 v st2) as (F3 & T3 & C3 & S3 & V3 & O3);
    try assumption;
    try (rewrite ?T2, ?T1, ?K2, ?B2; subst st0;
         cbn [with_trie1 trie1 char0 buf]; lia).
  set (st3 := write32 (Num (n + 2)) v st2) in *.
  exists st3. split; [reflexivity|].
  split.
  { apply (frame_new ([] ++ [n] ++ [n] ++ [n])).
    - intros c Hc. cbn in Hc. lia.
    - eapply frame_trans; [exact F0|].
      eapply frame_trans; [exact F1|].
      eapply frame_trans; [exact F2|exact F3]. }
  split; [rewrite T3, T2, T1; reflexivity|].
  split; [rewrite C3, C2, C1; reflexivity|].
  split; [rewrite S3, S2, S1; reflexivity|].
  split; [rewrite O3, O2 by lia; exact V1|].
  split; [rewrite O3 by lia; exact V2|exact V3].
Qed.

(** The packed word [len << 24 | off], as stored in a [Uint32Array]. *)
Lemma ToInt32_idem (v : jsval) : ToInt32 (Num (ToInt32 v)) = ToInt32 v.
Proof.
  destruct v as [z| |]; try reflexivity. unfold ToInt32.
  replace (((z + 2 ^ 31) mod 2 ^ 32 - 2 ^ 31 + 2 ^ 31))
    with ((z + 2 ^ 31) mod 2 ^ 32) by lia.
  rewrite Z.mod_mod by lia. reflexivity.
Qed.

Lemma ToInt32_mod32 (z : Z) : ToInt32 (Num z) mod 2 ^ 32 = z mod 2 ^ 32.
Proof.
  unfold ToInt32. Z.to_euclidean_division_equations. lia.
Qed.

Lemma seg_word_make (len off : Z) :
  0 <= len < 256 -> 0 <= off < 2 ^ 24 ->
  ToUint32 (Num (bor (Num (shl (Num len) 24)) (Num off)))
  = len * 2 ^ 24 + off.
Proof.
  intros Hl Ho. unfold bor, shl. rewrite ToInt32_idem.
  change (24 mod 32) with 24.
  rewrite (ToInt32_small len), (ToInt32_small off) by lia.
  rewrite Z.shiftl_mul_pow2 by lia.
  cbn [ToUint32]. rewrite <- Z.land_ones by lia.
  rewrite Z.land_lor_distr_l. rewrite !Z.land_ones by lia.
  rewrite ToInt32_mod32.
  rewrite (Z.mod_small (len * 2 ^ 24)) by lia.
  rewrite (Z.mod_small off) by lia.
  symmetry. apply Z.add_nocarry_lor.
  rewrite <- (Z.mod_small off (2 ^ 24)) by lia.
  rewrite <- (Z.land_ones off 24) by lia.
  rewrite (Z.land_comm off), Z.land_assoc.
  rewrite (Z.land_ones (len * 2 ^ 24)) by lia.
  rewrite Z.mod_mul by lia. apply Z.land_0_l.
Qed.

End Alloc.

Section Store.
Import Trie Manager ManagerInv.

Lemma storeSegment_loop_spec (i : nat) (st : state) :
  (i <= 255)%nat -> 256 <= char1 st ->
  char1 st + Z.of_nat i <= byteLength (buf st) ->
  let st' := storeSegment_loop i st in
  char1 st' = char1 st + Z.of_nat i
  /\ trie1 st' = trie1 st /\ char0 st' = char0 st
  /\ needle st' = needle st /\ segments st' = segments st
  /\ byteLength (buf st') = byteLength (buf st)
  /\ (forall a, a < char1 st \/ char1 st + Z.of_nat i <= a ->
        byte (buf st') a = byte (buf st) a)
  /\ (forall x : nat, (x < i)%nat ->
        byte (buf st') (char1 st + Z.of_nat x) mod 256
        = byte (buf st) (Z.of_nat i - 1 - Z.of_nat x) mod 256).
Proof.
  revert st. induction i as [|i IH]; intros st Hi H1 HB; cbn zeta.
  - cbn [storeSegment_loop]. repeat split; try reflexivity; try lia.
  - cbn [storeSegment_loop].
    set (st1 := write8 (Num (char1 st))
                  (read8 (with_char1 st (char1 st + 1)) (Num (Z.of_nat i)))
                  (with_char1 st (char1 st + 1))).
    assert (R : read8 (with_char1 st (char1 st + 1)) (Num (Z.of_nat i))
                = Num (byte (buf st) (Z.of_nat i) mod 256)).
    { unfold read8. cbn [with_char1 buf]. apply get8_in. lia. }
    assert (L1 : byteLength (buf st1) = byteLength (buf st)).
    { subst st1. unfold write8, with_buf. cbn [buf with_char1].
      apply byteLength_set8. }
    assert (C1 : char1 st1 = char1 st + 1) by reflexivity.
    specialize (IH st1 ltac:(lia) ltac:(lia) ltac:(lia)). cbn zeta in IH.
    destruct IH as (I1 & I2 & I3 & I4 & I5 & I6 & I7 & I8).
    assert (O1 : forall a, a <> char1 st -> byte (buf st1) a = byte (buf st) a).
    { intros a Ha. subst st1. unfold write8, with_buf. cbn [buf with_char1].
      apply byte_set8_other. exact Ha. }
    assert (S1 : byte (buf st1) (char1 st)
                 = byte (buf st) (Z.of_nat i) mod 256).
    { subst st1. unfold write8, with_buf. cbn [buf with_char1].
      rewrite byte_set8_same by (unfold in_range; lia).
      fold (with_char1 st (char1 st + 1)). rewrite R.
      cbn [ToUint8]. apply Z.mod_mod. lia. }
    split; [lia|]. split; [exact I2|]. split; [exact I3|].
    split; [exact I4|]. split; [exact I5|]. split; [lia|]. split.
    + intros a Ha. rewrite I7 by lia. apply O1. lia.
    + intros x Hx. destruct x as [|x].
      * rewrite Z.add_0_r. rewrite I7 by lia. rewrite S1.
        rewrite Z.mod_mod by lia. do 2 f_equal. lia.
      * replace (char1 st + Z.of_nat (S x)) with (char1 st1 + Z.of_nat x)
          by lia.
        rewrite I8 by lia. rewrite O1 by lia. do 2 f_equal. lia.
Qed.

Lemma rem_of_length (st : state) (w : list Z) :
  rem_of st w -> (length w <= 255)%nat /\ (length w <= length (needle st))%nat.
Proof.
  intros [p E]. apply (f_equal (@length Z)) in E.
  rewrite length_rev, length_app in E. unfold needle_bytes in E.
  rewrite length_map, length_firstn in E. lia.
Qed.

Lemma rem_of_key (st : state) (w : list Z) :
  rem_of st w ->
  rev (map (fun z => z mod 256) (firstn (length w) (needle st))) = w.
Proof.
  intros H. pose proof (rem_of_length st w H) as [L1 L2].
  destruct H as [p E].
  assert (E' : needle_bytes 255 (needle st) = rev w ++ rev p).
  { rewrite <- rev_app_distr, <- E, rev_involutive. reflexivity. }
  apply (f_equal (firstn (length w))) in E'.
  rewrite <- (length_rev w) in E' at 2.
  rewrite firstn_app, Nat.sub_diag, firstn_O, app_nil_r, firstn_all in E'.
  unfold needle_bytes in E'. rewrite <- firstn_map in E'.
  rewrite firstn_firstn in E'.
  replace (Nat.min (length w) 255) with (length w) in E' by lia.
  rewrite <- firstn_map. rewrite E'. apply rev_involutive.
Qed.

Lemma rem_of_needle_rem (st : state) (w : list Z) :
  256 <= byteLength (buf st) -> needle_ok st -> rem_of st w ->
  needle_rem st w.
Proof.
  intros Hl Hok [p E]. apply (needle_rem_app st p).
  rewrite <- E. apply needle_ok_rem; assumption.
Qed.

Lemma rem_of_app (st : state) (s w : list Z) :
  rem_of st (s ++ w) -> rem_of st w.
Proof. intros [p E]. exists (p ++ s). rewrite <- app_assoc. exact E. Qed.

(** [storeSegment] returns the packed word of a copy of the bytes to
    consume, found in [segments] or appended to the character data. *)
Lemma storeSegment_spec (w : list Z) (st : state) :
  needle_ok st -> rem_of st w -> w <> [] -> segs_ok st ->
  256 <= trie1 st -> trie1 st <= char0 st -> char0 st <= char1 st ->
  char1 st + Z.of_nat (length w) <= byteLength (buf st) ->
  char1 st - char0 st + Z.of_nat (length w) <= 2 ^ 24 ->
  exists (v o : Z) (st' : state),
    storeSegment (Num (Z.of_nat (length w))) st = (Num v, st')
    /\ ToUint32 (Num v) = Z.of_nat (length w) * 2 ^ 24 + o
    /\ 0 <= o /\ o + Z.of_nat (length w) <= char1 st' - char0 st
    /\ bytes_at (buf st') (char0 st + o) (length w) = w
    /\ frame [] st st'
    /\ trie1 st' = trie1 st
    /\ char1 st' <= char1 st + Z.of_nat (length w)
    /\ segs_ok st'.
Proof.
  intros Nok Hrem Hw Sok H0 H1 H2 H3 H4.
  pose proof (rem_of_length st w Hrem) as [L1 L2].
  assert (L0 : (1 <= length w)%nat) by (destruct w; [congruence|cbn; lia]).
  pose proof (rem_of_key st w Hrem) as Hkey.
  unfold storeSegment. rewrite jeq_Num.
  destruct (Z.of_nat (length w) =? 0) eqn:E; [lia|].
  cbn [slice0].
  destruct (0 <=? Z.of_nat (length w)) eqn:E0; [|lia].
  rewrite Nat2Z.id.
  set (key := firstn (length w) (needle st)) in *.
  assert (Lk : length key = length w).
  { subst key. rewrite length_firstn. lia. }
  match goal with
  | |- context [match ?x with Some _ => _ | None => _ end] =>
      destruct x as [o|] eqn:Es
  end.
  - destruct (Sok key o Es) as (O1 & O2 & O3).
    rewrite Lk in O2, O3. rewrite Hkey in O3.
    exists (bor (Num (shl (Num (Z.of_nat (length w))) 24)) (Num o)), o, st.
    split; [reflexivity|].
    split; [apply seg_word_make; lia|].
    split; [exact O1|]. split; [exact O2|]. split; [exact O3|].
    split; [apply frame_refl|]. split; [reflexivity|].
    split; [lia|exact Sok].
  - set (st0 := with_segments st (<[key := char1 st - char0 st]> (segments st))).
    assert (Hm : Z.of_nat (length w) mod 2 ^ 32 = Z.of_nat (length w))
      by (apply Z.mod_small; lia).
    cbn [ToUint32]. rewrite Hm, Nat2Z.id.
    destruct (storeSegment_loop_spec (length w) st0)
      as (I1 & I2 & I3 & I4 & I5 & I6 & I7 & I8);
      try (subst st0; cbn [with_segments char1 buf]; lia).
    set (st' := storeSegment_loop (length w) st0) in *.
    subst st0. cbn [with_segments char1 char0 trie1 buf needle segments] in *.
    assert (Hb : bytes_at (buf st') (char0 st + (char1 st - char0 st))
                   (length w) = w).
    { apply bytes_at_eq. intros x Hx.
      replace (char0 st + (char1 st - char0 st) + Z.of_nat x)
        with (char1 st + Z.of_nat x) by lia.
      rewrite I8 by exact Hx.
      destruct (rem_of_needle_rem st w ltac:(lia) Nok Hrem) as [_ Hr].
      specialize (Hr x Hx). unfold read8 in Hr.
      rewrite get8_in in Hr by lia. congruence. }
    exists (bor (Num (shl (Num (Z.of_nat (length w))) 24))
                (Num (char1 st - char0 st))), (char1 st - char0 st), st'.
    split; [reflexivity|].
    split; [apply seg_word_make; lia|].
    split; [lia|]. split; [lia|]. split; [exact Hb|].
    split.
    { unfold frame. repeat split; try assumption; try lia.
      - intros c k C1 C2 C3 C4 _. unfold fld. apply word_ext.
        intros i Hi. rewrite I7 by lia. reflexivity.
      - intros a Ha. rewrite I7 by lia. reflexivity. }
    split; [exact I2|]. split; [lia|].
    intros k o Hk. rewrite I5 in Hk. rewrite I3, I1.
    destruct (decide (key = k)) as [<-|Hne].
    + rewrite lookup_insert_eq in Hk. injection Hk as <-.
      rewrite Lk, Hkey. repeat split; try lia. exact Hb.
    + rewrite lookup_insert_ne in Hk by exact Hne.
      destruct (Sok k o Hk) as (O1 & O2 & O3).
      repeat split; try lia.
      rewrite <- O3. apply bytes_at_ext. intros i Hi.
      rewrite I7 by lia. reflexivity.
Qed.

End Store.

Section Symbolic.
Import Trie Manager ManagerInv.

Lemma shape_cells (lo : Z) (b : ArrayBuffer) (c0 c1 t1 : Z) (t : tr) :
  shape lo b c0 c1 t1 t ->
  forall c, In c (cells t) -> lo <= c /\ 4 * c + 12 <= t1.
Proof.
  induction t as [|c off s d IHd r IHr|c r IHr]; intros Hsh x Hx.
  - destruct Hx.
  - cbn [shape] in Hsh.
    destruct Hsh as (Hc & Hct & _ & _ & _ & _ & _ & _ & _ & Hd & Hr).
    cbn [cells] in Hx. destruct Hx as [<-|Hx]; [lia|].
    apply in_app_or in Hx. destruct Hx; auto.
  - cbn [shape] in Hsh. destruct Hsh as (Hc & Hct & _ & _ & _ & Hr).
    cbn [cells] in Hx. destruct Hx as [<-|Hx]; [lia|auto].
Qed.

Lemma shape_frame (cs : list Z) (st st' : state) (t : tr) :
  frame cs st st' ->
  shape 64 (buf st) (char0 st) (char1 st) (trie1 st) t ->
  Forall aligned (cells t) ->
  (forall c, In c (cells t) -> ~ In c cs) ->
  shape 64 (buf st') (char0 st') (char1 st') (trie1 st') t.
Proof.
  intros (A1 & A2 & A3 & A4 & A5 & A6 & A7).
  induction t as [|c off s d IHd r IHr|c r IHr]; intros Hsh Hal Hcs;
    [exact I| |].
  - cbn [shape] in *.
    destruct Hsh as (Hc & Hct & Fd & Fr & Fs & Hls & Hoff & Hend & Hb & Hd & Hr).
    cbn [cells] in Hal, Hcs.
    apply Forall_cons_iff in Hal. destruct Hal as [Hac Hal].
    apply Forall_app in Hal. destruct Hal as [Hald Halr].
    assert (Hn : ~ In c cs) by (apply Hcs; left; reflexivity).
    rewrite !A6 by (assumption || lia). rewrite A1.
    split; [lia|]. split; [lia|]. split; [exact Fd|]. split; [exact Fr|].
    split; [exact Fs|]. split; [exact Hls|]. split; [exact Hoff|].
    split; [lia|]. split.
    { rewrite <- Hb at 2. apply bytes_at_ext. intros i Hi.
      apply A7. lia. }
    split.
    + rewrite <- A1. apply IHd; try assumption.
      intros x Hx. apply Hcs. right. apply in_or_app. tauto.
    + rewrite <- A1. apply IHr; try assumption.
      intros x Hx. apply Hcs. right. apply in_or_app. tauto.
  - cbn [shape] in *. destruct Hsh as (Hc & Hct & Fd & Fr & Fs & Hr).
    cbn [cells] in Hal, Hcs.
    apply Forall_cons_iff in Hal. destruct Hal as [Hac Hal].
    assert (Hn : ~ In c cs) by (apply Hcs; left; reflexivity).
    rewrite !A6 by (assumption || lia).
    split; [lia|]. split; [lia|]. split; [exact Fd|]. split; [exact Fr|].
    split; [exact Fs|].
    apply IHr; try assumption.
    intros x Hx. apply Hcs. right. exact Hx.
Qed.

Lemma frame_fld (cs : list Z) (st st' : state) (c k : Z) :
  frame cs st st' -> 64 <= c -> aligned c -> 4 * c + 12 <= trie1 st ->
  0 <= k < 3 -> ~ In c cs -> fld (buf st') c k = fld (buf st) c k.
Proof. intros (_ & _ & _ & _ & _ & A6 & _). apply A6. Qed.

(** Cells allocated after [st] need not be listed. *)
Lemma frame_old (cs cs' : list Z) (st st' : state) :
  (forall x, In x cs -> In x cs' \/ trie1 st <= 4 * x) ->
  frame cs st st' -> frame cs' st st'.
Proof.
  intros Hn (A1 & A2 & A3 & A4 & A5 & A6 & A7).
  unfold frame. repeat split; try assumption.
  intros c k H1 H2 H3 H4 H5. apply A6; try assumption.
  intros Hin. apply Hn in Hin. destruct Hin as [Hin|Hin]; [tauto|lia].
Qed.

Lemma frame_needle_ok (cs : list Z) (st st' : state) :
  frame cs st st' -> needle_ok st -> needle_ok st'.
Proof.
  intros (A1 & A2 & A3 & A4 & A5 & A6 & A7) [H255 Hb].
  unfold needle_ok. rewrite A3. cbn zeta in *.
  set (nb := needle_bytes 255 (needle st)) in *.
  assert (Hn : (length nb <= 255)%nat).
  { subst nb. unfold needle_bytes. rewrite length_map, length_firstn. lia. }
  split.
  - rewrite A7 by lia. exact H255.
  - rewrite <- Hb at 2. apply bytes_at_ext. intros i Hi. apply A7. lia.
Qed.

Lemma frame_segs_ok (cs : list Z) (st st' : state) :
  frame cs st st' -> segments st' = segments st ->
  segs_ok st -> segs_ok st'.
Proof.
  intros (A1 & A2 & A3 & A4 & A5 & A6 & A7) Hs Sok k o Hk.
  rewrite Hs in Hk. destruct (Sok k o Hk) as (O1 & O2 & O3).
  rewrite A1. repeat split; try lia.
  rewrite <- O3. apply bytes_at_ext. intros i Hi. apply A7. lia.
Qed.

Lemma frame_rem_of (cs : list Z) (st st' : state) (w : list Z) :
  frame cs st st' -> rem_of st w -> rem_of st' w.
Proof.
  intros (_ & _ & A3 & _) H. unfold rem_of. rewrite A3. exact H.
Qed.

Lemma ok_weaken (k k' p p' : Z) (st : state) :
  k' <= k -> p' <= p -> ok k p st -> ok k' p' st.
Proof.
  intros Hk Hp ((R1 & R2 & R3 & R4 & R5 & R6 & R7) & N & S).
  split; [|split; assumption]. unfold room. repeat split; lia.
Qed.

Lemma newCell_ok (d r v : jsval) (k p : Z) (st : state) :
  ok k p st -> 1 <= k -> 0 <= p ->
  let n := trie1 st / 4 in
  exists st',
    newCell d r v st = (Num n, st')
    /\ ok (k - 1) p st' /\ frame [] st st'
    /\ trie1 st' = trie1 st + 12 /\ char1 st' = char1 st
    /\ 4 * n = trie1 st /\ aligned n /\ 64 <= n
    /\ fld (buf st') n 0 = ToUint32 d
    /\ fld (buf st') n 1 = ToUint32 r
    /\ fld (buf st') n 2 = ToUint32 v.
Proof.
  intros ((R1 & R2 & R3 & R4 & R5 & R6 & R7) & N & S) Hk Hp. cbn zeta.
  destruct (newCell_spec d r v st) as (st' & E & F & T & C & Sg & V0 & V1 & V2);
    try assumption; try lia.
  destruct (cell_of_trie1 (trie1 st) R1 R2) as (E4 & Al & Hn).
  exists st'. split; [exact E|].
  pose proof F as (A1 & A2 & A3 & A4 & A5 & A6 & A7).
  split.
  { split; [|split].
    - unfold room. rewrite T, C, A1, A2. repeat split; try lia.
      revert R2. clear. intros. Z.to_euclidean_division_equations. lia.
    - apply (frame_needle_ok [] st); assumption.
    - apply (frame_segs_ok [] st); assumption. }
  repeat split; assumption.
Qed.

Lemma write32_ok (c f : Z) (v : jsval) (k p : Z) (st : state) :
  ok k p st -> 0 <= k -> 0 <= p ->
  64 <= c -> aligned c -> 0 <= f < 3 -> 4 * c + 12 <= trie1 st ->
  let st' := write32 (Num (c + f)) v st in
  ok k p st' /\ frame [c] st st'
  /\ trie1 st' = trie1 st /\ char1 st' = char1 st
  /\ fld (buf st') c f = ToUint32 v
  /\ (forall f', f' <> f -> fld (buf st') c f' = fld (buf st) c f').
Proof.
  intros ((R1 & R2 & R3 & R4 & R5 & R6 & R7) & N & S) Hk Hp Hc Ha Hf Ht.
  destruct (write32_frame c f v st) as (F & T & C & Sg & V & O);
    try assumption; try lia.
  cbn zeta.
  pose proof F as (A1 & A2 & A3 & A4 & A5 & A6 & A7).
  split.
  { split; [|split].
    - unfold room. rewrite T, C, A1, A2. repeat split; lia.
    - apply (frame_needle_ok [c] st); assumption.
    - apply (frame_segs_ok [c] st); assumption. }
  repeat split; assumption.
Qed.

Lemma storeSegment_ok (w : list Z) (k p : Z) (st : state) :
  ok k p st -> 0 <= k -> Z.of_nat (length w) <= p ->
  rem_of st w -> w <> [] ->
  exists (v o : Z) (st' : state),
    storeSegment (Num (Z.of_nat (length w))) st = (Num v, st')
    /\ ok k (p - Z.of_nat (length w)) st' /\ frame [] st st'
    /\ trie1 st' = trie1 st
    /\ char1 st' <= char1 st + Z.of_nat (length w)
    /\ ToUint32 (Num v) = Z.of_nat (length w) * 2 ^ 24 + o
    /\ 0 <= o < 2 ^ 24
    /\ o + Z.of_nat (length w) <= char1 st' - char0 st'
    /\ bytes_at (buf st') (char0 st' + o) (length w) = w.
Proof.
  intros ((R1 & R2 & R3 & R4 & R5 & R6 & R7) & N & S) Hk Hp Hrem Hw.
  assert (L0 : (1 <= length w)%nat) by (destruct w; [congruence|cbn; lia]).
  destruct (storeSegment_spec w st)
    as (v & o & st' & E & V & O1 & O2 & Hb & F & T & C & Sok);
    try assumption; try lia.
  exists v, o, st'. split; [exact E|].
  pose proof F as (A1 & A2 & A3 & A4 & A5 & A6 & A7).
  split.
  { split; [|split].
    - unfold room. rewrite T, A1, A2. repeat split; lia.
    - apply (frame_needle_ok [] st); assumption.
    - exact Sok. }
  rewrite A1. repeat split; try assumption; try lia.
Qed.

End Symbolic.

Section TrieStrings.
Import Trie.

Lemma rest_strs_in (r : tr) (x : list Z) :
  In x (rest_strs strs r) <-> (is_seg r = false /\ x = []) \/ In x (strs r).
Proof.
  destruct r as [|c off s d r|c r]; cbn [rest_strs is_seg strs].
  - cbn [In]. intuition congruence.
  - intuition congruence.
  - cbn [In]. intuition congruence.
Qed.

Lemma strs_Seg_in (c off : Z) (s : list Z) (d r : tr) (x : list Z) :
  In x (strs (Seg c off s d r))
  <-> (exists y, x = s ++ y /\ In y (rest_strs strs r)) \/ In x (strs d).
Proof.
  cbn [strs]. rewrite in_app_iff, in_map_iff.
  split; intros [(y & H1 & H2)|H]; try (right; exact H);
    left; exists y; split; congruence.
Qed.

Lemma strs_leaf (c off : Z) (s x : list Z) :
  In x (strs (Seg c off s Nil Nil)) <-> x = s.
Proof.
  cbn. rewrite app_nil_r. intuition congruence.
Qed.

Lemma lcp_zero_hd (s w : list Z) :
  lcp s w = O -> s <> [] -> w <> [] -> hd 0 s <> hd 0 w.
Proof.
  destruct s as [|a s], w as [|b w]; try congruence. cbn.
  destruct (a =? b) eqn:E; [discriminate|]. intros _ _ _.
  apply Z.eqb_neq. exact E.
Qed.

Lemma lcp_firstn_eq (s w : list Z) :
  firstn (lcp s w) s = firstn (lcp s w) w.
Proof.
  revert w. induction s as [|a s IH]; intros [|b w]; cbn; try reflexivity.
  destruct (a =? b) eqn:E; [|reflexivity].
  apply Z.eqb_eq in E. subst b. cbn. rewrite IH. reflexivity.
Qed.

Lemma lcp_skipn_hd (s w : list Z) :
  (lcp s w < length s)%nat -> (lcp s w < length w)%nat ->
  hd 0 (skipn (lcp s w) s) <> hd 0 (skipn (lcp s w) w).
Proof.
  revert w. induction s as [|a s IH]; intros [|b w]; cbn; try lia.
  destruct (a =? b) eqn:E.
  - intros H1 H2. cbn. apply IH; lia.
  - intros _ _. cbn. apply Z.eqb_neq. exact E.
Qed.

Lemma lcp_split (s w : list Z) :
  w = firstn (lcp s w) s ++ skipn (lcp s w) w.
Proof. rewrite lcp_firstn_eq. symmetry. apply firstn_skipn. Qed.

Lemma hd_firstn (s : list Z) (m : nat) :
  (1 <= m)%nat -> hd 0 (firstn m s) = hd 0 s.
Proof. destruct m; [lia|]. destruct s; reflexivity. Qed.

Lemma hd_app (s x : list Z) : s <> [] -> hd 0 (s ++ x) = hd 0 s.
Proof. destruct s; [congruence|reflexivity]. Qed.

End TrieStrings.

Section ArenaFacts.
Import Trie Manager ManagerInv.

Lemma size_cells (t : tr) : size t = length (cells t).
Proof.
  induction t as [|c off s d IHd r IHr|c r IHr]; cbn [size cells length].
  - reflexivity.
  - rewrite length_app. lia.
  - lia.
Qed.

(** New cells do not clash with the cells of a laid out tree. *)
Lemma arena_new (t1 : Z) (old new cs : list Z) :
  Permutation cs (new ++ old) ->
  NoDup new -> Forall (fun n => aligned n /\ t1 <= 4 * n) new ->
  (forall c, In c old -> 4 * c + 12 <= t1) ->
  NoDup old -> Forall aligned old ->
  NoDup cs /\ Forall aligned cs.
Proof.
  intros P Nn Fn Ho No Fo. split.
  - rewrite P. apply NoDup_app. split; [exact Nn|]. split; [|exact No].
    intros x Hx Hx'. apply list_elem_of_In in Hx, Hx'.
    rewrite List.Forall_forall in Fn. specialize (Fn x Hx).
    specialize (Ho x Hx'). lia.
  - rewrite P. apply Forall_app. split; [|exact Fo].
    eapply Forall_impl; [exact Fn|]. intros a [H _]. exact H.
Qed.

End ArenaFacts.

Section Nodes.
Import Trie Manager ManagerInv.

Lemma ToUint32_small (z : Z) : 0 <= z < 2 ^ 32 -> ToUint32 (Num z) = z.
Proof. intros H. cbn [ToUint32]. apply Z.mod_small. exact H. Qed.

Lemma frame_bytes (cs : list Z) (st st' : state) (o : Z) (n : nat) :
  frame cs st st' ->
  0 <= o -> o + Z.of_nat n <= char1 st - char0 st ->
  bytes_at (buf st') (char0 st' + o) n = bytes_at (buf st) (char0 st + o) n.
Proof.
  intros (A1 & _ & _ & _ & _ & _ & A7) H0 H1. rewrite A1.
  apply bytes_at_ext. intros i Hi. apply A7. lia.
Qed.

Lemma frame_bytes_eq (cs : list Z) (st st' : state) (o : Z) (l : list Z) :
  frame cs st st' ->
  0 <= o -> o + Z.of_nat (length l) <= char1 st - char0 st ->
  bytes_at (buf st) (char0 st + o) (length l) = l ->
  bytes_at (buf st') (char0 st' + o) (length l) = l.
Proof.
  intros F H0 H1 E. rewrite (frame_bytes cs st st') by assumption. exact E.
Qed.

Lemma bytes_at_firstn (b : ArrayBuffer) (a : Z) (n m : nat) :
  (m <= n)%nat -> bytes_at b a m = firstn m (bytes_at b a n).
Proof.
  revert a n. induction m as [|m IH]; intros a n H; [reflexivity|].
  destruct n as [|n]; [lia|]. cbn [bytes_at firstn]. f_equal.
  apply IH. lia.
Qed.

Lemma bytes_at_skipn (b : ArrayBuffer) (a : Z) (n m : nat) :
  (m <= n)%nat ->
  bytes_at b (a + Z.of_nat m) (n - m) = skipn m (bytes_at b a n).
Proof.
  revert a n. induction m as [|m IH]; intros a n H.
  - rewrite Z.add_0_r, Nat.sub_0_r. reflexivity.
  - destruct n as [|n]; [lia|]. cbn [bytes_at skipn Nat.sub].
    rewrite <- IH by lia. f_equal. lia.
Qed.

(** The cell [c] of a laid out node, with other fields and a prefix of
    its segment. *)
Lemma shape_node (cs : list Z) (st st' : state) (c off : Z) (s : list Z)
    (d r d' r' : tr) (m : nat) :
  frame cs st st' ->
  shape 64 (buf st) (char0 st) (char1 st) (trie1 st) (Seg c off s d r) ->
  (m <= length s)%nat ->
  fld (buf st') c 0 = ptr d' -> fld (buf st') c 1 = ptr r' ->
  fld (buf st') c 2 = Z.of_nat m * 2 ^ 24 + off ->
  shape 64 (buf st') (char0 st') (char1 st') (trie1 st') d' ->
  shape 64 (buf st') (char0 st') (char1 st') (trie1 st') r' ->
  shape 64 (buf st') (char0 st') (char1 st') (trie1 st')
    (Seg c off (firstn m s) d' r').
Proof.
  intros F Hsh Hm F0 F1 F2 Hd' Hr'.
  cbn [shape] in Hsh.
  destruct Hsh as (Hc & Hct & Fd & Fr & Fs & Hls & Hoff & Hend & Hb & Hd & Hr).
  pose proof F as (A1 & A2 & A3 & A4 & A5 & A6 & A7).
  cbn [shape]. rewrite length_firstn.
  replace (Nat.min m (length s)) with m by lia.
  split; [lia|]. split; [lia|]. split; [exact F0|]. split; [exact F1|].
  split; [exact F2|]. split; [lia|]. split; [lia|]. split; [lia|].
  split; [|split; assumption].
  rewrite (frame_bytes cs st st') by (assumption || lia).
  rewrite (bytes_at_firstn _ _ (length s)) by exact Hm.
  rewrite Hb. reflexivity.
Qed.

(** A new cell [t] that takes over the end of the segment of a laid out
    node. *)
Lemma shape_tail (cs : list Z) (st st' : state) (c off : Z) (s : list Z)
    (d r d' r' : tr) (m : nat) (t : Z) :
  frame cs st st' ->
  shape 64 (buf st) (char0 st) (char1 st) (trie1 st) (Seg c off s d r) ->
  (m < length s)%nat -> char1 st - char0 st <= 2 ^ 24 ->
  64 <= t -> 4 * t + 12 <= trie1 st' ->
  fld (buf st') t 0 = ptr d' -> fld (buf st') t 1 = ptr r' ->
  fld (buf st') t 2 = Z.of_nat (length s - m) * 2 ^ 24 + (off + Z.of_nat m) ->
  shape 64 (buf st') (char0 st') (char1 st') (trie1 st') d' ->
  shape 64 (buf st') (char0 st') (char1 st') (trie1 st') r' ->
  shape 64 (buf st') (char0 st') (char1 st') (trie1 st')
    (Seg t (off + Z.of_nat m) (skipn m s) d' r').
Proof.
  intros F Hsh Hm Hp Ht Htt F0 F1 F2 Hd' Hr'.
  cbn [shape] in Hsh.
  destruct Hsh as (Hc & Hct & Fd & Fr & Fs & Hls & Hoff & Hend & Hb & Hd & Hr).
  pose proof F as (A1 & A2 & A3 & A4 & A5 & A6 & A7).
  cbn [shape]. rewrite length_skipn.
  split; [lia|]. split; [lia|]. split; [exact F0|]. split; [exact F1|].
  split; [exact F2|]. split; [lia|]. split; [lia|]. split; [lia|].
  split; [|split; assumption].
  rewrite Z.add_assoc.
  rewrite (bytes_at_skipn _ _ (length s)) by lia.
  rewrite (frame_bytes cs st st') by (assumption || lia).
  rewrite Hb. reflexivity.
Qed.

Lemma shape_leaf (b : ArrayBuffer) (c0 c1 t1 n o : Z) (w : list Z) :
  64 <= n -> 4 * n + 12 <= t1 ->
  fld b n 0 = 0 -> fld b n 1 = 0 ->
  fld b n 2 = Z.of_nat (length w) * 2 ^ 24 + o ->
  (length w <= 255)%nat -> 0 <= o < 2 ^ 24 ->
  o + Z.of_nat (length w) <= c1 - c0 ->
  bytes_at b (c0 + o) (length w) = w ->
  shape 64 b c0 c1 t1 (Seg n o w Nil Nil).
Proof. intros. cbn [shape ptr]. repeat split; assumption || lia. Qed.

Lemma shape_bnd (b : ArrayBuffer) (c0 c1 t1 n : Z) (r : tr) :
  64 <= n -> 4 * n + 12 <= t1 ->
  fld b n 0 = 0 -> fld b n 1 = ptr r -> fld b n 2 = 0 ->
  shape 64 b c0 c1 t1 r ->
  shape 64 b c0 c1 t1 (Bnd n r).
Proof. intros. cbn [shape]. repeat split; assumption || lia. Qed.

End Nodes.

Section Cases.
Import Trie Manager ManagerInv.

Variables (st : state) (c off : Z) (s : list Z) (d r : tr) (w : list Z).
Hypothesis Hok : ok 2 (Z.of_nat (length w)) st.
Hypothesis Hrem : rem_of st w.
Hypothesis Hw : w <> [].
Hypothesis Hsh :
  shape 64 (buf st) (char0 st) (char1 st) (trie1 st) (Seg c off s d r).
Hypothesis Hwf : wf (Seg c off s d r).
Hypothesis Har : arena (Seg c off s d r).

Lemma node_cell : 64 <= c /\ 4 * c + 12 <= trie1 st /\ aligned c.
Proof using Hsh Har.
  cbn [shape] in Hsh. destruct Hsh as (Hc & Hct & _).
  destruct Har as [_ Al]. cbn [cells] in Al.
  apply Forall_cons_iff in Al. tauto.
Qed.

Lemma node_aligned : Forall aligned (cells d) /\ Forall aligned (cells r).
Proof.
  destruct Har as [_ Al]. cbn [cells] in Al.
  apply Forall_cons_iff in Al. destruct Al as [_ Al].
  apply Forall_app in Al. exact Al.
Qed.

Lemma node_fresh : ~ In c (cells d) /\ ~ In c (cells r).
Proof.
  destruct Har as [Nd _]. cbn [cells] in Nd.
  apply NoDup_cons in Nd. destruct Nd as [Nd _].
  rewrite list_elem_of_In in Nd. rewrite in_app_iff in Nd. tauto.
Qed.

Lemma node_sub :
  shape 64 (buf st) (char0 st) (char1 st) (trie1 st) d
  /\ shape 64 (buf st) (char0 st) (char1 st) (trie1 st) r.
Proof. cbn [shape] in Hsh. tauto. Qed.

Lemma node_len : (length w <= 255)%nat /\ (1 <= length w)%nat.
Proof.
  pose proof (rem_of_length st w Hrem).
  destruct w; [congruence|cbn [length] in *; lia].
Qed.

(** The subtrees [d] and [r] are laid out in any state that differs from
    [st] by new cells, new character data and the fields of [c]. *)
Lemma node_keep (st' : state) :
  frame [c] st st' ->
  shape 64 (buf st') (char0 st') (char1 st') (trie1 st') d
  /\ shape 64 (buf st') (char0 st') (char1 st') (trie1 st') r.
Proof.
  intros F. destruct node_sub as [Hd Hr].
  destruct node_aligned as [Ad Ar]. destruct node_fresh as [Nd Nr].
  split; (eapply shape_frame; [exact F|eassumption|assumption|]);
    intros x Hx [<-|[]]; tauto.
Qed.

(** No cell below [down]: a cell for the bytes to consume is hung there. *)
Lemma add_leaf_down :
  d = Nil -> lcp s w = O ->
  exists st' u',
    (let '(seg, st1) := storeSegment (Num (Z.of_nat (length w))) st in
     let '(n, st2) := newCell (Num 0) (Num 0) seg st1 in
     Ret (Num 1) (write32 (jadd (Num c) (Num 0)) n st2)) = Ret (Num 1) st'
    /\ inserted w st (Seg c off s d r) st' u'.
Proof.
  intros Ed Hm.
  destruct node_cell as (Hc & Hct & Hac). destruct node_len as [Lw Lw1].
  destruct (storeSegment_ok w 2 (Z.of_nat (length w)) st Hok)
    as (v & o & st1 & E1 & Ok1 & F1 & T1 & C1 & V & Ho & Hoe & Hby);
    try assumption; try lia.
  rewrite E1.
  destruct (newCell_ok (Num 0) (Num 0) (Num v) 2
              (Z.of_nat (length w) - Z.of_nat (length w)) st1 Ok1)
    as (st2 & E2 & Ok2 & F2 & T2 & C2 & E4 & Aln & Hn & V0 & V1 & V2);
    try lia.
  rewrite E2. cbn [jadd].
  set (n := trie1 st1 / 4) in *.
  destruct (write32_ok c 0 (Num n) (2 - 1)
              (Z.of_nat (length w) - Z.of_nat (length w)) st2 Ok2)
    as (Ok3 & F3 & T3 & C3 & Vc & Oc); try assumption; try lia.
  set (st3 := write32 (Num (c + 0)) (Num n) st2) in *.
  pose proof (frame_trans _ _ _ _ _ F1 F2) as F02. cbn [app] in F02.
  pose proof (frame_trans _ _ _ _ _ F02 F3) as F03. cbn [app] in F03.
  destruct (node_keep st3 F03) as [_ Hr3].
  assert (Hleaf : shape 64 (buf st3) (char0 st3) (char1 st3) (trie1 st3)
                    (Seg n o w Nil Nil)).
  { apply (shape_frame [c] st2); [exact F3| |repeat constructor; exact Aln|].
    - apply shape_leaf.
      + exact Hn.
      + lia.
      + exact V0.
      + exact V1.
      + rewrite V2. exact V.
      + exact Lw.
      + exact Ho.
      + rewrite C2. destruct F2 as (-> & _). lia.
      + apply (frame_bytes_eq [] st1); [exact F2|lia|lia|exact Hby].
    - intros x [<-|[]] [E|[]]. lia. }
  destruct Hok as ((R1 & R2 & R3 & R4 & R5 & R6 & R7) & _ & _).
  assert (Un : ToUint32 (Num n) = n) by (apply ToUint32_small; lia).
  pose proof Hsh as Hsh'. cbn [shape] in Hsh'.
  destruct Hsh' as (_ & _ & Fd & Fr & Fs & Hls & _).
  pose proof F02 as (_ & _ & _ & _ & _ & A6 & _).
  exists st3, (Seg c off s (Seg n o w Nil Nil) r).
  split; [reflexivity|].
  cbn [wf] in Hwf. destruct Hwf as (Hs & Hbd & Hhd & Hwd & Hwr).
  unfold inserted. split; [reflexivity|]. split; [reflexivity|].
  split; [reflexivity|]. split.
  { rewrite <- (firstn_all s).
    apply (shape_node [c] st st3 c off s d r); try assumption.
    - lia.
    - rewrite Vc. exact Un.
    - rewrite Oc, A6 by (tauto || lia). exact Fr.
    - rewrite Oc, A6 by (tauto || lia). exact Fs. }
  split.
  { cbn [wf is_bnd heads In]. repeat split; try assumption; try tauto.
    intros [E|[]]. revert E. apply not_eq_sym.
    apply lcp_zero_hd; assumption. }
  split.
  { exists [n]. subst d. cbn [cells app]. split; [apply perm_swap|].
    split; [repeat constructor; apply not_elem_of_nil|].
    repeat constructor; [exact Aln|lia]. }
  split.
  { intros x. rewrite (strs_Seg_in c off s (Seg n o w Nil Nil) r), strs_leaf.
    rewrite (strs_Seg_in c off s d r). subst d. cbn [strs In]. tauto. }
  split.
  { subst d. cbn [heads In]. intuition congruence. }
  split; [subst d; cbn [size]; lia|].
  split.
  { apply (frame_weaken [c]); [|exact F03].
    intros x [<-|[]]. left. reflexivity. }
  destruct Ok3 as ((Q1 & Q2 & _) & _ & Sok3).
  split; [lia|]. split; [exact Q2|]. split; [lia|exact Sok3].
Qed.


Ltac fr := first [assumption | lia | (cbn [In app]; intuition lia)].

(** The segment is consumed and nothing follows it: a boundary cell and a
    cell for the bytes left are hung at [right]. *)
Lemma add_boundary_leaf (w2 : list Z) :
  r = Nil -> w = s ++ w2 -> w2 <> [] ->
  exists st' u',
    (let '(b, st1) := newCell (Num 0) (Num 0) (Num 0) st in
     let '(seg, st3) :=
       storeSegment (Num (Z.of_nat (length w2)))
         (write32 (Num (c + 1)) b st1) in
     let '(n, st4) := newCell (Num 0) (Num 0) seg st3 in
     Ret (Num 1)
       (write32
          (jadd (read32 (write32 (Num (c + 1)) b st1) (Num (c + 1))) (Num 1))
          n st4)) = Ret (Num 1) st'
    /\ inserted w st (Seg c off s d r) st' u'.
Proof.
  intros Er Ew Hw2.
  destruct node_cell as (Hc & Hct & Hac).
  destruct node_len as [Lw Lw1].
  assert (Lw2 : (1 <= length w2 <= length w)%nat).
  { rewrite Ew, length_app. destruct w2; [congruence|cbn [length]; lia]. }
  pose proof Hok as ((R1 & R2 & R3 & R4 & R5 & R6 & R7) & _ & _).
  destruct (newCell_ok (Num 0) (Num 0) (Num 0) 2 (Z.of_nat (length w)) st Hok)
    as (st1 & E1 & Ok1 & F1 & T1 & C1 & E4b & Alb & Hb64 & Vb0 & Vb1 & Vb2);
    try lia.
  rewrite E1. set (b := trie1 st / 4) in *.
  destruct (write32_ok c 1 (Num b) (2 - 1) (Z.of_nat (length w)) st1 Ok1)
    as (Ok2 & F2 & T2 & C2 & Vc & Oc); try fr.
  set (st2 := write32 (Num (c + 1)) (Num b) st1) in *.
  assert (Ub : ToUint32 (Num b) = b) by (apply ToUint32_small; lia).
  assert (B2 : byteLength (buf st2) = byteLength (buf st)).
  { destruct F2 as (_ & -> & _). destruct F1 as (_ & -> & _). reflexivity. }
  assert (Rc : read32 st2 (Num (c + 1)) = Num b).
  { unfold read32. rewrite get32_fld by lia. rewrite Vc, Ub. reflexivity. }
  rewrite Rc. cbn [jadd].
  assert (Hrem2 : rem_of st2 w2).
  { apply (frame_rem_of [c] st1); [exact F2|].
    apply (frame_rem_of [] st); [exact F1|].
    apply (rem_of_app st s). rewrite <- Ew. exact Hrem. }
  destruct (storeSegment_ok w2 (2 - 1) (Z.of_nat (length w)) st2 Ok2)
    as (v & o & st3 & E3 & Ok3 & F3 & T3 & C3 & V & Ho & Hoe & Hby);
    try assumption; try lia.
  rewrite E3.
  destruct (newCell_ok (Num 0) (Num 0) (Num v) (2 - 1)
              (Z.of_nat (length w) - Z.of_nat (length w2)) st3 Ok3)
    as (st4 & E4 & Ok4 & F4 & T4 & C4 & E4n & Aln & Hn64 & Vn0 & Vn1 & Vn2);
    try lia.
  rewrite E4. set (n := trie1 st3 / 4) in *.
  destruct (write32_ok b 1 (Num n) (2 - 1 - 1)
              (Z.of_nat (length w) - Z.of_nat (length w2)) st4 Ok4)
    as (Ok5 & F5 & T5 & C5 & Vbn & Ob); try fr.
  set (st5 := write32 (Num (b + 1)) (Num n) st4) in *.
  assert (Un : ToUint32 (Num n) = n) by (apply ToUint32_small; lia).
  pose proof (frame_trans _ _ _ _ _ F3 F4) as F24. cbn [app] in F24.
  pose proof (frame_trans _ _ _ _ _ F24 F5) as F25. cbn [app] in F25.
  pose proof (frame_trans _ _ _ _ _ F2 F24) as F14. cbn [app] in F14.
  pose proof (frame_trans _ _ _ _ _ F1 F2) as F02. cbn [app] in F02.
  pose proof (frame_trans _ _ _ _ _ F02 F25) as F05'. cbn [app] in F05'.
  assert (F05 : frame [c] st st5).
  { apply (frame_old [c; b]); [|exact F05'].
    intros x [<-|[<-|[]]]; [left; left; reflexivity|right; lia]. }
  destruct (node_keep st5 F05) as [Hd5 _].
  assert (Hleaf : shape 64 (buf st5) (char0 st5) (char1 st5) (trie1 st5)
                    (Seg n o w2 Nil Nil)).
  { apply (shape_frame [b] st4); [exact F5| |repeat constructor; exact Aln|].
    - apply shape_leaf.
      + exact Hn64.
      + lia.
      + exact Vn0.
      + exact Vn1.
      + rewrite Vn2. exact V.
      + lia.
      + exact Ho.
      + rewrite C4. destruct F4 as (-> & _). lia.
      + apply (frame_bytes_eq [] st3); [exact F4|lia|lia|exact Hby].
    - intros x [<-|[]] [E|[]]. lia. }
  pose proof Hsh as Hsh'. cbn [shape] in Hsh'.
  destruct Hsh' as (_ & _ & Fd & Fr & Fs & Hls & _).
  exists st5, (Seg c off s d (Bnd b (Seg n o w2 Nil Nil))).
  split; [reflexivity|].
  pose proof Hwf as Hwf'. cbn [wf] in Hwf'.
  destruct Hwf' as (Hs & Hbd & Hhd & Hwd & Hwr).
  unfold inserted. split; [reflexivity|]. split; [reflexivity|].
  split; [reflexivity|]. split.
  { rewrite <- (firstn_all s).
    apply (shape_node [c] st st5 c off s d r); try assumption.
    - lia.
    - rewrite (frame_fld _ _ _ _ _ F25) by fr.
      rewrite Oc by lia. rewrite (frame_fld _ _ _ _ _ F1) by fr. exact Fd.
    - rewrite (frame_fld _ _ _ _ _ F25) by fr. rewrite Vc. exact Ub.
    - rewrite (frame_fld _ _ _ _ _ F25) by fr.
      rewrite Oc by lia. rewrite (frame_fld _ _ _ _ _ F1) by fr. exact Fs.
    - apply shape_bnd.
      + exact Hb64.
      + lia.
      + rewrite Ob by lia. rewrite (frame_fld _ _ _ _ _ F14) by fr.
        exact Vb0.
      + rewrite Vbn. exact Un.
      + rewrite Ob by lia. rewrite (frame_fld _ _ _ _ _ F14) by fr.
        exact Vb2.
      + exact Hleaf. }
  split.
  { cbn [wf is_bnd is_seg heads In]. repeat split; try assumption; tauto. }
  split.
  { exists [b; n]. subst r. cbn [cells]. rewrite !app_nil_r.
    split.
    - change (c :: cells d ++ [b; n]) with ((c :: cells d) ++ [b; n]).
      apply Permutation_app_comm.
    - split.
      + apply NoDup_cons. split; [|repeat constructor; apply not_elem_of_nil].
        rewrite list_elem_of_In. intros [E|[]]. lia.
      + repeat constructor; fr. }
  split.
  { intros x. rewrite (strs_Seg_in c off s d (Bnd b (Seg n o w2 Nil Nil))).
    rewrite (strs_Seg_in c off s d r). subst r. cbn [rest_strs].
    split.
    - intros [(y & -> & [<-|Hy])|Hx].
      + right. left. exists []. split; [reflexivity|left; reflexivity].
      + apply strs_leaf in Hy. subst y. left. symmetry. exact Ew.
      + right. right. exact Hx.
    - intros [->|[(y & -> & [<-|[]])|Hx]].
      + left. exists w2. split; [exact Ew|]. right. apply strs_leaf.
        reflexivity.
      + left. exists []. split; [reflexivity|left; reflexivity].
      + right. exact Hx. }
  split.
  { cbn [heads In]. intros h Hh. right. exact Hh. }
  split; [subst r; cbn [size]; lia|].
  split.
  { apply (frame_weaken [c]); [|exact F05].
    intros x [<-|[]]. left. reflexivity. }
  destruct Ok5 as ((Q1 & Q2 & _) & _ & Sok5).
  split; [lia|]. split; [exact Q2|]. split; [lia|exact Sok5].
Qed.


(** The hostname ends with the segment and longer ones follow: a boundary
    cell is put before them. *)
Lemma add_boundary :
  is_seg r = true -> w = s ->
  exists st' u',
    (let '(b, st1) := newCell (Num 0) (Num (ptr r)) (Num 0) st in
     Ret (Num 1) (write32 (Num (c + 1)) b st1)) = Ret (Num 1) st'
    /\ inserted w st (Seg c off s d r) st' u'.
Proof.
  intros Hr Ew.
  destruct node_cell as (Hc & Hct & Hac). destruct node_len as [Lw Lw1].
  pose proof Hok as ((R1 & R2 & R3 & R4 & R5 & R6 & R7) & _ & _).
  destruct node_sub as [_ Hshr].
  assert (Hpr : 64 <= ptr r /\ 4 * ptr r + 12 <= trie1 st).
  { destruct r as [|rc roff rs rd rr|]; try discriminate.
    cbn [shape] in Hshr. cbn [ptr]. lia. }
  destruct (newCell_ok (Num 0) (Num (ptr r)) (Num 0) 2
              (Z.of_nat (length w)) st Hok)
    as (st1 & E1 & Ok1 & F1 & T1 & C1 & E4b & Alb & Hb64 & Vb0 & Vb1 & Vb2);
    try lia.
  rewrite E1. set (b := trie1 st / 4) in *.
  destruct (write32_ok c 1 (Num b) (2 - 1) (Z.of_nat (length w)) st1 Ok1)
    as (Ok2 & F2 & T2 & C2 & Vc & Oc); try fr.
  set (st2 := write32 (Num (c + 1)) (Num b) st1) in *.
  assert (Ub : ToUint32 (Num b) = b) by (apply ToUint32_small; lia).
  assert (Ur : ToUint32 (Num (ptr r)) = ptr r) by (apply ToUint32_small; lia).
  pose proof (frame_trans _ _ _ _ _ F1 F2) as F02. cbn [app] in F02.
  destruct (node_keep st2 F02) as [_ Hr2].
  pose proof Hsh as Hsh'. cbn [shape] in Hsh'.
  destruct Hsh' as (_ & _ & Fd & Fr & Fs & Hls & _).
  exists st2, (Seg c off s d (Bnd b r)).
  split; [reflexivity|].
  pose proof Hwf as Hwf'. cbn [wf] in Hwf'.
  destruct Hwf' as (Hs & Hbd & Hhd & Hwd & Hwr).
  unfold inserted. split; [reflexivity|]. split; [reflexivity|].
  split; [reflexivity|]. split.
  { rewrite <- (firstn_all s).
    apply (shape_node [c] st st2 c off s d r); try assumption.
    - lia.
    - rewrite Oc by lia. rewrite (frame_fld _ _ _ _ _ F1) by fr. exact Fd.
    - rewrite Vc. exact Ub.
    - rewrite Oc by lia. rewrite (frame_fld _ _ _ _ _ F1) by fr. exact Fs.
    - apply (node_keep st2 F02).
    - apply shape_bnd.
      + exact Hb64.
      + lia.
      + rewrite (frame_fld _ _ _ _ _ F2) by fr. exact Vb0.
      + rewrite (frame_fld _ _ _ _ _ F2) by fr. rewrite Vb1. exact Ur.
      + rewrite (frame_fld _ _ _ _ _ F2) by fr. exact Vb2.
      + exact Hr2. }
  split.
  { cbn [wf]. repeat split; assumption. }
  split.
  { exists [b]. cbn [cells]. split.
    - symmetry. apply (Permutation_middle (c :: cells d) (cells r) b).
    - split; [repeat constructor; apply not_elem_of_nil|].
      repeat constructor; fr. }
  split.
  { intros x. rewrite (strs_Seg_in c off s d (Bnd b r)).
    rewrite (strs_Seg_in c off s d r). cbn [rest_strs].
    destruct r as [|rc roff rs rd rr|]; try discriminate. cbn [rest_strs].
    split.
    - intros [(y & -> & [<-|Hy])|Hx].
      + left. rewrite app_nil_r. symmetry. exact Ew.
      + right. left. exists y. split; [reflexivity|exact Hy].
      + right. right. exact Hx.
    - intros [->|[(y & -> & Hy)|Hx]].
      + left. exists []. split; [rewrite app_nil_r; exact Ew|].
        left. reflexivity.
      + left. exists y. split; [reflexivity|right; exact Hy].
      + right. exact Hx. }
  split.
  { cbn [heads In]. intros h Hh. right. exact Hh. }
  split; [cbn [size]; lia|].
  split.
  { apply (frame_weaken [c]); [|exact F02].
    intros x [<-|[]]. left. reflexivity. }
  destruct Ok2 as ((Q1 & Q2 & _) & _ & Sok2).
  split; [lia|]. split; [exact Q2|]. split; [lia|exact Sok2].
Qed.


(** The first steps of a split: the cell [c] keeps the first [lcp s w]
    bytes of its segment and a new cell [t], put at its [right], takes the
    others. *)
Lemma split_cell :
  (1 <= lcp s w < length s)%nat ->
  let m := Z.of_nat (lcp s w) in
  let st1 := write32 (Num (c + 2)) (Num (bor (Num (shl (Num m) 24)) (Num off)))
               st in
  let t := trie1 st / 4 in
  exists st2,
    newCell (Num 0) (read32 st1 (Num (c + 1)))
      (Num (bor (Num (shl (Num (Z.of_nat (length s) - m)) 24))
                (Num (off + m)))) st1 = (Num t, st2)
    /\ let st3 := write32 (Num (c + 1)) (Num t) st2 in
       read32 st3 (Num (c + 1)) = Num t
       /\ ok 1 (Z.of_nat (length w)) st3 /\ frame [c] st st3
       /\ trie1 st3 = trie1 st + 12 /\ char1 st3 = char1 st
       /\ 4 * t = trie1 st /\ aligned t /\ 64 <= t
       /\ fld (buf st3) c 0 = ptr d /\ fld (buf st3) c 1 = t
       /\ fld (buf st3) c 2 = m * 2 ^ 24 + off
       /\ fld (buf st3) t 0 = 0 /\ fld (buf st3) t 1 = ptr r
       /\ fld (buf st3) t 2
          = Z.of_nat (length s - lcp s w) * 2 ^ 24 + (off + m).
Proof.
  intros Hm. cbn zeta.
  destruct node_cell as (Hc & Hct & Hac). destruct node_len as [Lw Lw1].
  pose proof Hok as ((R1 & R2 & R3 & R4 & R5 & R6 & R7) & _ & _).
  destruct node_sub as [_ Hshr].
  pose proof Hsh as Hsh'. cbn [shape] in Hsh'.
  destruct Hsh' as (_ & _ & Fd & Fr & Fs & Hls & Hoff & Hend & _).
  assert (Hpr : 0 <= ptr r /\ 4 * ptr r + 12 <= trie1 st).
  { destruct r as [|rc roff rs rd rr|rc rr]; cbn [shape] in Hshr; cbn [ptr];
      lia. }
  destruct (write32_ok c 2
              (Num (bor (Num (shl (Num (Z.of_nat (lcp s w))) 24)) (Num off)))
              2 (Z.of_nat (length w)) st Hok)
    as (Ok1 & F1 & T1 & C1 & Vc2 & Oc1); try fr.
  set (st1 := write32 (Num (c + 2)) _ st) in *.
  rewrite seg_word_make in Vc2 by lia.
  assert (B1 : byteLength (buf st1) = byteLength (buf st))
    by (destruct F1 as (_ & -> & _); reflexivity).
  assert (Rc : read32 st1 (Num (c + 1)) = Num (ptr r)).
  { unfold read32. rewrite get32_fld by lia. rewrite Oc1 by lia.
    rewrite Fr. reflexivity. }
  rewrite Rc.
  destruct (newCell_ok (Num 0) (Num (ptr r))
              (Num (bor (Num (shl (Num (Z.of_nat (length s)
                                        - Z.of_nat (lcp s w))) 24))
                        (Num (off + Z.of_nat (lcp s w)))))
              2 (Z.of_nat (length w)) st1 Ok1)
    as (st2 & E2 & Ok2 & F2 & T2 & C2 & E4t & Alt & Ht64 & Vt0 & Vt1 & Vt2);
    try lia.
  rewrite T1 in *. set (t := trie1 st / 4) in *.
  rewrite seg_word_make in Vt2 by lia.
  exists st2. split; [exact E2|].
  destruct (write32_ok c 1 (Num t) (2 - 1) (Z.of_nat (length w)) st2 Ok2)
    as (Ok3 & F3 & T3 & C3 & Vc1 & Oc3); try fr.
  set (st3 := write32 (Num (c + 1)) (Num t) st2) in *.
  assert (Ut : ToUint32 (Num t) = t) by (apply ToUint32_small; lia).
  assert (Ur : ToUint32 (Num (ptr r)) = ptr r) by (apply ToUint32_small; lia).
  assert (B3 : byteLength (buf st3) = byteLength (buf st)).
  { destruct F3 as (_ & -> & _). destruct F2 as (_ & -> & _). exact B1. }
  pose proof (frame_trans _ _ _ _ _ F1 F2) as F02. cbn [app] in F02.
  pose proof (frame_trans _ _ _ _ _ F02 F3) as F03'. cbn [app] in F03'.
  split.
  { unfold read32. rewrite get32_fld by lia. rewrite Vc1, Ut. reflexivity. }
  split; [exact Ok3|]. split.
  { apply (frame_old [c; c]); [|exact F03'].
    intros x [<-|[<-|[]]]; left; left; reflexivity. }
  split; [lia|]. split; [lia|]. split; [exact E4t|].
  split; [exact Alt|]. split; [exact Ht64|].
  split.
  { rewrite Oc3 by lia. rewrite (frame_fld _ _ _ _ _ F2) by fr.
    rewrite Oc1 by lia. exact Fd. }
  split; [rewrite Vc1; exact Ut|].
  split.
  { rewrite Oc3 by lia. rewrite (frame_fld _ _ _ _ _ F2) by fr. exact Vc2. }
  split; [rewrite (frame_fld _ _ _ _ _ F3) by fr; exact Vt0|].
  split; [rewrite (frame_fld _ _ _ _ _ F3) by fr; rewrite Vt1; exact Ur|].
  rewrite (frame_fld _ _ _ _ _ F3) by fr. rewrite Vt2.
  rewrite Nat2Z.inj_sub by lia. reflexivity.
Qed.


(** The segment and the hostname part ways inside the segment: the cell is
    split and a cell for the bytes left is hung below the new cell. *)
Lemma add_split_leaf :
  (1 <= lcp s w < length s)%nat -> (lcp s w < length w)%nat ->
  let m := Z.of_nat (lcp s w) in
  let st1 := write32 (Num (c + 2)) (Num (bor (Num (shl (Num m) 24)) (Num off)))
               st in
  exists st' u',
    (let '(t, st2) :=
       newCell (Num 0) (read32 st1 (Num (c + 1)))
         (Num (bor (Num (shl (Num (Z.of_nat (length s) - m)) 24))
                   (Num (off + m)))) st1 in
     let '(seg, st4) :=
       storeSegment (Num (Z.of_nat (length w) - m))
         (write32 (Num (c + 1)) t st2) in
     let '(n, st5) := newCell (Num 0) (Num 0) seg st4 in
     Ret (Num 1)
       (write32
          (jadd (read32 (write32 (Num (c + 1)) t st2) (Num (c + 1))) (Num 0))
          n st5)) = Ret (Num 1) st'
    /\ inserted w st (Seg c off s d r) st' u'.
Proof.
  intros Hm Hmw. cbn zeta.
  destruct node_cell as (Hc & Hct & Hac). destruct node_len as [Lw Lw1].
  pose proof Hok as ((R1 & R2 & R3 & R4 & R5 & R6 & R7) & _ & _).
  pose proof (split_cell Hm) as H. cbn zeta in H.
  destruct H as (st2 & E2 & Rd & Ok3 & F03 & T3 & C3 & E4t & Alt & Ht64
                 & Fc0 & Fc1 & Fc2 & Ft0 & Ft1 & Ft2).
  rewrite E2. set (t := trie1 st / 4) in *.
  set (st3 := write32 (Num (c + 1)) (Num t) st2) in *.
  rewrite Rd. cbn [jadd].
  set (w2 := skipn (lcp s w) w).
  assert (Ew : w = firstn (lcp s w) s ++ w2) by apply lcp_split.
  assert (Lw2 : Z.of_nat (length w2)
                = Z.of_nat (length w) - Z.of_nat (lcp s w)).
  { subst w2. rewrite length_skipn. lia. }
  assert (Hw2 : w2 <> []).
  { intros E. rewrite E in Lw2. cbn [length] in Lw2. lia. }
  rewrite <- Lw2.
  assert (Hrem2 : rem_of st3 w2).
  { apply (frame_rem_of [c] st); [exact F03|].
    apply (rem_of_app st (firstn (lcp s w) s)). rewrite <- Ew. exact Hrem. }
  destruct (storeSegment_ok w2 1 (Z.of_nat (length w)) st3 Ok3)
    as (v & o & st4 & E4 & Ok4 & F4 & T4 & C4 & V & Ho & Hoe & Hby);
    try assumption; try lia.
  rewrite E4.
  destruct (newCell_ok (Num 0) (Num 0) (Num v) 1
              (Z.of_nat (length w) - Z.of_nat (length w2)) st4 Ok4)
    as (st5 & E5 & Ok5 & F5 & T5 & C5 & E4n & Aln & Hn64 & Vn0 & Vn1 & Vn2);
    try lia.
  rewrite E5. set (n := trie1 st4 / 4) in *.
  destruct (write32_ok t 0 (Num n) (1 - 1)
              (Z.of_nat (length w) - Z.of_nat (length w2)) st5 Ok5)
    as (Ok6 & F6 & T6 & C6 & Vtn & Ot); try fr.
  set (st6 := write32 (Num (t + 0)) (Num n) st5) in *.
  assert (Un : ToUint32 (Num n) = n) by (apply ToUint32_small; lia).
  pose proof (frame_trans _ _ _ _ _ F4 F5) as F35. cbn [app] in F35.
  pose proof (frame_trans _ _ _ _ _ F35 F6) as F36. cbn [app] in F36.
  pose proof (frame_trans _ _ _ _ _ F03 F36) as F06'. cbn [app] in F06'.
  assert (F06 : frame [c] st st6).
  { apply (frame_old [c; t]); [|exact F06'].
    intros x [<-|[<-|[]]]; [left; left; reflexivity|right; lia]. }
  destruct (node_keep st6 F06) as [Hd6 Hr6].
  assert (Hleaf : shape 64 (buf st6) (char0 st6) (char1 st6) (trie1 st6)
                    (Seg n o w2 Nil Nil)).
  { apply (shape_frame [t] st5); [exact F6| |repeat constructor; exact Aln|].
    - apply shape_leaf.
      + exact Hn64.
      + lia.
      + exact Vn0.
      + exact Vn1.
      + rewrite Vn2. exact V.
      + lia.
      + exact Ho.
      + rewrite C5. destruct F5 as (-> & _). lia.
      + apply (frame_bytes_eq [] st4); [exact F5|lia|lia|exact Hby].
    - intros x [<-|[]] [E|[]]. lia. }
  exists st6,
    (Seg c off (firstn (lcp s w) s) d
       (Seg t (off + Z.of_nat (lcp s w)) (skipn (lcp s w) s)
          (Seg n o w2 Nil Nil) r)).
  split; [reflexivity|].
  pose proof Hwf as Hwf'. cbn [wf] in Hwf'.
  destruct Hwf' as (Hs & Hbd & Hhd & Hwd & Hwr).
  unfold inserted. split; [reflexivity|]. split; [reflexivity|].
  split; [reflexivity|]. split.
  { apply (shape_node [c] st st6 c off s d r); try assumption.
    - lia.
    - rewrite (frame_fld _ _ _ _ _ F36) by fr. exact Fc0.
    - rewrite (frame_fld _ _ _ _ _ F36) by fr. exact Fc1.
    - rewrite (frame_fld _ _ _ _ _ F36) by fr. exact Fc2.
    - apply (shape_tail [c] st st6 c off s d r); try assumption; try lia.
      + rewrite Vtn. exact Un.
      + rewrite Ot by lia. rewrite (frame_fld _ _ _ _ _ F35) by fr.
        exact Ft1.
      + rewrite Ot by lia. rewrite (frame_fld _ _ _ _ _ F35) by fr.
        exact Ft2. }
  assert (Hf : firstn (lcp s w) s <> []).
  { intros E. apply (f_equal (@length Z)) in E.
    rewrite length_firstn in E. cbn [length] in E. lia. }
  assert (Hk : skipn (lcp s w) s <> []).
  { intros E. apply (f_equal (@length Z)) in E.
    rewrite length_skipn in E. cbn [length] in E. lia. }
  split.
  { cbn [wf is_bnd heads In]. rewrite hd_firstn by lia.
    repeat split; try assumption; try tauto.
    intros [E|[]]. revert E. apply not_eq_sym. subst w2.
    apply lcp_skipn_hd; lia. }
  split.
  { exists [t; n]. cbn [cells]. rewrite app_nil_r. split.
    - change (c :: cells d ++ t :: (n :: []) ++ cells r)
        with ((c :: cells d) ++ [t; n] ++ cells r).
      apply Permutation_app_swap_app.
    - split.
      + apply NoDup_cons. split; [|repeat constructor; apply not_elem_of_nil].
        rewrite list_elem_of_In. intros [E|[]]. lia.
      + repeat constructor; fr. }
  split.
  { intros x.
    rewrite (strs_Seg_in c off (firstn (lcp s w) s) d).
    rewrite (strs_Seg_in c off s d r). cbn [rest_strs].
    split.
    - intros [(y & -> & Hy)|Hx]; [|right; right; exact Hx].
      apply strs_Seg_in in Hy. destruct Hy as [(z & -> & Hz)|Hy].
      + right. left. exists z. split; [|exact Hz].
        rewrite app_assoc, firstn_skipn. reflexivity.
      + apply strs_leaf in Hy. subst y. left. symmetry. exact Ew.
    - intros [->|[(z & -> & Hz)|Hx]]; [| |right; exact Hx].
      + left. exists w2. split; [exact Ew|].
        apply strs_Seg_in. right. apply strs_leaf. reflexivity.
      + left. exists (skipn (lcp s w) s ++ z). split.
        * rewrite app_assoc, firstn_skipn. reflexivity.
        * apply strs_Seg_in. left. exists z. split; [reflexivity|exact Hz]. }
  split.
  { cbn [heads In]. rewrite hd_firstn by lia. intros h Hh. right. exact Hh. }
  split; [cbn [size]; lia|].
  split.
  { apply (frame_weaken [c]); [|exact F06].
    intros x [<-|[]]. left. reflexivity. }
  destruct Ok6 as ((Q1 & Q2 & _) & _ & Sok6).
  split; [lia|]. split; [exact Q2|]. split; [lia|exact Sok6].
Qed.


(** The hostname ends inside the segment: the cell is split and a boundary
    cell is put before the new cell. *)
Lemma add_split_boundary :
  (1 <= lcp s w < length s)%nat -> lcp s w = length w ->
  let m := Z.of_nat (lcp s w) in
  let st1 := write32 (Num (c + 2)) (Num (bor (Num (shl (Num m) 24)) (Num off)))
               st in
  exists st' u',
    (let '(t, st2) :=
       newCell (Num 0) (read32 st1 (Num (c + 1)))
         (Num (bor (Num (shl (Num (Z.of_nat (length s) - m)) 24))
                   (Num (off + m)))) st1 in
     let '(b, st4) :=
       newCell (Num 0) (read32 (write32 (Num (c + 1)) t st2) (Num (c + 1)))
         (Num 0) (write32 (Num (c + 1)) t st2) in
     Ret (Num 1) (write32 (Num (c + 1)) b st4)) = Ret (Num 1) st'
    /\ inserted w st (Seg c off s d r) st' u'.
Proof.
  intros Hm Hmw. cbn zeta.
  destruct node_cell as (Hc & Hct & Hac). destruct node_len as [Lw Lw1].
  pose proof Hok as ((R1 & R2 & R3 & R4 & R5 & R6 & R7) & _ & _).
  pose proof (split_cell Hm) as H. cbn zeta in H.
  destruct H as (st2 & E2 & Rd & Ok3 & F03 & T3 & C3 & E4t & Alt & Ht64
                 & Fc0 & Fc1 & Fc2 & Ft0 & Ft1 & Ft2).
  rewrite E2. set (t := trie1 st / 4) in *.
  set (st3 := write32 (Num (c + 1)) (Num t) st2) in *.
  rewrite Rd.
  assert (Ew : w = firstn (lcp s w) s).
  { rewrite lcp_firstn_eq, Hmw. symmetry. apply firstn_all. }
  destruct (newCell_ok (Num 0) (Num t) (Num 0) 1 (Z.of_nat (length w)) st3 Ok3)
    as (st4 & E4 & Ok4 & F4 & T4 & C4 & E4b & Alb & Hb64 & Vb0 & Vb1 & Vb2);
    try lia.
  rewrite E4. set (b := trie1 st3 / 4) in *.
  destruct (write32_ok c 1 (Num b) (1 - 1) (Z.of_nat (length w)) st4 Ok4)
    as (Ok5 & F5 & T5 & C5 & Vcb & Oc5); try fr.
  set (st5 := write32 (Num (c + 1)) (Num b) st4) in *.
  assert (Ub : ToUint32 (Num b) = b) by (apply ToUint32_small; lia).
  assert (Ut : ToUint32 (Num t) = t) by (apply ToUint32_small; lia).
  pose proof (frame_trans _ _ _ _ _ F4 F5) as F35. cbn [app] in F35.
  pose proof (frame_trans _ _ _ _ _ F03 F35) as F05'. cbn [app] in F05'.
  assert (F05 : frame [c] st st5).
  { apply (frame_old [c; c]); [|exact F05'].
    intros x [<-|[<-|[]]]; left; left; reflexivity. }
  destruct (node_keep st5 F05) as [Hd5 Hr5].
  exists st5,
    (Seg c off (firstn (lcp s w) s) d
       (Bnd b (Seg t (off + Z.of_nat (lcp s w)) (skipn (lcp s w) s) Nil r))).
  split; [reflexivity|].
  pose proof Hwf as Hwf'. cbn [wf] in Hwf'.
  destruct Hwf' as (Hs & Hbd & Hhd & Hwd & Hwr).
  unfold inserted. split; [reflexivity|]. split; [reflexivity|].
  split; [reflexivity|]. split.
  { apply (shape_node [c] st st5 c off s d r); try assumption.
    - lia.
    - rewrite Oc5 by lia. rewrite (frame_fld _ _ _ _ _ F4) by fr. exact Fc0.
    - rewrite Vcb. exact Ub.
    - rewrite Oc5 by lia. rewrite (frame_fld _ _ _ _ _ F4) by fr. exact Fc2.
    - apply shape_bnd.
      + exact Hb64.
      + lia.
      + rewrite (frame_fld _ _ _ _ _ F5) by fr. exact Vb0.
      + rewrite (frame_fld _ _ _ _ _ F5) by fr. rewrite Vb1. exact Ut.
      + rewrite (frame_fld _ _ _ _ _ F5) by fr. exact Vb2.
      + apply (shape_tail [c] st st5 c off s d r); try assumption; try lia.
        * rewrite (frame_fld _ _ _ _ _ F35) by fr. exact Ft0.
        * rewrite (frame_fld _ _ _ _ _ F35) by fr. exact Ft1.
        * rewrite (frame_fld _ _ _ _ _ F35) by fr. exact Ft2.
        * exact I. }
  assert (Hf : firstn (lcp s w) s <> []).
  { intros E. apply (f_equal (@length Z)) in E.
    rewrite length_firstn in E. cbn [length] in E. lia. }
  assert (Hk : skipn (lcp s w) s <> []).
  { intros E. apply (f_equal (@length Z)) in E.
    rewrite length_skipn in E. cbn [length] in E. lia. }
  split.
  { cbn [wf is_bnd is_seg heads In]. rewrite hd_firstn by lia.
    repeat split; try assumption; tauto. }
  split.
  { exists [b; t]. cbn [cells app]. split.
    - change (c :: cells d ++ b :: t :: cells r)
        with ((c :: cells d) ++ [b; t] ++ cells r).
      apply Permutation_app_swap_app.
    - split.
      + apply NoDup_cons. split; [|repeat constructor; apply not_elem_of_nil].
        rewrite list_elem_of_In. intros [E|[]]. lia.
      + repeat constructor; fr. }
  split.
  { intros x.
    rewrite (strs_Seg_in c off (firstn (lcp s w) s) d).
    rewrite (strs_Seg_in c off s d r). cbn [rest_strs].
    split.
    - intros [(y & -> & [<-|Hy])|Hx]; [| |right; right; exact Hx].
      + left. rewrite app_nil_r. symmetry. exact Ew.
      + apply strs_Seg_in in Hy. destruct Hy as [(z & -> & Hz)|[]].
        right. left. exists z. split; [|exact Hz].
        rewrite app_assoc, firstn_skipn. reflexivity.
    - intros [->|[(z & -> & Hz)|Hx]]; [| |right; exact Hx].
      + left. exists []. split; [rewrite app_nil_r; exact Ew|].
        left. reflexivity.
      + left. exists (skipn (lcp s w) s ++ z). split.
        * rewrite app_assoc, firstn_skipn. reflexivity.
        * right. apply strs_Seg_in. left. exists z.
          split; [reflexivity|exact Hz]. }
  split.
  { cbn [heads In]. rewrite hd_firstn by lia. intros h Hh. right. exact Hh. }
  split; [cbn [size]; lia|].
  split.
  { apply (frame_weaken [c]); [|exact F05].
    intros x [<-|[]]. left. reflexivity. }
  destruct Ok5 as ((Q1 & Q2 & _) & _ & Sok5).
  split; [lia|]. split; [exact Q2|]. split; [lia|exact Sok5].
Qed.


Lemma node_apart : forall x, In x (cells d) -> ~ In x (cells r).
Proof using Har.
  destruct Har as [Nd _]. cbn [cells] in Nd.
  apply NoDup_cons in Nd. destruct Nd as [_ Nd].
  apply NoDup_app in Nd. destruct Nd as (_ & Nd & _).
  intros x Hx Hx'. apply (Nd x); apply list_elem_of_In; assumption.
Qed.

(** The chain below [down] has taken the hostname. *)
Lemma rebuild_down (st' : state) (d' : tr) :
  lcp s w = O -> inserted w st d st' d' ->
  inserted w st (Seg c off s d r) st' (Seg c off s d' r).
Proof.
  intros Hm (P1 & P2 & P3 & Sh & W & (new & Pm & Nn & Fn) & St & Hh & Sz
             & F & T & M & C & Sk).
  destruct node_cell as (Hc & Hct & Hac).
  destruct node_fresh as [Nd Nr]. destruct node_aligned as [Ad Ar].
  destruct node_sub as [Hsd Hsr].
  pose proof Hsh as Hsh'. cbn [shape] in Hsh'.
  destruct Hsh' as (_ & _ & Fd & Fr & Fs & Hls & _).
  pose proof Hwf as Hwf'. cbn [wf] in Hwf'.
  destruct Hwf' as (Hs & Hbd & Hhd & Hwd & Hwr).
  unfold inserted. split; [reflexivity|]. split; [reflexivity|].
  split; [reflexivity|]. split.
  { rewrite <- (firstn_all s).
    apply (shape_node (cells d) st st' c off s d r); try assumption.
    - lia.
    - rewrite (frame_fld _ _ _ _ _ F) by fr. rewrite P1. exact Fd.
    - rewrite (frame_fld _ _ _ _ _ F) by fr. exact Fr.
    - rewrite (frame_fld _ _ _ _ _ F) by fr. exact Fs.
    - apply (shape_frame (cells d) st); try assumption.
      intros x Hx Hx'. apply (node_apart x); assumption. }
  split.
  { cbn [wf]. split; [exact Hs|]. split; [congruence|].
    split; [|split; assumption].
    intros Hin. apply Hh in Hin. destruct Hin as [E|Hin]; [|tauto].
    revert E. apply lcp_zero_hd; assumption. }
  split.
  { exists new. cbn [cells]. split; [|split; assumption].
    rewrite Pm, <- app_assoc.
    apply (Permutation_middle new (cells d ++ cells r) c). }
  split.
  { intros x. rewrite (strs_Seg_in c off s d' r), (strs_Seg_in c off s d r).
    rewrite St. tauto. }
  split.
  { cbn [heads In]. intros h [E|Hin]; [right; left; exact E|].
    apply Hh in Hin. tauto. }
  split; [cbn [size]; lia|].
  split.
  { apply (frame_weaken (cells d)); [|exact F].
    intros x Hx. cbn [cells]. right. apply in_or_app. left. exact Hx. }
  split; [exact T|]. split; [exact M|]. split; [exact C|exact Sk].
Qed.

(** The chain at [right] has taken the rest of the hostname. *)
Lemma rebuild_right (st' : state) (r' : tr) (w2 : list Z) :
  w = s ++ w2 -> inserted w2 st r st' r' ->
  inserted w st (Seg c off s d r) st' (Seg c off s d r').
Proof.
  intros Ew (P1 & P2 & P3 & Sh & W & (new & Pm & Nn & Fn) & St & Hh & Sz
             & F & T & M & C & Sk).
  destruct node_cell as (Hc & Hct & Hac).
  destruct node_fresh as [Nd Nr]. destruct node_aligned as [Ad Ar].
  destruct node_sub as [Hsd Hsr].
  pose proof Hsh as Hsh'. cbn [shape] in Hsh'.
  destruct Hsh' as (_ & _ & Fd & Fr & Fs & Hls & _).
  pose proof Hwf as Hwf'. cbn [wf] in Hwf'.
  destruct Hwf' as (Hs & Hbd & Hhd & Hwd & Hwr).
  unfold inserted. split; [reflexivity|]. split; [reflexivity|].
  split; [reflexivity|]. split.
  { rewrite <- (firstn_all s).
    apply (shape_node (cells r) st st' c off s d r); try assumption.
    - lia.
    - rewrite (frame_fld _ _ _ _ _ F) by fr. exact Fd.
    - rewrite (frame_fld _ _ _ _ _ F) by fr. rewrite P1. exact Fr.
    - rewrite (frame_fld _ _ _ _ _ F) by fr. exact Fs.
    - apply (shape_frame (cells r) st); try assumption.
      intros x Hx Hx'. apply (node_apart x); assumption. }
  split.
  { cbn [wf]. repeat split; assumption. }
  split.
  { exists new. cbn [cells]. split; [|split; assumption].
    rewrite Pm.
    change (c :: cells d ++ new ++ cells r)
      with ((c :: cells d) ++ new ++ cells r).
    apply Permutation_app_swap_app. }
  split.
  { intros x. rewrite (strs_Seg_in c off s d r'), (strs_Seg_in c off s d r).
    assert (Hrest : forall y, In y (rest_strs strs r')
                              <-> y = w2 \/ In y (rest_strs strs r)).
    { intros y. rewrite !rest_strs_in, St, P2. tauto. }
    split.
    - intros [(y & -> & Hy)|Hx]; [|right; right; exact Hx].
      apply Hrest in Hy. destruct Hy as [->|Hy].
      + left. symmetry. exact Ew.
      + right. left. exists y. split; [reflexivity|exact Hy].
    - intros [->|[(y & -> & Hy)|Hx]]; [| |right; exact Hx].
      + left. exists w2. split; [exact Ew|]. apply Hrest. left. reflexivity.
      + left. exists y. split; [reflexivity|]. apply Hrest. right. exact Hy. }
  split.
  { cbn [heads In]. intros h Hin. right. exact Hin. }
  split; [cbn [size]; lia|].
  split.
  { apply (frame_weaken (cells r)); [|exact F].
    intros x Hx. cbn [cells]. right. apply in_or_app. right. exact Hx. }
  split; [exact T|]. split; [exact M|]. split; [|exact Sk].
  rewrite Ew, length_app. lia.
Qed.

End Cases.

Section Boundary.
Import Trie Manager ManagerInv.

(** The chain after a boundary cell has taken the hostname. *)
Lemma rebuild_bnd (st st' : state) (b : Z) (r r' : tr) (w : list Z) :
  shape 64 (buf st) (char0 st) (char1 st) (trie1 st) (Bnd b r) ->
  wf (Bnd b r) -> arena (Bnd b r) ->
  inserted w st r st' r' ->
  inserted w st (Bnd b r) st' (Bnd b r').
Proof.
  intros Hsh Hwf [Nd Al]
    (P1 & P2 & P3 & Sh & W & (new & Pm & Nn & Fn) & St & Hh & Sz
     & F & T & M & C & Sk).
  cbn [shape] in Hsh. destruct Hsh as (Hc & Hct & F0 & F1 & F2 & Hr).
  cbn [wf] in Hwf. destruct Hwf as [Hsr Hwr].
  cbn [cells] in Nd, Al.
  apply NoDup_cons in Nd. destruct Nd as [Nb Nd].
  rewrite list_elem_of_In in Nb.
  apply Forall_cons_iff in Al. destruct Al as [Ab Al].
  pose proof F as (A1 & A2 & A3 & A4 & A5 & A6 & A7).
  unfold inserted. split; [reflexivity|]. split; [reflexivity|].
  split; [reflexivity|]. split.
  { apply shape_bnd; try lia; try assumption.
    - rewrite (frame_fld _ _ _ _ _ F) by (assumption || lia). exact F0.
    - rewrite (frame_fld _ _ _ _ _ F) by (assumption || lia).
      rewrite P1. exact F1.
    - rewrite (frame_fld _ _ _ _ _ F) by (assumption || lia). exact F2. }
  split; [cbn [wf]; split; [congruence|exact W]|].
  split.
  { exists new. cbn [cells]. split; [|split; assumption].
    rewrite Pm. apply (Permutation_middle new (cells r) b). }
  split; [cbn [strs]; exact St|].
  split; [cbn [heads]; intros h []|].
  split; [cbn [size]; lia|].
  split.
  { apply (frame_weaken (cells r)); [|exact F].
    intros x Hx. cbn [cells]. right. exact Hx. }
  split; [exact T|]. split; [exact M|]. split; [exact C|exact Sk].
Qed.

End Boundary.

Section Insert.
Import Trie Manager ManagerInv.

Lemma arena_sub (c off : Z) (s : list Z) (d r : tr) :
  arena (Seg c off s d r) -> arena d /\ arena r.
Proof.
  intros [Nd Al]. cbn [cells] in Nd, Al.
  apply NoDup_cons in Nd. destruct Nd as [_ Nd].
  apply NoDup_app in Nd. destruct Nd as (Nd & _ & Nr).
  apply Forall_cons_iff in Al. destruct Al as [_ Al].
  apply Forall_app in Al. destruct Al as [Ad Ar].
  split; split; assumption.
Qed.

Lemma arena_bnd (b : Z) (r : tr) : arena (Bnd b r) -> arena r.
Proof.
  intros [Nd Al]. cbn [cells] in Nd, Al.
  apply NoDup_cons in Nd. destruct Nd as [_ Nd].
  apply Forall_cons_iff in Al. destruct Al as [_ Al].
  split; assumption.
Qed.

Lemma shape_ptr (st : state) (t : tr) :
  shape 64 (buf st) (char0 st) (char1 st) (trie1 st) t ->
  t <> Nil -> 64 <= ptr t /\ 4 * ptr t + 12 <= trie1 st.
Proof.
  destruct t as [|c off s d r|c r]; [congruence|..]; cbn [shape ptr];
    intros H _; lia.
Qed.

Lemma ptr_zero (st : state) (t : tr) :
  shape 64 (buf st) (char0 st) (char1 st) (trie1 st) t ->
  ptr t = 0 -> t = Nil.
Proof.
  destruct t as [|c off s d r|c r]; [reflexivity|..]; cbn [shape ptr];
    intros H E; lia.
Qed.

(** [add] on a hostname that is not stored: the chain takes it. *)
Lemma add_loop_insert (u : tr) :
  forall (st : state) (w : list Z) (fuel : nat),
    ok 2 (Z.of_nat (length w)) st -> rem_of st w -> w <> [] ->
    u <> Nil ->
    shape 64 (buf st) (char0 st) (char1 st) (trie1 st) u ->
    wf u -> arena u -> ~ In w (strs u) -> (size u <= fuel)%nat ->
    exists st' u',
      add_loop fuel (Num (ptr u)) (Num (Z.of_nat (length w))) st
      = Ret (Num 1) st'
      /\ inserted w st u st' u'.
Proof.
  induction u as [|c off s d IHd r IHr|c r IHr];
    intros st w fuel Hok Hrem Hw Hu Hsh Hwf Har Hnin Hfuel.
  - congruence.
  - pose proof Hsh as Hsh'. cbn [shape] in Hsh'.
    destruct Hsh' as (Hc & Hct & Fd & Fr & Fs & Hls & Hoff & Hend & Hb & Hd & Hr).
    pose proof Hwf as Hwf'. cbn [wf] in Hwf'.
    destruct Hwf' as (Hs & Hbd & Hhd & Hwd & Hwr).
    pose proof Hok as ((R1 & R2 & R3 & R4 & R5 & R6 & R7) & Nok & Sok).
    destruct (arena_sub c off s d r Har) as [Ard Arr].
    assert (Hls1 : (1 <= length s)%nat) by (destruct s; [congruence|cbn; lia]).
    pose proof (rem_of_length st w Hrem) as [Lw _].
    assert (Hlw : (1 <= length w <= 255)%nat).
    { destruct w; [congruence|cbn in *; lia]. }
    destruct fuel as [|fuel]; [cbn in Hfuel; lia|]. cbn [size] in Hfuel.
    cbn [add_loop ptr jadd]. unfold read32.
    rewrite !get32_fld by lia. rewrite Fs, Fd, Fr.
    rewrite jeq_Num.
    destruct (Z.of_nat (length s) * 2 ^ 24 + off =? 0) eqn:E;
      [apply Z.eqb_eq in E; lia|].
    rewrite (indexOfMismatch_spec st off s w) by
      first [lia | assumption
            | apply (shape_seg_at st c); assumption || lia
            | apply rem_of_needle_rem; assumption || lia].
    rewrite seg_word_len, seg_word_off by lia.
    rewrite ?jeq_Num, ?jne_Num. cbn [jsub jadd]. rewrite ?jeq_Num, ?jne_Num.
    pose proof (lcp_le_l s w) as Ml. pose proof (lcp_le_r s w) as Mr.
    pose proof (lcp_split s w) as Ew.
    set (w2 := skipn (lcp s w) w) in *.
    assert (Lw2 : Z.of_nat (length w2)
                  = Z.of_nat (length w) - Z.of_nat (lcp s w)).
    { subst w2. rewrite length_skipn. lia. }
    rewrite <- Lw2.
    destruct (Z.of_nat (lcp s w) =? 0) eqn:E0.
    + apply Z.eqb_eq in E0. assert (Hm : lcp s w = O) by lia.
      destruct (ptr d =? 0) eqn:Ed; cbn [negb].
      * apply Z.eqb_eq in Ed. apply (ptr_zero st) in Ed; [|exact Hd].
        apply (add_leaf_down st c off s d r w); assumption.
      * apply Z.eqb_neq in Ed.
        assert (Hdn : d <> Nil) by (intros ->; apply Ed; reflexivity).
        destruct (IHd st w fuel) as (st' & d' & E' & Hins); try assumption.
        -- intros Hin. apply Hnin. apply strs_Seg_in. right. exact Hin.
        -- lia.
        -- exists st', (Seg c off s d' r). split; [exact E'|].
           apply rebuild_down; assumption.
    + apply Z.eqb_neq in E0.
      destruct (Z.of_nat (lcp s w) =? Z.of_nat (length s)) eqn:E1.
      * apply Z.eqb_eq in E1. assert (Hm : lcp s w = length s) by lia.
        rewrite Hm, firstn_all in Ew.
        assert (Hnr : ~ In w2 (rest_strs strs r)).
        { intros Hin. apply Hnin. apply strs_Seg_in. left.
          exists w2. split; [exact Ew|exact Hin]. }
        destruct (Z.of_nat (length w2) =? 0) eqn:E2; cbn [negb].
        -- apply Z.eqb_eq in E2.
           assert (Hw2 : w2 = []) by (destruct w2; [reflexivity|cbn in E2; lia]).
           rewrite Hw2 in *. rewrite app_nil_r in Ew.
           destruct r as [|rc roff rs rd rr|rc rr].
           ++ exfalso. apply Hnr. left. reflexivity.
           ++ cbn [shape] in Hr.
              destruct Hr as (Hrc & Hrt & _ & _ & Frs & Hrl & Hro & _).
              cbn [wf] in Hwr. destruct Hwr as (Hrs & _).
              cbn [ptr].
              destruct (rc =? 0) eqn:Er; [apply Z.eqb_eq in Er; lia|].
              cbn [orb]. rewrite get32_fld by lia. rewrite Frs.
              rewrite jeq_Num.
              destruct (Z.of_nat (length rs) * 2 ^ 24 + roff =? 0) eqn:Ez.
              { apply Z.eqb_eq in Ez.
                destruct rs; [congruence|cbn [length] in Ez; lia]. }
              apply (add_boundary st c off s d (Seg rc roff rs rd rr) w);
                try assumption; reflexivity.
           ++ exfalso. apply Hnr. left. reflexivity.
        -- apply Z.eqb_neq in E2.
           assert (Hw2 : w2 <> []) by (intros E'; rewrite E' in E2; apply E2; reflexivity).
           destruct (ptr r =? 0) eqn:Er; cbn [negb].
           ++ apply Z.eqb_eq in Er. apply (ptr_zero st) in Er; [|exact Hr].
              apply (add_boundary_leaf st c off s d r w); assumption.
           ++ apply Z.eqb_neq in Er.
              assert (Hrn : r <> Nil) by (intros ->; apply Er; reflexivity).
              destruct (IHr st w2 fuel) as (st' & r' & E' & Hins);
                try assumption.
              ** apply (ok_weaken 2 2 (Z.of_nat (length w))); [lia|lia|exact Hok].
              ** apply (rem_of_app st s). rewrite <- Ew. exact Hrem.
              ** intros Hin. apply Hnr. apply rest_strs_in. right. exact Hin.
              ** lia.
              ** exists st', (Seg c off s d r'). split; [exact E'|].
                 apply (rebuild_right st c off s d r w) with (w2 := w2);
                   assumption.
      * apply Z.eqb_neq in E1.
        assert (Hm : (1 <= lcp s w < length s)%nat) by lia.
        destruct (Z.of_nat (length w2) =? 0) eqn:E2; cbn [negb].
        -- apply Z.eqb_eq in E2.
           apply (add_split_boundary st c off s d r w); try assumption. lia.
        -- apply Z.eqb_neq in E2. rewrite Lw2.
           apply (add_split_leaf st c off s d r w); try assumption. lia.
  - pose proof Hsh as Hsh'. cbn [shape] in Hsh'.
    destruct Hsh' as (Hc & Hct & F0 & F1 & F2 & Hr).
    pose proof Hwf as Hwf'. cbn [wf] in Hwf'. destruct Hwf' as (Hsr & Hwr).
    pose proof Hok as ((R1 & R2 & R3 & R4 & R5 & R6 & R7) & Nok & Sok).
    destruct fuel as [|fuel]; [cbn in Hfuel; lia|]. cbn [size] in Hfuel.
    cbn [add_loop ptr jadd]. unfold read32.
    rewrite !get32_fld by lia. rewrite F2, F1.
    rewrite jeq_Num. cbn [Z.eqb].
    destruct (IHr st w fuel) as (st' & r' & E' & Hins); try assumption.
    + intros ->. discriminate.
    + apply (arena_bnd c). exact Har.
    + lia.
    + exists st', (Bnd c r'). split; [exact E'|].
      apply rebuild_bnd; assumption.
Qed.

End Insert.

Section Grow.
Import Trie Manager ManagerInv.

Lemma same_trie_segs_ok (st st' : state) :
  same_trie st st' -> segments st' = segments st ->
  segs_ok st -> segs_ok st'.
Proof.
  intros (T1 & N & Cd & Hc0 & Hc1 & Ht1 & Hc & Hp) Hs Sok k o Hk.
  rewrite Hs in Hk. destruct (Sok k o Hk) as (O1 & O2 & O3).
  repeat split; try lia.
  rewrite <- O3. apply bytes_at_ext. intros i Hi.
  rewrite <- !Z.add_assoc. apply Hp. lia.
Qed.

(** [growBuf] on a settled state leaves room for two cells and 255 bytes. *)
Lemma growBuf_room (n : Z) (st : state) :
  settled st -> within n st -> 0 <= n < 65536 ->
  exists st',
    growBuf st = Ret tt st' /\ same_trie st st'
    /\ segments st' = segments st
    /\ settled st' /\ room 2 255 st'.
Proof.
  intros (S1 & S2 & S3 & S4 & S5 & S6 & S7 & S8 & S9) [W1 W2] Hn.
  unfold growBuf.
  pose proof (round_up_64k (trie1 st + 24) ltac:(lia)) as R0. cbn zeta in R0.
  set (c0 := band (Num (trie1 st + 24 + 65535)) (Num (bnot 65535))) in *.
  pose proof (round_up_64k (c0 + char1 st - char0 st + 256) ltac:(lia)) as R1.
  cbn zeta in R1.
  set (buf1 := band (Num (c0 + char1 st - char0 st + 256 + 65535))
                    (Num (bnot 65535))) in *.
  destruct R0 as [R0 R0m]. destruct R1 as [R1 R1m].
  assert (Hge : char0 st <= c0).
  { revert S6 S8 R0 R0m. clear. intros.
    Z.to_euclidean_division_equations. lia. }
  unfold resizeBuf.
  destruct (buf1 =? byteLength (buf st)) eqn:E.
  - apply Z.eqb_eq in E.
    assert (Hc : c0 = char0 st).
    { revert S6 S7 S8 S9 R0 R0m R1 R1m E Hge. clear. intros.
      Z.to_euclidean_division_equations. lia. }
    exists st. split; [reflexivity|]. split.
    { unfold same_trie. repeat split; try reflexivity; lia. }
    split; [reflexivity|]. split.
    { unfold settled. repeat split; assumption || lia. }
    unfold room. repeat split; try lia.
  - apply Z.eqb_neq in E.
    destruct (buf1 <? 0) eqn:E0; [lia|].
    assert (V1 : view_ok (buf st) 0 (trie1 st) && set_ok (alloc buf1) (trie1 st) 0
                 = true).
    { unfold view_ok, set_ok. cbn [alloc byteLength].
      repeat (apply andb_true_intro; split); lia. }
    rewrite V1. cbn [negb].
    assert (V2 : view_ok (buf st) (char0 st) (char1 st - char0 st)
                 && set_ok (blit (buf st) 0 (trie1 st) (alloc buf1) 0)
                      (char1 st - char0 st) c0 = true).
    { unfold view_ok, set_ok. cbn [blit alloc byteLength].
      repeat (apply andb_true_intro; split); lia. }
    rewrite V2. cbn [negb].
    assert (M4 : (buf1 mod 4 =? 0) = true).
    { apply Z.eqb_eq. revert R1m. clear. intros.
      Z.to_euclidean_division_equations. lia. }
    rewrite M4. eexists. split; [reflexivity|].
    split.
    { unfold same_trie.
      cbn [trie1 needle char0 char1 buf blit alloc byteLength byte].
      repeat split; try lia.
      + intros a Ha.
        destruct ((c0 <=? a) && (a <? c0 + (char1 st - char0 st))) eqn:Ea;
          [lia|].
        destruct ((0 <=? a) && (a <? 0 + trie1 st)) eqn:Eb; [|lia].
        rewrite Z.mod_mod by lia. do 2 f_equal. lia.
      + intros i Hi.
        destruct ((c0 <=? c0 + i) && (c0 + i <? c0 + (char1 st - char0 st)))
          eqn:Ea; [|lia].
        rewrite Z.mod_mod by lia. do 2 f_equal. lia. }
    split; [reflexivity|].
    cbn [trie1 needle char0 char1 buf blit alloc byteLength byte].
    split.
    { unfold settled.
      cbn [trie1 needle char0 char1 buf blit alloc byteLength byte].
      repeat split; try assumption; try lia. }
    unfold room.
    cbn [trie1 needle char0 char1 buf blit alloc byteLength byte].
    repeat split; try assumption; try lia.
Qed.

End Grow.

Section AddStep.
Import Trie Manager ManagerInv.

Lemma key_length (hn : jsstring) : (length (key hn) <= 255)%nat.
Proof.
  unfold key, needle_bytes. rewrite length_rev, length_map, length_firstn. lia.
Qed.

Lemma setNeedle_segments (hn : jsstring) (st : state) :
  segments (setNeedle hn st) = segments st.
Proof. unfold setNeedle. case_decide; reflexivity. Qed.

Lemma holds_ext (n : Z) (st st' : state) (root : Z) (ws : list (list Z)) :
  trie1 st' = trie1 st ->
  char1 st' - char0 st' = char1 st - char0 st ->
  (forall a, 256 <= a < trie1 st ->
     byte (buf st') a mod 256 = byte (buf st) a mod 256) ->
  (forall i, 0 <= i < char1 st - char0 st ->
     byte (buf st') (char0 st' + i) mod 256
     = byte (buf st) (char0 st + i) mod 256) ->
  holds n st root ws -> holds n st' root ws.
Proof.
  intros T C Hc Hp [(H1 & H2 & H3 & F0 & F1 & F2 & Hw)|
                    (t & P & Sg & Sh & W & Ar & Sz & St)].
  - left. rewrite T.
    assert (F : forall k, 0 <= k < 3 ->
                  fld (buf st') root k = fld (buf st) root k).
    { intros k Hk. unfold fld. apply word_ext. intros i Hi. apply Hc. lia. }
    rewrite !F by lia. repeat split; assumption.
  - right. exists t. split; [exact P|]. split; [exact Sg|].
    split; [|split; [exact W|split; [exact Ar|split; [exact Sz|exact St]]]].
    rewrite T. apply (shape_ext 64 (buf st) _ (char0 st) _ (char1 st));
      try assumption; lia.
Qed.

Lemma holds_more (n n' : Z) (st : state) (root : Z) (ws : list (list Z))
    (w : list Z) :
  n <= n' -> (w <> [] -> In w ws) ->
  holds n st root ws -> holds n' st root (ws ++ [w]).
Proof.
  intros Hn Hin [(H1 & H2 & H3 & F0 & F1 & F2 & Hw)|
                 (t & P & Sg & Sh & W & Ar & Sz & St)].
  - left. repeat split; try assumption.
    intros x Hx. apply in_app_or in Hx. destruct Hx as [Hx|[<-|[]]]; [auto|].
    destruct w as [|a w]; [reflexivity|].
    apply Hw. apply Hin. discriminate.
  - right. exists t. split; [exact P|]. split; [exact Sg|].
    split; [exact Sh|]. split; [exact W|]. split; [exact Ar|].
    split; [lia|]. intros x. rewrite St, in_app_iff. cbn [In].
    split; [tauto|]. intros [[Hx|[<-|[]]] Hne]; auto.
Qed.

(** [setNeedle] keeps the invariant. *)
Lemma setNeedle_inv (n : Z) (hn : jsstring) (st : state) (root : Z)
    (ws : list (list Z)) :
  inv n st root ws ->
  inv n (setNeedle hn st) root ws
  /\ needle (setNeedle hn st) = hn
  /\ trie1 (setNeedle hn st) = trie1 st.
Proof.
  intros (Se & Wi & Nok & Sok & Ho).
  pose proof Se as (S1 & S2 & S3 & S4 & S5 & S6 & S7 & S8 & S9).
  destruct (setNeedle_spec hn st ltac:(lia) Nok)
    as (N0 & Nok0 & T0 & C0 & C1 & L0 & B0).
  pose proof (setNeedle_segments hn st) as Sg.
  set (st0 := setNeedle hn st) in *.
  split; [|split; assumption].
  split; [unfold settled; rewrite T0, C0, C1, L0; exact Se|].
  split; [unfold within; rewrite T0, C0, C1; exact Wi|].
  split; [exact Nok0|]. split.
  - intros k o Hk. rewrite Sg in Hk. destruct (Sok k o Hk) as (O1 & O2 & O3).
    rewrite C0, C1. repeat split; try lia.
    rewrite <- O3. apply bytes_at_ext. intros i Hi.
    rewrite B0 by lia. reflexivity.
  - apply (holds_ext n st); try lia; try assumption.
    + intros a Ha. rewrite B0 by lia. reflexivity.
    + intros i Hi. rewrite C0, B0 by lia. reflexivity.
Qed.

Lemma settled_after (st1 st2 : state) :
  settled st1 -> room 2 255 st1 ->
  char0 st2 = char0 st1 -> byteLength (buf st2) = byteLength (buf st1) ->
  trie1 st1 <= trie1 st2 <= trie1 st1 + 24 ->
  (trie1 st2 - 256) mod 12 = 0 ->
  char1 st1 <= char1 st2 <= char1 st1 + 255 ->
  settled st2.
Proof.
  intros (S1 & S2 & S3 & S4 & S5 & S6 & S7 & S8 & S9)
         (R1 & R2 & R3 & R4 & R5 & R6 & R7) C0 B T M C1.
  unfold settled. rewrite C0, B. repeat split; try assumption; lia.
Qed.

(** The first hostname of a trie goes into the root cell. *)
Lemma add_first (st : state) (root : Z) (w : list Z) :
  ok 2 (Z.of_nat (length w)) st -> rem_of st w -> w <> [] ->
  64 <= root -> aligned root -> 4 * root + 12 <= trie1 st ->
  exists st' o,
    (let st1 := write32 (Num (root + 0)) (Num 0) st in
     let st2 := write32 (Num (root + 1)) (Num 0) st1 in
     let '(seg, st3) := storeSegment (Num (Z.of_nat (length w))) st2 in
     Ret (Num 1) (write32 (Num (root + 2)) seg st3)) = Ret (Num 1) st'
    /\ shape 64 (buf st') (char0 st') (char1 st') (trie1 st')
         (Seg root o w Nil Nil)
    /\ frame [root] st st'
    /\ trie1 st' = trie1 st
    /\ char1 st' <= char1 st + Z.of_nat (length w)
    /\ segs_ok st'.
Proof.
  intros Hok Hrem Hw Hr Ha Ht. cbn zeta.
  pose proof Hok as ((R1 & R2 & R3 & R4 & R5 & R6 & R7) & _ & _).
  pose proof (rem_of_length st w Hrem) as [Lw _].
  destruct (write32_ok root 0 (Num 0) 2 (Z.of_nat (length w)) st Hok)
    as (Ok1 & F1 & T1 & C1 & V0 & O1); try assumption; try lia.
  set (st1 := write32 (Num (root + 0)) (Num 0) st) in *.
  destruct (write32_ok root 1 (Num 0) 2 (Z.of_nat (length w)) st1 Ok1)
    as (Ok2 & F2 & T2 & C2 & V1 & O2); try assumption; try lia.
  set (st2 := write32 (Num (root + 1)) (Num 0) st1) in *.
  assert (Hrem2 : rem_of st2 w).
  { apply (frame_rem_of [root] st1); [exact F2|].
    apply (frame_rem_of [root] st); [exact F1|exact Hrem]. }
  destruct (storeSegment_ok w 2 (Z.of_nat (length w)) st2 Ok2)
    as (v & o & st3 & E3 & Ok3 & F3 & T3 & C3 & V & Ho & Hoe & Hby);
    try assumption; try lia.
  rewrite E3.
  destruct (write32_ok root 2 (Num v) 2
              (Z.of_nat (length w) - Z.of_nat (length w)) st3 Ok3)
    as (Ok4 & F4 & T4 & C4 & V2 & O4); try assumption; try lia.
  set (st4 := write32 (Num (root + 2)) (Num v) st3) in *.
  pose proof (frame_trans _ _ _ _ _ F1 F2) as F02. cbn [app] in F02.
  pose proof (frame_trans _ _ _ _ _ F02 F3) as F03. cbn [app] in F03.
  pose proof (frame_trans _ _ _ _ _ F03 F4) as F04. cbn [app] in F04.
  exists st4, o. split; [reflexivity|]. split.
  { apply shape_leaf.
    - exact Hr.
    - lia.
    - rewrite O4 by lia.
      rewrite (frame_fld _ _ _ _ _ F3) by (assumption || lia || intros []).
      rewrite O2 by lia. exact V0.
    - rewrite O4 by lia.
      rewrite (frame_fld _ _ _ _ _ F3) by (assumption || lia || intros []).
      exact V1.
    - rewrite V2. exact V.
    - exact Lw.
    - exact Ho.
    - rewrite C4. destruct F4 as (-> & _). lia.
    - apply (frame_bytes_eq [root] st3); [exact F4|lia|lia|exact Hby]. }
  split.
  { apply (frame_old [root; root; root]); [|exact F04].
    intros x Hx. left. cbn [In] in *. intuition. }
  destruct Ok4 as (_ & _ & Sok4).
  split; [lia|]. split; [lia|exact Sok4].
Qed.

End AddStep.

Section AddInv.
Import Trie Manager ManagerInv.

Lemma read_NEEDLE_LEN (st : state) :
  256 <= byteLength (buf st) -> needle_ok st ->
  read8 st (Num 255) = Num (Z.of_nat (length (key (needle st)))).
Proof.
  intros Hl [H _]. unfold read8. rewrite get8_in by lia.
  unfold key. rewrite length_rev. f_equal. exact H.
Qed.

Lemma inserted_arena (w : list Z) (st st' : state) (t t' : tr) :
  shape 64 (buf st) (char0 st) (char1 st) (trie1 st) t -> arena t ->
  inserted w st t st' t' -> arena t'.
Proof.
  intros Sh [Nd Al] (_ & _ & _ & _ & _ & (new & Pm & Nn & Fn) & _).
  apply (arena_new (trie1 st) (cells t) new); try assumption.
  intros c Hc. apply (shape_cells 64 _ _ _ _ t Sh c Hc).
Qed.

(** One call of [add] keeps the invariant of [fromIterable] and stores the
    needle. *)
Lemma add_inv (n : Z) (st : state) (root : Z) (ws : list (list Z))
    (fuel : nat) :
  inv n st root ws -> 0 <= n < 65536 -> 1 + 2 * n <= Z.of_nat fuel ->
  exists res st',
    add fuel (Num root) st = Ret res st'
    /\ ((res = Num 0 /\ (key (needle st) = [] \/ In (key (needle st)) ws))
        \/ (res = Num 1 /\ key (needle st) <> []
            /\ ~ In (key (needle st)) ws))
    /\ inv (n + 1) st' root (ws ++ [key (needle st)]).
Proof.
  intros (Se & Wi & Nok & Sok & Ho) Hn Hf.
  pose proof Se as (S1 & S2 & S3 & S4 & S5 & S6 & S7 & S8 & S9).
  pose proof Wi as [W1 W2].
  set (w := key (needle st)).
  pose proof (key_length (needle st)) as Lw. fold w in Lw.
  unfold add. rewrite read_NEEDLE_LEN by (assumption || lia). fold w.
  rewrite jeq_Num.
  destruct (Z.of_nat (length w) =? 0) eqn:E.
  - apply Z.eqb_eq in E.
    assert (Hw : w = []) by (destruct w; [reflexivity|cbn in E; lia]).
    exists (Num 0), st. split; [reflexivity|].
    split; [left; split; [reflexivity|left; exact Hw]|].
    split; [exact Se|]. split; [unfold within; lia|].
    split; [exact Nok|]. split; [exact Sok|].
    apply (holds_more n); [lia|congruence|exact Ho].
  - apply Z.eqb_neq in E.
    assert (Hw : w <> []) by (intros E'; rewrite E' in E; apply E; reflexivity).
    destruct (growBuf_room n st Se Wi Hn) as (st1 & HG & Hsame & Sg1 & Se1 & Ro1).
    rewrite HG. cbn [bind].
    pose proof (same_trie_needle_ok st st1 ltac:(lia) Hsame Nok) as Nok1.
    pose proof (same_trie_segs_ok st st1 Hsame Sg1 Sok) as Sok1.
    pose proof Hsame as (T1 & N1 & Cd & Hc0 & Hc1 & Ht1 & Hcb & Hpb).
    assert (Ho1 : holds n st1 root ws).
    { apply (holds_ext n st); try assumption.
      intros a Ha. apply Hcb. lia. }
    assert (Hrem : rem_of st1 w).
    { exists []. rewrite N1. reflexivity. }
    assert (Ok1 : ok 2 (Z.of_nat (length w)) st1).
    { split; [|split; assumption].
      destruct Ro1 as (R1 & R2 & R3 & R4 & R5 & R6 & R7).
      unfold room. repeat split; lia. }
    pose proof Ro1 as (R1 & R2 & R3 & R4 & R5 & R6 & R7).
    destruct Ho1 as [(H1 & H2 & H3 & F0 & F1 & F2 & Hws)|
                     (t & P & Sg & Sh & W & Ar & Sz & St)].
    + cbn [jadd]. unfold read32 at 1. rewrite get32_fld by lia.
      rewrite F2, jeq_Num. cbn [Z.eqb].
      destruct (add_first st1 root w Ok1 Hrem Hw H1 H2 H3)
        as (st' & o & E' & Sh & F & T & C & Sk).
      exists (Num 1), st'. split; [exact E'|].
      split.
      { right. split; [reflexivity|]. split; [exact Hw|].
        intros Hx. apply Hws in Hx. congruence. }
      pose proof F as (A1 & A2 & A3 & A4 & A5 & A6 & A7).
      split.
      { apply (settled_after st1); try assumption; try lia.
        rewrite T. exact R2. }
      split; [unfold within; lia|].
      split; [apply (frame_needle_ok [root] st1); assumption|].
      split; [exact Sk|].
      right. exists (Seg root o w Nil Nil).
      split; [reflexivity|]. split; [reflexivity|]. split; [exact Sh|].
      split; [cbn [wf is_bnd heads In]; tauto|].
      split.
      { split; [repeat constructor; apply not_elem_of_nil|].
        repeat constructor. exact H2. }
      split; [cbn [size]; lia|].
      intros x. rewrite strs_leaf, in_app_iff. cbn [In]. split.
      * intros ->. split; [right; left; reflexivity|exact Hw].
      * intros [[Hx|[<-|[]]] Hne]; [|reflexivity].
        apply Hws in Hx. congruence.
    + destruct t as [|c off s d r|]; try discriminate. cbn [ptr] in P.
      subst c.
      pose proof Sh as Sh'. cbn [shape] in Sh'.
      destruct Sh' as (Hc & Hct & _ & _ & Fs & Hls & Hoff & _).
      assert (Hs : s <> []) by (cbn [wf] in W; tauto).
      cbn [jadd]. unfold read32 at 1. rewrite get32_fld by lia.
      rewrite Fs, jeq_Num.
      destruct (Z.of_nat (length s) * 2 ^ 24 + off =? 0) eqn:E';
        [apply Z.eqb_eq in E'; destruct s; [congruence|cbn [length] in E'; lia]|].
      assert (Hfuel : (size (Seg root off s d r) <= fuel)%nat) by lia.
      destruct (decide (w ∈ strs (Seg root off s d r))) as [Hin|Hnin];
        rewrite list_elem_of_In in *.
      * exists (Num 0), st1. split.
        { apply (add_loop_stored st1 (Seg root off s d r)); try assumption;
            try lia.
          apply rem_of_needle_rem; assumption || lia. }
        split; [left; split; [reflexivity|right; apply St; exact Hin]|].
        split; [exact Se1|]. split; [unfold within; lia|].
        split; [exact Nok1|]. split; [exact Sok1|].
        apply (holds_more n); [lia| |].
        -- intros _. apply St. exact Hin.
        -- right. exists (Seg root off s d r).
           split; [reflexivity|]. split; [exact Sg|]. split; [exact Sh|].
           split; [exact W|]. split; [exact Ar|].
           split; [exact Sz|exact St].
      * destruct (add_loop_insert (Seg root off s d r) st1 w fuel)
          as (st2 & t' & E2 & Hins); try assumption; try discriminate.
        pose proof (inserted_arena w st1 st2 _ t' Sh Ar Hins) as Ar'.
        destruct Hins as (P1 & P2 & P3 & Sh2 & W2' & _ & St' & Hh & Sz'
                          & F & T & M & C & Sk).
        exists (Num 1), st2. split; [exact E2|].
        split.
        { right. split; [reflexivity|]. split; [exact Hw|].
          intros Hx. apply Hnin. apply St. split; assumption. }
        pose proof F as (A1 & A2 & A3 & A4 & A5 & A6 & A7).
        split; [apply (settled_after st1); try assumption; lia|].
        split; [unfold within; lia|].
        split; [apply (frame_needle_ok _ st1 st2 F); assumption|].
        split; [exact Sk|].
        right. exists t'.
        split; [exact P1|]. split; [rewrite P2; reflexivity|].
        split; [exact Sh2|]. split; [exact W2'|]. split; [exact Ar'|].
        split; [lia|].
        intros x. rewrite St', St, in_app_iff. cbn [In]. split.
        -- intros [->|[Hx Hne]]; [split; [right; left; reflexivity|exact Hw]|].
           split; [left; exact Hx|exact Hne].
        -- intros [[Hx|[<-|[]]] Hne]; [right; split; assumption|].
           left. reflexivity.
Qed.

End AddInv.

Section Build.
Import Trie Manager ManagerInv.

Lemma ref_add_inv (n : Z) (st : state) (r : HNBigTrieRef) (root : Z)
    (ws : list (list Z)) (hn : jsstring) (fuel : nat) :
  iroot r = Num root ->
  inv n st root ws -> 0 <= n < 65536 -> 1 + 2 * n <= Z.of_nat fuel ->
  exists res st',
    ref_add fuel r hn st = Ret res st'
    /\ ((res = Num 0 /\ (key hn = [] \/ In (key hn) ws))
        \/ (res = Num 1 /\ key hn <> [] /\ ~ In (key hn) ws))
    /\ inv (n + 1) st' root (ws ++ [key hn]).
Proof.
  intros Hr Hi Hn Hf. unfold ref_add. rewrite Hr.
  destruct (setNeedle_inv n hn st root ws Hi) as (Hi0 & N0 & _).
  destruct (add_inv n (setNeedle hn st) root ws fuel Hi0 Hn Hf)
    as (res & st' & E & Hres & Hi').
  rewrite N0 in Hi', Hres. exists res, st'.
  split; [exact E|]. split; assumption.
Qed.

(** The loop of [fromIterable] keeps the invariant. *)
Lemma add_all_inv (r : HNBigTrieRef) (root : Z) (fuel : nat)
    (hns : list jsstring) :
  iroot r = Num root ->
  forall (n : Z) (st : state) (ws : list (list Z)),
    inv n st root ws -> 0 <= n ->
    n + Z.of_nat (length hns) <= 65536 ->
    2 * (n + Z.of_nat (length hns)) <= Z.of_nat fuel + 1 ->
    exists st',
      add_all fuel r hns st = Ret tt st'
      /\ inv (n + Z.of_nat (length hns)) st' root (ws ++ map key hns).
Proof.
  intros Hr. induction hns as [|hn hns IH]; intros n st ws Hi Hn Hl Hf.
  - exists st. split; [reflexivity|]. cbn [length map].
    rewrite app_nil_r, Z.add_0_r. exact Hi.
  - cbn [length] in Hl, Hf. cbn [add_all].
    destruct (ref_add_inv n st r root ws hn fuel Hr Hi)
      as (res & st1 & E & _ & Hi1);
      try lia.
    rewrite E. cbn [bind].
    destruct (IH (n + 1) st1 (ws ++ [key hn]) Hi1) as (st' & E' & Hi');
      try lia.
    exists st'. split; [exact E'|]. cbn [length map].
    replace (n + Z.of_nat (S (length hns)))
      with (n + 1 + Z.of_nat (length hns)) by lia.
    rewrite <- app_assoc in Hi'. exact Hi'.
Qed.

(** [create] on the manager as the file declares it. *)
Lemma create_fresh_inv :
  iroot (fst (create fresh)) = Num 64
  /\ inv 0 (snd (create fresh)) 64 [].
Proof.
  split; [reflexivity|].
  split.
  { unfold settled.
    repeat split; vm_compute; first [reflexivity | intros H; discriminate H]. }
  split.
  { unfold within.
    split; vm_compute; first [reflexivity | intros H; discriminate H]. }
  split; [split; reflexivity|].
  split.
  { intros k o Hk. cbn in Hk. rewrite lookup_empty in Hk. discriminate. }
  left. repeat split; try reflexivity;
    try (vm_compute; first [reflexivity | intros H; discriminate H]).
  intros x [].
Qed.

Lemma inv_geom (n : Z) (st : state) (root : Z) (ws : list (list Z)) :
  inv n st root ws -> 0 <= n <= 65536 -> geom st.
Proof.
  intros ((S1 & S2 & S3 & S4 & S5 & S6 & S7 & S8 & S9) & [W1 W2] & _) Hn.
  unfold geom. repeat split; lia.
Qed.

End Build.

Section Final.
Import Trie Manager ManagerInv.

(** Every hostname given to [fromIterable] is stored: adding it again
    returns 0 and leaves [trie1] as it is. One unit of fuel per cell is
    enough, and a trie of [n] hostnames has at most [2 * n + 1] cells. *)
Theorem Manager_build_stores (hs : list jsstring) (fuel : nat) :
  Z.of_nat (length hs) <= 65536 -> (2 * length hs + 1 <= fuel)%nat ->
  exists r st,
    build fuel hs = Ret r st
    /\ forall h, In h hs ->
         exists st',
           ref_add fuel r h st = Ret (Num 0) st'
           /\ trie1 st' = trie1 st.
Proof.
  intros Hl Hf. unfold build.
  destruct create_fresh_inv as [Hr Hi0].
  destruct (create fresh) as [r st0]. cbn [fst snd] in Hr, Hi0.
  destruct (add_all_inv r 64 fuel hs Hr 0 st0 [] Hi0) as (st & E & Hi);
    try lia.
  rewrite E. cbn [bind]. exists r, st. split; [reflexivity|].
  intros h Hh. cbn [app] in Hi. rewrite Z.add_0_l in Hi.
  assert (Hk : In (key h) (map key hs)) by (apply in_map; exact Hh).
  unfold ref_add. rewrite Hr.
  destruct (key h) as [|a k] eqn:Ek.
  - destruct (setNeedle_inv _ h st 64 _ Hi) as (Hi1 & N1 & T1).
    destruct Hi1 as ((S1 & S2 & S3 & S4 & S5 & _) & _ & Nok1 & _).
    exists (setNeedle h st). split; [|exact T1].
    unfold add. rewrite read_NEEDLE_LEN by (assumption || lia).
    rewrite N1, Ek. reflexivity.
  - destruct (setNeedle_inv _ h st 64 _ Hi) as (Hi1 & N1 & T1).
    pose proof (inv_geom _ _ 64 _ Hi1 ltac:(lia)) as G.
    destruct Hi1 as (_ & _ & Nok & _ & [(_ & _ & _ & _ & _ & _ & Hws)|
                                        (t & P & Sg & Sh & W & Ar & Sz & St)]).
    + apply Hws in Hk. discriminate.
    + destruct (add_stored (setNeedle h st) t fuel G Nok Sh W Sg)
        as (st' & E' & T' & _).
      * rewrite N1. fold (key h). rewrite Ek. apply St.
        split; [exact Hk|discriminate].
      * lia.
      * rewrite P in E'. exists st'. split; [exact E'|congruence].
Qed.

End Final.

(** *** [addJS] on a hostname that is not stored, and [fromIterable] *)

Section CFrames.
Import Trie Container ContainerInv.

Lemma C_frame_refl (cs : list Z) (st : state) : frame cs st st.
Proof. unfold frame. repeat split; try reflexivity; lia. Qed.

Lemma C_frame_trans (cs cs' : list Z) (st st1 st2 : state) :
  frame cs st st1 -> frame cs' st1 st2 -> frame (cs ++ cs') st st2.
Proof.
  intros (A1 & A2 & A3 & A4 & A5 & A6 & A7 & A8)
         (B1 & B2 & B3 & B4 & B5 & B6 & B7 & B8).
  unfold frame. repeat split; try congruence; try lia.
  - intros c k H1 H2 H3 H4 H5.
    rewrite B7, A7; try assumption; try lia; try reflexivity;
      intros Hin; apply H5; apply in_or_app; tauto.
  - intros a Ha. rewrite B8, A8; try reflexivity; try assumption.
    rewrite A1. lia.
Qed.

Lemma C_frame_weaken (cs cs' : list Z) (st st' : state) :
  incl cs cs' -> frame cs st st' -> frame cs' st st'.
Proof.
  intros Hi (A1 & A2 & A3 & A4 & A5 & A6 & A7 & A8).
  unfold frame. repeat split; try assumption.
  intros c k H1 H2 H3 H4 H5. apply A7; try assumption.
  intros Hin. apply H5, Hi, Hin.
Qed.

Lemma C_frame_fld (cs : list Z) (st st' : state) (c k : Z) :
  frame cs st st' -> 68 <= c -> aligned c -> 4 * c + 12 <= TRIE1 st ->
  0 <= k < 3 -> ~ In c cs -> fld (buf st') c k = fld (buf st) c k.
Proof. intros (_ & _ & _ & _ & _ & _ & A7 & _). apply A7. Qed.

(** Cells allocated after [st] need not be listed. *)
Lemma C_frame_old (cs cs' : list Z) (st st' : state) :
  (forall x, In x cs -> In x cs' \/ TRIE1 st <= 4 * x) ->
  frame cs st st' -> frame cs' st st'.
Proof.
  intros Hn (A1 & A2 & A3 & A4 & A5 & A6 & A7 & A8).
  unfold frame. repeat split; try assumption.
  intros c k H1 H2 H3 H4 H5. apply A7; try assumption.
  intros Hin. apply Hn in Hin. destruct Hin as [Hin|Hin]; [tauto|lia].
Qed.

(** A write into the header or into a cell leaves the other words. *)
Lemma C_slots_set32 (st : state) (i : Z) (v : jsval) :
  68 <= i ->
  let st' := write32 (Num i) v st in
  TRIE1 st' = TRIE1 st /\ CHAR0 st' = CHAR0 st /\ CHAR1 st' = CHAR1 st
  /\ byteLength (buf st') = byteLength (buf st)
  /\ needle st' = needle st /\ wasmMemory st' = wasmMemory st.
Proof.
  intros Hi. cbn zeta. unfold TRIE1, CHAR0, CHAR1, write32, with_buf.
  cbn [buf needle wasmMemory].
  rewrite slot_TRIE1, slot_CHAR0, slot_CHAR1.
  rewrite !fld_set32_other by lia. rewrite byteLength_set32.
  repeat split; reflexivity.
Qed.

Lemma C_write32_frame (c k : Z) (v : jsval) (st : state) :
  68 <= c -> aligned c -> 0 <= k < 3 ->
  4 * c + 12 <= TRIE1 st -> TRIE1 st <= CHAR0 st ->
  CHAR0 st <= byteLength (buf st) ->
  let st' := write32 (Num (c + k)) v st in
  frame [c] st st'
  /\ TRIE1 st' = TRIE1 st /\ CHAR1 st' = CHAR1 st
  /\ fld (buf st') c k = ToUint32 v
  /\ (forall k', k' <> k -> fld (buf st') c k' = fld (buf st) c k').
Proof.
  intros Hc Ha Hk Ht Hc0 Hb. cbn zeta.
  destruct (C_slots_set32 st (c + k) v ltac:(lia))
    as (T & C0 & C1 & L & N & W).
  set (st' := write32 (Num (c + k)) v st) in *.
  assert (Hbuf : buf st' = set32 (buf st) (Num (c + k)) v) by reflexivity.
  split; [|split; [exact T|split; [exact C1|split]]].
  - unfold frame. rewrite T, C0, C1, L, N, W.
    repeat split; try reflexivity; try lia.
    + intros c' k' H1 H2 H3 H4 H5. rewrite Hbuf. apply fld_set32_other.
      unfold aligned in *. intros E. apply H5. left.
      Z.to_euclidean_division_equations. lia.
    + intros a Ha'. rewrite Hbuf. rewrite byte_set32_other by lia.
      reflexivity.
  - rewrite Hbuf. apply fld_set32_any; lia.
  - intros k' Hk'. rewrite Hbuf. apply fld_set32_other. lia.
Qed.

End CFrames.

Section CAlloc.
Import Trie Container ContainerInv.

Lemma C_cell_of_trie1 (t : Z) :
  272 <= t -> (t - 272) mod 12 = 0 ->
  4 * (t / 4) = t /\ aligned (t / 4) /\ 68 <= t / 4.
Proof.
  intros H0 H1. unfold aligned. Z.to_euclidean_division_equations. lia.
Qed.

(** The header word [i], one of 65, 66 and 67, takes the value [v]. *)
Lemma C_set_slot (st : state) (i v : Z) :
  65 <= i <= 67 -> 0 <= v < 2 ^ 32 -> 272 <= byteLength (buf st) ->
  let st' := write32 (Num i) (Num v) st in
  fld (buf st') i 0 = v
  /\ (forall j, j <> i -> fld (buf st') j 0 = fld (buf st) j 0)
  /\ (forall c k, 68 <= c -> 0 <= k ->
        fld (buf st') c k = fld (buf st) c k)
  /\ (forall a, a < 260 \/ 272 <= a -> byte (buf st') a = byte (buf st) a)
  /\ byteLength (buf st') = byteLength (buf st)
  /\ needle st' = needle st /\ wasmMemory st' = wasmMemory st.
Proof.
  intros Hi Hv Hl. cbn zeta. unfold write32, with_buf.
  cbn [buf needle wasmMemory].
  split.
  { rewrite <- (Z.add_0_r i) at 1. apply fld_set32_same; lia. }
  split; [intros j Hj; apply fld_set32_other; lia|].
  split; [intros c k Hc Hk; apply fld_set32_other; lia|].
  split; [intros a Ha; apply byte_set32_other; lia|].
  split; [apply byteLength_set32|]. split; reflexivity.
Qed.

(** [addCell] takes the 12 bytes at [TRIE1]. *)
Lemma C_addCell_spec (d r v : jsval) (st : state) :
  272 <= TRIE1 st -> (TRIE1 st - 272) mod 12 = 0 ->
  TRIE1 st + 12 <= CHAR0 st -> CHAR0 st <= CHAR1 st ->
  CHAR1 st <= byteLength (buf st) ->
  byteLength (buf st) <= 2 ^ 30 ->
  let n := TRIE1 st / 4 in
  exists st',
    addCell d r v st = (Num n, st')
    /\ frame [] st st'
    /\ TRIE1 st' = TRIE1 st + 12 /\ CHAR1 st' = CHAR1 st
    /\ fld (buf st') n 0 = ToUint32 d
    /\ fld (buf st') n 1 = ToUint32 r
    /\ fld (buf st') n 2 = ToUint32 v.
Proof.
  intros H0 H1 H2 H3 H4 H5. cbn zeta.
  destruct (C_cell_of_trie1 (TRIE1 st) H0 H1) as (E4 & Al & Hn).
  unfold addCell. rewrite read_TRIE1 by lia. cbn [jadd].
  rewrite ushr_2 by lia. rewrite slot_TRIE1.
  set (n := TRIE1 st / 4) in *.
  destruct (C_set_slot st 65 (TRIE1 st + 12) ltac:(lia) ltac:(lia) ltac:(lia))
    as (V & O & Oc & Ob & L & N & W).
  set (st0 := write32 (Num 65) (Num (TRIE1 st + 12)) st) in *.
  assert (T0 : TRIE1 st0 = TRIE1 st + 12)
    by (unfold TRIE1 at 1; rewrite slot_TRIE1; exact V).
  assert (K0 : CHAR0 st0 = CHAR0 st)
    by (unfold CHAR0; rewrite slot_CHAR0; apply O; lia).
  assert (C0 : CHAR1 st0 = CHAR1 st)
    by (unfold CHAR1; rewrite slot_CHAR1; apply O; lia).
  assert (F0 : frame [] st st0).
  { unfold frame. rewrite T0, K0, C0, L, N, W.
    repeat split; try reflexivity; try lia.
    - intros c k C1 C2 C3 C4 _. apply Oc; lia.
    - intros a Ha. rewrite Ob by lia. reflexivity. }
  destruct (C_write32_frame n 0 d st0) as (F1 & T1 & C1 & V1 & O1);
    try assumption; try lia.
  set (st1 := write32 (Num (n + 0)) d st0) in *.
  assert (B1 : byteLength (buf st1) = byteLength (buf st))
    by (destruct F1 as (_ & -> & _); exact L).
  assert (K1 : CHAR0 st1 = CHAR0 st)
    by (destruct F1 as (-> & _); exact K0).
  destruct (C_write32_frame n 1 r st1) as (F2 & T2 & C2 & V2 & O2);
    try assumption; try lia.
  set (st2 := write32 (Num (n + 1)) r st1) in *.
  assert (B2 : byteLength (buf st2) = byteLength (buf st))
    by (destruct F2 as (_ & -> & _); exact B1).
  assert (K2 : CHAR0 st2 = CHAR0 st)
    by (destruct F2 as (-> & _); exact K1).
  destruct (C_write32_frame n 2 v st2) as (F3 & T3 & C3 & V3 & O3);
    try assumption; try lia.
  set (st3 := write32 (Num (n + 2)) v st2) in *.
  exists st3. split; [reflexivity|].
  split.
  { apply (C_frame_old ([] ++ [n] ++ [n] ++ [n])).
    - intros c Hc. cbn in Hc. right. lia.
    - eapply C_frame_trans; [exact F0|].
      eapply C_frame_trans; [exact F1|].
      eapply C_frame_trans; [exact F2|exact F3]. }
  split; [lia|]. split; [lia|].
  split; [rewrite O3, O2 by lia; exact V1|].
  split; [rewrite O3 by lia; exact V2|exact V3].
Qed.

End CAlloc.

Section CStore.
Import Trie Container ContainerInv.

Lemma C_addSegment_loop_spec (i : nat) :
  forall (k : nat) (c1 : Z) (st : state),
    (1 <= i <= 255)%nat -> (i <= k)%nat -> 256 <= c1 ->
    c1 + Z.of_nat i <= byteLength (buf st) ->
    exists st',
      addSegment_loop k (Num (Z.of_nat i)) (Num c1) st
      = Ret (Num (c1 + Z.of_nat i)) st'
      /\ byteLength (buf st') = byteLength (buf st)
      /\ needle st' = needle st /\ wasmMemory st' = wasmMemory st
      /\ (forall a, a < c1 \/ c1 + Z.of_nat i <= a ->
            byte (buf st') a = byte (buf st) a)
      /\ (forall x : nat, (x < i)%nat ->
            byte (buf st') (c1 + Z.of_nat x) mod 256
            = byte (buf st) (Z.of_nat i - 1 - Z.of_nat x) mod 256).
Proof.
  induction i as [|i IH]; intros k c1 st Hi Hk Hc HB; [lia|].
  destruct k as [|k]; [lia|].
  cbn [addSegment_loop jadd jsub].
  replace (Z.of_nat (S i) - 1) with (Z.of_nat i) by lia.
  assert (R : read8 st (Num (Z.of_nat i))
              = Num (byte (buf st) (Z.of_nat i) mod 256)).
  { unfold read8. apply get8_in. lia. }
  rewrite R.
  set (st1 := write8 (Num c1) (Num (byte (buf st) (Z.of_nat i) mod 256)) st).
  assert (L1 : byteLength (buf st1) = byteLength (buf st)).
  { subst st1. unfold write8, with_buf. cbn [buf]. apply byteLength_set8. }
  assert (O1 : forall a, a <> c1 -> byte (buf st1) a = byte (buf st) a).
  { intros a Ha. subst st1. unfold write8, with_buf. cbn [buf].
    apply byte_set8_other. exact Ha. }
  assert (S1 : byte (buf st1) c1 = byte (buf st) (Z.of_nat i) mod 256).
  { subst st1. unfold write8, with_buf. cbn [buf].
    rewrite byte_set8_same by (unfold in_range; lia).
    cbn [ToUint8]. apply Z.mod_mod. lia. }
  rewrite jne_Num.
  destruct (Z.of_nat i =? 0) eqn:E; cbn [negb].
  - apply Z.eqb_eq in E. assert (i = O) by lia. subst i.
    exists st1. split; [do 2 f_equal; lia|].
    split; [exact L1|]. split; [reflexivity|]. split; [reflexivity|].
    split.
    + intros a Ha. apply O1. lia.
    + intros x Hx. assert (x = O) by lia. subst x.
      rewrite Z.add_0_r, S1. rewrite Z.mod_mod by lia. reflexivity.
  - apply Z.eqb_neq in E.
    destruct (IH k (c1 + 1) st1) as (st' & E' & I1 & I2 & I3 & I4 & I5);
      try lia.
    exists st'. split.
    { rewrite E'. do 2 f_equal. lia. }
    split; [lia|]. split; [exact I2|]. split; [exact I3|]. split.
    + intros a Ha. rewrite I4 by lia. apply O1. lia.
    + intros x Hx. destruct x as [|x].
      * rewrite Z.add_0_r. rewrite I4 by lia. rewrite S1.
        rewrite Z.mod_mod by lia. do 2 f_equal. lia.
      * replace (c1 + Z.of_nat (S x)) with (c1 + 1 + Z.of_nat x) by lia.
        rewrite I5 by lia. rewrite O1 by lia. do 2 f_equal. lia.
Qed.

Lemma C_rem_of_length (st : state) (w : list Z) :
  rem_of st w -> (length w <= 254)%nat.
Proof.
  intros [p E]. apply (f_equal (@length Z)) in E.
  rewrite length_rev, length_app in E.
  pose proof (needle_bytes_length_le 254 (needle st)). lia.
Qed.

Lemma C_rem_of_needle_rem (st : state) (w : list Z) :
  256 <= byteLength (buf st) -> needle_ok st -> rem_of st w ->
  needle_rem st w.
Proof.
  intros Hl Hok [p E]. apply (C_needle_rem_app st p).
  rewrite <- E. apply C_needle_ok_rem; assumption.
Qed.

Lemma C_rem_of_app (st : state) (s w : list Z) :
  rem_of st (s ++ w) -> rem_of st w.
Proof. intros [p E]. exists (p ++ s). rewrite <- app_assoc. exact E. Qed.

(** [addSegment] appends the bytes to consume to the character data and
    returns their packed word. *)
Lemma C_addSegment_spec (w : list Z) (st : state) :
  needle_ok st -> rem_of st w -> w <> [] ->
  272 <= TRIE1 st -> TRIE1 st <= CHAR0 st -> CHAR0 st <= CHAR1 st ->
  CHAR1 st + Z.of_nat (length w) <= byteLength (buf st) ->
  byteLength (buf st) <= 2 ^ 30 ->
  CHAR1 st - CHAR0 st + Z.of_nat (length w) <= 2 ^ 24 ->
  exists (v o : Z) (st' : state),
    addSegment (Num (Z.of_nat (length w))) st = Ret (Num v) st'
    /\ ToUint32 (Num v) = Z.of_nat (length w) * 2 ^ 24 + o
    /\ 0 <= o < 2 ^ 24 /\ o + Z.of_nat (length w) <= CHAR1 st' - CHAR0 st
    /\ bytes_at (buf st') (CHAR0 st + o) (length w) = w
    /\ frame [] st st'
    /\ TRIE1 st' = TRIE1 st
    /\ CHAR1 st' = CHAR1 st + Z.of_nat (length w).
Proof.
  intros Nok Hrem Hw H0 H1 H2 H3 H4 H5.
  pose proof (C_rem_of_length st w Hrem) as L1.
  assert (L0 : (1 <= length w)%nat) by (destruct w; [congruence|cbn; lia]).
  unfold addSegment. rewrite jeq_Num.
  destruct (Z.of_nat (length w) =? 0) eqn:E; [lia|].
  rewrite read_CHAR1, read_CHAR0 by lia. cbn [jsub].
  assert (Hm : Z.of_nat (length w) mod 2 ^ 32 = Z.of_nat (length w))
    by (apply Z.mod_small; lia).
  cbn [ToUint32]. rewrite Hm, Nat2Z.id.
  destruct (C_addSegment_loop_spec (length w) (length w) (CHAR1 st) st)
    as (st1 & E1 & I1 & I2 & I3 & I4 & I5); try lia.
  rewrite E1. cbn [bind]. rewrite slot_CHAR1.
  destruct (C_set_slot st1 67 (CHAR1 st + Z.of_nat (length w))
              ltac:(lia) ltac:(lia) ltac:(lia))
    as (V & O & Oc & Ob & L & N & W).
  set (st2 := write32 (Num 67) (Num (CHAR1 st + Z.of_nat (length w))) st1)
    in *.
  assert (F1 : forall c k, 64 <= c -> c <= 67 \/ 4 * c + 12 <= TRIE1 st ->
                 0 <= k < 3 -> k = 0 \/ 68 <= c ->
                 fld (buf st1) c k = fld (buf st) c k).
  { intros c k C1 C2 C3 C4. unfold fld. apply word_ext. intros i Hi.
    rewrite I4 by lia. reflexivity. }
  assert (T2 : TRIE1 st2 = TRIE1 st).
  { unfold TRIE1. rewrite slot_TRIE1. rewrite O by lia. apply F1; lia. }
  assert (K2 : CHAR0 st2 = CHAR0 st).
  { unfold CHAR0. rewrite slot_CHAR0. rewrite O by lia. apply F1; lia. }
  assert (C2 : CHAR1 st2 = CHAR1 st + Z.of_nat (length w)).
  { unfold CHAR1 at 1. rewrite slot_CHAR1. exact V. }
  assert (Hb : bytes_at (buf st2) (CHAR0 st + (CHAR1 st - CHAR0 st))
                 (length w) = w).
  { apply bytes_at_eq. intros x Hx.
    replace (CHAR0 st + (CHAR1 st - CHAR0 st) + Z.of_nat x)
      with (CHAR1 st + Z.of_nat x) by lia.
    rewrite Ob by lia. rewrite I5 by exact Hx.
    destruct (C_rem_of_needle_rem st w ltac:(lia) Nok Hrem) as [_ Hr].
    specialize (Hr x Hx). unfold read8 in Hr.
    rewrite get8_in in Hr by lia. congruence. }
  exists (bor (Num (shl (Num (Z.of_nat (length w))) 24))
              (Num (CHAR1 st - CHAR0 st))), (CHAR1 st - CHAR0 st), st2.
  split; [reflexivity|].
  split; [apply seg_word_make; lia|].
  split; [lia|]. split; [lia|]. split; [exact Hb|].
  split.
  { unfold frame. rewrite T2, K2, C2, L, I1, N, I2, W, I3.
    repeat split; try reflexivity; try lia.
    - intros c k C1 C2' C3 C4 _. rewrite Oc by lia. apply F1; lia.
    - intros a Ha. rewrite Ob by lia. rewrite I4 by lia. reflexivity. }
  split; [exact T2|exact C2].
Qed.

End CStore.

Section CSymbolic.
Import Trie Container ContainerInv.

Lemma C_shape_frame (cs : list Z) (st st' : state) (t : tr) :
  frame cs st st' ->
  shape 68 (buf st) (CHAR0 st) (CHAR1 st) (TRIE1 st) t ->
  Forall aligned (cells t) ->
  (forall c, In c (cells t) -> ~ In c cs) ->
  shape 68 (buf st') (CHAR0 st') (CHAR1 st') (TRIE1 st') t.
Proof.
  intros (A1 & A2 & A3 & AW & A4 & A5 & A6 & A7).
  induction t as [|c off s d IHd r IHr|c r IHr]; intros Hsh Hal Hcs;
    [exact I| |].
  - cbn [shape] in *.
    destruct Hsh as (Hc & Hct & Fd & Fr & Fs & Hls & Hoff & Hend & Hb & Hd & Hr).
    cbn [cells] in Hal, Hcs.
    apply Forall_cons_iff in Hal. destruct Hal as [Hac Hal].
    apply Forall_app in Hal. destruct Hal as [Hald Halr].
    assert (Hn : ~ In c cs) by (apply Hcs; left; reflexivity).
    rewrite !A6 by (assumption || lia). rewrite A1.
    split; [lia|]. split; [lia|]. split; [exact Fd|]. split; [exact Fr|].
    split; [exact Fs|]. split; [exact Hls|]. split; [exact Hoff|].
    split; [lia|]. split.
    { rewrite <- Hb at 2. apply bytes_at_ext. intros i Hi.
      apply A7. lia. }
    split.
    + rewrite <- A1. apply IHd; try assumption.
      intros x Hx. apply Hcs. right. apply in_or_app. tauto.
    + rewrite <- A1. apply IHr; try assumption.
      intros x Hx. apply Hcs. right. apply in_or_app. tauto.
  - cbn [shape] in *. destruct Hsh as (Hc & Hct & Fd & Fr & Fs & Hr).
    cbn [cells] in Hal, Hcs.
    apply Forall_cons_iff in Hal. destruct Hal as [Hac Hal].
    assert (Hn : ~ In c cs) by (apply Hcs; left; reflexivity).
    rewrite !A6 by (assumption || lia).
    split; [lia|]. split; [lia|]. split; [exact Fd|]. split; [exact Fr|].
    split; [exact Fs|].
    apply IHr; try assumption.
    intros x Hx. apply Hcs. right. exact Hx.
Qed.

Lemma C_frame_needle_ok (cs : list Z) (st st' : state) :
  frame cs st st' -> needle_ok st -> needle_ok st'.
Proof.
  intros (A1 & A2 & A3 & AW & A4 & A5 & A6 & A7) [H255 Hb].
  unfold needle_ok. rewrite A3. cbn zeta in *.
  set (nb := needle_bytes 254 (needle st)) in *.
  assert (Hn : (length nb <= 254)%nat)
    by (subst nb; apply needle_bytes_length_le).
  split.
  - rewrite A7 by lia. exact H255.
  - rewrite <- Hb at 2. apply bytes_at_ext. intros i Hi. apply A7. lia.
Qed.

Lemma C_frame_rem_of (cs : list Z) (st st' : state) (w : list Z) :
  frame cs st st' -> rem_of st w -> rem_of st' w.
Proof.
  intros (_ & _ & A3 & _) H. unfold rem_of. rewrite A3. exact H.
Qed.

Lemma C_ok_weaken (k k' p p' : Z) (st : state) :
  k' <= k -> p' <= p -> ok k p st -> ok k' p' st.
Proof.
  intros Hk Hp ((R1 & R2 & R3 & R4 & R5 & R6 & R7) & N).
  split; [|assumption]. unfold room. repeat split; lia.
Qed.

Lemma C_addCell_ok (d r v : jsval) (k p : Z) (st : state) :
  ok k p st -> 1 <= k -> 0 <= p ->
  let n := TRIE1 st / 4 in
  exists st',
    addCell d r v st = (Num n, st')
    /\ ok (k - 1) p st' /\ frame [] st st'
    /\ TRIE1 st' = TRIE1 st + 12 /\ CHAR1 st' = CHAR1 st
    /\ 4 * n = TRIE1 st /\ aligned n /\ 68 <= n
    /\ fld (buf st') n 0 = ToUint32 d
    /\ fld (buf st') n 1 = ToUint32 r
    /\ fld (buf st') n 2 = ToUint32 v.
Proof.
  intros ((R1 & R2 & R3 & R4 & R5 & R6 & R7) & N) Hk Hp. cbn zeta.
  destruct (C_addCell_spec d r v st) as (st' & E & F & T & C & V0 & V1 & V2);
    try assumption; try lia.
  destruct (C_cell_of_trie1 (TRIE1 st) R1 R2) as (E4 & Al & Hn).
  exists st'. split; [exact E|].
  pose proof F as (A1 & A2 & A3 & AW & A4 & A5 & A6 & A7).
  split.
  { split.
    - unfold room. rewrite T, C, A1, A2. repeat split; try lia.
      revert R2. clear. intros. Z.to_euclidean_division_equations. lia.
    - apply (C_frame_needle_ok [] st); assumption. }
  repeat split; assumption.
Qed.

Lemma C_write32_ok (c f : Z) (v : jsval) (k p : Z) (st : state) :
  ok k p st -> 0 <= k -> 0 <= p ->
  68 <= c -> aligned c -> 0 <= f < 3 -> 4 * c + 12 <= TRIE1 st ->
  let st' := write32 (Num (c + f)) v st in
  ok k p st' /\ frame [c] st st'
  /\ TRIE1 st' = TRIE1 st /\ CHAR1 st' = CHAR1 st
  /\ fld (buf st') c f = ToUint32 v
  /\ (forall f', f' <> f -> fld (buf st') c f' = fld (buf st) c f').
Proof.
  intros ((R1 & R2 & R3 & R4 & R5 & R6 & R7) & N) Hk Hp Hc Ha Hf Ht.
  destruct (C_write32_frame c f v st) as (F & T & C & V & O);
    try assumption; try lia.
  cbn zeta.
  pose proof F as (A1 & A2 & A3 & AW & A4 & A5 & A6 & A7).
  split.
  { split.
    - unfold room. rewrite T, C, A1, A2. repeat split; lia.
    - apply (C_frame_needle_ok [c] st); assumption. }
  repeat split; assumption.
Qed.

Lemma C_addSegment_ok (w : list Z) (k p : Z) (st : state) :
  ok k p st -> 0 <= k -> Z.of_nat (length w) <= p ->
  rem_of st w -> w <> [] ->
  exists (v o : Z) (st' : state),
    addSegment (Num (Z.of_nat (length w))) st = Ret (Num v) st'
    /\ ok k (p - Z.of_nat (length w)) st' /\ frame [] st st'
    /\ TRIE1 st' = TRIE1 st
    /\ CHAR1 st' <= CHAR1 st + Z.of_nat (length w)
    /\ ToUint32 (Num v) = Z.of_nat (length w) * 2 ^ 24 + o
    /\ 0 <= o < 2 ^ 24
    /\ o + Z.of_nat (length w) <= CHAR1 st' - CHAR0 st'
    /\ bytes_at (buf st') (CHAR0 st' + o) (length w) = w.
Proof.
  intros ((R1 & R2 & R3 & R4 & R5 & R6 & R7) & N) Hk Hp Hrem Hw.
  assert (L0 : (1 <= length w)%nat) by (destruct w; [congruence|cbn; lia]).
  destruct (C_addSegment_spec w st)
    as (v & o & st' & E & V & O1 & O2 & Hb & F & T & C);
    try assumption; try lia.
  exists v, o, st'. split; [exact E|].
  pose proof F as (A1 & A2 & A3 & AW & A4 & A5 & A6 & A7).
  split.
  { split.
    - unfold room. rewrite T, A1, A2. repeat split; lia.
    - apply (C_frame_needle_ok [] st); assumption. }
  rewrite A1. repeat split; try assumption; try lia.
Qed.

Lemma C_arena_new (t1 : Z) (old new cs : list Z) :
  Permutation cs (new ++ old) ->
  NoDup new -> Forall (fun n => aligned n /\ t1 <= 4 * n) new ->
  (forall c, In c old -> 4 * c + 12 <= t1) ->
  NoDup old -> Forall aligned old ->
  NoDup cs /\ Forall aligned cs.
Proof.
  intros P Nn Fn Ho No Fo. split.
  - rewrite P. apply NoDup_app. split; [exact Nn|]. split; [|exact No].
    intros x Hx Hx'. apply list_elem_of_In in Hx, Hx'.
    rewrite List.Forall_forall in Fn. specialize (Fn x Hx).
    specialize (Ho x Hx'). lia.
  - rewrite P. apply Forall_app. split; [|exact Fo].
    eapply Forall_impl; [exact Fn|]. intros a [H _]. exact H.
Qed.

End CSymbolic.

Section CNodes.
Import Trie Container ContainerInv.

Lemma C_frame_bytes (cs : list Z) (st st' : state) (o : Z) (n : nat) :
  frame cs st st' ->
  0 <= o -> o + Z.of_nat n <= CHAR1 st - CHAR0 st ->
  bytes_at (buf st') (CHAR0 st' + o) n = bytes_at (buf st) (CHAR0 st + o) n.
Proof.
  intros (A1 & _ & _ & _ & _ & _ & A7) H0 H1. rewrite A1.
  apply bytes_at_ext. intros i Hi. apply A7. lia.
Qed.

Lemma C_frame_bytes_eq (cs : list Z) (st st' : state) (o : Z) (l : list Z) :
  frame cs st st' ->
  0 <= o -> o + Z.of_nat (length l) <= CHAR1 st - CHAR0 st ->
  bytes_at (buf st) (CHAR0 st + o) (length l) = l ->
  bytes_at (buf st') (CHAR0 st' + o) (length l) = l.
Proof.
  intros F H0 H1 E. rewrite (C_frame_bytes cs st st') by assumption. exact E.
Qed.

(** The cell [c] of a laid out node, with other fields and a prefix of
    its segment. *)
Lemma C_shape_node (cs : list Z) (st st' : state) (c off : Z) (s : list Z)
    (d r d' r' : tr) (m : nat) :
  frame cs st st' ->
  shape 68 (buf st) (CHAR0 st) (CHAR1 st) (TRIE1 st) (Seg c off s d r) ->
  (m <= length s)%nat ->
  fld (buf st') c 0 = ptr d' -> fld (buf st') c 1 = ptr r' ->
  fld (buf st') c 2 = Z.of_nat m * 2 ^ 24 + off ->
  shape 68 (buf st') (CHAR0 st') (CHAR1 st') (TRIE1 st') d' ->
  shape 68 (buf st') (CHAR0 st') (CHAR1 st') (TRIE1 st') r' ->
  shape 68 (buf st') (CHAR0 st') (CHAR1 st') (TRIE1 st')
    (Seg c off (firstn m s) d' r').
Proof.
  intros F Hsh Hm F0 F1 F2 Hd' Hr'.
  cbn [shape] in Hsh.
  destruct Hsh as (Hc & Hct & Fd & Fr & Fs & Hls & Hoff & Hend & Hb & Hd & Hr).
  pose proof F as (A1 & A2 & A3 & AW & A4 & A5 & A6 & A7).
  cbn [shape]. rewrite length_firstn.
  replace (Nat.min m (length s)) with m by lia.
  split; [lia|]. split; [lia|]. split; [exact F0|]. split; [exact F1|].
  split; [exact F2|]. split; [lia|]. split; [lia|]. split; [lia|].
  split; [|split; assumption].
  rewrite (C_frame_bytes cs st st') by (assumption || lia).
  rewrite (bytes_at_firstn _ _ (length s)) by exact Hm.
  rewrite Hb. reflexivity.
Qed.

(** A new cell [t] that takes over the end of the segment of a laid out
    node. *)
Lemma C_shape_tail (cs : list Z) (st st' : state) (c off : Z) (s : list Z)
    (d r d' r' : tr) (m : nat) (t : Z) :
  frame cs st st' ->
  shape 68 (buf st) (CHAR0 st) (CHAR1 st) (TRIE1 st) (Seg c off s d r) ->
  (m < length s)%nat -> CHAR1 st - CHAR0 st <= 2 ^ 24 ->
  68 <= t -> 4 * t + 12 <= TRIE1 st' ->
  fld (buf st') t 0 = ptr d' -> fld (buf st') t 1 = ptr r' ->
  fld (buf st') t 2 = Z.of_nat (length s - m) * 2 ^ 24 + (off + Z.of_nat m) ->
  shape 68 (buf st') (CHAR0 st') (CHAR1 st') (TRIE1 st') d' ->
  shape 68 (buf st') (CHAR0 st') (CHAR1 st') (TRIE1 st') r' ->
  shape 68 (buf st') (CHAR0 st') (CHAR1 st') (TRIE1 st')
    (Seg t (off + Z.of_nat m) (skipn m s) d' r').
Proof.
  intros F Hsh Hm Hp Ht Htt F0 F1 F2 Hd' Hr'.
  cbn [shape] in Hsh.
  destruct Hsh as (Hc & Hct & Fd & Fr & Fs & Hls & Hoff & Hend & Hb & Hd & Hr).
  pose proof F as (A1 & A2 & A3 & AW & A4 & A5 & A6 & A7).
  cbn [shape]. rewrite length_skipn.
  split; [lia|]. split; [lia|]. split; [exact F0|]. split; [exact F1|].
  split; [exact F2|]. split; [lia|]. split; [lia|]. split; [lia|].
  split; [|split; assumption].
  rewrite Z.add_assoc.
  rewrite (bytes_at_skipn _ _ (length s)) by lia.
  rewrite (C_frame_bytes cs st st') by (assumption || lia).
  rewrite Hb. reflexivity.
Qed.

Lemma C_shape_leaf (b : ArrayBuffer) (c0 c1 t1 n o : Z) (w : list Z) :
  68 <= n -> 4 * n + 12 <= t1 ->
  fld b n 0 = 0 -> fld b n 1 = 0 ->
  fld b n 2 = Z.of_nat (length w) * 2 ^ 24 + o ->
  (length w <= 255)%nat -> 0 <= o < 2 ^ 24 ->
  o + Z.of_nat (length w) <= c1 - c0 ->
  bytes_at b (c0 + o) (length w) = w ->
  shape 68 b c0 c1 t1 (Seg n o w Nil Nil).
Proof. intros. cbn [shape ptr]. repeat split; assumption || lia. Qed.

Lemma C_shape_bnd (b : ArrayBuffer) (c0 c1 t1 n : Z) (r : tr) :
  68 <= n -> 4 * n + 12 <= t1 ->
  fld b n 0 = 0 -> fld b n 1 = ptr r -> fld b n 2 = 0 ->
  shape 68 b c0 c1 t1 r ->
  shape 68 b c0 c1 t1 (Bnd n r).
Proof. intros. cbn [shape]. repeat split; assumption || lia. Qed.

End CNodes.

Ltac br := cbn [Trie.forked Trie.branch Trie.is_seg]; intuition congruence.

Section CCases.
Import Trie Container ContainerInv.

Variables (st : state) (c off : Z) (s : list Z) (d r : tr) (w : list Z).
Hypothesis Hok : ok 2 (Z.of_nat (length w)) st.
Hypothesis Hrem : rem_of st w.
Hypothesis Hw : w <> [].
Hypothesis Hsh :
  shape 68 (buf st) (CHAR0 st) (CHAR1 st) (TRIE1 st) (Seg c off s d r).
Hypothesis Hwf : wf (Seg c off s d r).
Hypothesis Har : arena (Seg c off s d r).

Lemma C_node_cell : 68 <= c /\ 4 * c + 12 <= TRIE1 st /\ aligned c.
Proof using Hsh Har.
  cbn [shape] in Hsh. destruct Hsh as (Hc & Hct & _).
  destruct Har as [_ Al]. cbn [cells] in Al.
  apply Forall_cons_iff in Al. tauto.
Qed.

Lemma C_node_aligned : Forall aligned (cells d) /\ Forall aligned (cells r).
Proof.
  destruct Har as [_ Al]. cbn [cells] in Al.
  apply Forall_cons_iff in Al. destruct Al as [_ Al].
  apply Forall_app in Al. exact Al.
Qed.

Lemma C_node_fresh : ~ In c (cells d) /\ ~ In c (cells r).
Proof.
  destruct Har as [Nd _]. cbn [cells] in Nd.
  apply NoDup_cons in Nd. destruct Nd as [Nd _].
  rewrite list_elem_of_In in Nd. rewrite in_app_iff in Nd. tauto.
Qed.

Lemma C_node_sub :
  shape 68 (buf st) (CHAR0 st) (CHAR1 st) (TRIE1 st) d
  /\ shape 68 (buf st) (CHAR0 st) (CHAR1 st) (TRIE1 st) r.
Proof. cbn [shape] in Hsh. tauto. Qed.

Lemma C_node_len : (length w <= 255)%nat /\ (1 <= length w)%nat.
Proof.
  pose proof (C_rem_of_length st w Hrem).
  destruct w; [congruence|cbn [length] in *; lia].
Qed.

(** The subtrees [d] and [r] are laid out in any state that differs from
    [st] by new cells, new character data and the fields of [c]. *)
Lemma C_node_keep (st' : state) :
  frame [c] st st' ->
  shape 68 (buf st') (CHAR0 st') (CHAR1 st') (TRIE1 st') d
  /\ shape 68 (buf st') (CHAR0 st') (CHAR1 st') (TRIE1 st') r.
Proof.
  intros F. destruct C_node_sub as [Hd Hr].
  destruct C_node_aligned as [Ad Ar]. destruct C_node_fresh as [Nd Nr].
  split; (eapply C_shape_frame; [exact F|eassumption|assumption|]);
    intros x Hx [<-|[]]; tauto.
Qed.

(** No cell below [down]: a cell for the bytes to consume is hung there. *)
Lemma C_add_leaf_down :
  d = Nil -> lcp s w = O ->
  exists st' u',
    bind (addSegment (Num (Z.of_nat (length w))) st) (fun seg st1 =>
      let '(n, st2) := addCell (Num 0) (Num 0) seg st1 in
      Ret (Num 1) (write32 (jadd (Num c) (Num 0)) n st2)) = Ret (Num 1) st'
    /\ inserted w st (Seg c off s d r) st' u'.
Proof.
  intros Ed Hm.
  destruct C_node_cell as (Hc & Hct & Hac). destruct C_node_len as [Lw Lw1].
  destruct (C_addSegment_ok w 2 (Z.of_nat (length w)) st Hok)
    as (v & o & st1 & E1 & Ok1 & F1 & T1 & C1 & V & Ho & Hoe & Hby);
    try assumption; try lia.
  rewrite E1. cbn [bind].
  destruct (C_addCell_ok (Num 0) (Num 0) (Num v) 2
              (Z.of_nat (length w) - Z.of_nat (length w)) st1 Ok1)
    as (st2 & E2 & Ok2 & F2 & T2 & C2 & E4 & Aln & Hn & V0 & V1 & V2);
    try lia.
  rewrite E2. cbn [jadd].
  set (n := TRIE1 st1 / 4) in *.
  destruct (C_write32_ok c 0 (Num n) (2 - 1)
              (Z.of_nat (length w) - Z.of_nat (length w)) st2 Ok2)
    as (Ok3 & F3 & T3 & C3 & Vc & Oc); try assumption; try lia.
  set (st3 := write32 (Num (c + 0)) (Num n) st2) in *.
  pose proof (C_frame_trans _ _ _ _ _ F1 F2) as F02. cbn [app] in F02.
  pose proof (C_frame_trans _ _ _ _ _ F02 F3) as F03. cbn [app] in F03.
  destruct (C_node_keep st3 F03) as [_ Hr3].
  assert (Hleaf : shape 68 (buf st3) (CHAR0 st3) (CHAR1 st3) (TRIE1 st3)
                    (Seg n o w Nil Nil)).
  { apply (C_shape_frame [c] st2); [exact F3| |repeat constructor; exact Aln|].
    - apply C_shape_leaf.
      + exact Hn.
      + lia.
      + exact V0.
      + exact V1.
      + rewrite V2. exact V.
      + exact Lw.
      + exact Ho.
      + rewrite C2. destruct F2 as (-> & _). lia.
      + apply (C_frame_bytes_eq [] st1); [exact F2|lia|lia|exact Hby].
    - intros x [<-|[]] [E|[]]. lia. }
  destruct Hok as ((R1 & R2 & R3 & R4 & R5 & R6 & R7) & _).
  assert (Un : ToUint32 (Num n) = n) by (apply ToUint32_small; lia).
  pose proof Hsh as Hsh'. cbn [shape] in Hsh'.
  destruct Hsh' as (_ & _ & Fd & Fr & Fs & Hls & _).
  pose proof F02 as (_ & _ & _ & _ & _ & _ & A6 & _).
  exists st3, (Seg c off s (Seg n o w Nil Nil) r).
  split; [reflexivity|].
  cbn [wf] in Hwf. destruct Hwf as (Hs & Hbd & Hhd & Hwd & Hwr).
  unfold inserted. split; [reflexivity|]. split; [reflexivity|].
  split; [reflexivity|]. split.
  { rewrite <- (firstn_all s).
    apply (C_shape_node [c] st st3 c off s d r); try assumption.
    - lia.
    - rewrite Vc. exact Un.
    - rewrite Oc, A6 by (tauto || lia). exact Fr.
    - rewrite Oc, A6 by (tauto || lia). exact Fs. }
  split.
  { cbn [wf is_bnd heads In]. repeat split; try assumption; try tauto.
    intros [E|[]]. revert E. apply not_eq_sym.
    apply lcp_zero_hd; assumption. }
  split.
  { exists [n]. subst d. cbn [cells app]. split; [apply perm_swap|].
    split; [repeat constructor; apply not_elem_of_nil|].
    repeat constructor; [exact Aln|lia]. }
  split.
  { intros x. rewrite (strs_Seg_in c off s (Seg n o w Nil Nil) r), strs_leaf.
    rewrite (strs_Seg_in c off s d r). subst d. cbn [strs In]. tauto. }
  split.
  { subst d. cbn [heads In]. intuition congruence. }
  split; [subst d; cbn [Trie.size]; lia|].
  split.
  { apply (C_frame_weaken [c]); [|exact F03].
    intros x [<-|[]]. left. reflexivity. }
  destruct Ok3 as ((Q1 & Q2 & _) & _).
  split; [lia|]. split; [exact Q2|]. split; [lia|]. br.
Qed.


Ltac fr := first [assumption | lia | (cbn [In app]; intuition lia)].

(** The segment is consumed and nothing follows it: a boundary cell and a
    cell for the bytes left are hung at [right]. *)
Lemma C_add_boundary_leaf (w2 : list Z) :
  r = Nil -> w = s ++ w2 -> w2 <> [] ->
  exists st' u',
    (let '(b, st1) := addCell (Num 0) (Num 0) (Num 0) st in
     bind (addSegment (Num (Z.of_nat (length w2)))
             (write32 (Num (c + 1)) b st1)) (fun seg st3 =>
       let '(n, st4) := addCell (Num 0) (Num 0) seg st3 in
       Ret (Num 1) (write32 (jadd b (Num 1)) n st4))) = Ret (Num 1) st'
    /\ inserted w st (Seg c off s d r) st' u'.
Proof.
  intros Er Ew Hw2.
  destruct C_node_cell as (Hc & Hct & Hac).
  destruct C_node_len as [Lw Lw1].
  assert (Lw2 : (1 <= length w2 <= length w)%nat).
  { rewrite Ew, length_app. destruct w2; [congruence|cbn [length]; lia]. }
  pose proof Hok as ((R1 & R2 & R3 & R4 & R5 & R6 & R7) & _).
  destruct (C_addCell_ok (Num 0) (Num 0) (Num 0) 2 (Z.of_nat (length w)) st Hok)
    as (st1 & E1 & Ok1 & F1 & T1 & C1 & E4b & Alb & Hb64 & Vb0 & Vb1 & Vb2);
    try lia.
  rewrite E1. set (b := TRIE1 st / 4) in *.
  destruct (C_write32_ok c 1 (Num b) (2 - 1) (Z.of_nat (length w)) st1 Ok1)
    as (Ok2 & F2 & T2 & C2 & Vc & Oc); try fr.
  set (st2 := write32 (Num (c + 1)) (Num b) st1) in *.
  assert (Ub : ToUint32 (Num b) = b) by (apply ToUint32_small; lia).
  assert (B2 : byteLength (buf st2) = byteLength (buf st)).
  { destruct F2 as (_ & -> & _). destruct F1 as (_ & -> & _). reflexivity. }
  cbn [jadd].
  assert (Hrem2 : rem_of st2 w2).
  { apply (C_frame_rem_of [c] st1); [exact F2|].
    apply (C_frame_rem_of [] st); [exact F1|].
    apply (C_rem_of_app st s). rewrite <- Ew. exact Hrem. }
  destruct (C_addSegment_ok w2 (2 - 1) (Z.of_nat (length w)) st2 Ok2)
    as (v & o & st3 & E3 & Ok3 & F3 & T3 & C3 & V & Ho & Hoe & Hby);
    try assumption; try lia.
  rewrite E3. cbn [bind].
  destruct (C_addCell_ok (Num 0) (Num 0) (Num v) (2 - 1)
              (Z.of_nat (length w) - Z.of_nat (length w2)) st3 Ok3)
    as (st4 & E4 & Ok4 & F4 & T4 & C4 & E4n & Aln & Hn64 & Vn0 & Vn1 & Vn2);
    try lia.
  rewrite E4. set (n := TRIE1 st3 / 4) in *.
  destruct (C_write32_ok b 1 (Num n) (2 - 1 - 1)
              (Z.of_nat (length w) - Z.of_nat (length w2)) st4 Ok4)
    as (Ok5 & F5 & T5 & C5 & Vbn & Ob); try fr.
  set (st5 := write32 (Num (b + 1)) (Num n) st4) in *.
  assert (Un : ToUint32 (Num n) = n) by (apply ToUint32_small; lia).
  pose proof (C_frame_trans _ _ _ _ _ F3 F4) as F24. cbn [app] in F24.
  pose proof (C_frame_trans _ _ _ _ _ F24 F5) as F25. cbn [app] in F25.
  pose proof (C_frame_trans _ _ _ _ _ F2 F24) as F14. cbn [app] in F14.
  pose proof (C_frame_trans _ _ _ _ _ F1 F2) as F02. cbn [app] in F02.
  pose proof (C_frame_trans _ _ _ _ _ F02 F25) as F05'. cbn [app] in F05'.
  assert (F05 : frame [c] st st5).
  { apply (C_frame_old [c; b]); [|exact F05'].
    intros x [<-|[<-|[]]]; [left; left; reflexivity|right; lia]. }
  destruct (C_node_keep st5 F05) as [Hd5 _].
  assert (Hleaf : shape 68 (buf st5) (CHAR0 st5) (CHAR1 st5) (TRIE1 st5)
                    (Seg n o w2 Nil Nil)).
  { apply (C_shape_frame [b] st4); [exact F5| |repeat constructor; exact Aln|].
    - apply C_shape_leaf.
      + exact Hn64.
      + lia.
      + exact Vn0.
      + exact Vn1.
      + rewrite Vn2. exact V.
      + lia.
      + exact Ho.
      + rewrite C4. destruct F4 as (-> & _). lia.
      + apply (C_frame_bytes_eq [] st3); [exact F4|lia|lia|exact Hby].
    - intros x [<-|[]] [E|[]]. lia. }
  pose proof Hsh as Hsh'. cbn [shape] in Hsh'.
  destruct Hsh' as (_ & _ & Fd & Fr & Fs & Hls & _).
  exists st5, (Seg c off s d (Bnd b (Seg n o w2 Nil Nil))).
  split; [reflexivity|].
  pose proof Hwf as Hwf'. cbn [wf] in Hwf'.
  destruct Hwf' as (Hs & Hbd & Hhd & Hwd & Hwr).
  unfold inserted. split; [reflexivity|]. split; [reflexivity|].
  split; [reflexivity|]. split.
  { rewrite <- (firstn_all s).
    apply (C_shape_node [c] st st5 c off s d r); try assumption.
    - lia.
    - rewrite (C_frame_fld _ _ _ _ _ F25) by fr.
      rewrite Oc by lia. rewrite (C_frame_fld _ _ _ _ _ F1) by fr. exact Fd.
    - rewrite (C_frame_fld _ _ _ _ _ F25) by fr. rewrite Vc. exact Ub.
    - rewrite (C_frame_fld _ _ _ _ _ F25) by fr.
      rewrite Oc by lia. rewrite (C_frame_fld _ _ _ _ _ F1) by fr. exact Fs.
    - apply C_shape_bnd.
      + exact Hb64.
      + lia.
      + rewrite Ob by lia. rewrite (C_frame_fld _ _ _ _ _ F14) by fr.
        exact Vb0.
      + rewrite Vbn. exact Un.
      + rewrite Ob by lia. rewrite (C_frame_fld _ _ _ _ _ F14) by fr.
        exact Vb2.
      + exact Hleaf. }
  split.
  { cbn [wf is_bnd is_seg heads In]. repeat split; try assumption; tauto. }
  split.
  { exists [b; n]. subst r. cbn [cells]. rewrite !app_nil_r.
    split.
    - change (c :: cells d ++ [b; n]) with ((c :: cells d) ++ [b; n]).
      apply Permutation_app_comm.
    - split.
      + apply NoDup_cons. split; [|repeat constructor; apply not_elem_of_nil].
        rewrite list_elem_of_In. intros [E|[]]. lia.
      + repeat constructor; fr. }
  split.
  { intros x. rewrite (strs_Seg_in c off s d (Bnd b (Seg n o w2 Nil Nil))).
    rewrite (strs_Seg_in c off s d r). subst r. cbn [rest_strs].
    split.
    - intros [(y & -> & [<-|Hy])|Hx].
      + right. left. exists []. split; [reflexivity|left; reflexivity].
      + apply strs_leaf in Hy. subst y. left. symmetry. exact Ew.
      + right. right. exact Hx.
    - intros [->|[(y & -> & [<-|[]])|Hx]].
      + left. exists w2. split; [exact Ew|]. right. apply strs_leaf.
        reflexivity.
      + left. exists []. split; [reflexivity|left; reflexivity].
      + right. exact Hx. }
  split.
  { cbn [heads In]. intros h Hh. right. exact Hh. }
  split; [subst r; cbn [Trie.size]; lia|].
  split.
  { apply (C_frame_weaken [c]); [|exact F05].
    intros x [<-|[]]. left. reflexivity. }
  destruct Ok5 as ((Q1 & Q2 & _) & _).
  split; [lia|]. split; [exact Q2|]. split; [lia|]. br.
Qed.


(** The hostname ends with the segment and longer ones follow: a boundary
    cell is put before them. *)
Lemma C_add_boundary :
  is_seg r = true -> w = s ->
  exists st' u',
    (let '(b, st1) := addCell (Num 0) (Num (ptr r)) (Num 0) st in
     Ret (Num 1) (write32 (Num (c + 1)) b st1)) = Ret (Num 1) st'
    /\ inserted w st (Seg c off s d r) st' u'.
Proof.
  intros Hr Ew.
  destruct C_node_cell as (Hc & Hct & Hac). destruct C_node_len as [Lw Lw1].
  pose proof Hok as ((R1 & R2 & R3 & R4 & R5 & R6 & R7) & _).
  destruct C_node_sub as [_ Hshr].
  assert (Hpr : 68 <= ptr r /\ 4 * ptr r + 12 <= TRIE1 st).
  { destruct r as [|rc roff rs rd rr|]; try discriminate.
    cbn [shape] in Hshr. cbn [ptr]. lia. }
  destruct (C_addCell_ok (Num 0) (Num (ptr r)) (Num 0) 2
              (Z.of_nat (length w)) st Hok)
    as (st1 & E1 & Ok1 & F1 & T1 & C1 & E4b & Alb & Hb64 & Vb0 & Vb1 & Vb2);
    try lia.
  rewrite E1. set (b := TRIE1 st / 4) in *.
  destruct (C_write32_ok c 1 (Num b) (2 - 1) (Z.of_nat (length w)) st1 Ok1)
    as (Ok2 & F2 & T2 & C2 & Vc & Oc); try fr.
  set (st2 := write32 (Num (c + 1)) (Num b) st1) in *.
  assert (Ub : ToUint32 (Num b) = b) by (apply ToUint32_small; lia).
  assert (Ur : ToUint32 (Num (ptr r)) = ptr r) by (apply ToUint32_small; lia).
  pose proof (C_frame_trans _ _ _ _ _ F1 F2) as F02. cbn [app] in F02.
  destruct (C_node_keep st2 F02) as [_ Hr2].
  pose proof Hsh as Hsh'. cbn [shape] in Hsh'.
  destruct Hsh' as (_ & _ & Fd & Fr & Fs & Hls & _).
  exists st2, (Seg c off s d (Bnd b r)).
  split; [reflexivity|].
  pose proof Hwf as Hwf'. cbn [wf] in Hwf'.
  destruct Hwf' as (Hs & Hbd & Hhd & Hwd & Hwr).
  unfold inserted. split; [reflexivity|]. split; [reflexivity|].
  split; [reflexivity|]. split.
  { rewrite <- (firstn_all s).
    apply (C_shape_node [c] st st2 c off s d r); try assumption.
    - lia.
    - rewrite Oc by lia. rewrite (C_frame_fld _ _ _ _ _ F1) by fr. exact Fd.
    - rewrite Vc. exact Ub.
    - rewrite Oc by lia. rewrite (C_frame_fld _ _ _ _ _ F1) by fr. exact Fs.
    - apply (C_node_keep st2 F02).
    - apply C_shape_bnd.
      + exact Hb64.
      + lia.
      + rewrite (C_frame_fld _ _ _ _ _ F2) by fr. exact Vb0.
      + rewrite (C_frame_fld _ _ _ _ _ F2) by fr. rewrite Vb1. exact Ur.
      + rewrite (C_frame_fld _ _ _ _ _ F2) by fr. exact Vb2.
      + exact Hr2. }
  split.
  { cbn [wf]. repeat split; assumption. }
  split.
  { exists [b]. cbn [cells]. split.
    - symmetry. apply (Permutation_middle (c :: cells d) (cells r) b).
    - split; [repeat constructor; apply not_elem_of_nil|].
      repeat constructor; fr. }
  split.
  { intros x. rewrite (strs_Seg_in c off s d (Bnd b r)).
    rewrite (strs_Seg_in c off s d r). cbn [rest_strs].
    destruct r as [|rc roff rs rd rr|]; try discriminate. cbn [rest_strs].
    split.
    - intros [(y & -> & [<-|Hy])|Hx].
      + left. rewrite app_nil_r. symmetry. exact Ew.
      + right. left. exists y. split; [reflexivity|exact Hy].
      + right. right. exact Hx.
    - intros [->|[(y & -> & Hy)|Hx]].
      + left. exists []. split; [rewrite app_nil_r; exact Ew|].
        left. reflexivity.
      + left. exists y. split; [reflexivity|right; exact Hy].
      + right. exact Hx. }
  split.
  { cbn [heads In]. intros h Hh. right. exact Hh. }
  split; [cbn [Trie.size]; lia|].
  split.
  { apply (C_frame_weaken [c]); [|exact F02].
    intros x [<-|[]]. left. reflexivity. }
  destruct Ok2 as ((Q1 & Q2 & _) & _).
  split; [lia|]. split; [exact Q2|]. split; [lia|]. br.
Qed.


(** The first steps of a split: the cell [c] keeps the first [lcp s w]
    bytes of its segment and a new cell [t], put at its [right], takes the
    others. *)
Lemma C_split_cell :
  (1 <= lcp s w < length s)%nat ->
  let m := Z.of_nat (lcp s w) in
  let st1 := write32 (Num (c + 2)) (Num (bor (Num (shl (Num m) 24)) (Num off)))
               st in
  let t := TRIE1 st / 4 in
  exists st2,
    addCell (Num 0) (read32 st1 (Num (c + 1)))
      (Num (bor (Num (shl (Num (Z.of_nat (length s) - m)) 24))
                (Num (off + m)))) st1 = (Num t, st2)
    /\ let st3 := write32 (Num (c + 1)) (Num t) st2 in
       ok 1 (Z.of_nat (length w)) st3 /\ frame [c] st st3
       /\ TRIE1 st3 = TRIE1 st + 12 /\ CHAR1 st3 = CHAR1 st
       /\ 4 * t = TRIE1 st /\ aligned t /\ 68 <= t
       /\ fld (buf st3) c 0 = ptr d /\ fld (buf st3) c 1 = t
       /\ fld (buf st3) c 2 = m * 2 ^ 24 + off
       /\ fld (buf st3) t 0 = 0 /\ fld (buf st3) t 1 = ptr r
       /\ fld (buf st3) t 2
          = Z.of_nat (length s - lcp s w) * 2 ^ 24 + (off + m).
Proof.
  intros Hm. cbn zeta.
  destruct C_node_cell as (Hc & Hct & Hac). destruct C_node_len as [Lw Lw1].
  pose proof Hok as ((R1 & R2 & R3 & R4 & R5 & R6 & R7) & _).
  destruct C_node_sub as [_ Hshr].
  pose proof Hsh as Hsh'. cbn [shape] in Hsh'.
  destruct Hsh' as (_ & _ & Fd & Fr & Fs & Hls & Hoff & Hend & _).
  assert (Hpr : 0 <= ptr r /\ 4 * ptr r + 12 <= TRIE1 st).
  { destruct r as [|rc roff rs rd rr|rc rr]; cbn [shape] in Hshr; cbn [ptr];
      lia. }
  destruct (C_write32_ok c 2
              (Num (bor (Num (shl (Num (Z.of_nat (lcp s w))) 24)) (Num off)))
              2 (Z.of_nat (length w)) st Hok)
    as (Ok1 & F1 & T1 & C1 & Vc2 & Oc1); try fr.
  set (st1 := write32 (Num (c + 2)) _ st) in *.
  rewrite seg_word_make in Vc2 by lia.
  assert (B1 : byteLength (buf st1) = byteLength (buf st))
    by (destruct F1 as (_ & -> & _); reflexivity).
  assert (Rc : read32 st1 (Num (c + 1)) = Num (ptr r)).
  { unfold read32. rewrite get32_fld by lia. rewrite Oc1 by lia.
    rewrite Fr. reflexivity. }
  rewrite Rc.
  destruct (C_addCell_ok (Num 0) (Num (ptr r))
              (Num (bor (Num (shl (Num (Z.of_nat (length s)
                                        - Z.of_nat (lcp s w))) 24))
                        (Num (off + Z.of_nat (lcp s w)))))
              2 (Z.of_nat (length w)) st1 Ok1)
    as (st2 & E2 & Ok2 & F2 & T2 & C2 & E4t & Alt & Ht64 & Vt0 & Vt1 & Vt2);
    try lia.
  rewrite T1 in *. set (t := TRIE1 st / 4) in *.
  rewrite seg_word_make in Vt2 by lia.
  exists st2. split; [exact E2|].
  destruct (C_write32_ok c 1 (Num t) (2 - 1) (Z.of_nat (length w)) st2 Ok2)
    as (Ok3 & F3 & T3 & C3 & Vc1 & Oc3); try fr.
  set (st3 := write32 (Num (c + 1)) (Num t) st2) in *.
  assert (Ut : ToUint32 (Num t) = t) by (apply ToUint32_small; lia).
  assert (Ur : ToUint32 (Num (ptr r)) = ptr r) by (apply ToUint32_small; lia).
  assert (B3 : byteLength (buf st3) = byteLength (buf st)).
  { destruct F3 as (_ & -> & _). destruct F2 as (_ & -> & _). exact B1. }
  pose proof (C_frame_trans _ _ _ _ _ F1 F2) as F02. cbn [app] in F02.
  pose proof (C_frame_trans _ _ _ _ _ F02 F3) as F03'. cbn [app] in F03'.
  split; [exact Ok3|]. split.
  { apply (C_frame_old [c; c]); [|exact F03'].
    intros x [<-|[<-|[]]]; left; left; reflexivity. }
  split; [lia|]. split; [lia|]. split; [exact E4t|].
  split; [exact Alt|]. split; [exact Ht64|].
  split.
  { rewrite Oc3 by lia. rewrite (C_frame_fld _ _ _ _ _ F2) by fr.
    rewrite Oc1 by lia. exact Fd. }
  split; [rewrite Vc1; exact Ut|].
  split.
  { rewrite Oc3 by lia. rewrite (C_frame_fld _ _ _ _ _ F2) by fr. exact Vc2. }
  split; [rewrite (C_frame_fld _ _ _ _ _ F3) by fr; exact Vt0|].
  split; [rewrite (C_frame_fld _ _ _ _ _ F3) by fr; rewrite Vt1; exact Ur|].
  rewrite (C_frame_fld _ _ _ _ _ F3) by fr. rewrite Vt2.
  rewrite Nat2Z.inj_sub by lia. reflexivity.
Qed.


(** The segment and the hostname part ways inside the segment: the cell is
    split and a cell for the bytes left is hung below the new cell. *)
Lemma C_add_split_leaf :
  (1 <= lcp s w < length s)%nat -> (lcp s w < length w)%nat ->
  let m := Z.of_nat (lcp s w) in
  let st1 := write32 (Num (c + 2)) (Num (bor (Num (shl (Num m) 24)) (Num off)))
               st in
  exists st' u',
    (let '(t, st2) :=
       addCell (Num 0) (read32 st1 (Num (c + 1)))
         (Num (bor (Num (shl (Num (Z.of_nat (length s) - m)) 24))
                   (Num (off + m)))) st1 in
     bind (addSegment (Num (Z.of_nat (length w) - m))
             (write32 (Num (c + 1)) t st2)) (fun seg st4 =>
       let '(n, st5) := addCell (Num 0) (Num 0) seg st4 in
       Ret (Num 1) (write32 (jadd t (Num 0)) n st5))) = Ret (Num 1) st'
    /\ inserted w st (Seg c off s d r) st' u'.
Proof.
  intros Hm Hmw. cbn zeta.
  destruct C_node_cell as (Hc & Hct & Hac). destruct C_node_len as [Lw Lw1].
  pose proof Hok as ((R1 & R2 & R3 & R4 & R5 & R6 & R7) & _).
  pose proof (C_split_cell Hm) as H. cbn zeta in H.
  destruct H as (st2 & E2 & Ok3 & F03 & T3 & C3 & E4t & Alt & Ht64
                 & Fc0 & Fc1 & Fc2 & Ft0 & Ft1 & Ft2).
  rewrite E2. set (t := TRIE1 st / 4) in *.
  set (st3 := write32 (Num (c + 1)) (Num t) st2) in *.
  cbn [jadd].
  set (w2 := skipn (lcp s w) w).
  assert (Ew : w = firstn (lcp s w) s ++ w2) by apply lcp_split.
  assert (Lw2 : Z.of_nat (length w2)
                = Z.of_nat (length w) - Z.of_nat (lcp s w)).
  { subst w2. rewrite length_skipn. lia. }
  assert (Hw2 : w2 <> []).
  { intros E. rewrite E in Lw2. cbn [length] in Lw2. lia. }
  rewrite <- Lw2.
  assert (Hrem2 : rem_of st3 w2).
  { apply (C_frame_rem_of [c] st); [exact F03|].
    apply (C_rem_of_app st (firstn (lcp s w) s)). rewrite <- Ew. exact Hrem. }
  destruct (C_addSegment_ok w2 1 (Z.of_nat (length w)) st3 Ok3)
    as (v & o & st4 & E4 & Ok4 & F4 & T4 & C4 & V & Ho & Hoe & Hby);
    try assumption; try lia.
  rewrite E4. cbn [bind].
  destruct (C_addCell_ok (Num 0) (Num 0) (Num v) 1
              (Z.of_nat (length w) - Z.of_nat (length w2)) st4 Ok4)
    as (st5 & E5 & Ok5 & F5 & T5 & C5 & E4n & Aln & Hn64 & Vn0 & Vn1 & Vn2);
    try lia.
  rewrite E5. set (n := TRIE1 st4 / 4) in *.
  destruct (C_write32_ok t 0 (Num n) (1 - 1)
              (Z.of_nat (length w) - Z.of_nat (length w2)) st5 Ok5)
    as (Ok6 & F6 & T6 & C6 & Vtn & Ot); try fr.
  set (st6 := write32 (Num (t + 0)) (Num n) st5) in *.
  assert (Un : ToUint32 (Num n) = n) by (apply ToUint32_small; lia).
  pose proof (C_frame_trans _ _ _ _ _ F4 F5) as F35. cbn [app] in F35.
  pose proof (C_frame_trans _ _ _ _ _ F35 F6) as F36. cbn [app] in F36.
  pose proof (C_frame_trans _ _ _ _ _ F03 F36) as F06'. cbn [app] in F06'.
  assert (F06 : frame [c] st st6).
  { apply (C_frame_old [c; t]); [|exact F06'].
    intros x [<-|[<-|[]]]; [left; left; reflexivity|right; lia]. }
  destruct (C_node_keep st6 F06) as [Hd6 Hr6].
  assert (Hleaf : shape 68 (buf st6) (CHAR0 st6) (CHAR1 st6) (TRIE1 st6)
                    (Seg n o w2 Nil Nil)).
  { apply (C_shape_frame [t] st5); [exact F6| |repeat constructor; exact Aln|].
    - apply C_shape_leaf.
      + exact Hn64.
      + lia.
      + exact Vn0.
      + exact Vn1.
      + rewrite Vn2. exact V.
      + lia.
      + exact Ho.
      + rewrite C5. destruct F5 as (-> & _). lia.
      + apply (C_frame_bytes_eq [] st4); [exact F5|lia|lia|exact Hby].
    - intros x [<-|[]] [E|[]]. lia. }
  exists st6,
    (Seg c off (firstn (lcp s w) s) d
       (Seg t (off + Z.of_nat (lcp s w)) (skipn (lcp s w) s)
          (Seg n o w2 Nil Nil) r)).
  split; [reflexivity|].
  pose proof Hwf as Hwf'. cbn [wf] in Hwf'.
  destruct Hwf' as (Hs & Hbd & Hhd & Hwd & Hwr).
  unfold inserted. split; [reflexivity|]. split; [reflexivity|].
  split; [reflexivity|]. split.
  { apply (C_shape_node [c] st st6 c off s d r); try assumption.
    - lia.
    - rewrite (C_frame_fld _ _ _ _ _ F36) by fr. exact Fc0.
    - rewrite (C_frame_fld _ _ _ _ _ F36) by fr. exact Fc1.
    - rewrite (C_frame_fld _ _ _ _ _ F36) by fr. exact Fc2.
    - apply (C_shape_tail [c] st st6 c off s d r); try assumption; try lia.
      + rewrite Vtn. exact Un.
      + rewrite Ot by lia. rewrite (C_frame_fld _ _ _ _ _ F35) by fr.
        exact Ft1.
      + rewrite Ot by lia. rewrite (C_frame_fld _ _ _ _ _ F35) by fr.
        exact Ft2. }
  assert (Hf : firstn (lcp s w) s <> []).
  { intros E. apply (f_equal (@length Z)) in E.
    rewrite length_firstn in E. cbn [length] in E. lia. }
  assert (Hk : skipn (lcp s w) s <> []).
  { intros E. apply (f_equal (@length Z)) in E.
    rewrite length_skipn in E. cbn [length] in E. lia. }
  split.
  { cbn [wf is_bnd heads In]. rewrite hd_firstn by lia.
    repeat split; try assumption; try tauto.
    intros [E|[]]. revert E. apply not_eq_sym. subst w2.
    apply lcp_skipn_hd; lia. }
  split.
  { exists [t; n]. cbn [cells]. rewrite app_nil_r. split.
    - change (c :: cells d ++ t :: (n :: []) ++ cells r)
        with ((c :: cells d) ++ [t; n] ++ cells r).
      apply Permutation_app_swap_app.
    - split.
      + apply NoDup_cons. split; [|repeat constructor; apply not_elem_of_nil].
        rewrite list_elem_of_In. intros [E|[]]. lia.
      + repeat constructor; fr. }
  split.
  { intros x.
    rewrite (strs_Seg_in c off (firstn (lcp s w) s) d).
    rewrite (strs_Seg_in c off s d r). cbn [rest_strs].
    split.
    - intros [(y & -> & Hy)|Hx]; [|right; right; exact Hx].
      apply strs_Seg_in in Hy. destruct Hy as [(z & -> & Hz)|Hy].
      + right. left. exists z. split; [|exact Hz].
        rewrite app_assoc, firstn_skipn. reflexivity.
      + apply strs_leaf in Hy. subst y. left. symmetry. exact Ew.
    - intros [->|[(z & -> & Hz)|Hx]]; [| |right; exact Hx].
      + left. exists w2. split; [exact Ew|].
        apply strs_Seg_in. right. apply strs_leaf. reflexivity.
      + left. exists (skipn (lcp s w) s ++ z). split.
        * rewrite app_assoc, firstn_skipn. reflexivity.
        * apply strs_Seg_in. left. exists z. split; [reflexivity|exact Hz]. }
  split.
  { cbn [heads In]. rewrite hd_firstn by lia. intros h Hh. right. exact Hh. }
  split; [cbn [Trie.size]; lia|].
  split.
  { apply (C_frame_weaken [c]); [|exact F06].
    intros x [<-|[]]. left. reflexivity. }
  destruct Ok6 as ((Q1 & Q2 & _) & _).
  split; [lia|]. split; [exact Q2|]. split; [lia|]. br.
Qed.


(** The hostname ends inside the segment: the cell is split and a boundary
    cell is put before the new cell. *)
Lemma C_add_split_boundary :
  (1 <= lcp s w < length s)%nat -> lcp s w = length w ->
  let m := Z.of_nat (lcp s w) in
  let st1 := write32 (Num (c + 2)) (Num (bor (Num (shl (Num m) 24)) (Num off)))
               st in
  exists st' u',
    (let '(t, st2) :=
       addCell (Num 0) (read32 st1 (Num (c + 1)))
         (Num (bor (Num (shl (Num (Z.of_nat (length s) - m)) 24))
                   (Num (off + m)))) st1 in
     let '(b, st4) :=
       addCell (Num 0) t (Num 0) (write32 (Num (c + 1)) t st2) in
     Ret (Num 1) (write32 (Num (c + 1)) b st4)) = Ret (Num 1) st'
    /\ inserted w st (Seg c off s d r) st' u'.
Proof.
  intros Hm Hmw. cbn zeta.
  destruct C_node_cell as (Hc & Hct & Hac). destruct C_node_len as [Lw Lw1].
  pose proof Hok as ((R1 & R2 & R3 & R4 & R5 & R6 & R7) & _).
  pose proof (C_split_cell Hm) as H. cbn zeta in H.
  destruct H as (st2 & E2 & Ok3 & F03 & T3 & C3 & E4t & Alt & Ht64
                 & Fc0 & Fc1 & Fc2 & Ft0 & Ft1 & Ft2).
  rewrite E2. set (t := TRIE1 st / 4) in *.
  set (st3 := write32 (Num (c + 1)) (Num t) st2) in *.
  assert (Ew : w = firstn (lcp s w) s).
  { rewrite lcp_firstn_eq, Hmw. symmetry. apply firstn_all. }
  destruct (C_addCell_ok (Num 0) (Num t) (Num 0) 1 (Z.of_nat (length w)) st3 Ok3)
    as (st4 & E4 & Ok4 & F4 & T4 & C4 & E4b & Alb & Hb64 & Vb0 & Vb1 & Vb2);
    try lia.
  rewrite E4. set (b := TRIE1 st3 / 4) in *.
  destruct (C_write32_ok c 1 (Num b) (1 - 1) (Z.of_nat (length w)) st4 Ok4)
    as (Ok5 & F5 & T5 & C5 & Vcb & Oc5); try fr.
  set (st5 := write32 (Num (c + 1)) (Num b) st4) in *.
  assert (Ub : ToUint32 (Num b) = b) by (apply ToUint32_small; lia).
  assert (Ut : ToUint32 (Num t) = t) by (apply ToUint32_small; lia).
  pose proof (C_frame_trans _ _ _ _ _ F4 F5) as F35. cbn [app] in F35.
  pose proof (C_frame_trans _ _ _ _ _ F03 F35) as F05'. cbn [app] in F05'.
  assert (F05 : frame [c] st st5).
  { apply (C_frame_old [c; c]); [|exact F05'].
    intros x [<-|[<-|[]]]; left; left; reflexivity. }
  destruct (C_node_keep st5 F05) as [Hd5 Hr5].
  exists st5,
    (Seg c off (firstn (lcp s w) s) d
       (Bnd b (Seg t (off + Z.of_nat (lcp s w)) (skipn (lcp s w) s) Nil r))).
  split; [reflexivity|].
  pose proof Hwf as Hwf'. cbn [wf] in Hwf'.
  destruct Hwf' as (Hs & Hbd & Hhd & Hwd & Hwr).
  unfold inserted. split; [reflexivity|]. split; [reflexivity|].
  split; [reflexivity|]. split.
  { apply (C_shape_node [c] st st5 c off s d r); try assumption.
    - lia.
    - rewrite Oc5 by lia. rewrite (C_frame_fld _ _ _ _ _ F4) by fr. exact Fc0.
    - rewrite Vcb. exact Ub.
    - rewrite Oc5 by lia. rewrite (C_frame_fld _ _ _ _ _ F4) by fr. exact Fc2.
    - apply C_shape_bnd.
      + exact Hb64.
      + lia.
      + rewrite (C_frame_fld _ _ _ _ _ F5) by fr. exact Vb0.
      + rewrite (C_frame_fld _ _ _ _ _ F5) by fr. rewrite Vb1. exact Ut.
      + rewrite (C_frame_fld _ _ _ _ _ F5) by fr. exact Vb2.
      + apply (C_shape_tail [c] st st5 c off s d r); try assumption; try lia.
        * rewrite (C_frame_fld _ _ _ _ _ F35) by fr. exact Ft0.
        * rewrite (C_frame_fld _ _ _ _ _ F35) by fr. exact Ft1.
        * rewrite (C_frame_fld _ _ _ _ _ F35) by fr. exact Ft2.
        * exact I. }
  assert (Hf : firstn (lcp s w) s <> []).
  { intros E. apply (f_equal (@length Z)) in E.
    rewrite length_firstn in E. cbn [length] in E. lia. }
  assert (Hk : skipn (lcp s w) s <> []).
  { intros E. apply (f_equal (@length Z)) in E.
    rewrite length_skipn in E. cbn [length] in E. lia. }
  split.
  { cbn [wf is_bnd is_seg heads In]. rewrite hd_firstn by lia.
    repeat split; try assumption; tauto. }
  split.
  { exists [b; t]. cbn [cells app]. split.
    - change (c :: cells d ++ b :: t :: cells r)
        with ((c :: cells d) ++ [b; t] ++ cells r).
      apply Permutation_app_swap_app.
    - split.
      + apply NoDup_cons. split; [|repeat constructor; apply not_elem_of_nil].
        rewrite list_elem_of_In. intros [E|[]]. lia.
      + repeat constructor; fr. }
  split.
  { intros x.
    rewrite (strs_Seg_in c off (firstn (lcp s w) s) d).
    rewrite (strs_Seg_in c off s d r). cbn [rest_strs].
    split.
    - intros [(y & -> & [<-|Hy])|Hx]; [| |right; right; exact Hx].
      + left. rewrite app_nil_r. symmetry. exact Ew.
      + apply strs_Seg_in in Hy. destruct Hy as [(z & -> & Hz)|[]].
        right. left. exists z. split; [|exact Hz].
        rewrite app_assoc, firstn_skipn. reflexivity.
    - intros [->|[(z & -> & Hz)|Hx]]; [| |right; exact Hx].
      + left. exists []. split; [rewrite app_nil_r; exact Ew|].
        left. reflexivity.
      + left. exists (skipn (lcp s w) s ++ z). split.
        * rewrite app_assoc, firstn_skipn. reflexivity.
        * right. apply strs_Seg_in. left. exists z.
          split; [reflexivity|exact Hz]. }
  split.
  { cbn [heads In]. rewrite hd_firstn by lia. intros h Hh. right. exact Hh. }
  split; [cbn [Trie.size]; lia|].
  split.
  { apply (C_frame_weaken [c]); [|exact F05].
    intros x [<-|[]]. left. reflexivity. }
  destruct Ok5 as ((Q1 & Q2 & _) & _).
  split; [lia|]. split; [exact Q2|]. split; [lia|]. br.
Qed.


Lemma C_node_apart : forall x, In x (cells d) -> ~ In x (cells r).
Proof using Har.
  destruct Har as [Nd _]. cbn [cells] in Nd.
  apply NoDup_cons in Nd. destruct Nd as [_ Nd].
  apply NoDup_app in Nd. destruct Nd as (_ & Nd & _).
  intros x Hx Hx'. apply (Nd x); apply list_elem_of_In; assumption.
Qed.

(** The chain below [down] has taken the hostname. *)
Lemma C_rebuild_down (st' : state) (d' : tr) :
  lcp s w = O -> inserted w st d st' d' ->
  inserted w st (Seg c off s d r) st' (Seg c off s d' r).
Proof.
  intros Hm (P1 & P2 & P3 & Sh & W & (new & Pm & Nn & Fn) & St & Hh & Sz
             & F & T & M & C & Kf & Kb).
  destruct C_node_cell as (Hc & Hct & Hac).
  destruct C_node_fresh as [Nd Nr]. destruct C_node_aligned as [Ad Ar].
  destruct C_node_sub as [Hsd Hsr].
  pose proof Hsh as Hsh'. cbn [shape] in Hsh'.
  destruct Hsh' as (_ & _ & Fd & Fr & Fs & Hls & _).
  pose proof Hwf as Hwf'. cbn [wf] in Hwf'.
  destruct Hwf' as (Hs & Hbd & Hhd & Hwd & Hwr).
  unfold inserted. split; [reflexivity|]. split; [reflexivity|].
  split; [reflexivity|]. split.
  { rewrite <- (firstn_all s).
    apply (C_shape_node (cells d) st st' c off s d r); try assumption.
    - lia.
    - rewrite (C_frame_fld _ _ _ _ _ F) by fr. rewrite P1. exact Fd.
    - rewrite (C_frame_fld _ _ _ _ _ F) by fr. exact Fr.
    - rewrite (C_frame_fld _ _ _ _ _ F) by fr. exact Fs.
    - apply (C_shape_frame (cells d) st); try assumption.
      intros x Hx Hx'. apply (C_node_apart x); assumption. }
  split.
  { cbn [wf]. split; [exact Hs|]. split; [congruence|].
    split; [|split; assumption].
    intros Hin. apply Hh in Hin. destruct Hin as [E|Hin]; [|tauto].
    revert E. apply lcp_zero_hd; assumption. }
  split.
  { exists new. cbn [cells]. split; [|split; assumption].
    rewrite Pm, <- app_assoc.
    apply (Permutation_middle new (cells d ++ cells r) c). }
  split.
  { intros x. rewrite (strs_Seg_in c off s d' r), (strs_Seg_in c off s d r).
    rewrite St. tauto. }
  split.
  { cbn [heads In]. intros h [E|Hin]; [right; left; exact E|].
    apply Hh in Hin. tauto. }
  split; [cbn [Trie.size]; lia|].
  split.
  { apply (C_frame_weaken (cells d)); [|exact F].
    intros x Hx. cbn [cells]. right. apply in_or_app. left. exact Hx. }
  split; [exact T|]. split; [exact M|]. split; [exact C|].
  cbn [forked branch]. split; [|tauto].
  intros Hd0 ->. destruct d; cbn [is_seg is_bnd] in *; congruence.
Qed.

(** The chain at [right] has taken the rest of the hostname. *)
Lemma C_rebuild_right (st' : state) (r' : tr) (w2 : list Z) :
  w = s ++ w2 -> inserted w2 st r st' r' ->
  inserted w st (Seg c off s d r) st' (Seg c off s d r').
Proof.
  intros Ew (P1 & P2 & P3 & Sh & W & (new & Pm & Nn & Fn) & St & Hh & Sz
             & F & T & M & C & Kf & Kb).
  destruct C_node_cell as (Hc & Hct & Hac).
  destruct C_node_fresh as [Nd Nr]. destruct C_node_aligned as [Ad Ar].
  destruct C_node_sub as [Hsd Hsr].
  pose proof Hsh as Hsh'. cbn [shape] in Hsh'.
  destruct Hsh' as (_ & _ & Fd & Fr & Fs & Hls & _).
  pose proof Hwf as Hwf'. cbn [wf] in Hwf'.
  destruct Hwf' as (Hs & Hbd & Hhd & Hwd & Hwr).
  unfold inserted. split; [reflexivity|]. split; [reflexivity|].
  split; [reflexivity|]. split.
  { rewrite <- (firstn_all s).
    apply (C_shape_node (cells r) st st' c off s d r); try assumption.
    - lia.
    - rewrite (C_frame_fld _ _ _ _ _ F) by fr. exact Fd.
    - rewrite (C_frame_fld _ _ _ _ _ F) by fr. rewrite P1. exact Fr.
    - rewrite (C_frame_fld _ _ _ _ _ F) by fr. exact Fs.
    - apply (C_shape_frame (cells r) st); try assumption.
      intros x Hx Hx'. apply (C_node_apart x); assumption. }
  split.
  { cbn [wf]. repeat split; assumption. }
  split.
  { exists new. cbn [cells]. split; [|split; assumption].
    rewrite Pm.
    change (c :: cells d ++ new ++ cells r)
      with ((c :: cells d) ++ new ++ cells r).
    apply Permutation_app_swap_app. }
  split.
  { intros x. rewrite (strs_Seg_in c off s d r'), (strs_Seg_in c off s d r).
    assert (Hrest : forall y, In y (rest_strs strs r')
                              <-> y = w2 \/ In y (rest_strs strs r)).
    { intros y. rewrite !rest_strs_in, St, P2. tauto. }
    split.
    - intros [(y & -> & Hy)|Hx]; [|right; right; exact Hx].
      apply Hrest in Hy. destruct Hy as [->|Hy].
      + left. symmetry. exact Ew.
      + right. left. exists y. split; [reflexivity|exact Hy].
    - intros [->|[(y & -> & Hy)|Hx]]; [| |right; exact Hx].
      + left. exists w2. split; [exact Ew|]. apply Hrest. left. reflexivity.
      + left. exists y. split; [reflexivity|]. apply Hrest. right. exact Hy. }
  split.
  { cbn [heads In]. intros h Hin. right. exact Hin. }
  split; [cbn [Trie.size]; lia|].
  split.
  { apply (C_frame_weaken (cells r)); [|exact F].
    intros x Hx. cbn [cells]. right. apply in_or_app. right. exact Hx. }
  split; [exact T|]. split; [exact M|].
  split; [rewrite Ew, length_app; lia|].
  cbn [forked branch]. split; [tauto|].
  intros (B1 & B2 & B3). split; [|tauto].
  intros Hr'. apply Kf, B1. congruence.
Qed.

End CCases.

Section CBoundary.
Import Trie Container ContainerInv.

(** The chain after a boundary cell has taken the hostname. *)
Lemma C_rebuild_bnd (st st' : state) (b : Z) (r r' : tr) (w : list Z) :
  shape 68 (buf st) (CHAR0 st) (CHAR1 st) (TRIE1 st) (Bnd b r) ->
  wf (Bnd b r) -> arena (Bnd b r) ->
  inserted w st r st' r' ->
  inserted w st (Bnd b r) st' (Bnd b r').
Proof.
  intros Hsh Hwf [Nd Al]
    (P1 & P2 & P3 & Sh & W & (new & Pm & Nn & Fn) & St & Hh & Sz
     & F & T & M & C & Kf & Kb).
  cbn [shape] in Hsh. destruct Hsh as (Hc & Hct & F0 & F1 & F2 & Hr).
  cbn [wf] in Hwf. destruct Hwf as [Hsr Hwr].
  cbn [cells] in Nd, Al.
  apply NoDup_cons in Nd. destruct Nd as [Nb Nd].
  rewrite list_elem_of_In in Nb.
  apply Forall_cons_iff in Al. destruct Al as [Ab Al].
  pose proof F as (A1 & A2 & A3 & AW & A4 & A5 & A6 & A7).
  unfold inserted. split; [reflexivity|]. split; [reflexivity|].
  split; [reflexivity|]. split.
  { apply C_shape_bnd; try lia; try assumption.
    - rewrite (C_frame_fld _ _ _ _ _ F) by (assumption || lia). exact F0.
    - rewrite (C_frame_fld _ _ _ _ _ F) by (assumption || lia).
      rewrite P1. exact F1.
    - rewrite (C_frame_fld _ _ _ _ _ F) by (assumption || lia). exact F2. }
  split; [cbn [wf]; split; [congruence|exact W]|].
  split.
  { exists new. cbn [cells]. split; [|split; assumption].
    rewrite Pm. apply (Permutation_middle new (cells r) b). }
  split; [cbn [strs]; exact St|].
  split; [cbn [heads]; intros h []|].
  split; [cbn [Trie.size]; lia|].
  split.
  { apply (C_frame_weaken (cells r)); [|exact F].
    intros x Hx. cbn [cells]. right. exact Hx. }
  split; [exact T|]. split; [exact M|]. split; [exact C|].
  cbn [forked branch]. tauto.
Qed.

End CBoundary.

Section CInsert.
Import Trie Container ContainerInv.

Lemma C_arena_sub (c off : Z) (s : list Z) (d r : tr) :
  arena (Seg c off s d r) -> arena d /\ arena r.
Proof.
  intros [Nd Al]. cbn [cells] in Nd, Al.
  apply NoDup_cons in Nd. destruct Nd as [_ Nd].
  apply NoDup_app in Nd. destruct Nd as (Nd & _ & Nr).
  apply Forall_cons_iff in Al. destruct Al as [_ Al].
  apply Forall_app in Al. destruct Al as [Ad Ar].
  split; split; assumption.
Qed.

Lemma C_arena_bnd (b : Z) (r : tr) : arena (Bnd b r) -> arena r.
Proof.
  intros [Nd Al]. cbn [cells] in Nd, Al.
  apply NoDup_cons in Nd. destruct Nd as [_ Nd].
  apply Forall_cons_iff in Al. destruct Al as [_ Al].
  split; assumption.
Qed.

Lemma C_ptr_zero (st : state) (t : tr) :
  shape 68 (buf st) (CHAR0 st) (CHAR1 st) (TRIE1 st) t ->
  ptr t = 0 -> t = Nil.
Proof.
  destruct t as [|c off s d r|c r]; [reflexivity|..]; cbn [shape ptr];
    intros H E; lia.
Qed.

Lemma hd_nth0 (s : list Z) : hd 0 s = nth 0 s 0.
Proof. destruct s; reflexivity. Qed.

Lemma lcp_pos (s w : list Z) :
  s <> [] -> w <> [] -> nth 0 s 0 = nth 0 w 0 -> (1 <= lcp s w)%nat.
Proof.
  destruct s as [|a s], w as [|b w]; try congruence. cbn. intros _ _ ->.
  rewrite Z.eqb_refl. lia.
Qed.

(** [addJS] on a hostname that is not stored: the chain takes it. *)
Lemma C_addJS_loop_insert (u : tr) :
  forall (st : state) (w : list Z) (fuel : nat),
    ok 2 (Z.of_nat (length w)) st -> rem_of st w -> w <> [] ->
    u <> Nil ->
    shape 68 (buf st) (CHAR0 st) (CHAR1 st) (TRIE1 st) u ->
    wf u -> arena u -> ~ In w (strs u) -> (Trie.size u <= fuel)%nat ->
    exists st' u',
      addJS_loop fuel (Num (CHAR0 st)) (Num (ptr u))
        (Num (Z.of_nat (length w))) st
      = Ret (Num 1) st'
      /\ inserted w st u st' u'.
Proof.
  induction u as [|c off s d IHd r IHr|c r IHr];
    intros st w fuel Hok Hrem Hw Hu Hsh Hwf Har Hnin Hfuel.
  - congruence.
  - pose proof Hsh as Hsh'. cbn [shape] in Hsh'.
    destruct Hsh' as (Hc & Hct & Fd & Fr & Fs & Hls & Hoff & Hend & Hb & Hd & Hr).
    pose proof Hwf as Hwf'. cbn [wf] in Hwf'.
    destruct Hwf' as (Hs & Hbd & Hhd & Hwd & Hwr).
    pose proof Hok as ((R1 & R2 & R3 & R4 & R5 & R6 & R7) & Nok).
    destruct (C_arena_sub c off s d r Har) as [Ard Arr].
    assert (Hls1 : (1 <= length s)%nat) by (destruct s; [congruence|cbn; lia]).
    pose proof (C_rem_of_length st w Hrem) as Lw.
    assert (Hlw : (1 <= length w <= 255)%nat).
    { destruct w; [congruence|cbn in *; lia]. }
    pose proof (C_rem_of_needle_rem st w ltac:(lia) Nok Hrem) as Hnr.
    assert (Hseg : seg_at st off s) by (apply C_shape_seg_at; assumption || lia).
    destruct fuel as [|fuel]; [cbn in Hfuel; lia|]. cbn [Trie.size] in Hfuel.
    cbn [addJS_loop ptr jadd]. unfold read32.
    rewrite !get32_fld by lia. rewrite Fs, Fd, Fr.
    rewrite jeq_Num.
    destruct (Z.of_nat (length s) * 2 ^ 24 + off =? 0) eqn:E;
      [apply Z.eqb_eq in E; lia|].
    rewrite seg_word_off, seg_word_len by lia.
    cbn [jadd jsub].
    pose proof (Hseg O ltac:(lia)) as Hs0.
    rewrite Z.add_0_r in Hs0. rewrite Hs0.
    pose proof (proj2 Hnr O ltac:(lia)) as Hw0.
    rewrite Z.sub_0_r in Hw0. rewrite Hw0. rewrite jne_Num.
    pose proof (lcp_le_l s w) as Ml. pose proof (lcp_le_r s w) as Mr.
    pose proof (lcp_split s w) as Ew.
    set (w2 := skipn (lcp s w) w) in *.
    assert (Lw2 : Z.of_nat (length w2)
                  = Z.of_nat (length w) - Z.of_nat (lcp s w)).
    { subst w2. rewrite length_skipn. lia. }
    destruct (nth 0 s 0 =? nth 0 w 0) eqn:E0; cbn [negb].
    + apply Z.eqb_eq in E0.
      pose proof (lcp_pos s w Hs Hw E0) as Mp.
      assert (Hmis :
        (if jne (Num (Z.of_nat (length s))) (Num 1)
         then addJS_mismatch 256 st (Num (CHAR0 st + off))
                (Num (Z.of_nat (length s))) (Num 1)
                (Num (Z.of_nat (length w) - 1))
         else Some (Num 1, Num (Z.of_nat (length w) - 1)))
        = Some (Num (Z.of_nat (lcp s w)), Num (Z.of_nat (length w2)))).
      { rewrite jne_Num, Lw2.
        destruct (Z.of_nat (length s) =? 1) eqn:E1; cbn [negb].
        - apply Z.eqb_eq in E1. do 3 f_equal; lia.
        - pose proof (addJS_mismatch_spec st off s w Hseg Hnr 256 1) as HM.
          change (Z.of_nat 1) with 1 in HM. apply HM; lia. }
      rewrite Hmis. rewrite ?jeq_Num, ?jne_Num.
      replace (CHAR0 st + off - CHAR0 st) with off by lia.
      destruct (Z.of_nat (lcp s w) =? Z.of_nat (length s)) eqn:E1.
      * apply Z.eqb_eq in E1. assert (Hm : lcp s w = length s) by lia.
        rewrite Hm, firstn_all in Ew.
        assert (Hnr' : ~ In w2 (rest_strs strs r)).
        { intros Hin. apply Hnin. apply strs_Seg_in. left.
          exists w2. split; [exact Ew|exact Hin]. }
        destruct (Z.of_nat (length w2) =? 0) eqn:E2; cbn [negb].
        -- apply Z.eqb_eq in E2.
           assert (Hw2 : w2 = []) by (destruct w2; [reflexivity|cbn in E2; lia]).
           rewrite Hw2 in *. rewrite app_nil_r in Ew.
           destruct r as [|rc roff rs rd rr|rc rr].
           ++ exfalso. apply Hnr'. left. reflexivity.
           ++ cbn [shape] in Hr.
              destruct Hr as (Hrc & Hrt & _ & _ & Frs & Hrl & Hro & _).
              cbn [wf] in Hwr. destruct Hwr as (Hrs & _).
              cbn [ptr].
              destruct (rc =? 0) eqn:Er; [apply Z.eqb_eq in Er; lia|].
              cbn [orb]. rewrite get32_fld by lia. rewrite Frs.
              rewrite jeq_Num.
              destruct (Z.of_nat (length rs) * 2 ^ 24 + roff =? 0) eqn:Ez.
              { apply Z.eqb_eq in Ez.
                destruct rs; [congruence|cbn [length] in Ez; lia]. }
              apply (C_add_boundary st c off s d (Seg rc roff rs rd rr) w);
                try assumption; reflexivity.
           ++ exfalso. apply Hnr'. left. reflexivity.
        -- apply Z.eqb_neq in E2.
           assert (Hw2 : w2 <> [])
             by (intros E'; rewrite E' in E2; apply E2; reflexivity).
           destruct (ptr r =? 0) eqn:Er; cbn [negb].
           ++ apply Z.eqb_eq in Er. apply (C_ptr_zero st) in Er; [|exact Hr].
              apply (C_add_boundary_leaf st c off s d r w); assumption.
           ++ apply Z.eqb_neq in Er.
              assert (Hrn : r <> Nil) by (intros ->; apply Er; reflexivity).
              destruct (IHr st w2 fuel) as (st' & r' & E' & Hins);
                try assumption.
              ** apply (C_ok_weaken 2 2 (Z.of_nat (length w)));
                   [lia|lia|exact Hok].
              ** apply (C_rem_of_app st s). rewrite <- Ew. exact Hrem.
              ** intros Hin. apply Hnr'. apply rest_strs_in. right. exact Hin.
              ** lia.
              ** exists st', (Seg c off s d r'). split; [exact E'|].
                 apply (C_rebuild_right st c off s d r w) with (w2 := w2);
                   assumption.
      * apply Z.eqb_neq in E1.
        assert (Hm : (1 <= lcp s w < length s)%nat) by lia.
        destruct (Z.of_nat (length w2) =? 0) eqn:E2; cbn [negb].
        -- apply Z.eqb_eq in E2.
           apply (C_add_split_boundary st c off s d r w); try assumption. lia.
        -- apply Z.eqb_neq in E2. rewrite Lw2.
           apply (C_add_split_leaf st c off s d r w); try assumption. lia.
    + apply Z.eqb_neq in E0.
      assert (Hm : lcp s w = O).
      { apply lcp_hd_ne. rewrite !hd_nth0. exact E0. }
      rewrite jeq_Num.
      destruct (ptr d =? 0) eqn:Ed.
      * apply Z.eqb_eq in Ed. apply (C_ptr_zero st) in Ed; [|exact Hd].
        apply (C_add_leaf_down st c off s d r w); assumption.
      * apply Z.eqb_neq in Ed.
        assert (Hdn : d <> Nil) by (intros ->; apply Ed; reflexivity).
        destruct (IHd st w fuel) as (st' & d' & E' & Hins); try assumption.
        -- intros Hin. apply Hnin. apply strs_Seg_in. right. exact Hin.
        -- lia.
        -- exists st', (Seg c off s d' r). split; [exact E'|].
           apply C_rebuild_down; assumption.
  - pose proof Hsh as Hsh'. cbn [shape] in Hsh'.
    destruct Hsh' as (Hc & Hct & F0 & F1 & F2 & Hr).
    pose proof Hwf as Hwf'. cbn [wf] in Hwf'. destruct Hwf' as (Hsr & Hwr).
    pose proof Hok as ((R1 & R2 & R3 & R4 & R5 & R6 & R7) & Nok).
    destruct fuel as [|fuel]; [cbn in Hfuel; lia|]. cbn [Trie.size] in Hfuel.
    cbn [addJS_loop ptr jadd]. unfold read32.
    rewrite !get32_fld by lia. rewrite F2, F1.
    rewrite jeq_Num. cbn [Z.eqb].
    destruct (IHr st w fuel) as (st' & r' & E' & Hins); try assumption.
    + intros ->. discriminate.
    + apply (C_arena_bnd c). exact Har.
    + lia.
    + exists st', (Bnd c r'). split; [exact E'|].
      apply C_rebuild_bnd; assumption.
Qed.

End CInsert.

Section CGrow.
Import Trie Container ContainerInv.

Lemma C_settled_geom (n : Z) (st : state) :
  settled st -> within n st -> 0 <= n <= 65536 -> geom st.
Proof.
  intros (S1 & S2 & S3 & S4 & S5 & S6 & S7 & S8 & S9 & S10 & S11) [W1 W2] Hn.
  unfold geom. repeat split; try lia. exact S10.
Qed.

(** The test of lines 1645-1650 and [growBuf] leave room for two cells
    and 254 bytes. *)
Lemma C_grow_room (n : Z) (st : state) :
  settled st -> within n st -> 0 <= n < 65536 ->
  exists st',
    (if jlt (jsub (read32 st HNBIGTRIE_CHAR0_SLOT)
                  (read32 st HNBIGTRIE_TRIE1_SLOT)) 24
        || jlt (jsub (byteLength (buf st))
                     (read32 st HNBIGTRIE_CHAR1_SLOT)) 256
     then growBuf st else Ret tt st) = Ret tt st'
    /\ same_trie st st' /\ settled st' /\ room 2 254 st'.
Proof.
  intros Se Wi Hn.
  pose proof (C_settled_geom n st Se Wi ltac:(lia)) as G.
  pose proof Se as (S1 & S2 & S3 & S4 & S5 & S6 & S7 & S8 & S9 & S10 & S11).
  pose proof Wi as [W1 W2].
  rewrite read_TRIE1, read_CHAR0, read_CHAR1 by lia.
  cbn [jsub jlt].
  destruct ((CHAR0 st - TRIE1 st <? 24)
            || (byteLength (buf st) - CHAR1 st <? 256)) eqn:Ec.
  - destruct (C_growBuf_full st G) as (st' & E & Hsame & Hw & Hcase).
    cbn zeta in Hcase.
    pose proof (round_up_64k (TRIE1 st + 24) ltac:(lia)) as R0.
    cbn zeta in R0.
    set (r0 := band (Num (TRIE1 st + 24 + 65535)) (Num (bnot 65535))) in *.
    set (c0 := Z.max r0 (CHAR0 st)) in *.
    pose proof (round_up_64k (c0 + CHAR1 st - CHAR0 st + 256) ltac:(lia))
      as R1.
    cbn zeta in R1.
    set (r1 := band (Num (c0 + CHAR1 st - CHAR0 st + 256 + 65535))
                    (Num (bnot 65535))) in *.
    set (buf1 := Z.max r1 (byteLength (buf st))) in *.
    destruct R0 as [R0 R0m]. destruct R1 as [R1 R1m].
    assert (Hc0 : c0 mod 65536 = 0).
    { subst c0. destruct (Z.max_spec r0 (CHAR0 st)) as [[_ ->]|[_ ->]];
        assumption. }
    assert (Hb1 : buf1 mod 65536 = 0).
    { subst buf1.
      destruct (Z.max_spec r1 (byteLength (buf st))) as [[_ ->]|[_ ->]];
        assumption. }
    exists st'. split; [exact E|]. split; [exact Hsame|].
    pose proof Hsame as (T1 & N1 & Cd & K0 & K1 & Kt & _ & _ & _).
    destruct Hcase as [[Eb ->]|(Eb & K & L)].
    + exfalso. apply orb_true_iff in Ec.
      assert (c0 = CHAR0 st).
      { revert S6 S8 S9 R0 R0m R1 R1m Eb Hc0. subst c0 buf1. clear. intros.
        Z.to_euclidean_division_equations. lia. }
      destruct Ec as [Ec|Ec]; [apply Z.ltb_lt in Ec|apply Z.ltb_lt in Ec]; lia.
    + split.
      * unfold settled. rewrite T1, K, L, Hw.
        replace (CHAR1 st') with (c0 + (CHAR1 st - CHAR0 st)) by lia.
        repeat split; try assumption; try lia.
      * unfold room. rewrite T1, K, L.
        replace (CHAR1 st') with (c0 + (CHAR1 st - CHAR0 st)) by lia.
        repeat split; try assumption; try lia.
  - apply orb_false_iff in Ec. destruct Ec as [Ec1 Ec2].
    apply Z.ltb_ge in Ec1, Ec2.
    exists st. split; [reflexivity|].
    split; [apply C_same_trie_refl; exact G|].
    split; [exact Se|].
    unfold room. repeat split; try assumption; try lia.
Qed.

End CGrow.

Section CAddStep.
Import Trie Container ContainerInv.

Lemma C_key_length (hn : jsstring) : (length (key hn) <= 254)%nat.
Proof.
  unfold key. rewrite length_rev. apply needle_bytes_length_le.
Qed.

Lemma C_slots_ext (st st' : state) :
  (forall a, 256 <= a -> byte (buf st') a = byte (buf st) a) ->
  TRIE1 st' = TRIE1 st /\ CHAR0 st' = CHAR0 st /\ CHAR1 st' = CHAR1 st.
Proof.
  intros B0.
  assert (F0 : forall c k, 64 <= c -> 0 <= k ->
                 fld (buf st') c k = fld (buf st) c k).
  { intros c k Hc Hk. unfold fld. apply word_ext. intros i Hi.
    rewrite B0 by lia. reflexivity. }
  unfold TRIE1, CHAR0, CHAR1. rewrite slot_TRIE1, slot_CHAR0, slot_CHAR1.
  rewrite !F0 by lia. repeat split; reflexivity.
Qed.

Lemma C_holds_ext (n : Z) (st st' : state) (root : Z) (ws : list (list Z)) :
  TRIE1 st' = TRIE1 st ->
  CHAR1 st' - CHAR0 st' = CHAR1 st - CHAR0 st ->
  CHAR1 st <= CHAR1 st' ->
  byteLength (buf st') - CHAR1 st' >= byteLength (buf st) - CHAR1 st ->
  (forall a, 272 <= a < TRIE1 st ->
     byte (buf st') a mod 256 = byte (buf st) a mod 256) ->
  (forall i, 0 <= i < CHAR1 st - CHAR0 st ->
     byte (buf st') (CHAR0 st' + i) mod 256
     = byte (buf st) (CHAR0 st + i) mod 256) ->
  holds n st root ws -> holds n st' root ws.
Proof.
  intros T C C1 Hr Hc Hp [(H1 & H2 & H3 & F0 & F1 & F2 & Hro & Hw)|
                          (t & P & Sg & Sh & W & Ar & Sz & St & Br & Lo)].
  - left. rewrite T.
    assert (F : forall k, 0 <= k < 3 ->
                  fld (buf st') root k = fld (buf st) root k).
    { intros k Hk. unfold fld. apply word_ext. intros i Hi. apply Hc. lia. }
    rewrite !F by lia. repeat split; try assumption. lia.
  - right. exists t. split; [exact P|]. split; [exact Sg|].
    split; [|split; [exact W|split; [exact Ar|split; [exact Sz|
             split; [exact St|split; [exact Br|exact Lo]]]]]].
    rewrite T. apply (shape_ext 68 (buf st) _ (CHAR0 st) _ (CHAR1 st));
      try assumption; lia.
Qed.

Lemma C_holds_more (n n' : Z) (st : state) (root : Z) (ws : list (list Z))
    (w : list Z) :
  n <= n' -> (w <> [] -> In w ws) ->
  holds n st root ws -> holds n' st root (ws ++ [w]).
Proof.
  intros Hn Hin [(H1 & H2 & H3 & F0 & F1 & F2 & Hro & Hw)|
                 (t & P & Sg & Sh & W & Ar & Sz & St & Br & Lo)].
  - left. repeat split; try assumption.
    intros x Hx. apply in_app_or in Hx. destruct Hx as [Hx|[<-|[]]]; [auto|].
    destruct w as [|a w]; [reflexivity|].
    apply Hw. apply Hin. discriminate.
  - right. exists t. split; [exact P|]. split; [exact Sg|].
    split; [exact Sh|]. split; [exact W|]. split; [exact Ar|].
    split; [lia|]. split; [|split; [exact Br|exact Lo]].
    intros x. rewrite St, in_app_iff. cbn [In].
    split; [tauto|]. intros [[Hx|[<-|[]]] Hne]; auto.
Qed.

(** [setNeedle] keeps the invariant. *)
Lemma C_setNeedle_inv (n : Z) (hn : jsstring) (st : state) (root : Z)
    (ws : list (list Z)) :
  inv n st root ws ->
  inv n (setNeedle hn st) root ws
  /\ needle (setNeedle hn st) = hn
  /\ TRIE1 (setNeedle hn st) = TRIE1 st.
Proof.
  intros (Se & Wi & Nok & Ho).
  pose proof Se as (S1 & S2 & S3 & S4 & S5 & S6 & S7 & S8 & S9 & S10 & S11).
  destruct (C_setNeedle_spec hn st ltac:(lia) Nok)
    as (N0 & Nok0 & W0 & L0 & B0).
  destruct (C_slots_ext st (setNeedle hn st) B0) as (T0 & C0 & C1).
  set (st0 := setNeedle hn st) in *.
  split; [|split; assumption].
  split; [unfold settled; rewrite T0, C0, C1, L0, W0; exact Se|].
  split; [unfold within; rewrite T0, C0, C1; exact Wi|].
  split; [exact Nok0|].
  apply (C_holds_ext n st); try lia; try assumption.
  - intros a Ha. rewrite B0 by lia. reflexivity.
  - intros i Hi. rewrite C0, B0 by lia. reflexivity.
Qed.

Lemma C_settled_after (st1 st2 : state) :
  settled st1 ->
  CHAR0 st2 = CHAR0 st1 -> byteLength (buf st2) = byteLength (buf st1) ->
  wasmMemory st2 = wasmMemory st1 ->
  TRIE1 st1 <= TRIE1 st2 -> TRIE1 st2 <= CHAR0 st1 ->
  (TRIE1 st2 - 272) mod 12 = 0 ->
  CHAR1 st1 <= CHAR1 st2 -> CHAR1 st2 <= byteLength (buf st1) ->
  settled st2.
Proof.
  intros (S1 & S2 & S3 & S4 & S5 & S6 & S7 & S8 & S9 & S10 & S11) C0 B W T T' M C1 C1'.
  unfold settled. rewrite C0, B, W. repeat split; try assumption; lia.
Qed.

(** The first hostname of a trie goes into the root cell. *)
Lemma C_add_first (st : state) (root : Z) (w : list Z) :
  ok 0 (Z.of_nat (length w)) st -> rem_of st w -> w <> [] ->
  68 <= root -> aligned root -> 4 * root + 12 <= TRIE1 st ->
  fld (buf st) root 0 = 0 -> fld (buf st) root 1 = 0 ->
  exists st' o,
    bind (addSegment (Num (Z.of_nat (length w))) st) (fun seg st1 =>
      Ret (Num 1) (write32 (Num (root + 2)) seg st1)) = Ret (Num 1) st'
    /\ shape 68 (buf st') (CHAR0 st') (CHAR1 st') (TRIE1 st')
         (Seg root o w Nil Nil)
    /\ frame [root] st st'
    /\ TRIE1 st' = TRIE1 st
    /\ CHAR1 st' <= CHAR1 st + Z.of_nat (length w).
Proof.
  intros Hok Hrem Hw Hr Ha Ht F0 F1.
  pose proof Hok as ((R1 & R2 & R3 & R4 & R5 & R6 & R7) & _).
  pose proof (C_rem_of_length st w Hrem) as Lw.
  destruct (C_addSegment_ok w 0 (Z.of_nat (length w)) st Hok)
    as (v & o & st3 & E3 & Ok3 & F3 & T3 & C3 & V & Ho & Hoe & Hby);
    try assumption; try lia.
  rewrite E3. cbn [bind].
  destruct (C_write32_ok root 2 (Num v) 0
              (Z.of_nat (length w) - Z.of_nat (length w)) st3 Ok3)
    as (Ok4 & F4 & T4 & C4 & V2 & O4); try assumption; try lia.
  set (st4 := write32 (Num (root + 2)) (Num v) st3) in *.
  pose proof (C_frame_trans _ _ _ _ _ F3 F4) as F04. cbn [app] in F04.
  exists st4, o. split; [reflexivity|]. split.
  { apply C_shape_leaf.
    - exact Hr.
    - lia.
    - rewrite O4 by lia.
      rewrite (C_frame_fld _ _ _ _ _ F3) by (assumption || lia || intros []).
      exact F0.
    - rewrite O4 by lia.
      rewrite (C_frame_fld _ _ _ _ _ F3) by (assumption || lia || intros []).
      exact F1.
    - rewrite V2. exact V.
    - lia.
    - exact Ho.
    - rewrite C4. destruct F4 as (-> & _). lia.
    - apply (C_frame_bytes_eq [root] st3); [exact F4|lia|lia|exact Hby]. }
  split; [exact F04|]. split; lia.
Qed.

End CAddStep.

Section CAddInv.
Import Trie Container ContainerInv.

Lemma C_read_NEEDLE_LEN (st : state) :
  256 <= byteLength (buf st) -> needle_ok st ->
  read8 st (Num 255) = Num (Z.of_nat (length (key (needle st)))).
Proof.
  intros Hl [H _]. unfold read8. rewrite get8_in by lia.
  unfold key. rewrite length_rev. f_equal. exact H.
Qed.

Lemma C_inserted_arena (w : list Z) (st st' : state) (t t' : tr) :
  shape 68 (buf st) (CHAR0 st) (CHAR1 st) (TRIE1 st) t -> arena t ->
  inserted w st t st' t' -> arena t'.
Proof.
  intros Sh [Nd Al] (_ & _ & _ & _ & _ & (new & Pm & Nn & Fn) & _).
  apply (C_arena_new (TRIE1 st) (cells t) new); try assumption.
  intros c Hc. apply (shape_cells 68 _ _ _ _ t Sh c Hc).
Qed.

Lemma C_keeps_refl (root : Z) (st : state) : keeps root st st.
Proof. intros t _ Ht. exact Ht. Qed.

Lemma C_keeps_trans (root : Z) (st1 st2 st3 : state) :
  keeps root st1 st2 -> keeps root st2 st3 -> keeps root st1 st3.
Proof. intros K1 K2 t Hlt Ht. apply K2, K1; assumption. Qed.

Lemma C_keeps_same (root : Z) (st st' : state) :
  same_trie st st' -> keeps root st st'.
Proof. intros Hs t _ Ht. apply (C_same_trie_shape st st' t Hs Ht). Qed.

Lemma C_keeps_frame (cs : list Z) (root : Z) (st st' : state) :
  frame cs st st' -> (forall c, In c cs -> root <= c) -> keeps root st st'.
Proof.
  intros F Hcs t Hlt Ht.
  apply (C_shape_frame cs st st' t F Ht).
  - apply List.Forall_forall. intros c Hc.
    apply (proj1 (List.Forall_forall _ _) Hlt c Hc).
  - intros c Hc Hin. apply Hcs in Hin.
    pose proof (proj1 (List.Forall_forall _ _) Hlt c Hc) as Hx.
    cbn beta in Hx. lia.
Qed.

(** One call of [addJS] keeps the invariant of [fromIterable] and stores
    the needle. *)
Lemma C_addJS_inv (n : Z) (st : state) (root : Z) (ws : list (list Z))
    (fuel : nat) :
  inv n st root ws -> 0 <= n < 65536 -> 1 + 2 * n <= Z.of_nat fuel ->
  exists res st',
    addJS fuel (Num root) st = Ret res st'
    /\ ((res = Num 0 /\ (key (needle st) = [] \/ In (key (needle st)) ws))
        \/ (res = Num 1 /\ key (needle st) <> []
            /\ ~ In (key (needle st)) ws))
    /\ inv (n + 1) st' root (ws ++ [key (needle st)])
    /\ keeps root st st'.
Proof.
  intros (Se & Wi & Nok & Ho) Hn Hf.
  pose proof Se as (S1 & S2 & S3 & S4 & S5 & S6 & S7 & S8 & S9 & S10 & S11).
  pose proof Wi as [W1 W2].
  pose proof (C_settled_geom n st Se Wi ltac:(lia)) as G.
  pose proof G as (_ & _ & _ & _ & G5 & _).
  set (w := key (needle st)).
  pose proof (C_key_length (needle st)) as Lw. fold w in Lw.
  unfold addJS. rewrite C_read_NEEDLE_LEN by (assumption || lia). fold w.
  rewrite jeq_Num.
  destruct (Z.of_nat (length w) =? 0) eqn:E.
  - apply Z.eqb_eq in E.
    assert (Hw : w = []) by (destruct w; [reflexivity|cbn in E; lia]).
    exists (Num 0), st. split; [reflexivity|].
    split; [left; split; [reflexivity|left; exact Hw]|].
    split; [|apply C_keeps_refl].
    split; [exact Se|]. split; [unfold within; lia|].
    split; [exact Nok|].
    apply (C_holds_more n); [lia|congruence|exact Ho].
  - apply Z.eqb_neq in E.
    assert (Hw : w <> []) by (intros E'; rewrite E' in E; apply E; reflexivity).
    assert (Hrem : rem_of st w) by (exists []; reflexivity).
    destruct Ho as [(H1 & H2 & H3 & F0 & F1 & F2 & Hro & Hws)|
                    (t & P & Sg & Sh & W & Ar & Sz & St & Br & Lo)].
    + cbn [jadd]. unfold read32 at 1. rewrite get32_fld by lia.
      rewrite F2, jeq_Num. cbn [Z.eqb].
      assert (Ok0 : ok 0 (Z.of_nat (length w)) st).
      { split; [|exact Nok]. unfold room. repeat split; lia. }
      destruct (C_add_first st root w Ok0 Hrem Hw H1 H2 H3 F0 F1)
        as (st' & o & E' & Sh & F & T & C).
      exists (Num 1), st'. split; [exact E'|].
      split.
      { right. split; [reflexivity|]. split; [exact Hw|].
        intros Hx. apply Hws in Hx. congruence. }
      pose proof F as (A1 & A2 & A3 & AW & A4 & A5 & A6 & A7).
      split; [|apply (C_keeps_frame [root] root st st' F);
               intros c [<-|[]]; lia].
      split.
      { apply (C_settled_after st); try assumption; try lia.
        rewrite T. exact S2. }
      split; [unfold within; lia|].
      split; [apply (C_frame_needle_ok [root] st); assumption|].
      right. exists (Seg root o w Nil Nil).
      split; [reflexivity|]. split; [reflexivity|]. split; [exact Sh|].
      split; [cbn [wf is_bnd heads In]; tauto|].
      split.
      { split; [repeat constructor; apply not_elem_of_nil|].
        repeat constructor. exact H2. }
      split; [cbn [Trie.size]; lia|].
      split; [|split; [cbn [branch forked is_seg]; intuition congruence|
                       repeat constructor; lia]].
      intros x. rewrite strs_leaf, in_app_iff. cbn [In]. split.
      * intros ->. split; [right; left; reflexivity|exact Hw].
      * intros [[Hx|[<-|[]]] Hne]; [|reflexivity].
        apply Hws in Hx. congruence.
    + destruct t as [|c off s d r|]; try discriminate. cbn [ptr] in P.
      subst c.
      pose proof Sh as Sh'. cbn [shape] in Sh'.
      destruct Sh' as (Hc & Hct & _ & _ & Fs & Hls & Hoff & _).
      assert (Hs : s <> []) by (cbn [wf] in W; tauto).
      cbn [jadd]. unfold read32 at 1. rewrite get32_fld by lia.
      rewrite Fs, jeq_Num.
      destruct (Z.of_nat (length s) * 2 ^ 24 + off =? 0) eqn:E';
        [apply Z.eqb_eq in E'; destruct s; [congruence|cbn [length] in E'; lia]|].
      destruct (C_grow_room n st Se Wi Hn) as (st1 & HG & Hsame & Se1 & Ro1).
      rewrite HG. cbn [bind].
      pose proof (C_same_trie_shape st st1 _ Hsame Sh) as Sh1.
      pose proof (C_same_trie_needle_ok st st1 Hsame Nok) as Nok1.
      pose proof Hsame as (T1 & N1 & Cd & Hc0 & Hc1 & Ht1 & _ & _ & _).
      pose proof Ro1 as (R1 & R2 & R3 & R4 & R5 & R6 & R7).
      rewrite read_CHAR0 by lia.
      assert (Hrem1 : rem_of st1 w).
      { exists []. rewrite N1. reflexivity. }
      assert (Ok1 : ok 2 (Z.of_nat (length w)) st1).
      { split; [|exact Nok1]. unfold room. repeat split; lia. }
      assert (Hfuel : (Trie.size (Seg root off s d r) <= fuel)%nat) by lia.
      destruct (decide (w ∈ strs (Seg root off s d r))) as [Hin|Hnin];
        rewrite list_elem_of_In in *.
      * exists (Num 0), st1. split.
        { apply (addJS_loop_stored st1 (Seg root off s d r)); try assumption;
            try lia.
          apply C_rem_of_needle_rem; assumption || lia. }
        split; [left; split; [reflexivity|right; apply St; exact Hin]|].
        split; [|apply C_keeps_same; exact Hsame].
        split; [exact Se1|]. split; [unfold within; lia|].
        split; [exact Nok1|].
        apply (C_holds_more n); [lia| |].
        -- intros _. apply St. exact Hin.
        -- right. exists (Seg root off s d r).
           split; [reflexivity|]. split; [exact Sg|]. split; [exact Sh1|].
           split; [exact W|]. split; [exact Ar|].
           split; [exact Sz|split; [exact St|split; [exact Br|exact Lo]]].
      * destruct (C_addJS_loop_insert (Seg root off s d r) st1 w fuel)
          as (st2 & t' & E2 & Hins); try assumption; try discriminate.
        pose proof (C_inserted_arena w st1 st2 _ t' Sh1 Ar Hins) as Ar'.
        destruct Hins as (P1 & P2 & P3 & Sh2 & W2' & (new & Pm & Nn & Fn)
                          & St' & Hh & Sz' & F & T & M & C & _ & Kb).
        exists (Num 1), st2. split; [exact E2|].
        split.
        { right. split; [reflexivity|]. split; [exact Hw|].
          intros Hx. apply Hnin. apply St. split; assumption. }
        pose proof F as (A1 & A2 & A3 & AW & A4 & A5 & A6 & A7).
        split.
        2:{ apply (C_keeps_trans root st st1 st2);
              [apply C_keeps_same; exact Hsame|].
            apply (C_keeps_frame (cells (Seg root off s d r)) root st1 st2 F).
            intros c' Hc'.
            apply (proj1 (List.Forall_forall _ _) Lo c' Hc'). }
        split; [apply (C_settled_after st1); try assumption; lia|].
        split; [unfold within; lia|].
        split; [apply (C_frame_needle_ok _ st1 st2 F); assumption|].
        right. exists t'.
        split; [exact P1|]. split; [rewrite P2; reflexivity|].
        split; [exact Sh2|]. split; [exact W2'|]. split; [exact Ar'|].
        split; [lia|]. split; [|split; [exact (Kb Br)|]].
        2:{ apply List.Forall_forall. intros x Hx.
            apply (Permutation_in _ Pm) in Hx. apply in_app_or in Hx.
            destruct Hx as [Hx|Hx].
            - pose proof (proj1 (List.Forall_forall _ _) Fn x Hx) as Hn'.
              cbn beta in Hn'. lia.
            - apply (proj1 (List.Forall_forall _ _) Lo x Hx). }
        intros x. rewrite St', St, in_app_iff. cbn [In]. split.
        -- intros [->|[Hx Hne]]; [split; [right; left; reflexivity|exact Hw]|].
           split; [left; exact Hx|exact Hne].
        -- intros [[Hx|[<-|[]]] Hne]; [right; split; assumption|].
           left. reflexivity.
Qed.

End CAddInv.

Section CBuild.
Import Trie Container ContainerInv.

Lemma C_ref_addJS_inv (n : Z) (st : state) (r : HNBigTrieRef) (root : Z)
    (ws : list (list Z)) (hn : jsstring) (fuel : nat) :
  iroot r = Num root ->
  inv n st root ws -> 0 <= n < 65536 -> 1 + 2 * n <= Z.of_nat fuel ->
  exists a st',
    ref_addJS fuel r hn st = Ret a st'
    /\ iroot (snd a) = Num root
    /\ ((fst a = false /\ Container.size (snd a) = Container.size r
         /\ (key hn = [] \/ In (key hn) ws))
        \/ (fst a = true /\ Container.size (snd a) = Container.size r + 1
            /\ key hn <> [] /\ ~ In (key hn) ws))
    /\ inv (n + 1) st' root (ws ++ [key hn])
    /\ keeps root st st'.
Proof.
  intros Hr Hi Hn Hf. unfold ref_addJS. rewrite Hr.
  destruct (C_setNeedle_inv n hn st root ws Hi) as (Hi0 & N0 & _).
  destruct (C_addJS_inv n (setNeedle hn st) root ws fuel Hi0 Hn Hf)
    as (res & st' & E & Hres & Hi' & Kp).
  assert (Kp' : keeps root st st').
  { apply (C_keeps_trans root st (setNeedle hn st) st'); [|exact Kp].
    destruct Hi as ((S1 & S2 & S3 & S4 & S5 & _) & _ & Nok & _).
    destruct (C_setNeedle_spec hn st ltac:(lia) Nok)
      as (_ & _ & _ & _ & B0).
    destruct (C_slots_ext st (setNeedle hn st) B0) as (T0 & C0 & C1).
    intros t _ Ht. rewrite T0.
    apply (shape_ext 68 (buf st) _ (CHAR0 st) _ (CHAR1 st)); try lia.
    - intros a Ha. rewrite B0 by lia. reflexivity.
    - intros i Hi. rewrite C0, B0 by lia. reflexivity.
    - exact Ht. }
  rewrite N0 in Hi', Hres. rewrite E. cbn [bind].
  destruct Hres as [[-> Hk]|[-> Hk]]; cbn [jeq Z.eqb]; eexists; eexists;
    (split; [reflexivity|]);
    (split; [cbn [snd iroot]; assumption || reflexivity|]);
    (split; [|split; [exact Hi'|exact Kp']]).
  - left. cbn [fst snd]. tauto.
  - right. cbn [fst snd Container.size]. tauto.
Qed.

(** The loop of [fromIterable] keeps the invariant. *)
Lemma C_add_all_inv (root : Z) (fuel : nat) (hns : list jsstring) :
  forall (r : HNBigTrieRef) (n : Z) (st : state) (ws : list (list Z)),
    iroot r = Num root ->
    inv n st root ws -> 0 <= n ->
    n + Z.of_nat (length hns) <= 65536 ->
    2 * (n + Z.of_nat (length hns)) <= Z.of_nat fuel + 1 ->
    exists r' st',
      add_all fuel r hns st = Ret r' st'
      /\ iroot r' = Num root
      /\ inv (n + Z.of_nat (length hns)) st' root (ws ++ map key hns)
      /\ keeps root st st'.
Proof.
  induction hns as [|hn hns IH]; intros r n st ws Hr Hi Hn Hl Hf.
  - exists r, st. split; [reflexivity|]. split; [exact Hr|]. cbn [length map].
    rewrite app_nil_r, Z.add_0_r. split; [exact Hi|apply C_keeps_refl].
  - cbn [length] in Hl, Hf. cbn [add_all].
    destruct (C_ref_addJS_inv n st r root ws hn fuel Hr Hi)
      as (a & st1 & E & Hr1 & _ & Hi1 & Kp1); try lia.
    rewrite E. cbn [bind].
    destruct (IH (snd a) (n + 1) st1 (ws ++ [key hn]) Hr1 Hi1)
      as (r' & st' & E' & Hr' & Hi' & Kp'); try lia.
    exists r', st'. split; [exact E'|]. split; [exact Hr'|].
    cbn [length map].
    replace (n + Z.of_nat (S (length hns)))
      with (n + 1 + Z.of_nat (length hns)) by lia.
    rewrite <- app_assoc in Hi'.
    split; [exact Hi'|apply (C_keeps_trans root st st1 st'); assumption].
Qed.

(** [create] on a new container. *)
Lemma C_create_fresh_inv :
  iroot (fst (create fresh)) = Num 68
  /\ inv 0 (snd (create fresh)) 68 [].
Proof.
  split; [reflexivity|].
  split.
  { unfold settled.
    repeat split; vm_compute; first [reflexivity | intros H; discriminate H]. }
  split.
  { unfold within.
    split; vm_compute; first [reflexivity | intros H; discriminate H]. }
  split; [split; reflexivity|].
  left. repeat split; try reflexivity;
    try (vm_compute; first [reflexivity | intros H; discriminate H]).
  intros x [].
Qed.


End CBuild.

(** ** [matchesJS] of the container on a well-formed trie *)

Section CMatch.
Import Trie Container ContainerInv.

Lemma find_head_sub (lo : Z) (b : ArrayBuffer) (c0 c1 t1 c : Z) (u : tr) :
  shape lo b c0 c1 t1 u -> wf u ->
  shape lo b c0 c1 t1 (find_head u c) /\ wf (find_head u c)
  /\ (Trie.size (find_head u c) <= Trie.size u)%nat
  /\ match find_head u c with
     | Nil => True
     | Seg _ _ s _ _ => hd 0 s = c
     | Bnd _ _ => False
     end.
Proof.
  induction u as [|cc off s d IHd r IHr|cc r IHr]; intros Hsh Hwf.
  - cbn [find_head shape wf Trie.size]. repeat split; lia.
  - cbn [find_head]. destruct (hd 0 s =? c) eqn:E.
    + apply Z.eqb_eq in E. split; [exact Hsh|]. split; [exact Hwf|].
      split; [lia|exact E].
    + cbn [shape] in Hsh. cbn [wf] in Hwf.
      destruct IHd as (A & B & C & D); [tauto|tauto|].
      split; [exact A|]. split; [exact B|].
      split; [cbn [Trie.size]; lia|exact D].
  - cbn [find_head shape wf Trie.size]. repeat split; lia.
Qed.

Lemma walk_find_head (u : tr) (c : Z) (w : list Z) :
  wf u -> is_bnd u = false -> walk u (c :: w) = walk (find_head u c) (c :: w).
Proof.
  induction u as [|cc off s d IHd r IHr|cc r IHr]; intros Hwf Hb.
  - reflexivity.
  - cbn [find_head]. destruct (hd 0 s =? c) eqn:E; [reflexivity|].
    cbn [walk]. rewrite E. cbn [wf] in Hwf. apply IHd; tauto.
  - discriminate.
Qed.

Lemma walk_Seg_hd (cc off : Z) (s : list Z) (d r : tr) (w : list Z) :
  w <> [] -> hd 0 s = hd 0 w ->
  walk (Seg cc off s d r) w
  = if (lcp s w =? length s)%nat
    then match r with
         | Nil =>
             if boundary (skipn (length s) w)
             then Z.of_nat (length (skipn (length s) w))
             else -1
         | _ => walk r (skipn (length s) w)
         end
    else -1.
Proof.
  destruct w as [|c w]; [congruence|]. intros _ H. cbn [walk].
  cbn [hd] in H. rewrite H, Z.eqb_refl. reflexivity.
Qed.

Lemma lcp_full_split (s w : list Z) :
  lcp s w = length s -> w = s ++ skipn (length s) w.
Proof.
  intros H. pose proof (lcp_split s w) as E. rewrite H in E.
  rewrite firstn_all in E. exact E.
Qed.

Lemma C_shape_ptr_Nil (st : state) (t : tr) :
  shape 68 (buf st) (CHAR0 st) (CHAR1 st) (TRIE1 st) t ->
  (ptr t =? 0) = true -> t = Nil.
Proof.
  intros Hsh E. apply Z.eqb_eq in E.
  destruct t as [|c off s d r|c r]; [reflexivity| |];
    cbn [shape ptr] in *; lia.
Qed.

(** The search along [down], lines 1591-1597. *)
Lemma C_matchesJS_find_spec (st : state) (c : Z) (u : tr) :
  0 <= CHAR0 st -> CHAR1 st <= byteLength (buf st) ->
  TRIE1 st <= byteLength (buf st) ->
  shape 68 (buf st) (CHAR0 st) (CHAR1 st) (TRIE1 st) u -> wf u ->
  is_seg u = true ->
  forall fuel : nat, (Trie.size u <= fuel)%nat ->
    matchesJS_find fuel st (Num (CHAR0 st)) (Num c) (Num (ptr u))
    = Some (match find_head u c with
            | Seg cc off s _ _ =>
                Some (Num cc, Num (Z.of_nat (length s) * 2 ^ 24 + off),
                      Num (CHAR0 st + off))
            | _ => None
            end).
Proof.
  intros H0 H1 Ht.
  induction u as [|cc off s d IHd r IHr|cc r IHr];
    intros Hsh Hwf Hsg fuel Hfuel; try discriminate.
  pose proof Hsh as Hsh0.
  cbn [shape] in Hsh.
  destruct Hsh as (Hc & Hct & Fd & Fr & Fs & Hls & Hoff & Hend & Hb & Hd & Hr).
  pose proof Hwf as Hwf0.
  cbn [wf] in Hwf. destruct Hwf as (Hs & Hbd & Hhd & Hwd & Hwr).
  assert (Hls1 : (1 <= length s)%nat) by (destruct s; [congruence|cbn; lia]).
  assert (Hseg : seg_at st off s) by (apply C_shape_seg_at; assumption || lia).
  destruct fuel as [|fuel]; [cbn in Hfuel; lia|]. cbn [Trie.size] in Hfuel.
  cbn [matchesJS_find ptr jadd]. unfold read32.
  rewrite !get32_fld by lia. rewrite Fs, Fd.
  rewrite seg_word_off by lia. cbn [jadd].
  pose proof (Hseg O ltac:(lia)) as Hs0. rewrite Z.add_0_r in Hs0.
  rewrite Hs0. rewrite !jeq_Num. cbn [find_head]. rewrite hd_nth0.
  destruct (nth 0 s 0 =? c) eqn:E; [reflexivity|].
  destruct (ptr d =? 0) eqn:E2.
  - rewrite (C_shape_ptr_Nil st d Hd E2). reflexivity.
  - destruct d as [|dc doff ds dd dr|dc dr]; [discriminate| |discriminate].
    apply IHd; first [assumption | reflexivity | lia].
Qed.

(** The comparison of the rest of a segment, lines 1605-1609. *)
Lemma C_matchesJS_cmp_spec (st : state) (off : Z) (s w : list Z) :
  seg_at st off s -> needle_rem st w -> (length s <= length w)%nat ->
  forall (k i : nat),
    (1 <= i <= lcp s w)%nat -> (i < length s)%nat ->
    (length s - i <= k)%nat ->
    matchesJS_cmp k st (Num (Z.of_nat (length w) - Z.of_nat i))
      (Num (CHAR0 st + off + Z.of_nat i))
      (Num (CHAR0 st + off + Z.of_nat (length s)))
    = Some (if (lcp s w =? length s)%nat
            then Some (Num (Z.of_nat (length w) - Z.of_nat (length s)))
            else None).
Proof.
  intros Hseg [_ Hrem] Hsw k.
  pose proof (lcp_le_l s w) as Ll.
  induction k as [|k IH]; intros i Hi His Hk; [lia|].
  cbn [matchesJS_cmp jsub jadd].
  rewrite (Hseg i) by lia.
  replace (Z.of_nat (length w) - Z.of_nat i - 1)
    with (Z.of_nat (length w) - 1 - Z.of_nat i) by lia.
  rewrite (Hrem i) by lia. rewrite jne_Num.
  destruct (nth i s 0 =? nth i w 0) eqn:E3; cbn [negb].
  - apply Z.eqb_eq in E3.
    assert (i <> lcp s w).
    { intros ->. apply (lcp_nth_ne s w); [lia|lia|exact E3]. }
    cbn [jlt].
    destruct (CHAR0 st + off + Z.of_nat i + 1
              <? CHAR0 st + off + Z.of_nat (length s)) eqn:E4.
    + apply Z.ltb_lt in E4.
      replace (CHAR0 st + off + Z.of_nat i + 1)
        with (CHAR0 st + off + Z.of_nat (S i)) by lia.
      replace (Z.of_nat (length w) - 1 - Z.of_nat i)
        with (Z.of_nat (length w) - Z.of_nat (S i)) by lia.
      apply IH; lia.
    + apply Z.ltb_ge in E4.
      assert (El : lcp s w = length s) by lia.
      rewrite El, Nat.eqb_refl. do 3 f_equal. lia.
  - apply Z.eqb_neq in E3.
    assert (i = lcp s w).
    { destruct (Nat.eq_dec i (lcp s w)) as [e|n]; [exact e|].
      exfalso. apply E3. apply lcp_nth_eq. lia. }
    destruct (lcp s w =? length s)%nat eqn:E5; [|reflexivity].
    apply Nat.eqb_eq in E5. lia.
Qed.

Lemma C_labelBoundary_spec (st : state) (w : list Z) :
  needle_rem st w ->
  labelBoundary st (Num (Z.of_nat (length w))) = boundary w.
Proof.
  intros [_ Hrem]. unfold labelBoundary. destruct w as [|c w].
  - reflexivity.
  - rewrite jeq_Num.
    destruct (Z.of_nat (length (c :: w)) =? 0) eqn:E;
      [apply Z.eqb_eq in E; cbn [length] in E; lia|].
    cbn [orb jsub]. pose proof (Hrem O ltac:(cbn; lia)) as H0.
    rewrite Z.sub_0_r in H0. rewrite H0. reflexivity.
Qed.

(** The loop of [matchesJS] computes [walk]. *)
Lemma C_matchesJS_loop_walk (st : state) :
  0 <= CHAR0 st -> CHAR1 st <= byteLength (buf st) ->
  TRIE1 st <= byteLength (buf st) ->
  forall (fuel : nat) (u : tr) (w : list Z),
    (Trie.size u < fuel)%nat ->
    shape 68 (buf st) (CHAR0 st) (CHAR1 st) (TRIE1 st) u -> wf u ->
    is_seg u = true -> needle_rem st w ->
    matchesJS_loop fuel st (Num (CHAR0 st)) (Num (ptr u))
      (Num (Z.of_nat (length w)))
    = Some (Num (walk u w)).
Proof.
  intros H0 H1 Ht n.
  induction n as [|n IH]; intros u w Hfuel Hsh Hwf Hsg Hrem; [lia|].
  destruct w as [|c w0].
  { destruct u; try discriminate. reflexivity. }
  set (w := c :: w0) in *.
  assert (Hlw : (1 <= length w <= 255)%nat).
  { destruct Hrem as [Hl _]. subst w. cbn [length] in *. lia. }
  cbn [matchesJS_loop]. rewrite jeq_Num.
  destruct (Z.of_nat (length w) =? 0) eqn:E0; [apply Z.eqb_eq in E0; lia|].
  cbn [jsub].
  pose proof (proj2 Hrem O ltac:(lia)) as Hw0.
  rewrite Z.sub_0_r in Hw0. rewrite Hw0.
  change (nth 0 w 0) with c.
  rewrite (C_matchesJS_find_spec st c u H0 H1 Ht Hsh Hwf Hsg n) by lia.
  assert (Hnb : is_bnd u = false) by (destruct u; try discriminate; reflexivity).
  rewrite (walk_find_head u c w0 Hwf Hnb : walk u w = walk (find_head u c) w).
  destruct (find_head_sub 68 (buf st) (CHAR0 st) (CHAR1 st) (TRIE1 st) c u Hsh Hwf)
    as (Lsh & Lwf & Lsz & Lhd).
  destruct (find_head u c) as [|cc off s d r|]; [reflexivity| |destruct Lhd].
  cbn [shape] in Lsh.
  destruct Lsh as (Hc & Hct & Fd & Fr & Fs & Hls & Hoff & Hend & Hb & Hd & Hr).
  cbn [wf] in Lwf. destruct Lwf as (Hs & Hbd & Hhd & Hwd & Hwr).
  cbn [Trie.size] in Lsz.
  assert (Hls1 : (1 <= length s)%nat) by (destruct s; [congruence|cbn; lia]).
  assert (Hseg : seg_at st off s) by (apply C_shape_seg_at; assumption || lia).
  rewrite seg_word_len by lia.
  assert (Hl1 : (1 <= lcp s w)%nat).
  { apply lcp_pos; [exact Hs|discriminate|].
    rewrite <- !hd_nth0. rewrite Lhd. reflexivity. }
  pose proof (lcp_le_l s w) as Ll. pose proof (lcp_le_r s w) as Lr.
  match goal with
  | |- match ?X with Some _ => _ | None => _ end = _ =>
      assert (Hrest :
        X = Some (if (lcp s w =? length s)%nat
                  then Some (Num (Z.of_nat (length w)
                                  - Z.of_nat (length s)))
                  else None))
  end.
  { cbn [jgt jlt jsub jadd ToUint32].
    destruct (1 <? Z.of_nat (length s)) eqn:E1.
    - apply Z.ltb_lt in E1.
      destruct (Z.of_nat (length w) - 1 <? Z.of_nat (length s) - 1) eqn:E2.
      + apply Z.ltb_lt in E2.
        destruct (lcp s w =? length s)%nat eqn:E3; [|reflexivity].
        apply Nat.eqb_eq in E3. lia.
      + apply Z.ltb_ge in E2.
        rewrite Z.mod_small by lia.
        replace (CHAR0 st + off + 1 + (Z.of_nat (length s) - 1))
          with (CHAR0 st + off + Z.of_nat (length s)) by lia.
        change 1 with (Z.of_nat 1) at 2 3.
        apply (C_matchesJS_cmp_spec st off s w Hseg Hrem); lia.
    - apply Z.ltb_ge in E1.
      assert (El : lcp s w = length s) by lia.
      rewrite El, Nat.eqb_refl. do 3 f_equal. lia. }
  rewrite Hrest. clear Hrest.
  rewrite walk_Seg_hd by (subst w; first [discriminate | exact Lhd]).
  destruct (lcp s w =? length s)%nat eqn:E3; [|reflexivity].
  apply Nat.eqb_eq in E3.
  pose proof (lcp_full_split s w E3) as Ew.
  set (w' := skipn (length s) w) in *.
  assert (Hrem' : needle_rem st w').
  { apply (C_needle_rem_app st s). rewrite <- Ew. exact Hrem. }
  assert (Hlw' : Z.of_nat (length w) - Z.of_nat (length s)
                 = Z.of_nat (length w')).
  { rewrite Ew at 1. rewrite length_app. lia. }
  rewrite Hlw'.
  cbn [jadd]. unfold read32. rewrite !get32_fld by lia. rewrite Fr.
  rewrite jeq_Num.
  destruct (ptr r =? 0) eqn:E4.
  - rewrite (C_shape_ptr_Nil st r Hr E4).
    rewrite (C_labelBoundary_spec st w' Hrem').
    destruct (boundary w'); reflexivity.
  - destruct r as [|rc roff rs rd rr|rc rr]; [discriminate| |].
    + pose proof Hr as Hr0. cbn [shape] in Hr.
      destruct Hr as (Hrc & Hrt & _ & _ & Frs & Hrl & Hro & _).
      pose proof Hwr as Hwr0. cbn [wf] in Hwr. destruct Hwr as (Hrs & _).
      assert ((1 <= length rs)%nat) by (destruct rs; [congruence|cbn; lia]).
      cbn [ptr jadd]. rewrite get32_fld by lia. rewrite Frs, jeq_Num.
      destruct (Z.of_nat (length rs) * 2 ^ 24 + roff =? 0) eqn:E5;
        [apply Z.eqb_eq in E5; lia|].
      apply (IH (Seg rc roff rs rd rr) w');
        first [assumption | reflexivity | (cbn [Trie.size] in *; lia)].
    + cbn [shape] in Hr. destruct Hr as (Hrc & Hrt & _ & Frr & Frs & Hrr).
      cbn [wf] in Hwr. destruct Hwr as (Hrsg & Hwrr).
      cbn [ptr jadd]. rewrite !get32_fld by lia. rewrite Frs, Frr, jeq_Num.
      cbn [Z.eqb].
      rewrite (C_labelBoundary_spec st w' Hrem').
      cbn [walk]. destruct (boundary w'); [reflexivity|].
      apply IH; try assumption. cbn [Trie.size] in *. lia.
Qed.

(** [matchesJS] on a state that holds the trie [t]. *)
Lemma C_matchesJS_walk (st : state) (t : tr) (fuel : nat) :
  trie_at st t -> (Trie.size t < fuel)%nat ->
  matchesJS fuel st (Num (ptr t))
  = Some (Num (walk t (key (needle st)))).
Proof.
  intros (G & Nok & Hsh & Hwf & Hsg) Hfuel.
  destruct G as (G1 & G2 & G3 & G4 & G5 & G6).
  unfold matchesJS.
  rewrite read_CHAR0 by lia.
  rewrite C_read_NEEDLE_LEN by (assumption || lia).
  apply C_matchesJS_loop_walk; try assumption; try lia.
  apply C_needle_ok_rem; [lia|exact Nok].
Qed.

End CMatch.

Section WalkSpec.
Import Trie.

Lemma walk_range (t : tr) : forall w, walk t w = -1 \/ 0 <= walk t w.
Proof.
  induction t as [|c off s d IHd r IHr|c r IHr]; intros w.
  - left. reflexivity.
  - cbn [walk]. destruct w as [|a w]; [left; reflexivity|].
    destruct (hd 0 s =? a); [|apply IHd].
    destruct (lcp s (a :: w) =? length s)%nat; [|left; reflexivity].
    destruct r as [|rc roff rs rd rr|rc rr]; try apply IHr.
    destruct (boundary _); [right; lia|left; reflexivity].
  - cbn [walk]. destruct (boundary w); [right; lia|apply IHr].
Qed.

Lemma rest_strs_seg (t : tr) :
  is_seg t = true -> rest_strs strs t = strs t.
Proof. destruct t; try discriminate. reflexivity. Qed.

(** A result that is not negative comes from a stored hostname that ends
    at a label boundary of the query. *)
Lemma walk_sound (t : tr) :
  wf t -> forall w, 0 <= walk t w ->
  exists h x,
    In h (rest_strs strs t) /\ w = h ++ x
    /\ walk t w = Z.of_nat (length x) /\ boundary x = true.
Proof.
  induction t as [|c off s d IHd r IHr|c r IHr]; intros Hwf w Hk.
  - cbn [walk] in Hk. lia.
  - cbn [wf] in Hwf. destruct Hwf as (Hs & Hbd & Hhd & Hwd & Hwr).
    destruct w as [|a w]; [cbn [walk] in Hk; lia|].
    cbn [walk] in Hk |- *. cbn [rest_strs strs].
    destruct (hd 0 s =? a) eqn:E.
    + destruct (lcp s (a :: w) =? length s)%nat eqn:E1; [|lia].
      apply Nat.eqb_eq in E1.
      pose proof (lcp_full_split s (a :: w) E1) as Ew.
      set (w' := skipn (length s) (a :: w)) in *.
      assert (Hr : exists y x, In y (rest_strs strs r) /\ w' = y ++ x
                   /\ match r with
                      | Nil => if boundary w' then Z.of_nat (length w')
                               else -1
                      | _ => walk r w'
                      end = Z.of_nat (length x)
                   /\ boundary x = true).
      { destruct r as [|rc roff rs rd rr|rc rr].
        - destruct (boundary w') eqn:Eb; [|lia].
          exists [], w'. cbn [rest_strs In app]. tauto.
        - apply (IHr Hwr w' Hk).
        - apply (IHr Hwr w' Hk). }
      destruct Hr as (y & x & Hy & Ey & Ek & Hb).
      exists (s ++ y), x. split.
      { apply in_or_app. left. apply in_map. exact Hy. }
      split; [rewrite <- app_assoc, <- Ey; exact Ew|].
      split; [exact Ek|exact Hb].
    + destruct (IHd Hwd (a :: w) Hk) as (h & x & Hh & Ew & Ek & Hb).
      exists h, x. split.
      { apply in_or_app. right.
        destruct d as [|dc doff ds dd dr|dc dr];
          [cbn [walk] in Hk; lia|exact Hh|discriminate]. }
      split; [exact Ew|]. split; [exact Ek|exact Hb].
  - cbn [wf] in Hwf. destruct Hwf as (Hsg & Hwr).
    cbn [walk] in Hk |- *. cbn [rest_strs].
    destruct (boundary w) eqn:Eb.
    + exists [], w. cbn [In app]. tauto.
    + destruct (IHr Hwr w Hk) as (h & x & Hh & Ew & Ek & Hb).
      exists h, x. rewrite (rest_strs_seg r Hsg) in Hh.
      split; [right; exact Hh|]. split; [exact Ew|]. split; [exact Ek|exact Hb].
Qed.

(** Every stored hostname that ends at a label boundary of the query is
    found, the shortest one first. *)
Lemma walk_complete (t : tr) :
  wf t -> t <> Nil ->
  forall h x, In h (rest_strs strs t) -> boundary x = true ->
    Z.of_nat (length x) <= walk t (h ++ x).
Proof.
  induction t as [|c off s d IHd r IHr|c r IHr]; intros Hwf Hn h x Hh Hb.
  - congruence.
  - pose proof Hwf as Hwf0.
    cbn [wf] in Hwf. destruct Hwf as (Hs & Hbd & Hhd & Hwd & Hwr).
    cbn [rest_strs strs] in Hh. apply in_app_or in Hh.
    destruct Hh as [Hh|Hh].
    + apply in_map_iff in Hh. destruct Hh as (y & <- & Hy).
      rewrite <- app_assoc.
      rewrite walk_Seg_hd;
        [|destruct s; [congruence|discriminate]
         |symmetry; apply hd_app; exact Hs].
      rewrite lcp_app, Nat.eqb_refl.
      rewrite drop_app_length.
      destruct r as [|rc roff rs rd rr|rc rr].
      * destruct Hy as [<-|[]]. cbn [app]. rewrite Hb. lia.
      * apply IHr; [exact Hwr|discriminate|exact Hy|exact Hb].
      * apply IHr; [exact Hwr|discriminate|exact Hy|exact Hb].
    + assert (Hh0 : h <> []) by (apply (strs_nonempty d); assumption).
      assert (Hhd' : hd 0 s <> hd 0 (h ++ x)).
      { rewrite hd_app by exact Hh0. intros E. apply Hhd. rewrite E.
        apply strs_heads; assumption. }
      destruct (h ++ x) as [|a w] eqn:Ew.
      { destruct h; [congruence|discriminate]. }
      cbn [walk]. cbn [hd] in Hhd'.
      destruct (hd 0 s =? a) eqn:E; [apply Z.eqb_eq in E; congruence|].
      rewrite <- Ew.
      destruct d as [|dc doff ds dd dr|dc dr]; [destruct Hh| |discriminate].
      apply IHd; [exact Hwd|discriminate|exact Hh|exact Hb].
  - cbn [wf] in Hwf. destruct Hwf as (Hsg & Hwr).
    cbn [walk]. cbn [rest_strs] in Hh.
    destruct (boundary (h ++ x)) eqn:Eb.
    + rewrite length_app. lia.
    + destruct Hh as [<-|Hh]; [cbn [app] in Eb; congruence|].
      apply IHr; [exact Hwr|destruct r; [discriminate|congruence|congruence]
                 | |exact Hb].
      rewrite (rest_strs_seg r Hsg). exact Hh.
Qed.

End WalkSpec.

Section CQuery.
Import Trie Container ContainerInv.

(** [matchesJS] on a trie filled by [fromIterable] with at least one
    hostname: the answer is the number of bytes in front of the shortest
    stored hostname that ends the query at a label boundary, or -1 when
    there is none. *)
Theorem Container_matchesJS_build (hs : list jsstring) (q : jsstring)
    (fuel : nat) :
  Z.of_nat (length hs) <= 65536 -> (2 * length hs + 2 <= fuel)%nat ->
  (exists h, In h hs /\ key h <> []) ->
  exists k,
    query fuel hs q = Some (Num k)
    /\ (k = -1 \/ 0 <= k)
    /\ (0 <= k ->
        exists h x, In h hs /\ key h <> [] /\ key q = key h ++ x
                    /\ boundary x = true /\ k = Z.of_nat (length x))
    /\ (forall h x, In h hs -> key h <> [] -> key q = key h ++ x ->
          boundary x = true -> Z.of_nat (length x) <= k).
Proof.
  intros Hl Hf (h0 & Hh0 & Hk0). unfold query, build.
  destruct C_create_fresh_inv as [Hr Hi0].
  destruct (create fresh) as [r0 st0]. cbn [fst snd] in Hr, Hi0.
  destruct (C_add_all_inv 68 fuel hs r0 0 st0 [] Hr Hi0)
    as (r & st & E & Hr' & Hi & _); try lia.
  rewrite E. cbn [app] in Hi. rewrite Z.add_0_l in Hi.
  unfold ref_matchesJS. cbn [fst]. rewrite Hr'.
  destruct (C_setNeedle_inv _ q st 68 _ Hi) as (Hi1 & N1 & T1).
  destruct Hi1 as (Se & Wi & Nok & [(_ & _ & _ & _ & _ & _ & _ & Hws)|
                                    (t & P & Sg & Sh & W & Ar & Sz & St & Br & Lo)]).
  { exfalso. apply Hk0. apply Hws. apply in_map. exact Hh0. }
  pose proof (C_settled_geom _ _ Se Wi ltac:(lia)) as G.
  assert (Ht : trie_at (setNeedle q st) t).
  { split; [exact G|]. split; [exact Nok|]. split; [exact Sh|].
    split; [exact W|exact Sg]. }
  rewrite <- P. rewrite (C_matchesJS_walk _ t fuel Ht) by lia.
  rewrite N1. exists (walk t (key q)).
  split; [reflexivity|]. split; [apply walk_range|].
  split.
  - intros Hk.
    destruct (walk_sound t W (key q) Hk) as (h & x & Hh & Ew & Ek & Hb).
    rewrite (rest_strs_seg t Sg) in Hh. apply St in Hh.
    destruct Hh as [Hh Hne]. apply in_map_iff in Hh.
    destruct Hh as (h' & <- & Hh').
    exists h', x. tauto.
  - intros h x Hh Hne Ew Hb. rewrite Ew.
    apply walk_complete; [exact W|destruct t; [discriminate|congruence..]
                         | |exact Hb].
    rewrite (rest_strs_seg t Sg). apply St.
    split; [apply in_map; exact Hh|exact Hne].
Qed.

(** The answers do not depend on the order of insertion. *)
Theorem Container_matchesJS_order (hs hs' : list jsstring) (q : jsstring)
    (fuel : nat) :
  (forall h, In h hs <-> In h hs') ->
  Z.of_nat (length hs) <= 65536 -> (2 * length hs + 2 <= fuel)%nat ->
  Z.of_nat (length hs') <= 65536 -> (2 * length hs' + 2 <= fuel)%nat ->
  (exists h, In h hs /\ key h <> []) ->
  query fuel hs q = query fuel hs' q.
Proof.
  intros Hsame Hl Hf Hl' Hf' Hne.
  assert (Hne' : exists h, In h hs' /\ key h <> []).
  { destruct Hne as (h & Hh & Hk). exists h. split; [apply Hsame; exact Hh|].
    exact Hk. }
  destruct (Container_matchesJS_build hs q fuel Hl Hf Hne)
    as (k & E & Rk & Sk & Ck).
  destruct (Container_matchesJS_build hs' q fuel Hl' Hf' Hne')
    as (k' & E' & Rk' & Sk' & Ck').
  rewrite E, E'. do 2 f_equal.
  assert (A : 0 <= k -> k <= k').
  { intros Hk. destruct (Sk Hk) as (h & x & Hh & Hn & Ew & Hb & ->).
    apply (Ck' h x); try assumption. apply Hsame. exact Hh. }
  assert (B : 0 <= k' -> k' <= k).
  { intros Hk. destruct (Sk' Hk) as (h & x & Hh & Hn & Ew & Hb & ->).
    apply (Ck h x); try assumption. apply Hsame. exact Hh. }
  lia.
Qed.

Lemma key_plain (h : jsstring) : plain h -> key h = rev h.
Proof.
  intros [Hl Hc]. unfold key, needle_bytes. f_equal.
  rewrite firstn_all2 by lia.
  induction Hc as [|a h Ha Hc IH]; [reflexivity|].
  cbn [map]. rewrite Z.mod_small by lia. f_equal. apply IH.
  cbn [length] in Hl. lia.
Qed.

Lemma rev_eq_app (q h x : list Z) :
  rev q = rev h ++ x -> q = rev x ++ h.
Proof.
  intros E. rewrite <- (rev_involutive q), E, rev_app_distr, rev_involutive.
  reflexivity.
Qed.

(** On hostnames of at most 254 characters, all below 256, and none of
    them empty: the answer is not negative exactly when some stored
    hostname matches the query, and it is then the offset in the query of
    a stored hostname that starts the query or follows a dot. *)
Theorem Container_matchesJS_label_match (hs : list jsstring) (q : jsstring)
    (fuel : nat) :
  Z.of_nat (length hs) <= 65536 -> (2 * length hs + 2 <= fuel)%nat ->
  hs <> [] -> (forall h, In h hs -> plain h /\ h <> []) -> plain q ->
  exists k,
    query fuel hs q = Some (Num k)
    /\ (k = -1 \/ 0 <= k)
    /\ (0 <= k <-> some_match hs q)
    /\ (0 <= k ->
        In (suffix_from k q) hs
        /\ (k = 0 \/ nth (Z.to_nat (k - 1)) q 0 = 46)).
Proof.
  intros Hl Hf Hne Hpl Hq.
  assert (Hkey : forall h, In h hs -> key h = rev h /\ key h <> []).
  { intros h Hh. destruct (Hpl h Hh) as [Hp Hn].
    rewrite (key_plain h Hp). split; [reflexivity|].
    intros E. apply Hn. rewrite <- (rev_involutive h), E. reflexivity. }
  assert (Hne' : exists h, In h hs /\ key h <> []).
  { destruct hs as [|h hs']; [congruence|]. exists h.
    split; [left; reflexivity|]. apply Hkey. left. reflexivity. }
  destruct (Container_matchesJS_build hs q fuel Hl Hf Hne')
    as (k & E & Rk & Sk & Ck).
  rewrite (key_plain q Hq) in Sk, Ck.
  assert (Hsound : 0 <= k ->
            exists h x, In h hs /\ q = rev x ++ h /\ boundary x = true
                        /\ k = Z.of_nat (length x)).
  { intros Hk. destruct (Sk Hk) as (h & x & Hh & Hn & Ew & Hb & Ek).
    rewrite (proj1 (Hkey h Hh)) in Ew.
    exists h, x. split; [exact Hh|]. split; [apply rev_eq_app; exact Ew|].
    split; [exact Hb|exact Ek]. }
  exists k. split; [exact E|]. split; [exact Rk|]. split; [split|].
  - intros Hk. destruct (Hsound Hk) as (h & x & Hh & Eq & Hb & Ek).
    exists h. split; [exact Hh|].
    destruct x as [|a x]; [left; exact Eq|]. right.
    cbn [boundary] in Hb. apply Z.eqb_eq in Hb. subst a.
    exists (rev x). rewrite Eq. cbn [rev]. rewrite <- app_assoc. reflexivity.
  - intros (h & Hh & Hm).
    destruct (Hkey h Hh) as [Kh Kn].
    destruct Hm as [->|[p ->]].
    + pose proof (Ck h [] Hh Kn) as C. rewrite Kh, app_nil_r in C.
      specialize (C eq_refl eq_refl). cbn [length] in C. lia.
    + pose proof (Ck h (46 :: rev p) Hh Kn) as C. rewrite Kh in C.
      rewrite rev_app_distr in C. cbn [rev] in C. rewrite <- app_assoc in C.
      specialize (C eq_refl eq_refl). lia.
  - intros Hk. destruct (Hsound Hk) as (h & x & Hh & Eq & Hb & Ek).
    assert (Ex : Z.to_nat k = length (rev x)) by (rewrite length_rev; lia).
    split.
    + unfold suffix_from. rewrite Ex, Eq.
      rewrite drop_app_length. exact Hh.
    + destruct x as [|a x]; [left; cbn [length] in Ek; lia|]. right.
      cbn [boundary] in Hb. apply Z.eqb_eq in Hb. subst a.
      rewrite Eq. cbn [rev]. rewrite <- app_assoc.
      replace (Z.to_nat (k - 1)) with (length (rev x))
        by (rewrite length_rev; cbn [length] in Ek; lia).
      rewrite app_nth2 by lia. rewrite Nat.sub_diag. reflexivity.
Qed.

End CQuery.

Lemma Container_addJS_is_idempotent_witness :
  ContainerInv.trie_at example_container example_container_trie
  /\ ContainerInv.stored example_container_trie (js "example.com")
  /\ (Trie.size example_container_trie <= fuel)%nat
  /\ exists st',
       Container.addJS fuel (Num 68)
         (Container.setNeedle (js "example.com") example_container)
       = Ret (Num 0) st'
       /\ ContainerInv.TRIE1 st' = ContainerInv.TRIE1 example_container
       /\ Trie.shape 68 (Container.buf st') (ContainerInv.CHAR0 st')
            (ContainerInv.CHAR1 st') (ContainerInv.TRIE1 st')
            example_container_trie.
Proof.
  assert (H1 : ContainerInv.trie_at example_container example_container_trie).
  { unfold ContainerInv.trie_at, ContainerInv.geom, ContainerInv.needle_ok.
    cbn [Trie.shape Trie.wf example_container_trie Trie.heads Trie.is_bnd
         Trie.is_seg In Trie.ptr].
    repeat split;
      try (apply Z.leb_le; vm_compute; reflexivity);
      try (apply Z.ltb_lt; vm_compute; reflexivity);
      try (apply Nat.leb_le; vm_compute; reflexivity);
      try (vm_compute; reflexivity);
      try (vm_compute; discriminate);
      try tauto. }
  assert (H2 : ContainerInv.stored example_container_trie (js "example.com")).
  { vm_compute. left. reflexivity. }
  assert (H3 : (Trie.size example_container_trie <= fuel)%nat)
    by (apply Nat.leb_le; vm_compute; reflexivity).
  split; [exact H1|]. split; [exact H2|]. split; [exact H3|].
  exact (Container_addJS_is_idempotent example_container
           example_container_trie (js "example.com") fuel H1 H2 H3).
Defined.

Lemma C4_add_is_idempotent_witness :
  ManagerInv.trie_at example_state example_trie
  /\ ManagerInv.stored example_trie (js "sub.example.com")
  /\ (Trie.size example_trie <= fuel)%nat
  /\ exists st',
       Manager.add fuel (Num 64)
         (Manager.setNeedle (js "sub.example.com") example_state)
       = Ret (Num 0) st'
       /\ Manager.trie1 st' = Manager.trie1 example_state
       /\ Trie.shape 64 (Manager.buf st') (Manager.char0 st') (Manager.char1 st')
            (Manager.trie1 st') example_trie.
Proof.
  assert (H1 : ManagerInv.trie_at example_state example_trie).
  { unfold ManagerInv.trie_at, ManagerInv.geom, ManagerInv.needle_ok.
    cbn [Trie.shape Trie.wf example_trie Trie.heads Trie.is_bnd Trie.is_seg
         In Trie.ptr].
    repeat split;
      try (apply Z.leb_le; vm_compute; reflexivity);
      try (apply Z.ltb_lt; vm_compute; reflexivity);
      try (apply Nat.leb_le; vm_compute; reflexivity);
      try (vm_compute; reflexivity);
      try (vm_compute; discriminate);
      try tauto. }
  assert (H2 : ManagerInv.stored example_trie (js "sub.example.com")).
  { vm_compute. right. left. reflexivity. }
  assert (H3 : (Trie.size example_trie <= fuel)%nat)
    by (apply Nat.leb_le; vm_compute; reflexivity).
  split; [exact H1|]. split; [exact H2|]. split; [exact H3|].
  exact (C4_add_is_idempotent example_state example_trie
           (js "sub.example.com") fuel H1 H2 H3).
Defined.

(** ** The iterator of the container on a well-formed trie *)

Section CIter.
Import Trie Container ContainerInv.

Lemma rest_strs_nonempty (r : tr) :
  (is_seg r = true -> strs r <> []) -> rest_strs strs r <> [].
Proof.
  destruct r as [|c off s d r'|c r']; cbn [rest_strs]; intros H.
  - discriminate.
  - apply H. reflexivity.
  - discriminate.
Qed.

(** Every chain stores a hostname. *)
Lemma strs_seg_nonempty (t : tr) : is_seg t = true -> strs t <> [].
Proof.
  induction t as [|c off s d IHd r IHr|c r IHr]; intros Hsg;
    try discriminate.
  cbn [strs]. pose proof (rest_strs_nonempty r IHr) as Hr.
  destruct (rest_strs strs r); [congruence|discriminate].
Qed.

Lemma firstn_snoc (p : list Z) (k : nat) :
  (k < length p)%nat -> firstn (S k) p = firstn k p ++ [nth k p 0].
Proof.
  revert k. induction p as [|a p IH]; intros k Hk; [cbn in Hk; lia|].
  destruct k as [|k]; [reflexivity|].
  cbn [length] in Hk. cbn [firstn nth app]. f_equal.
  change (firstn (S k) p = firstn k p ++ [nth k p 0]). apply IH. lia.
Qed.

Lemma held_bytes_from (cb : ArrayBuffer) (p : list Z) :
  held cb p ->
  bytes_from cb (256 - Z.of_nat (length p)) (length p) = rev p.
Proof.
  intros (_ & _ & H).
  assert (G : forall k : nat, (k <= length p)%nat ->
            bytes_from cb (256 - Z.of_nat k) k = rev (firstn k p)).
  { induction k as [|k IH]; intros Hk; [reflexivity|].
    cbn [bytes_from]. rewrite firstn_snoc by lia.
    rewrite rev_app_distr. cbn [rev app]. f_equal.
    - rewrite <- (H k) by lia. do 2 f_equal. lia.
    - replace (256 - Z.of_nat (S k) + 1) with (256 - Z.of_nat k) by lia.
      apply IH. lia. }
  rewrite G by lia. rewrite firstn_all. reflexivity.
Qed.

Lemma held_prefix (cb : ArrayBuffer) (p x : list Z) :
  held cb (p ++ x) -> held cb p.
Proof.
  intros (H1 & H2 & H3). rewrite length_app in H2.
  split; [exact H1|]. split; [lia|].
  intros i Hi. rewrite (H3 i) by (rewrite length_app; lia).
  apply app_nth1. exact Hi.
Qed.

(** The copy of a segment, lines 1998-2002. *)
Lemma C_next_copy_spec (st : state) :
  forall (s : list Z) (a : Z) (p : list Z) (cb : ArrayBuffer) (k : nat),
    (forall x : nat, (x < length s)%nat ->
       read8 st (Num (a + Z.of_nat x)) = Num (nth x s 0)) ->
    Forall (fun c => 0 <= c < 256) s ->
    held cb p -> (length p + length s <= 256)%nat -> (length s <= k)%nat ->
    exists cb',
      next_copy k st (Num a) (Num (a + Z.of_nat (length s))) cb
        (Num (256 - Z.of_nat (length p)))
      = (cb', Num (256 - Z.of_nat (length (p ++ s))))
      /\ held cb' (p ++ s).
Proof.
  induction s as [|c s IH]; intros a p cb k Hrd Hby Hh Hl Hk.
  - exists cb. rewrite app_nil_r. split; [|exact Hh].
    cbn [length]. rewrite Z.add_0_r.
    destruct k as [|k]; [reflexivity|].
    cbn [next_copy jlt]. rewrite Z.ltb_irrefl. reflexivity.
  - cbn [length] in Hl, Hk. destruct k as [|k]; [lia|].
    cbn [next_copy jlt length].
    destruct (a <? a + Z.of_nat (S (length s))) eqn:E;
      [|apply Z.ltb_ge in E; lia].
    cbn [jsub jadd].
    pose proof (Hrd O ltac:(cbn [length]; lia)) as H0.
    rewrite Z.add_0_r in H0. rewrite H0. cbn [nth].
    inversion Hby as [|c' s' Hc Hs Ecs]. subst c' s'.
    destruct Hh as (B1 & B2 & B3).
    set (cb1 := set8 cb (Num (256 - Z.of_nat (length p) - 1)) (Num c)).
    assert (Hh1 : held cb1 (p ++ [c])).
    { subst cb1. unfold set8, in_range. rewrite B1.
      destruct (0 <=? 256 - Z.of_nat (length p) - 1) eqn:E1;
        [|apply Z.leb_gt in E1; lia].
      destruct (256 - Z.of_nat (length p) - 1 <? 256) eqn:E2;
        [|apply Z.ltb_ge in E2; lia].
      cbn [andb]. split; [reflexivity|].
      split; [rewrite length_app; cbn [length]; lia|].
      intros i Hi. rewrite length_app in Hi. cbn [length] in Hi.
      cbn [byte ToUint8].
      destruct (255 - Z.of_nat i =? 256 - Z.of_nat (length p) - 1) eqn:E3.
      - apply Z.eqb_eq in E3. assert (i = length p) by lia. subst i.
        rewrite app_nth2 by lia. rewrite Nat.sub_diag. cbn [nth].
        rewrite Z.mod_mod by lia. apply Z.mod_small. lia.
      - apply Z.eqb_neq in E3. rewrite app_nth1 by lia. apply B3. lia. }
    destruct (IH (a + 1) (p ++ [c]) cb1 k) as (cb' & E' & Hh').
    + intros x Hx. specialize (Hrd (S x) ltac:(cbn [length]; lia)).
      cbn [nth] in Hrd. rewrite <- Hrd. do 2 f_equal. lia.
    + exact Hs.
    + exact Hh1.
    + rewrite length_app. cbn [length]. lia.
    + lia.
    + exists cb'. rewrite <- app_assoc in E', Hh'. cbn [app] in E', Hh'.
      split; [|exact Hh'].
      replace (a + Z.of_nat (S (length s)))
        with (a + 1 + Z.of_nat (length s)) by lia.
      replace (256 - Z.of_nat (length p) - 1)
        with (256 - Z.of_nat (length (p ++ [c])))
        by (rewrite length_app; cbn [length]; lia).
      exact E'.
Qed.

Lemma chain_app (p x : list Z) (stk : list (tr * list Z)) :
  chain p stk -> chain (p ++ x) stk.
Proof.
  destruct stk as [|[d pd] stk]; [trivial|].
  cbn [chain]. intros [[y ->] H]. split; [|exact H].
  exists (y ++ x). rewrite app_assoc. reflexivity.
Qed.

Lemma C_node_right (st : state) (n : nat) (c off : Z) (s : list Z)
    (d r : tr) :
  node st n (Seg c off s d r) -> is_seg r = true -> node st n r.
Proof.
  intros (_ & Hsh & Hwf & Hsz) Hsg. cbn [shape] in Hsh. cbn [wf] in Hwf.
  cbn [Trie.size] in Hsz. split; [exact Hsg|]. split; [tauto|].
  split; [tauto|lia].
Qed.

Lemma C_node_down (st : state) (n : nat) (c off : Z) (s : list Z)
    (d r : tr) :
  node st n (Seg c off s d r) -> d <> Nil -> node st n d.
Proof.
  intros (_ & Hsh & Hwf & Hsz) Hd. cbn [shape] in Hsh. cbn [wf] in Hwf.
  cbn [Trie.size] in Hsz.
  split; [destruct d; [congruence|reflexivity|]|].
  { destruct Hwf as (_ & Hb & _). discriminate. }
  split; [tauto|]. split; [tauto|lia].
Qed.

Lemma seg_bytes_range (b : ArrayBuffer) (a : Z) (n : nat) :
  Forall (fun c => 0 <= c < 256) (bytes_at b a n).
Proof.
  revert a. induction n as [|n IH]; intros a; cbn [bytes_at].
  - constructor.
  - constructor; [|apply IH].
    apply Z.mod_pos_bound. lia.
Qed.

(** One turn of [next] from the cell [cur]: it stops at the end of the
    first hostname still to come. *)
Lemma C_next_loop_spec (st : state) (n : nat) (it : iterator) :
  0 <= CHAR0 st -> CHAR1 st <= byteLength (buf st) ->
  TRIE1 st <= byteLength (buf st) ->
  forall (cur : tr) (p : list Z) (stk : list (tr * list Z))
         (cb : ArrayBuffer) (k : nat),
    node st n cur -> held cb p -> chain p stk ->
    Forall (fun e => node st n (fst e)) stk ->
    Forall (fun y => (length y <= 256)%nat) (pending cur p stk) ->
    (Trie.size cur <= k)%nat ->
    exists cur' p' stk' cb',
      next_loop k st (Num (CHAR0 st)) it (Num (ptr cur)) cb
        (Num (256 - Z.of_nat (length p))) (flat stk)
      = yield it (Num (ptr cur')) cb'
          (Num (256 - Z.of_nat (length p'))) (flat stk')
      /\ held cb' p' /\ chain p' stk'
      /\ (cur' = Nil \/ node st n cur')
      /\ Forall (fun e => node st n (fst e)) stk'
      /\ pending cur p stk = p' :: pending cur' p' stk'.
Proof.
  intros H0 H1 Ht.
  induction cur as [|c off s d IHd r IHr|c r IHr];
    intros p stk cb k Hn Hh Hch Hst Hlen Hk;
    try (destruct Hn as [Hsg _]; discriminate).
  pose proof Hn as (_ & Hsh & Hwf & Hsz).
  cbn [shape] in Hsh.
  destruct Hsh as (Hc & Hct & Fd & Fr & Fs & Hls & Hoff & Hend & Hb & Hd & Hr).
  cbn [wf] in Hwf. destruct Hwf as (Hs & Hbd & Hhd & Hwd & Hwr).
  assert (Hls1 : (1 <= length s)%nat) by (destruct s; [congruence|cbn; lia]).
  assert (Hseg : seg_at st off s) by (apply C_shape_seg_at; assumption || lia).
  destruct k as [|k]; [cbn [Trie.size] in Hk; lia|]. cbn [Trie.size] in Hk.
  cbn [next_loop ptr jadd]. unfold read32.
  rewrite !get32_fld by lia. rewrite Fs, Fd, Fr.
  rewrite seg_word_off, seg_word_len by lia. cbn [jadd].
  (* the stack after the push *)
  set (stk1 := if negb (ptr d =? 0) then (d, p) :: stk else stk).
  assert (Efk : (if jne (Num (ptr d)) 0
                 then Num (256 - Z.of_nat (length p)) :: Num (ptr d)
                      :: flat stk
                 else flat stk) = flat stk1).
  { subst stk1. rewrite jne_Num. destruct (negb (ptr d =? 0)); reflexivity. }
  rewrite Efk. clear Efk.
  assert (Hd0 : (ptr d =? 0) = true -> d = Nil)
    by (apply (C_shape_ptr_Nil st d Hd)).
  assert (Hch1 : chain (p ++ s) stk1).
  { subst stk1. destruct (ptr d =? 0); cbn [negb].
    - apply chain_app. exact Hch.
    - cbn [chain]. split; [exists s; reflexivity|exact Hch]. }
  assert (Hst1 : Forall (fun e => node st n (fst e)) stk1).
  { subst stk1. destruct (ptr d =? 0) eqn:E; cbn [negb]; [exact Hst|].
    constructor; [|exact Hst]. cbn [fst].
    apply (C_node_down st n c off s d r Hn).
    intros ->. cbn [ptr] in E. discriminate. }
  assert (Hpf : pending_forks stk1
                = map (app p) (strs d) ++ pending_forks stk).
  { subst stk1. destruct (ptr d =? 0) eqn:E; cbn [negb]; [|reflexivity].
    rewrite (Hd0 eq_refl). reflexivity. }
  (* the bytes of the segment fit *)
  assert (Hfit : (length p + length s <= 256)%nat).
  { pose proof (rest_strs_nonempty r (strs_seg_nonempty r)) as Hne.
    destruct (rest_strs strs r) as [|y ys] eqn:Ey; [congruence|].
    unfold pending in Hlen. cbn [strs] in Hlen. rewrite Ey in Hlen.
    cbn [map app] in Hlen. inversion Hlen as [|y' l' Hy _]. subst.
    rewrite !length_app in Hy. lia. }
  destruct (C_next_copy_spec st s (CHAR0 st + off) p cb (length s))
    as (cb1 & Ecp & Hh1).
  { intros x Hx. rewrite <- Z.add_assoc. rewrite Z.add_assoc. apply Hseg.
    exact Hx. }
  { rewrite <- Hb. apply seg_bytes_range. }
  { exact Hh. }
  { exact Hfit. }
  { lia. }
  rewrite Nat2Z.id. rewrite Ecp. clear Ecp.
  rewrite !jeq_Num.
  destruct (ptr r =? 0) eqn:E4.
  - (* the hostname ends here and nothing follows *)
    pose proof (C_shape_ptr_Nil st r Hr E4) as ->.
    exists Nil, (p ++ s), stk1, cb1.
    split; [reflexivity|]. split; [exact Hh1|]. split; [exact Hch1|].
    split; [left; reflexivity|]. split; [exact Hst1|].
    unfold pending. cbn [strs rest_strs map app]. rewrite Hpf.
    rewrite app_nil_r. reflexivity.
  - destruct r as [|rc roff rs rd rr|rc rr]; [discriminate| |].
    + (* another segment follows *)
      pose proof Hr as Hr0. cbn [shape] in Hr.
      destruct Hr as (Hrc & Hrt & _ & _ & Frs & Hrl & Hro & _).
      pose proof Hwr as Hwr0. cbn [wf] in Hwr. destruct Hwr as (Hrs & _).
      assert ((1 <= length rs)%nat) by (destruct rs; [congruence|cbn; lia]).
      cbn [ptr jadd]. rewrite get32_fld by lia. rewrite Frs, jeq_Num.
      destruct (Z.of_nat (length rs) * 2 ^ 24 + roff =? 0) eqn:E5;
        [apply Z.eqb_eq in E5; lia|].
      assert (Epend : pending (Seg c off s d (Seg rc roff rs rd rr)) p stk
                      = pending (Seg rc roff rs rd rr) (p ++ s) stk1).
      { unfold pending. rewrite Hpf.
        change (strs (Seg c off s d (Seg rc roff rs rd rr)))
          with (map (app s) (strs (Seg rc roff rs rd rr)) ++ strs d).
        rewrite map_app, map_map, <- app_assoc. f_equal.
        apply map_ext. intros y. rewrite app_assoc. reflexivity. }
      destruct (IHr (p ++ s) stk1 cb1 k)
        as (cur' & p' & stk' & cb' & E' & A1 & A2 & A3 & A4 & A5).
      * apply (C_node_right st n c off s d _ Hn). reflexivity.
      * exact Hh1.
      * exact Hch1.
      * exact Hst1.
      * rewrite <- Epend. exact Hlen.
      * cbn [Trie.size] in *. lia.
      * exists cur', p', stk', cb'. cbn [ptr] in E'.
        split; [exact E'|]. split; [exact A1|]. split; [exact A2|].
        split; [exact A3|]. split; [exact A4|].
        rewrite Epend. exact A5.
    + (* a boundary cell follows: the hostname ends here *)
      cbn [shape] in Hr. destruct Hr as (Hrc & Hrt & _ & Frr & Frs & Hrr).
      cbn [wf] in Hwr. destruct Hwr as (Hrsg & Hwrr).
      cbn [ptr jadd]. rewrite !get32_fld by lia. rewrite Frs, Frr, jeq_Num.
      cbn [Z.eqb].
      exists rr, (p ++ s), stk1, cb1.
      split; [reflexivity|]. split; [exact Hh1|]. split; [exact Hch1|].
      split.
      { right. split; [exact Hrsg|]. split; [exact Hrr|].
        split; [exact Hwrr|]. cbn [Trie.size] in Hsz. lia. }
      split; [exact Hst1|].
      unfold pending. cbn [strs rest_strs map app]. rewrite Hpf.
      rewrite !map_app, map_map. cbn [map]. rewrite app_nil_r.
      rewrite <- app_assoc. cbn [app]. f_equal. f_equal.
      apply map_ext. intros y. rewrite app_assoc. reflexivity.
Qed.

Lemma C_yield_spec (it : iterator) (ic : jsval) (cb : ArrayBuffer)
    (p : list Z) (fk : list jsval) :
  held cb p ->
  yield it ic cb (Num (256 - Z.of_nat (length p))) fk
  = Ret tt (mkIter (Some (rev p)) (done it) ic cb
              (Num (256 - Z.of_nat (length p))) fk).
Proof.
  intros Hh. pose proof Hh as (B1 & B2 & _).
  unfold yield, toHostname. cbn [charPtr charBuf]. rewrite B1.
  destruct (0 <=? 256 - Z.of_nat (length p)) eqn:E1;
    [|apply Z.leb_gt in E1; lia].
  destruct (256 - Z.of_nat (length p) <=? 256) eqn:E2;
    [|apply Z.leb_gt in E2; lia].
  cbn [andb].
  replace (Z.to_nat (256 - (256 - Z.of_nat (length p)))) with (length p)
    by lia.
  rewrite (held_bytes_from cb p Hh). reflexivity.
Qed.

Lemma pending_nil (st : state) (n : nat) (cur : tr) (p : list Z)
    (stk : list (tr * list Z)) :
  (cur = Nil \/ node st n cur) ->
  Forall (fun e => node st n (fst e)) stk ->
  pending cur p stk = [] -> cur = Nil /\ stk = [].
Proof.
  intros Hc Hs E. unfold pending in E. apply app_eq_nil in E.
  destruct E as [E1 E2]. split.
  - destruct Hc as [->|(Hsg & _)]; [reflexivity|].
    apply map_eq_nil in E1. exfalso.
    apply (strs_seg_nonempty cur Hsg E1).
  - destruct stk as [|[d pd] stk]; [reflexivity|].
    inversion Hs as [|e l He _]. subst. cbn [fst] in He.
    destruct He as (Hsg & _). cbn [pending_forks] in E2.
    apply app_eq_nil in E2. destruct E2 as [E2 _].
    apply map_eq_nil in E2. exfalso.
    apply (strs_seg_nonempty d Hsg E2).
Qed.

(** [next] yields the first hostname still to come. *)
Lemma C_next_spec (st : state) (n : nat) (it : iterator) (cur : tr)
    (p : list Z) (stk : list (tr * list Z)) (k : nat)
    (x : list Z) (l : list (list Z)) :
  272 <= byteLength (buf st) ->
  0 <= CHAR0 st -> CHAR1 st <= byteLength (buf st) ->
  TRIE1 st <= byteLength (buf st) ->
  visits st n it cur p stk -> pending cur p stk = x :: l -> (n <= k)%nat ->
  exists it' cur' p' stk',
    next k st it = Ret tt it' /\ value it' = Some (rev x)
    /\ visits st n it' cur' p' stk' /\ pending cur' p' stk' = l.
Proof.
  intros Hbl H0 H1 Ht (V1 & V2 & V3 & V4 & V5 & V6 & V7 & V8 & V9) E Hk.
  unfold next, next_with. rewrite read_CHAR0 by lia.
  rewrite V2, jeq_Num.
  assert (Hgo : forall (cur0 : tr) (p0 : list Z) (stk0 : list (tr * list Z)),
            node st n cur0 -> held (charBuf it) p0 -> chain p0 stk0 ->
            Forall (fun e => node st n (fst e)) stk0 ->
            pending cur0 p0 stk0 = x :: l ->
            exists it' cur' p' stk',
              next_loop k st (Num (CHAR0 st)) it (Num (ptr cur0))
                (charBuf it) (Num (256 - Z.of_nat (length p0))) (flat stk0)
              = Ret tt it' /\ value it' = Some (rev x)
              /\ visits st n it' cur' p' stk'
              /\ pending cur' p' stk' = l).
  { intros cur0 p0 stk0 Hn Hh Hch Hst Ep.
    destruct (C_next_loop_spec st n it H0 H1 Ht cur0 p0 stk0 (charBuf it) k
                Hn Hh Hch Hst)
      as (cur' & p' & stk' & cb' & E' & A1 & A2 & A3 & A4 & A5).
    - rewrite Ep, <- E. exact V9.
    - destruct Hn as (_ & _ & _ & Hsz). lia.
    - rewrite Ep in A5. injection A5 as Ex El. subst p'.
      rewrite (C_yield_spec it _ cb' x _ A1) in E'.
      eexists. exists cur', x, stk'.
      split; [exact E'|]. cbn [value]. split; [reflexivity|].
      split; [|symmetry; exact El].
      unfold visits. cbn [done icell charPtr forks charBuf].
      split; [exact V1|]. split; [reflexivity|]. split; [reflexivity|].
      split; [reflexivity|]. split; [exact A1|]. split; [exact A2|].
      split; [exact A3|]. split; [exact A4|].
      rewrite <- El. rewrite E in V9. inversion V9; assumption. }
  destruct (ptr cur =? 0) eqn:E0.
  - assert (Hcur : cur = Nil).
    { destruct V7 as [->|(_ & Hsh & _)]; [reflexivity|].
      apply (C_shape_ptr_Nil st cur Hsh E0). }
    subst cur. unfold pending in E. cbn [strs map app] in E.
    destruct stk as [|[d pd] stk]; [discriminate|].
    rewrite V4. cbn [flat length]. cbn [Z.eqb Z.of_nat pop].
    inversion V8 as [|e l' Hd Hst']. subst. cbn [fst] in Hd.
    cbn [chain] in V6. destruct V6 as [[y Ey] Hch].
    apply (Hgo d pd stk); try assumption.
    subst p. apply (held_prefix _ pd y). exact V5.
  - rewrite V3, V4.
    destruct V7 as [->|Hn]; [discriminate|].
    apply (Hgo cur p stk); assumption.
Qed.

Lemma C_next_done (st : state) (n : nat) (it : iterator) (cur : tr)
    (p : list Z) (stk : list (tr * list Z)) (k : nat) :
  visits st n it cur p stk -> pending cur p stk = [] ->
  exists it', next k st it = Ret tt it' /\ done it' = true.
Proof.
  intros (V1 & V2 & V3 & V4 & V5 & V6 & V7 & V8 & V9) E.
  destruct (pending_nil st n cur p stk V7 V8 E) as [-> ->].
  unfold next, next_with. rewrite V2, V4. cbn [ptr jeq Z.eqb flat length].
  cbn [Z.of_nat Z.eqb]. eexists. split; reflexivity.
Qed.

(** The loop [for ( const hn of trieRef )] collects the hostnames still
    to come. *)
Lemma C_collect_spec (st : state) (n k : nat) :
  272 <= byteLength (buf st) ->
  0 <= CHAR0 st -> CHAR1 st <= byteLength (buf st) ->
  TRIE1 st <= byteLength (buf st) -> (n <= k)%nat ->
  forall (l : list (list Z)) (calls : nat) (it : iterator) (cur : tr)
         (p : list Z) (stk : list (tr * list Z)),
    visits st n it cur p stk -> pending cur p stk = l ->
    (length l < calls)%nat ->
    exists it',
      collect (next k st) calls it
      = Ret (map (fun y => Some (rev y)) l) it'.
Proof.
  intros Hbl H0 H1 Ht Hk.
  induction l as [|x l IH]; intros calls it cur p stk Hv E Hc.
  - destruct calls as [|calls]; [cbn [length] in Hc; lia|].
    destruct (C_next_done st n it cur p stk k Hv E) as (it' & E' & Hd).
    cbn [collect]. rewrite E'. cbn [bind]. rewrite Hd.
    exists it'. reflexivity.
  - destruct calls as [|calls]; [cbn [length] in Hc; lia|].
    cbn [length] in Hc.
    destruct (C_next_spec st n it cur p stk k x l Hbl H0 H1 Ht Hv E Hk)
      as (it' & cur' & p' & stk' & E' & Hval & Hv' & Ep).
    cbn [collect]. rewrite E'. cbn [bind].
    pose proof Hv' as (Hd & _). rewrite Hd, Hval.
    destruct (IH calls it' cur' p' stk' Hv' Ep ltac:(lia)) as (it2 & E2).
    rewrite E2. cbn [bind map]. exists it2. reflexivity.
Qed.

End CIter.

Section CIterBuild.
Import Trie Container ContainerInv.

Lemma NoDup_map_app (s : list Z) (l : list (list Z)) :
  List.NoDup l -> List.NoDup (map (app s) l).
Proof.
  induction 1 as [|y l Hy Hl IH]; cbn [map]; constructor; [|exact IH].
  intros H. apply in_map_iff in H. destruct H as (z & E & Hz).
  apply app_inv_head in E. subst z. exact (Hy Hz).
Qed.

(** No hostname is stored twice. *)
Lemma strs_NoDup (t : tr) : wf t -> List.NoDup (strs t).
Proof.
  induction t as [|c off s d IHd r IHr|c r IHr]; intros Hwf.
  - constructor.
  - cbn [wf] in Hwf. destruct Hwf as (Hs & Hbd & Hhd & Hwd & Hwr).
    cbn [strs]. apply List.NoDup_app.
    + apply NoDup_map_app.
      destruct r as [|rc roff rs rd rr|rc rr]; cbn [rest_strs].
      * constructor; [intros []|constructor].
      * apply IHr. exact Hwr.
      * constructor; [|apply IHr; exact Hwr].
        intros H. cbn [wf] in Hwr.
        apply (strs_nonempty rr [] (proj2 Hwr) H). reflexivity.
    + apply IHd. exact Hwd.
    + intros x H1 H2. apply in_map_iff in H1. destruct H1 as (y & <- & _).
      apply Hhd. rewrite <- (hd_app s y Hs).
      apply strs_heads; assumption.
  - cbn [strs]. apply IHr. cbn [wf] in Hwf. tauto.
Qed.

Lemma map_app_nil (l : list (list Z)) : map (app []) l = l.
Proof. induction l as [|y l IH]; [reflexivity|]. cbn. f_equal. exact IH. Qed.

(** The iterator on a trie filled by [fromIterable] with at least one
    hostname: it yields the stored hostnames, each of them once, and then
    stops. *)
Theorem Container_iterator_build (hs : list jsstring) (fuel : nat) :
  Z.of_nat (length hs) <= 65536 -> (2 * length hs + 2 <= fuel)%nat ->
  (exists h, In h hs /\ key h <> []) ->
  exists l,
    hostnames next fuel hs = Some (map (fun y => Some (rev y)) l)
    /\ List.NoDup l
    /\ forall y, In y l <-> In y (map key hs) /\ y <> [].
Proof.
  intros Hl Hf (h0 & Hh0 & Hk0). unfold hostnames, build.
  destruct C_create_fresh_inv as [Hr Hi0].
  destruct (create fresh) as [r0 st0]. cbn [fst snd] in Hr, Hi0.
  destruct (C_add_all_inv 68 fuel hs r0 0 st0 [] Hr Hi0)
    as (r & st & E & Hr' & Hi & _); try lia.
  rewrite E. cbn [app] in Hi. rewrite Z.add_0_l in Hi.
  destruct Hi as (Se & Wi & Nok & [(_ & _ & _ & _ & _ & _ & _ & Hws)|
                                   (t & P & Sg & Sh & W & Ar & Sz & St & Br & Lo)]).
  { exfalso. apply Hk0. apply Hws. apply in_map. exact Hh0. }
  pose proof (C_settled_geom _ _ Se Wi ltac:(lia)) as G.
  destruct G as (G1 & G2 & G3 & G4 & G5 & G6).
  pose proof (strs_NoDup t W) as Hnd.
  assert (Hinc : incl (strs t) (map key hs)).
  { intros y Hy. apply St in Hy. tauto. }
  pose proof (NoDup_incl_length Hnd Hinc) as Hlen.
  rewrite length_map in Hlen.
  assert (Hv : visits st (Trie.size t) (iterator_of r) t [] []).
  { unfold visits, iterator_of. cbn [done icell charPtr forks charBuf].
    split; [reflexivity|]. split; [rewrite P; exact Hr'|].
    split; [reflexivity|]. split; [reflexivity|].
    split.
    { split; [reflexivity|]. split; [cbn [length]; lia|].
      intros i Hi. cbn [length] in Hi. lia. }
    split; [exact I|].
    split.
    { right. split; [exact Sg|]. split; [exact Sh|]. split; [exact W|lia]. }
    split; [constructor|].
    unfold pending. cbn [pending_forks]. rewrite app_nil_r, map_app_nil.
    apply List.Forall_forall. intros y Hy. apply Hinc in Hy.
    apply in_map_iff in Hy. destruct Hy as (h & <- & _).
    pose proof (C_key_length h). lia. }
  destruct (C_collect_spec st (Trie.size t) fuel ltac:(lia) ltac:(lia)
              ltac:(lia) ltac:(lia) ltac:(lia)
              (strs t) fuel (iterator_of r) t [] [] Hv)
    as (it' & Ec).
  { unfold pending. cbn [pending_forks]. rewrite app_nil_r.
    apply map_app_nil. }
  { lia. }
  rewrite Ec. exists (strs t).
  split; [reflexivity|]. split; [exact Hnd|]. exact St.
Qed.

Lemma ascii_plain (hn : jsstring) : ascii hn -> plain hn.
Proof.
  intros [Hl Hc]. split; [exact Hl|].
  apply List.Forall_forall. intros c Hin.
  pose proof (proj1 (List.Forall_forall _ _) Hc c Hin) as Hx.
  cbn beta in Hx. lia.
Qed.

(** On ASCII hostnames of at most 254 characters, none of them empty:
    iterating yields the inserted hostnames, each of them once. *)
Theorem Container_iterator_yields_inserted (hs : list jsstring)
    (fuel : nat) :
  Z.of_nat (length hs) <= 65536 -> (2 * length hs + 2 <= fuel)%nat ->
  hs <> [] -> (forall h, In h hs -> ascii h /\ h <> []) ->
  exists l,
    hostnames next fuel hs = Some (map Some l)
    /\ List.NoDup l
    /\ forall h, In h l <-> In h hs.
Proof.
  intros Hl Hf Hne Has.
  assert (Hkey : forall h, In h hs -> key h = rev h /\ key h <> []).
  { intros h Hh. destruct (Has h Hh) as [Hp Hn].
    rewrite (key_plain h (ascii_plain h Hp)). split; [reflexivity|].
    intros E. apply Hn. rewrite <- (rev_involutive h), E. reflexivity. }
  assert (Hne' : exists h, In h hs /\ key h <> []).
  { destruct hs as [|h hs']; [congruence|]. exists h.
    split; [left; reflexivity|]. apply Hkey. left. reflexivity. }
  destruct (Container_iterator_build hs fuel Hl Hf Hne')
    as (l & E & Hnd & Hin).
  exists (map (@rev Z) l). split; [|split].
  - rewrite E. rewrite map_map. reflexivity.
  - clear - Hnd. induction Hnd as [|y l Hy Hnd IH]; cbn [map]; constructor;
      [|exact IH].
    intros H. apply in_map_iff in H. destruct H as (z & Ez & Hz).
    apply Hy. rewrite <- (rev_involutive y), <- Ez, rev_involutive.
    exact Hz.
  - intros h. split.
    + intros H. apply in_map_iff in H. destruct H as (y & <- & Hy).
      apply Hin in Hy. destruct Hy as [Hy _].
      apply in_map_iff in Hy. destruct Hy as (h' & <- & Hh').
      rewrite (proj1 (Hkey h' Hh')), rev_involutive. exact Hh'.
    + intros Hh. apply in_map_iff. exists (key h).
      destruct (Hkey h Hh) as [Kh Kn].
      split; [rewrite Kh; apply rev_involutive|].
      apply Hin. split; [apply in_map; exact Hh|exact Kn].
Qed.

End CIterBuild.

(** ** Further properties of the code *)

Section Checks.
Import Trie Container ContainerInv.

Lemma range_check (lim : Z) (hn : jsstring) :
  forallb (fun c => (0 <=? c) && (c <? lim)) hn = true ->
  Forall (fun c => 0 <= c < lim) hn.
Proof.
  intros H. apply List.Forall_forall. intros c Hc.
  pose proof (proj1 (forallb_forall _ _) H c Hc) as Hx. cbn beta in Hx.
  apply andb_true_iff in Hx. lia.
Qed.

Lemma plain_check (hn : jsstring) :
  (length hn <=? 254)%nat
  && forallb (fun c => (0 <=? c) && (c <? 256)) hn = true ->
  plain hn.
Proof.
  intros H. apply andb_true_iff in H. destruct H as [H1 H2].
  split; [apply Nat.leb_le; exact H1|apply range_check; exact H2].
Qed.

Lemma ascii_check (hn : jsstring) :
  (length hn <=? 254)%nat
  && forallb (fun c => (0 <=? c) && (c <? 128)) hn = true ->
  ascii hn.
Proof.
  intros H. apply andb_true_iff in H. destruct H as [H1 H2].
  split; [apply Nat.leb_le; exact H1|apply range_check; exact H2].
Qed.

End Checks.

Section CSize.
Import Trie Container ContainerInv.

(** [fromIterable] counts the hostnames that were not there yet. *)
Lemma C_add_all_size (root : Z) (fuel : nat) (hns : list jsstring) :
  forall (r : HNBigTrieRef) (n : Z) (st : state) (ws l : list (list Z)),
    iroot r = Num root ->
    inv n st root ws -> 0 <= n ->
    n + Z.of_nat (length hns) <= 65536 ->
    2 * (n + Z.of_nat (length hns)) <= Z.of_nat fuel + 1 ->
    List.NoDup l -> (forall y, In y l <-> In y ws /\ y <> []) ->
    Container.size r = Z.of_nat (length l) ->
    exists r' st' l',
      add_all fuel r hns st = Ret r' st'
      /\ List.NoDup l'
      /\ (forall y, In y l' <-> In y (ws ++ map key hns) /\ y <> [])
      /\ Container.size r' = Z.of_nat (length l').
Proof.
  induction hns as [|hn hns IH]; intros r n st ws l Hr Hi Hn Hl Hf Hnd Hin Hsz.
  - exists r, st, l. split; [reflexivity|]. split; [exact Hnd|].
    cbn [map]. rewrite app_nil_r. split; [exact Hin|exact Hsz].
  - cbn [length] in Hl, Hf. cbn [add_all].
    destruct (C_ref_addJS_inv n st r root ws hn fuel Hr Hi)
      as (a & st1 & E & Hr1 & Hres & Hi1 & _); try lia.
    rewrite E. cbn [bind].
    assert (Hl1 : exists l1,
              List.NoDup l1
              /\ (forall y, In y l1 <-> In y (ws ++ [key hn]) /\ y <> [])
              /\ Container.size (snd a) = Z.of_nat (length l1)).
    { destruct Hres as [(_ & Hs & Hk)|(_ & Hs & Hk & Hnew)].
      - exists l. split; [exact Hnd|]. split; [|rewrite Hs; exact Hsz].
        intros y. rewrite Hin, in_app_iff. cbn [In]. split.
        + intros [H1 H2]. tauto.
        + intros [[H1|[<-|[]]] H2]; [tauto|].
          destruct Hk as [Hk|Hk]; [congruence|tauto].
      - exists (l ++ [key hn]). split.
        + apply List.NoDup_app; [exact Hnd|repeat constructor; intros []|].
          intros y Hy [<-|[]]. apply Hin in Hy. tauto.
        + split.
          * intros y. rewrite !in_app_iff, Hin. cbn [In]. split.
            -- intros [[H1 H2]|[<-|[]]]; tauto.
            -- intros [[H1|[<-|[]]] H2]; tauto.
          * rewrite Hs, Hsz, length_app. cbn [length]. lia. }
    destruct Hl1 as (l1 & Hnd1 & Hin1 & Hsz1).
    destruct (IH (snd a) (n + 1) st1 (ws ++ [key hn]) l1 Hr1 Hi1)
      as (r' & st' & l' & E' & Hnd' & Hin' & Hsz'); try lia; try assumption.
    exists r', st', l'. split; [exact E'|]. split; [exact Hnd'|].
    split; [|exact Hsz'].
    cbn [map]. intros y. rewrite Hin', <- app_assoc. reflexivity.
Qed.

End CSize.

Section ContainerUse.
Import Trie Container ContainerInv.


(** X2 (hnbigtrie.wat, [matchesJS], lines 1581-1622, on a trie filled by
    [fromIterable]). With at least one hostname stored, and hostnames and
    query of at most 254 characters below 256, none of the stored ones
    empty: the answer is -1 or an offset in the query; it is an offset
    exactly when the query equals a stored hostname or ends with a dot
    followed by one; the query from that offset on is a stored hostname,
    and the offset is 0 or follows a dot. *)
Theorem X2_matchesJS_label_semantics (hs : list jsstring) (q : jsstring)
    (fuel : nat) :
  Z.of_nat (length hs) <= 65536 -> (2 * length hs + 2 <= fuel)%nat ->
  hs <> [] -> (forall h, In h hs -> plain h /\ h <> []) -> plain q ->
  exists k,
    query fuel hs q = Some (Num k)
    /\ (k = -1 \/ 0 <= k)
    /\ (0 <= k <-> some_match hs q)
    /\ (0 <= k ->
        In (suffix_from k q) hs
        /\ (k = 0 \/ nth (Z.to_nat (k - 1)) q 0 = 46)).
Proof. exact (Container_matchesJS_label_match hs q fuel). Qed.

(** X3 (hnbigtrie.wat, [addJS] and [matchesJS]). Two lists that hold the
    same hostnames, in any order and with any repetitions, give tries that
    answer every query with the same number. *)
Theorem X3_matchesJS_order_independent (hs hs' : list jsstring)
    (q : jsstring) (fuel : nat) :
  (forall h, In h hs <-> In h hs') ->
  Z.of_nat (length hs) <= 65536 -> (2 * length hs + 2 <= fuel)%nat ->
  Z.of_nat (length hs') <= 65536 -> (2 * length hs' + 2 <= fuel)%nat ->
  (exists h, In h hs /\ key h <> []) ->
  exists k,
    query fuel hs q = Some (Num k) /\ query fuel hs' q = Some (Num k).
Proof.
  intros Hsame Hl Hf Hl' Hf' Hne.
  destruct (Container_matchesJS_build hs q fuel Hl Hf Hne) as (k & E & _).
  exists k. split; [exact E|].
  rewrite <- (Container_matchesJS_order hs hs' q fuel Hsame Hl Hf Hl' Hf' Hne).
  exact E.
Qed.

(** X4 (hnbigtrie.wat, the iterator of lines 1976-2026). On a trie filled
    with ASCII hostnames of at most 254 characters, none of them empty and
    at least one: the iteration ends, and it yields the hostnames that
    were inserted, each of them once. *)
Theorem X4_iterator_yields_inserted (hs : list jsstring) (fuel : nat) :
  Z.of_nat (length hs) <= 65536 -> (2 * length hs + 2 <= fuel)%nat ->
  hs <> [] -> (forall h, In h hs -> ascii h /\ h <> []) ->
  exists l,
    hostnames next fuel hs = Some (map Some l)
    /\ List.NoDup l
    /\ forall h, In h l <-> In h hs.
Proof. exact (Container_iterator_yields_inserted hs fuel). Qed.

(** X6 (hnbigtrie.wat, [HNBigTrieRef.addJS], lines 1953-1959, through
    [fromIterable]). The [size] of the reference that [fromIterable]
    returns is the number of different hostnames given, the empty one not
    counted; hostnames are compared by the bytes [setNeedle] keeps. *)
Theorem X6_size_counts_distinct_hostnames (hs : list jsstring)
    (fuel : nat) :
  Z.of_nat (length hs) <= 65536 -> (2 * length hs + 1 <= fuel)%nat ->
  exists r st l,
    build fuel hs = Ret r st
    /\ List.NoDup l
    /\ (forall y, In y l <-> In y (map key hs) /\ y <> [])
    /\ Container.size r = Z.of_nat (length l).
Proof.
  intros Hl Hf. unfold build.
  destruct C_create_fresh_inv as [Hr Hi0].
  assert (Hs0 : Container.size (fst (create fresh)) = 0) by reflexivity.
  destruct (create fresh) as [r0 st0]. cbn [fst snd] in Hr, Hi0, Hs0.
  destruct (C_add_all_size 68 fuel hs r0 0 st0 [] [] Hr Hi0)
    as (r & st & l & E & Hnd & Hin & Hsz); try lia.
  - constructor.
  - intros y. cbn [In]. tauto.
  - exact Hs0.
  - exists r, st, l. split; [exact E|]. split; [exact Hnd|].
    split; [exact Hin|exact Hsz].
Qed.

End ContainerUse.



Lemma example_com_plain :
  forall h, In h example_com -> ContainerInv.plain h /\ h <> [].
Proof.
  intros h [<-|[<-|[]]]; (split; [|discriminate]);
    apply plain_check; vm_compute; reflexivity.
Defined.

Lemma example_com_ascii :
  forall h, In h example_com -> ContainerInv.ascii h /\ h <> [].
Proof.
  intros h [<-|[<-|[]]]; (split; [|discriminate]);
    apply ascii_check; vm_compute; reflexivity.
Defined.

Lemma X2_matchesJS_label_semantics_witness :
  Z.of_nat (length example_com) <= 65536
  /\ (2 * length example_com + 2 <= fuel)%nat
  /\ example_com <> []
  /\ (forall h, In h example_com -> ContainerInv.plain h /\ h <> [])
  /\ ContainerInv.plain (js "other.example.com")
  /\ exists k,
       Container.query fuel example_com (js "other.example.com")
       = Some (Num k)
       /\ (k = -1 \/ 0 <= k)
       /\ (0 <= k <-> some_match example_com (js "other.example.com"))
       /\ (0 <= k ->
           In (suffix_from k (js "other.example.com")) example_com
           /\ (k = 0
               \/ nth (Z.to_nat (k - 1)) (js "other.example.com") 0 = 46)).
Proof.
  assert (H1 : Z.of_nat (length example_com) <= 65536)
    by (apply Z.leb_le; vm_compute; reflexivity).
  assert (H2 : (2 * length example_com + 2 <= fuel)%nat)
    by (apply Nat.leb_le; vm_compute; reflexivity).
  assert (H3 : example_com <> []) by discriminate.
  assert (H5 : ContainerInv.plain (js "other.example.com"))
    by (apply plain_check; vm_compute; reflexivity).
  split; [exact H1|]. split; [exact H2|]. split; [exact H3|].
  split; [exact example_com_plain|]. split; [exact H5|].
  exact (X2_matchesJS_label_semantics example_com (js "other.example.com")
           fuel H1 H2 H3 example_com_plain H5).
Defined.

Lemma X3_matchesJS_order_independent_witness :
  (forall h, In h example_com <-> In h (rev example_com))
  /\ Z.of_nat (length example_com) <= 65536
  /\ (2 * length example_com + 2 <= fuel)%nat
  /\ Z.of_nat (length (rev example_com)) <= 65536
  /\ (2 * length (rev example_com) + 2 <= fuel)%nat
  /\ (exists h, In h example_com /\ ContainerInv.key h <> [])
  /\ exists k,
       Container.query fuel example_com (js "other.example.com")
       = Some (Num k)
       /\ Container.query fuel (rev example_com) (js "other.example.com")
          = Some (Num k).
Proof.
  assert (H0 : forall h, In h example_com <-> In h (rev example_com))
    by (intros h; apply in_rev).
  assert (H1 : Z.of_nat (length example_com) <= 65536)
    by (apply Z.leb_le; vm_compute; reflexivity).
  assert (H2 : (2 * length example_com + 2 <= fuel)%nat)
    by (apply Nat.leb_le; vm_compute; reflexivity).
  assert (H3 : Z.of_nat (length (rev example_com)) <= 65536)
    by (apply Z.leb_le; vm_compute; reflexivity).
  assert (H4 : (2 * length (rev example_com) + 2 <= fuel)%nat)
    by (apply Nat.leb_le; vm_compute; reflexivity).
  assert (H5 : exists h, In h example_com /\ ContainerInv.key h <> []).
  { exists (js "example.com"). split; [left; reflexivity|].
    vm_compute. discriminate. }
  split; [exact H0|]. split; [exact H1|]. split; [exact H2|].
  split; [exact H3|]. split; [exact H4|]. split; [exact H5|].
  exact (X3_matchesJS_order_independent example_com (rev example_com)
           (js "other.example.com") fuel H0 H1 H2 H3 H4 H5).
Defined.

Lemma X4_iterator_yields_inserted_witness :
  Z.of_nat (length example_com) <= 65536
  /\ (2 * length example_com + 2 <= fuel)%nat
  /\ example_com <> []
  /\ (forall h, In h example_com -> ContainerInv.ascii h /\ h <> [])
  /\ exists l,
       Container.hostnames Container.next fuel example_com
       = Some (map Some l)
       /\ List.NoDup l
       /\ forall h, In h l <-> In h example_com.
Proof.
  assert (H1 : Z.of_nat (length example_com) <= 65536)
    by (apply Z.leb_le; vm_compute; reflexivity).
  assert (H2 : (2 * length example_com + 2 <= fuel)%nat)
    by (apply Nat.leb_le; vm_compute; reflexivity).
  assert (H3 : example_com <> []) by discriminate.
  split; [exact H1|]. split; [exact H2|]. split; [exact H3|].
  split; [exact example_com_ascii|].
  exact (X4_iterator_yields_inserted example_com fuel H1 H2 H3
           example_com_ascii).
Defined.


Lemma X6_size_counts_distinct_hostnames_witness :
  Z.of_nat (length example_com) <= 65536
  /\ (2 * length example_com + 1 <= fuel)%nat
  /\ exists r st l,
       Container.build fuel example_com = Ret r st
       /\ List.NoDup l
       /\ (forall y, In y l
                     <-> In y (map ContainerInv.key example_com) /\ y <> [])
       /\ Container.size r = Z.of_nat (length l).
Proof.
  assert (H1 : Z.of_nat (length example_com) <= 65536)
    by (apply Z.leb_le; vm_compute; reflexivity).
  assert (H2 : (2 * length example_com + 1 <= fuel)%nat)
    by (apply Nat.leb_le; vm_compute; reflexivity).
  split; [exact H1|]. split; [exact H2|].
  exact (X6_size_counts_distinct_hostnames example_com fuel H1 H2).
Defined.

Section CShrink.
Import Trie Container ContainerInv.

Lemma round_up_4 (x : Z) :
  0 <= x < 2 ^ 31 - 4 ->
  let r := band (Num (x + 3)) (Num (bnot 3)) in
  x <= r < x + 4 /\ r mod 4 = 0.
Proof.
  intros Hx. cbn zeta.
  change (Num 3) with (Num (Z.ones 2)).
  rewrite band_bnot_ones by lia.
  change (2 ^ 2) with 4.
  pose proof (Z.div_mod (x + 3) 4 ltac:(lia)).
  pose proof (Z.mod_pos_bound (x + 3) 4 ltac:(lia)).
  split; [lia|]. rewrite Z.mul_comm. apply Z.mod_mul. lia.
Qed.

(** [resizeBuf] on an ordinary buffer, when the size changes: the cells
    and the character data are copied, the latter to [c0]. *)
Lemma C_resizeBuf_spec (st : state) (c0 buf1 : Z) :
  geom st ->
  TRIE1 st <= c0 -> c0 + (CHAR1 st - CHAR0 st) <= buf1 ->
  buf1 <= 2 ^ 31 -> buf1 mod 4 = 0 -> buf1 <> byteLength (buf st) ->
  exists st',
    resizeBuf (Num c0) (Num (c0 + CHAR1 st - CHAR0 st)) (Num buf1) st
    = Ret tt st'
    /\ same_trie st st' /\ wasmMemory st' = wasmMemory st
    /\ CHAR0 st' = c0 /\ byteLength (buf st') = buf1.
Proof.
  intros G Hc0 Hfit Hb31 Hm4 E.
  pose proof G as (H1 & H2 & H3 & H4 & H5 & H6).
  unfold resizeBuf. rewrite jeq_Num.
  destruct (buf1 =? byteLength (buf st)) eqn:E'; [apply Z.eqb_eq in E'; lia|].
  rewrite read_TRIE1, read_CHAR0, read_CHAR1 by lia.
  cbn [jsub]. rewrite H6.
  destruct (buf1 <? 0) eqn:E0; [lia|].
  assert (V1 : view_ok (buf st) 0 (TRIE1 st)
               && set_ok (alloc buf1) (TRIE1 st) 0 = true).
  { unfold view_ok, set_ok. cbn [alloc byteLength].
    repeat (apply andb_true_intro; split); lia. }
  rewrite V1. cbn [negb].
  assert (V2 : view_ok (buf st) (CHAR0 st) (CHAR1 st - CHAR0 st)
               && set_ok (blit (buf st) 0 (TRIE1 st) (alloc buf1) 0)
                    (CHAR1 st - CHAR0 st) c0 = true).
  { unfold view_ok, set_ok. cbn [blit alloc byteLength].
    repeat (apply andb_true_intro; split); lia. }
  rewrite V2. cbn [negb].
  assert (M4 : (buf1 mod 4 =? 0) = true) by (apply Z.eqb_eq; exact Hm4).
  rewrite M4. cbn [negb].
  eexists. split; [reflexivity|].
  set (nb := blit (buf st) (CHAR0 st) (CHAR1 st - CHAR0 st)
               (blit (buf st) 0 (TRIE1 st) (alloc buf1) 0) c0).
  assert (Lnb : byteLength nb = buf1) by reflexivity.
  assert (Low : forall a, 0 <= a < TRIE1 st ->
                  byte nb a mod 256 = byte (buf st) a mod 256).
  { intros a Ha. subst nb. cbn [blit byte].
    destruct ((c0 <=? a) && (a <? c0 + (CHAR1 st - CHAR0 st))) eqn:Ea; [lia|].
    destruct ((0 <=? a) && (a <? 0 + TRIE1 st)) eqn:Eb; [|lia].
    rewrite Z.mod_mod by lia. do 2 f_equal. lia. }
  assert (Pool : forall i, 0 <= i < CHAR1 st - CHAR0 st ->
                  byte nb (c0 + i) mod 256
                  = byte (buf st) (CHAR0 st + i) mod 256).
  { intros i Hi. subst nb. cbn [blit byte].
    destruct ((c0 <=? c0 + i) && (c0 + i <? c0 + (CHAR1 st - CHAR0 st)))
      eqn:Ea; [|lia].
    rewrite Z.mod_mod by lia. do 2 f_equal. lia. }
  clearbody nb.
  unfold write32, with_buf. cbn [buf needle wasmMemory].
  rewrite slot_CHAR0, slot_CHAR1.
  set (b1 := set32 nb (Num 66) (Num c0)).
  set (b2 := set32 b1 (Num 67) (Num (c0 + CHAR1 st - CHAR0 st))).
  assert (Lb2 : byteLength b2 = buf1).
  { subst b2 b1. rewrite !byteLength_set32. exact Lnb. }
  assert (Hbytes : forall a, a < 264 \/ 272 <= a -> byte b2 a = byte nb a).
  { intros a Ha. subst b2 b1. rewrite !byte_set32_other by lia. reflexivity. }
  assert (T' : fld b2 65 0 = TRIE1 st).
  { unfold TRIE1. rewrite slot_TRIE1. unfold fld. apply word_ext.
    intros i Hi. rewrite Hbytes by lia. apply Low. lia. }
  assert (C0' : fld b2 66 0 = c0).
  { subst b2. rewrite fld_set32_other by lia. subst b1.
    change (Num 66) with (Num (66 + 0)).
    apply fld_set32_same; lia. }
  assert (C1' : fld b2 67 0 = c0 + CHAR1 st - CHAR0 st).
  { subst b2 b1. change (Num 67) with (Num (67 + 0)).
    apply fld_set32_same; rewrite ?byteLength_set32; lia. }
  split; [|split; [exact H6|split; [exact C0'|exact Lb2]]].
  unfold same_trie, TRIE1, CHAR0, CHAR1. cbn [buf needle].
  rewrite slot_TRIE1, slot_CHAR0, slot_CHAR1, T', C0', C1'.
  fold (TRIE1 st) (CHAR0 st) (CHAR1 st).
  unfold TRIE1, CHAR0, CHAR1 in *.
  rewrite slot_TRIE1, slot_CHAR0, slot_CHAR1 in *.
  repeat split; try lia.
  + intros a Ha. rewrite Hbytes by lia. apply Low. lia.
  + intros a Ha. rewrite Hbytes by lia. apply Low. lia.
  + intros i Hi. rewrite Hbytes by lia. apply Pool. lia.
Qed.

(** What [shrinkBuf] computes and leaves. *)
Lemma C_shrinkBuf_full (st : state) :
  geom st ->
  let c0 := band (Num (TRIE1 st + 24 + 3)) (Num (bnot 3)) in
  let buf1 :=
    band (Num (c0 + CHAR1 st - CHAR0 st + 256 + 3)) (Num (bnot 3)) in
  exists st',
    shrinkBuf st = Ret tt st' /\ same_trie st st'
    /\ wasmMemory st' = wasmMemory st
    /\ TRIE1 st + 24 <= c0 < TRIE1 st + 28
    /\ c0 + (CHAR1 st - CHAR0 st) + 256 <= buf1
       < c0 + (CHAR1 st - CHAR0 st) + 260
    /\ ((buf1 = byteLength (buf st) /\ st' = st)
        \/ (buf1 <> byteLength (buf st) /\ CHAR0 st' = c0
            /\ byteLength (buf st') = buf1)).
Proof.
  intros G. pose proof G as (H1 & H2 & H3 & H4 & H5 & H6). cbn zeta.
  unfold shrinkBuf. rewrite H6.
  rewrite read_TRIE1, read_CHAR0, read_CHAR1 by lia.
  cbn [jadd jsub].
  pose proof (round_up_4 (TRIE1 st + 24) ltac:(lia)) as R0. cbn zeta in R0.
  set (c0 := band (Num (TRIE1 st + 24 + 3)) (Num (bnot 3))) in *.
  pose proof (round_up_4 (c0 + CHAR1 st - CHAR0 st + 256) ltac:(lia)) as R1.
  cbn zeta in R1.
  set (buf1 := band (Num (c0 + CHAR1 st - CHAR0 st + 256 + 3))
                    (Num (bnot 3))) in *.
  destruct (Z.eq_dec buf1 (byteLength (buf st))) as [E|E].
  - exists st. unfold resizeBuf. rewrite jeq_Num.
    rewrite (proj2 (Z.eqb_eq _ _) E).
    split; [reflexivity|]. split; [apply C_same_trie_refl; exact G|].
    split; [exact H6|]. split; [lia|]. split; [lia|].
    left. split; [exact E|reflexivity].
  - destruct (C_resizeBuf_spec st c0 buf1 G) as (st' & E' & S & W & C & L);
      try lia.
    exists st'. split; [exact E'|]. split; [exact S|].
    split; [rewrite W; exact H6|].
    split; [lia|]. split; [lia|]. right. tauto.
Qed.

(** [setNeedle] does not touch the trie. *)
Lemma C_setNeedle_trie_at (hn : jsstring) (st : state) (t : tr) :
  trie_at st t ->
  trie_at (setNeedle hn st) t /\ needle (setNeedle hn st) = hn.
Proof.
  intros (G & Nok & Hsh & Hwf & Hseg).
  pose proof G as (G1 & G2 & G3 & G4 & G5 & G6).
  destruct (C_setNeedle_spec hn st ltac:(lia) Nok)
    as (N0 & Nok0 & W0 & L0 & B0).
  set (st0 := setNeedle hn st) in *.
  assert (F0 : forall c k, 64 <= c -> 0 <= k ->
                 fld (buf st0) c k = fld (buf st) c k).
  { intros c k Hc Hk. unfold fld. apply word_ext. intros i Hi.
    rewrite B0 by lia. reflexivity. }
  assert (T0 : TRIE1 st0 = TRIE1 st)
    by (unfold TRIE1; rewrite slot_TRIE1; apply F0; lia).
  assert (C0 : CHAR0 st0 = CHAR0 st)
    by (unfold CHAR0; rewrite slot_CHAR0; apply F0; lia).
  assert (C1 : CHAR1 st0 = CHAR1 st)
    by (unfold CHAR1; rewrite slot_CHAR1; apply F0; lia).
  split; [|exact N0].
  split; [unfold geom; rewrite T0, C0, C1, L0, W0; exact G|].
  split; [exact Nok0|]. split; [|split; assumption].
  rewrite T0. apply (shape_ext 68 (buf st) _ (CHAR0 st) _ (CHAR1 st)).
  - lia.
  - intros a Ha. rewrite B0 by lia. reflexivity.
  - intros i Hi. rewrite C0, B0 by lia. reflexivity.
  - lia.
  - exact Hsh.
Qed.

(** The answer of [trieRef.matchesJS] on a state that holds the trie. *)
Lemma C_ref_matchesJS_walk (st : state) (t : tr) (r : HNBigTrieRef)
    (q : jsstring) (fuel : nat) :
  trie_at st t -> iroot r = Num (ptr t) -> (Trie.size t < fuel)%nat ->
  fst (ref_matchesJS fuel r q st) = Some (Num (walk t (key q))).
Proof.
  intros Ht Hr Hf. unfold ref_matchesJS. cbn [fst]. rewrite Hr.
  destruct (C_setNeedle_trie_at q st t Ht) as [Ht' N].
  rewrite (C_matchesJS_walk _ t fuel Ht' Hf), N. reflexivity.
Qed.

(** The trie that [fromIterable] leaves, when a hostname was stored. *)
Lemma C_build_trie_at (hs : list jsstring) (fuel : nat) :
  Z.of_nat (length hs) <= 65536 -> (2 * length hs + 1 <= fuel)%nat ->
  (exists h, In h hs /\ key h <> []) ->
  exists r st t,
    build fuel hs = Ret r st /\ iroot r = Num (ptr t)
    /\ trie_at st t /\ within (Z.of_nat (length hs)) st
    /\ Z.of_nat (Trie.size t) <= 1 + 2 * Z.of_nat (length hs)
    /\ (forall x, In x (strs t) <-> In x (map key hs) /\ x <> [])
    /\ branch t.
Proof.
  intros Hl Hf (h0 & Hh0 & Hk0). unfold build.
  destruct C_create_fresh_inv as [Hr Hi0].
  destruct (create fresh) as [r0 st0]. cbn [fst snd] in Hr, Hi0.
  destruct (C_add_all_inv 68 fuel hs r0 0 st0 [] Hr Hi0)
    as (r & st & E & Hr' & Hi & _); try lia.
  rewrite E. cbn [app] in Hi. rewrite Z.add_0_l in Hi.
  destruct Hi as (Se & Wi & Nok & [(_ & _ & _ & _ & _ & _ & _ & Hws)|
                                   (t & P & Sg & Sh & W & Ar & Sz & St & Br & Lo)]).
  { exfalso. apply Hk0. apply Hws. apply in_map. exact Hh0. }
  pose proof (C_settled_geom _ _ Se Wi ltac:(lia)) as G.
  exists r, st, t. split; [reflexivity|]. split; [rewrite P; exact Hr'|].
  split; [|split; [exact Wi|split; [exact Sz|split; [exact St|exact Br]]]].
  split; [exact G|]. split; [exact Nok|]. split; [exact Sh|].
  split; [exact W|exact Sg].
Qed.

End CShrink.

Section ContainerBuffer.
Import Trie Container ContainerInv.

(** X7 (hnbigtrie.wat, [optimize], [shrinkBuf] and [resizeBuf], lines
    1735-1741 and 1793-1843). After [fromIterable], [optimize] returns
    normally with the length of the buffer and the offset of the character
    data it leaves, and the trie answers every query as before. *)
Theorem X7_optimize_keeps_answers (hs : list jsstring) (fuel : nat) :
  Z.of_nat (length hs) <= 65536 -> (2 * length hs + 2 <= fuel)%nat ->
  (exists h, In h hs /\ key h <> []) ->
  exists r st st',
    build fuel hs = Ret r st
    /\ optimize st = Ret (byteLength (buf st'), Num (CHAR0 st')) st'
    /\ forall q, exists k,
         fst (ref_matchesJS fuel r q st') = Some (Num k)
         /\ fst (ref_matchesJS fuel r q st) = Some (Num k).
Proof.
  intros Hl Hf Hne.
  destruct (C_build_trie_at hs fuel Hl ltac:(lia) Hne)
    as (r & st & t & E & Hr & Ht & [Wi1 Wi2] & Sz & _).
  pose proof Ht as (G & Nok & Sh & W & Sg).
  destruct (C_shrinkBuf_full st G)
    as (st' & E' & Same & Wm & Hc0 & Hb1 & Hcase).
  cbn zeta in Hc0, Hb1, Hcase.
  assert (G' : geom st').
  { destruct Hcase as [[_ ->]|(_ & C0 & L)]; [exact G|].
    pose proof G as (G1 & G2 & G3 & G4 & G5 & G6).
    pose proof Same as (T1 & _ & Cd & _ & Hc1 & _).
    unfold geom. rewrite T1, Wm, L. repeat split; try lia. exact G6. }
  assert (Ht' : trie_at st' t).
  { split; [exact G'|].
    split; [apply (C_same_trie_needle_ok st st' Same Nok)|].
    split; [apply (C_same_trie_shape st st' t Same Sh)|].
    split; [exact W|exact Sg]. }
  exists r, st, st'. split; [exact E|]. split.
  - unfold optimize. rewrite E'. cbn [bind].
    pose proof G' as (G1 & G2 & G3 & G4 & G5 & G6).
    rewrite read_CHAR0 by lia. reflexivity.
  - intros q. exists (walk t (key q)).
    split; apply C_ref_matchesJS_walk; first [assumption | lia].
Qed.

(** X8 (hnbigtrie.wat, [shrinkBuf] and [resizeBuf], lines 1793-1843). On
    a buffer laid out in order, [shrinkBuf] returns normally and keeps the
    cells, the needle and the character data. It computes a buffer with
    24 to 27 bytes between the cells and the character data and 256 to 259
    bytes after the character data; when that buffer has the length of the
    present one, nothing is moved, whatever the present layout. *)
Theorem X8_shrinkBuf_layout (st : state) :
  geom st ->
  exists st' c0 buf1,
    shrinkBuf st = Ret tt st' /\ same_trie st st'
    /\ TRIE1 st + 24 <= c0 < TRIE1 st + 28
    /\ c0 + (CHAR1 st - CHAR0 st) + 256 <= buf1
       < c0 + (CHAR1 st - CHAR0 st) + 260
    /\ ((buf1 = byteLength (buf st) /\ st' = st)
        \/ (buf1 <> byteLength (buf st) /\ CHAR0 st' = c0
            /\ byteLength (buf st') = buf1)).
Proof.
  intros G.
  destruct (C_shrinkBuf_full st G) as (st' & E & S & _ & H1 & H2 & H3).
  cbn zeta in H1, H2, H3.
  eexists st', _, _. split; [exact E|]. split; [exact S|].
  split; [exact H1|]. split; [exact H2|exact H3].
Qed.

(** X9 (hnbigtrie.wat, [matchesJS], lines 1581-1622, on a root in which
    nothing was inserted). The cell of such a root holds three zero words,
    and line 1594 then reads the first byte of the character data: the
    answer is not always -1. When that byte is the last byte of the query,
    the answer is the number of bytes in front of it if the query has no
    other byte or the one before is a dot. *)
Theorem X9_matchesJS_on_empty_root (st : state) (root : Z) (fuel : nat) :
  geom st -> needle_ok st ->
  68 <= root -> 4 * root + 12 <= TRIE1 st ->
  fld (buf st) root 0 = 0 -> fld (buf st) root 1 = 0 ->
  fld (buf st) root 2 = 0 ->
  CHAR0 st < byteLength (buf st) -> (2 <= fuel)%nat ->
  matchesJS fuel st (Num root)
  = Some (Num (match key (needle st) with
               | [] => -1
               | c :: w =>
                   if byte (buf st) (CHAR0 st) mod 256 =? c
                   then if boundary w then Z.of_nat (length w) else -1
                   else -1
               end)).
Proof.
  intros G Nok Hr Hrt F0 F1 F2 Hc Hf.
  pose proof G as (G1 & G2 & G3 & G4 & G5 & G6).
  unfold matchesJS.
  rewrite read_CHAR0 by lia.
  rewrite C_read_NEEDLE_LEN by (assumption || lia).
  pose proof (C_needle_ok_rem st ltac:(lia) Nok) as Hrem.
  fold (key (needle st)) in Hrem.
  destruct (key (needle st)) as [|c w] eqn:Ek.
  - destruct fuel as [|n]; [lia|]. reflexivity.
  - destruct fuel as [|n]; [lia|].
    assert (Hlw : 0 < Z.of_nat (length (c :: w))) by (cbn [length]; lia).
    cbn [matchesJS_loop]. rewrite jeq_Num.
    destruct (Z.of_nat (length (c :: w)) =? 0) eqn:E0;
      [apply Z.eqb_eq in E0; lia|].
    cbn [jsub].
    pose proof (proj2 Hrem O ltac:(cbn [length]; lia)) as Hw0.
    rewrite Z.sub_0_r in Hw0. rewrite Hw0. cbn [nth].
    destruct n as [|m]; [lia|].
    cbn [matchesJS_find jadd]. unfold read32.
    rewrite !get32_fld by lia. rewrite F2, F0.
    assert (Eb : band (Num 0) (Num 16777215) = 0) by reflexivity.
    rewrite Eb. cbn [jadd]. rewrite Z.add_0_r.
    unfold read8 at 1. rewrite get8_in by lia. rewrite jeq_Num.
    destruct (byte (buf st) (CHAR0 st) mod 256 =? c) eqn:E1.
    + assert (Eu : ushr (Num 0) 24 = 0) by reflexivity.
      rewrite Eu. cbn [jgt jlt Z.ltb Z.compare jadd].
      rewrite get32_fld by lia. rewrite F1. cbn [jeq Z.eqb].
      assert (Hrem' : needle_rem st w).
      { apply (C_needle_rem_app st [c]). exact Hrem. }
      replace (Z.of_nat (length (c :: w)) - 1) with (Z.of_nat (length w))
        by (cbn [length]; lia).
      rewrite (C_labelBoundary_spec st w Hrem').
      destruct (boundary w); reflexivity.
    + cbn [jeq Z.eqb]. reflexivity.
Qed.

(** X10 (hnbigtrie.wat, [setNeedle], lines 1567-1579). When the needle
    area agrees with [this.needle], [setNeedle(hn)] leaves the length of
    [hn], at most 254, in byte 255 and the first characters of [hn], each
    modulo 256, from byte 0 on; it changes nothing from byte 256 on and
    keeps the length of the buffer. *)
Theorem X10_setNeedle_stores_254_bytes (hn : jsstring) (st : state) :
  256 <= byteLength (buf st) -> needle_ok st ->
  needle (setNeedle hn st) = hn
  /\ read8 (setNeedle hn st) (Num 255)
     = Num (Z.of_nat (Nat.min (length hn) 254))
  /\ (forall i : nat, (i < Nat.min (length hn) 254)%nat ->
        read8 (setNeedle hn st) (Num (Z.of_nat i))
        = Num (nth i hn 0 mod 256))
  /\ byteLength (buf (setNeedle hn st)) = byteLength (buf st)
  /\ (forall a, 256 <= a -> byte (buf (setNeedle hn st)) a = byte (buf st) a).
Proof.
  intros Hl Nok.
  destruct (C_setNeedle_spec hn st Hl Nok) as (N & Nok' & _ & L & B).
  assert (Hlen : length (needle_bytes 254 hn) = Nat.min (length hn) 254).
  { unfold needle_bytes. rewrite length_map, length_firstn. lia. }
  split; [exact N|]. split.
  - rewrite C_read_NEEDLE_LEN by (assumption || lia).
    rewrite N. unfold key. rewrite length_rev, Hlen. reflexivity.
  - split; [|split; [exact L|exact B]].
    intros i Hi. unfold read8. rewrite get8_in by lia. f_equal.
    destruct Nok' as [_ Hb]. rewrite N in Hb.
    transitivity (nth i (bytes_at (buf (setNeedle hn st)) 0
                           (length (needle_bytes 254 hn))) 0).
    + rewrite bytes_at_nth by lia. reflexivity.
    + rewrite Hb. apply needle_bytes_nth_gen. lia.
Qed.

(** X11 (hnbigtrie.wat, [setNeedle] and [matchesJS]). The characters of a
    query after the 254th are ignored. *)
Theorem X11_query_is_cut_at_254 (hs : list jsstring) (q : jsstring)
    (fuel : nat) :
  Z.of_nat (length hs) <= 65536 -> (2 * length hs + 2 <= fuel)%nat ->
  (exists h, In h hs /\ key h <> []) ->
  exists k,
    query fuel hs q = Some (Num k)
    /\ query fuel hs (firstn 254 q) = Some (Num k).
Proof.
  intros Hl Hf Hne.
  destruct (C_build_trie_at hs fuel Hl ltac:(lia) Hne)
    as (r & st & t & E & Hr & Ht & _ & Sz & _).
  unfold query. rewrite E. exists (walk t (key q)).
  rewrite !(C_ref_matchesJS_walk st t r _ fuel Ht Hr) by lia.
  split; [reflexivity|].
  do 3 f_equal. unfold key, needle_bytes.
  rewrite firstn_firstn, Nat.min_id. reflexivity.
Qed.


End ContainerBuffer.

Section ManagerBuffer.
Import Trie Manager ManagerInv.

Lemma storeSegment_loop_keeps (i : nat) (st : state) :
  segments (storeSegment_loop i st) = segments st
  /\ needle (storeSegment_loop i st) = needle st
  /\ char0 (storeSegment_loop i st) = char0 st.
Proof.
  revert st. induction i as [|i IH]; intros st; [repeat split|].
  cbn [storeSegment_loop].
  destruct (IH (write8 (char1 st)
                  (read8 (with_char1 st (char1 st + 1)) (Num (Z.of_nat i)))
                  (with_char1 st (char1 st + 1)))) as (A & B & C).
  rewrite A, B, C. repeat split.
Qed.

(** X13 (hnbigtrie.js, [storeSegment], lines 233-246). The offset of a
    segment is kept in [this.segments]: a second call for the same needle
    and the same length returns the same word and stores nothing. *)
Theorem X13_storeSegment_is_memoized (len : jsval) (st : state) :
  storeSegment len (snd (storeSegment len st)) = storeSegment len st.
Proof.
  unfold storeSegment at 2 3. destruct (jeq len 0) eqn:E.
  - cbn [snd]. unfold storeSegment. rewrite E. reflexivity.
  - match goal with
    | |- context [match ?x with Some _ => _ | None => _ end] =>
        destruct x as [o|] eqn:Es
    end.
    + cbn [snd]. unfold storeSegment. rewrite E.
      match goal with
      | |- context [match ?x with Some _ => _ | None => _ end] =>
          replace x with (Some o)
      end.
      reflexivity.
    + cbn [snd].
      set (st0 := with_segments st
                    (<[slice0 (needle st) len := char1 st - char0 st]>
                       (segments st))).
      destruct (storeSegment_loop_keeps (Z.to_nat (ToUint32 len)) st0)
        as (A & B & C).
      set (st1 := storeSegment_loop (Z.to_nat (ToUint32 len)) st0) in *.
      unfold storeSegment. rewrite E.
      assert (L : (segments st1 !! slice0 (needle st1) len : option Z)
                  = Some (char1 st - char0 st)).
      { rewrite A, B. subst st0. cbn [segments needle with_segments].
        apply lookup_insert_eq. }
      match goal with
      | |- context [match ?x with Some _ => _ | None => _ end] =>
          replace x with (Some (char1 st - char0 st))
      end.
      reflexivity.
Qed.


(** X15 (hnbigtrie.js, [reset], [create] and [HNBigTrieRef.isValid], lines
    60-71, 122-132 and 380-382). On a buffer of at most 131072 bytes,
    [reset] returns normally, adds 1 to [id] and puts the four offsets
    back; a reference made before is no longer valid, one made after
    is. *)
Theorem X15_manager_reset_invalidates (st : state) (r : HNBigTrieRef) :
  byteLength (buf st) <= 131072 -> isValid r st = true ->
  exists st',
    reset st = Ret tt st'
    /\ id st' = id st + 1
    /\ trie1 st' = 256 /\ char0 st' = 65536 /\ char1 st' = 65536
    /\ byteLength (buf st') = byteLength (buf st)
    /\ isValid r st' = false
    /\ isValid (fst (create st')) (snd (create st')) = true.
Proof.
  intros Hl Hr. unfold reset.
  destruct (byteLength (buf st) >? 131072) eqn:E; [lia|].
  rewrite andb_false_r. eexists. split; [reflexivity|].
  cbn [id trie1 char0 char1 buf fill0 alloc byteLength].
  repeat (split; [reflexivity|]).
  unfold isValid in *. cbn [id ref_id create fst snd with_trie1 write32
                            with_buf].
  cbn [jeq] in Hr |- *. apply Z.eqb_eq in Hr. rewrite Hr.
  split; [apply Z.eqb_neq; lia|apply Z.eqb_refl].
Qed.

End ManagerBuffer.

Lemma Container_fresh_geom : ContainerInv.geom Container.fresh.
Proof.
  unfold ContainerInv.geom.
  repeat split;
    try (apply Z.leb_le; vm_compute; reflexivity);
    try (vm_compute; reflexivity).
Defined.

Lemma Container_fresh_needle_ok : ContainerInv.needle_ok Container.fresh.
Proof. split; vm_compute; reflexivity. Defined.

Lemma example_com_keyed :
  exists h, In h example_com /\ ContainerInv.key h <> [].
Proof.
  exists (js "example.com"). split; [left; reflexivity|].
  vm_compute. discriminate.
Defined.

Lemma X7_optimize_keeps_answers_witness :
  Z.of_nat (length example_com) <= 65536
  /\ (2 * length example_com + 2 <= fuel)%nat
  /\ (exists h, In h example_com /\ ContainerInv.key h <> [])
  /\ exists r st st',
       Container.build fuel example_com = Ret r st
       /\ Container.optimize st
          = Ret (byteLength (Container.buf st'), Num (ContainerInv.CHAR0 st'))
                st'
       /\ forall q, exists k,
            fst (Container.ref_matchesJS fuel r q st') = Some (Num k)
            /\ fst (Container.ref_matchesJS fuel r q st) = Some (Num k).
Proof.
  assert (H1 : Z.of_nat (length example_com) <= 65536)
    by (apply Z.leb_le; vm_compute; reflexivity).
  assert (H2 : (2 * length example_com + 2 <= fuel)%nat)
    by (apply Nat.leb_le; vm_compute; reflexivity).
  split; [exact H1|]. split; [exact H2|]. split; [exact example_com_keyed|].
  exact (X7_optimize_keeps_answers example_com fuel H1 H2 example_com_keyed).
Defined.

Lemma X8_shrinkBuf_layout_witness :
  ContainerInv.geom Container.fresh
  /\ exists st' c0 buf1,
       Container.shrinkBuf Container.fresh = Ret tt st'
       /\ ContainerInv.same_trie Container.fresh st'
       /\ ContainerInv.TRIE1 Container.fresh + 24 <= c0
          < ContainerInv.TRIE1 Container.fresh + 28
       /\ c0 + (ContainerInv.CHAR1 Container.fresh
                - ContainerInv.CHAR0 Container.fresh) + 256 <= buf1
          < c0 + (ContainerInv.CHAR1 Container.fresh
                  - ContainerInv.CHAR0 Container.fresh) + 260
       /\ ((buf1 = byteLength (Container.buf Container.fresh)
            /\ st' = Container.fresh)
           \/ (buf1 <> byteLength (Container.buf Container.fresh)
               /\ ContainerInv.CHAR0 st' = c0
               /\ byteLength (Container.buf st') = buf1)).
Proof.
  split; [exact Container_fresh_geom|].
  exact (X8_shrinkBuf_layout Container.fresh Container_fresh_geom).
Defined.

Lemma X9_matchesJS_on_empty_root_witness :
  ContainerInv.geom shared_container
  /\ ContainerInv.needle_ok shared_container
  /\ 68 <= 71 /\ 4 * 71 + 12 <= ContainerInv.TRIE1 shared_container
  /\ Trie.fld (Container.buf shared_container) 71 0 = 0
  /\ Trie.fld (Container.buf shared_container) 71 1 = 0
  /\ Trie.fld (Container.buf shared_container) 71 2 = 0
  /\ ContainerInv.CHAR0 shared_container
     < byteLength (Container.buf shared_container)
  /\ (2 <= fuel)%nat
  /\ Container.matchesJS fuel shared_container (Num 71)
     = Some (Num (match ContainerInv.key (Container.needle shared_container)
                  with
                  | [] => -1
                  | c :: w =>
                      if byte (Container.buf shared_container)
                           (ContainerInv.CHAR0 shared_container) mod 256 =? c
                      then if Trie.boundary w then Z.of_nat (length w)
                           else -1
                      else -1
                  end)).
Proof.
  assert (G : ContainerInv.geom shared_container).
  { unfold ContainerInv.geom.
    repeat split;
      try (apply Z.leb_le; vm_compute; reflexivity);
      try (vm_compute; reflexivity). }
  assert (N : ContainerInv.needle_ok shared_container)
    by (split; vm_compute; reflexivity).
  assert (H1 : 68 <= 71) by lia.
  assert (H2 : 4 * 71 + 12 <= ContainerInv.TRIE1 shared_container)
    by (apply Z.leb_le; vm_compute; reflexivity).
  assert (F0 : Trie.fld (Container.buf shared_container) 71 0 = 0)
    by (vm_compute; reflexivity).
  assert (F1 : Trie.fld (Container.buf shared_container) 71 1 = 0)
    by (vm_compute; reflexivity).
  assert (F2 : Trie.fld (Container.buf shared_container) 71 2 = 0)
    by (vm_compute; reflexivity).
  assert (H3 : ContainerInv.CHAR0 shared_container
               < byteLength (Container.buf shared_container))
    by (apply Z.ltb_lt; vm_compute; reflexivity).
  assert (H4 : (2 <= fuel)%nat) by (apply Nat.leb_le; vm_compute; reflexivity).
  split; [exact G|]. split; [exact N|]. split; [exact H1|].
  split; [exact H2|]. split; [exact F0|]. split; [exact F1|].
  split; [exact F2|]. split; [exact H3|]. split; [exact H4|].
  exact (X9_matchesJS_on_empty_root shared_container 71 fuel
           G N H1 H2 F0 F1 F2 H3 H4).
Defined.

Lemma X10_setNeedle_stores_254_bytes_witness :
  256 <= byteLength (Container.buf Container.fresh)
  /\ ContainerInv.needle_ok Container.fresh
  /\ Container.needle (Container.setNeedle long_name Container.fresh)
     = long_name
  /\ Container.read8 (Container.setNeedle long_name Container.fresh)
       (Num 255)
     = Num (Z.of_nat (Nat.min (length long_name) 254))
  /\ (forall i : nat, (i < Nat.min (length long_name) 254)%nat ->
        Container.read8 (Container.setNeedle long_name Container.fresh)
          (Num (Z.of_nat i))
        = Num (nth i long_name 0 mod 256))
  /\ byteLength (Container.buf (Container.setNeedle long_name
                                  Container.fresh))
     = byteLength (Container.buf Container.fresh)
  /\ (forall a, 256 <= a ->
        byte (Container.buf (Container.setNeedle long_name Container.fresh))
          a
        = byte (Container.buf Container.fresh) a).
Proof.
  assert (H1 : 256 <= byteLength (Container.buf Container.fresh))
    by (apply Z.leb_le; vm_compute; reflexivity).
  split; [exact H1|]. split; [exact Container_fresh_needle_ok|].
  exact (X10_setNeedle_stores_254_bytes long_name Container.fresh H1
           Container_fresh_needle_ok).
Defined.

Lemma X11_query_is_cut_at_254_witness :
  Z.of_nat (length example_com) <= 65536
  /\ (2 * length example_com + 2 <= fuel)%nat
  /\ (exists h, In h example_com /\ ContainerInv.key h <> [])
  /\ exists k,
       Container.query fuel example_com long_name = Some (Num k)
       /\ Container.query fuel example_com (firstn 254 long_name)
          = Some (Num k).
Proof.
  assert (H1 : Z.of_nat (length example_com) <= 65536)
    by (apply Z.leb_le; vm_compute; reflexivity).
  assert (H2 : (2 * length example_com + 2 <= fuel)%nat)
    by (apply Nat.leb_le; vm_compute; reflexivity).
  split; [exact H1|]. split; [exact H2|]. split; [exact example_com_keyed|].
  exact (X11_query_is_cut_at_254 example_com long_name fuel H1 H2
           example_com_keyed).
Defined.




Lemma X15_manager_reset_invalidates_witness :
  byteLength (Manager.buf (snd (Manager.create Manager.fresh))) <= 131072
  /\ Manager.isValid (fst (Manager.create Manager.fresh))
       (snd (Manager.create Manager.fresh)) = true
  /\ exists st',
       Manager.reset (snd (Manager.create Manager.fresh)) = Ret tt st'
       /\ Manager.id st' = Manager.id (snd (Manager.create Manager.fresh)) + 1
       /\ Manager.trie1 st' = 256 /\ Manager.char0 st' = 65536
       /\ Manager.char1 st' = 65536
       /\ byteLength (Manager.buf st')
          = byteLength (Manager.buf (snd (Manager.create Manager.fresh)))
       /\ Manager.isValid (fst (Manager.create Manager.fresh)) st' = false
       /\ Manager.isValid (fst (Manager.create st'))
            (snd (Manager.create st')) = true.
Proof.
  assert (H1 : byteLength (Manager.buf (snd (Manager.create Manager.fresh)))
               <= 131072)
    by (apply Z.leb_le; vm_compute; reflexivity).
  assert (H2 : Manager.isValid (fst (Manager.create Manager.fresh))
                 (snd (Manager.create Manager.fresh)) = true)
    by (vm_compute; reflexivity).
  split; [exact H1|]. split; [exact H2|].
  exact (X15_manager_reset_invalidates (snd (Manager.create Manager.fresh))
           (fst (Manager.create Manager.fresh)) H1 H2).
Defined.

(** *** [fromIterable] of the manager, with [optimize] *)

Section MShrink.
Import Trie Manager ManagerInv.

(** [shrinkBuf] puts the character data at the first multiple of 4 after
    the cells and ends the buffer at the first multiple of 4 after the
    character data. *)
Lemma shrinkBuf_spec (st : state) :
  geom st -> char0 st mod 4 = 0 ->
  exists st',
    shrinkBuf st = Ret tt st' /\ same_trie st st'
    /\ segments st' = segments st
    /\ trie1 st' <= char0 st' < trie1 st' + 4
    /\ char1 st' <= byteLength (buf st') < char1 st' + 4
    /\ byteLength (buf st') <= 2 ^ 30.
Proof.
  intros G M0. pose proof G as (H1 & H2 & H3 & H4 & H5).
  unfold shrinkBuf.
  pose proof (round_up_4 (trie1 st) ltac:(lia)) as R0. cbn zeta in R0.
  set (c0 := band (Num (trie1 st + 3)) (Num (bnot 3))) in *.
  pose proof (round_up_4 (c0 + char1 st - char0 st) ltac:(lia)) as R1.
  cbn zeta in R1.
  set (buf1 := band (Num (c0 + char1 st - char0 st + 3)) (Num (bnot 3))) in *.
  destruct R0 as [R0 R0']. destruct R1 as [R1 R1'].
  unfold resizeBuf.
  destruct (buf1 =? byteLength (buf st)) eqn:E.
  - apply Z.eqb_eq in E. exists st. split; [reflexivity|].
    split; [apply same_trie_refl; exact G|]. split; [reflexivity|].
    assert (char0 st = c0).
    { apply Z.mod_divide in M0; [|lia]. destruct M0 as [a Ha].
      apply Z.mod_divide in R0'; [|lia]. destruct R0' as [b Hb].
      lia. }
    lia.
  - apply Z.eqb_neq in E.
    destruct (buf1 <? 0) eqn:E0; [lia|].
    assert (V1 : view_ok (buf st) 0 (trie1 st)
                 && set_ok (alloc buf1) (trie1 st) 0 = true).
    { unfold view_ok, set_ok. cbn [alloc byteLength].
      repeat (apply andb_true_intro; split); lia. }
    rewrite V1. cbn [negb].
    assert (V2 : view_ok (buf st) (char0 st) (char1 st - char0 st)
                 && set_ok (blit (buf st) 0 (trie1 st) (alloc buf1) 0)
                      (char1 st - char0 st) c0 = true).
    { unfold view_ok, set_ok. cbn [blit alloc byteLength].
      repeat (apply andb_true_intro; split); lia. }
    rewrite V2. cbn [negb].
    assert (M4 : (buf1 mod 4 =? 0) = true) by (apply Z.eqb_eq; exact R1').
    rewrite M4. eexists. split; [reflexivity|].
    split.
    + unfold same_trie.
      cbn [trie1 needle char0 char1 buf blit alloc byteLength byte].
      repeat split; try lia.
      * intros a Ha.
        destruct ((c0 <=? a) && (a <? c0 + (char1 st - char0 st))) eqn:Ea;
          [lia|].
        destruct ((0 <=? a) && (a <? 0 + trie1 st)) eqn:Eb; [|lia].
        rewrite Z.mod_mod by lia. do 2 f_equal. lia.
      * intros i Hi.
        destruct ((c0 <=? c0 + i) && (c0 + i <? c0 + (char1 st - char0 st)))
          eqn:Ea; [|lia].
        rewrite Z.mod_mod by lia. do 2 f_equal. lia.
    + cbn [segments trie1 char0 char1 buf blit alloc byteLength].
      split; [reflexivity|].
      apply Z.mod_divide in M0; [|lia]. destruct M0 as [a Ha].
      apply Z.mod_divide in R0'; [|lia]. destruct R0' as [b Hb].
      apply Z.mod_divide in R1'; [|lia]. destruct R1' as [c Hc].
      change (2 ^ 30) with (268435456 * 4) in *. lia.
Qed.

(** What [fromIterable] leaves: the root cell of the reference holds the
    hostnames given, in a buffer without reserve. *)
Lemma fromIterable_spec (hs : list jsstring) (fuel : nat) :
  Z.of_nat (length hs) <= 65536 -> (2 * length hs + 1 <= fuel)%nat ->
  exists r st,
    fromIterable fuel hs fresh = Ret r st /\ iroot r = Num 64
    /\ geom st /\ needle_ok st /\ segments st = ∅
    /\ trie1 st <= char0 st < trie1 st + 4
    /\ char1 st <= byteLength (buf st) < char1 st + 4
    /\ holds (Z.of_nat (length hs)) st 64 (map key hs).
Proof.
  intros Hl Hf. unfold fromIterable.
  destruct create_fresh_inv as [Hr Hi0].
  destruct (create fresh) as [r st0]. cbn [fst snd] in Hr, Hi0.
  destruct (add_all_inv r 64 fuel hs Hr 0 st0 [] Hi0) as (st & E & Hi);
    try lia.
  rewrite E. cbn [bind]. cbn [app] in Hi. rewrite Z.add_0_l in Hi.
  pose proof (inv_geom _ _ 64 _ Hi ltac:(lia)) as G.
  destruct Hi as (Se & Wi & Nok & _ & Ho).
  assert (M0 : char0 st mod 4 = 0).
  { destruct Se as (_ & _ & _ & _ & _ & S6 & _).
    apply Z.mod_divide in S6; [|lia]. destruct S6 as [a ->].
    replace (a * 65536) with (a * 16384 * 4) by lia. apply Z.mod_mul. lia. }
  unfold optimize.
  destruct (shrinkBuf_spec (with_segments st ∅) G M0)
    as (st' & E' & Same & Sg & L0 & L1 & L2).
  rewrite E'. cbn [bind]. exists r, st'.
  split; [reflexivity|]. split; [exact Hr|].
  pose proof G as (G1 & G2 & G3 & G4 & G5).
  pose proof Same as (T1 & N1 & Cd & Hc0 & Hc1 & Ht1 & Hb & Hp).
  cbn [with_segments trie1 char0 char1 buf needle] in T1, N1, Cd, Hb, Hp.
  split; [unfold geom; lia|].
  split; [apply (same_trie_needle_ok (with_segments st ∅) st');
          [exact G1|exact Same|exact Nok]|].
  split; [exact Sg|]. split; [exact L0|]. split; [exact L1|].
  apply (holds_ext _ st st'); try assumption.
  intros a Ha. apply Hb. lia.
Qed.

End MShrink.

Section ManagerFromIterable.
Import Trie Manager ManagerInv.


End ManagerFromIterable.

(** *** [matchesJS] of the manager finds what is stored *)

Section MMatch.
Import Trie Manager ManagerInv.

Lemma labelBoundary_spec (st : state) (w : list Z) :
  needle_rem st w ->
  labelBoundary st (Num (Z.of_nat (length w))) = boundary w.
Proof.
  intros [_ Hrem]. unfold labelBoundary. destruct w as [|c w].
  - reflexivity.
  - rewrite jeq_Num.
    destruct (Z.of_nat (length (c :: w)) =? 0) eqn:E;
      [apply Z.eqb_eq in E; cbn [length] in E; lia|].
    cbn [orb jsub]. pose proof (Hrem O ltac:(cbn; lia)) as H0.
    rewrite Z.sub_0_r in H0. rewrite H0. reflexivity.
Qed.

Lemma lcp_pos_hd (s w : list Z) : (1 <= lcp s w)%nat -> hd 0 s = hd 0 w.
Proof.
  destruct s as [|a s], w as [|b w]; cbn [lcp hd]; try lia.
  destruct (a =? b) eqn:E; [intros _; apply Z.eqb_eq; exact E|lia].
Qed.

Lemma hd_app_l (x y : list Z) : x <> [] -> hd 0 (x ++ y) = hd 0 x.
Proof. destruct x; [congruence|reflexivity]. Qed.

(** When the bytes to consume start with a string of the chain [u] that is
    followed by a label boundary, the loop of [matchesJS] ends with an
    answer that is not negative. *)
Lemma matchesJS_loop_hit (st : state) :
  0 <= char0 st -> char1 st <= byteLength (buf st) ->
  trie1 st <= byteLength (buf st) ->
  forall (n : nat) (u : tr) (x y : list Z),
    (Trie.size u < n)%nat ->
    shape 64 (buf st) (char0 st) (char1 st) (trie1 st) u -> wf u ->
    is_bnd u = false -> needle_rem st (x ++ y) ->
    In x (strs u) -> boundary y = true ->
    exists k,
      matchesJS_loop n st (Num (ptr u)) (Num (Z.of_nat (length (x ++ y))))
      = Some (Num k)
      /\ 0 <= k.
Proof.
  intros H0 H1 Ht n.
  induction n as [|n IH]; intros u x y Hfuel Hsh Hwf Hnb Hrem Hin Hby; [lia|].
  destruct u as [|c off s d r|c r]; [destruct Hin| |discriminate].
  cbn [shape] in Hsh.
  destruct Hsh as (Hc & Hct & Fd & Fr & Fs & Hls & Hoff & Hend & Hb & Hd & Hr).
  pose proof Hwf as Hwf0.
  cbn [wf] in Hwf. destruct Hwf as (Hs & Hbd & Hhd & Hwd & Hwr).
  assert (Hls1 : (1 <= length s)%nat) by (destruct s; [congruence|cbn; lia]).
  assert (Hx : x <> []) by (apply (strs_nonempty _ x Hwf0 Hin)).
  set (w := x ++ y) in *.
  assert (Hlw : (1 <= length w <= 255)%nat).
  { destruct Hrem as [Hl _]. subst w. rewrite length_app in *.
    destruct x; [congruence|cbn [length] in *; lia]. }
  assert (Hw : w <> []) by (destruct w; [cbn in Hlw; lia|discriminate]).
  cbn [Trie.size] in Hfuel.
  cbn [matchesJS_loop ptr jadd]. unfold read32.
  rewrite !get32_fld by lia. rewrite Fs, Fd, Fr.
  rewrite jne_Num.
  destruct (c =? 0) eqn:Ec; [apply Z.eqb_eq in Ec; lia|]. cbn [negb].
  rewrite (indexOfMismatch_spec st off s w) by
    (try lia; try assumption; apply (shape_seg_at st c); assumption || lia).
  rewrite seg_word_len by lia. rewrite jeq_Num.
  apply strs_Seg_in in Hin. destruct Hin as [(x' & Ex & Hin)|Hin].
  - (* the string goes through this segment *)
    assert (Ew : w = s ++ (x' ++ y)) by (subst w x; apply eq_sym, app_assoc).
    assert (El : lcp s w = length s) by (rewrite Ew; apply lcp_app).
    rewrite El.
    destruct (Z.of_nat (length s) =? 0) eqn:E1;
      [apply Z.eqb_eq in E1; lia|].
    cbn [jlt]. rewrite Z.ltb_irrefl. cbn [jsub].
    assert (Hrem' : needle_rem st (x' ++ y)).
    { apply (needle_rem_app st s). rewrite <- Ew. exact Hrem. }
    assert (Hl' : Z.of_nat (length w) - Z.of_nat (length s)
                  = Z.of_nat (length (x' ++ y))).
    { rewrite Ew, length_app. lia. }
    rewrite Hl'.
    destruct r as [|rc roff rs rd rr|rc rr].
    + (* a leaf: the word at index 2 decides which test is made *)
      destruct Hin as [<-|[]]. cbn [app] in *. cbn [ptr jadd].
      rewrite (labelBoundary_spec st y Hrem'), Hby.
      destruct (jeq (get32 (buf st) (Num (0 + 2))) 0).
      * exists 1. split; [reflexivity|lia].
      * destruct n as [|n]; [lia|].
        cbn [matchesJS_loop]. rewrite jne_Num. cbn [Z.eqb negb].
        rewrite (labelBoundary_spec st y Hrem'), Hby.
        exists (Z.of_nat (length y)). split; [reflexivity|lia].
    + cbn [rest_strs] in Hin.
      pose proof Hr as Hr0. cbn [shape] in Hr.
      destruct Hr as (Hrc & Hrt & _ & _ & Frs & Hrl & Hro & _).
      pose proof Hwr as Hwr0. cbn [wf] in Hwr. destruct Hwr as (Hrs & _).
      assert ((1 <= length rs)%nat) by (destruct rs; [congruence|cbn; lia]).
      cbn [ptr jadd]. rewrite get32_fld by lia. rewrite Frs, jeq_Num.
      destruct (Z.of_nat (length rs) * 2 ^ 24 + roff =? 0) eqn:E5;
        [apply Z.eqb_eq in E5; lia|].
      apply (IH (Seg rc roff rs rd rr) x' y);
        first [assumption | reflexivity | (cbn [Trie.size] in *; lia)].
    + cbn [rest_strs] in Hin.
      cbn [shape] in Hr. destruct Hr as (Hrc & Hrt & _ & Frr & Frs & Hrr).
      cbn [wf] in Hwr. destruct Hwr as (Hrsg & Hwrr).
      cbn [ptr jadd]. rewrite !get32_fld by lia. rewrite Frs, Frr, jeq_Num.
      cbn [Z.eqb].
      rewrite (labelBoundary_spec st (x' ++ y) Hrem').
      destruct (boundary (x' ++ y)) eqn:Eb.
      * exists 1. split; [reflexivity|lia].
      * destruct Hin as [<-|Hin]; [cbn [app] in Eb; congruence|].
        apply (IH rr x' y); try assumption.
        -- cbn [Trie.size] in *. lia.
        -- destruct rr; try discriminate. reflexivity.
  - (* the string is further down *)
    assert (Hh : hd 0 s <> hd 0 w).
    { intros E'. apply Hhd. rewrite E'. subst w. rewrite hd_app_l by exact Hx.
      apply strs_heads; assumption. }
    rewrite (lcp_hd_ne s w Hh). change (Z.of_nat 0) with 0. cbn [Z.eqb].
    apply (IH d x y); try assumption. lia.
Qed.

(** [matchesJS] on a state that holds the trie [t]. *)
Lemma matchesJS_hit (st : state) (t : tr) (fuel : nat) (x y : list Z) :
  trie_at st t -> (Trie.size t < fuel)%nat ->
  key (needle st) = x ++ y -> In x (strs t) -> boundary y = true ->
  exists k, matchesJS fuel st (Num (ptr t)) = Some (Num k) /\ 0 <= k.
Proof.
  intros (G & Nok & Hsh & Hwf & Hsg) Hfuel Ek Hin Hby.
  destruct G as (G1 & G2 & G3 & G4 & G5).
  unfold matchesJS.
  rewrite read_NEEDLE_LEN by (assumption || lia).
  assert (Hx : x <> []) by (apply (strs_nonempty _ x Hwf Hin)).
  rewrite Ek, jeq_Num.
  destruct (Z.of_nat (length (x ++ y)) =? 0) eqn:E.
  { apply Z.eqb_eq in E. rewrite length_app in E.
    destruct x; [congruence|cbn [length] in E; lia]. }
  apply (matchesJS_loop_hit st); try assumption; try lia.
  - destruct t; try discriminate. reflexivity.
  - rewrite <- Ek. apply needle_ok_rem; [lia|exact Nok].
Qed.

Lemma key_plain_255 (h : jsstring) : plain h -> key h = rev h.
Proof.
  intros [Hl Hc]. unfold key, needle_bytes. f_equal.
  rewrite firstn_all2 by lia.
  induction Hc as [|a h Ha Hc IH]; [reflexivity|].
  cbn [map]. rewrite Z.mod_small by lia. f_equal. apply IH.
  cbn [length] in Hl. lia.
Qed.

End MMatch.

Section ManagerMatch.
Import Trie Manager ManagerInv.

(** X16 (hnbigtrie.js, [matchesJS], [indexOfMismatch] and [labelBoundary],
    lines 93-118 and 248-264, on the trie [fromIterable] returns). The
    matcher of the manager misses nothing: when the query is one of the
    hostnames given, or ends with a dot followed by one (query and hostname
    of at most 255 characters below 256, the hostname not empty),
    [matchesJS] answers a number that is not negative. *)
Theorem X16_manager_matchesJS_never_misses (hs : list jsstring)
    (h q : jsstring) (fuel : nat) :
  Z.of_nat (length hs) <= 65536 -> (2 * length hs + 2 <= fuel)%nat ->
  In h hs -> h <> [] -> plain h -> plain q -> label_match q h ->
  exists r st k,
    fromIterable fuel hs fresh = Ret r st
    /\ fst (ref_matchesJS fuel r q st) = Some (Num k)
    /\ 0 <= k.
Proof.
  intros Hl Hf Hh Hne Hp Hq Hm.
  destruct (fromIterable_spec hs fuel Hl ltac:(lia))
    as (r & st & E & Hr & G & Nok & Sg & L0 & L1 & Ho).
  assert (Kh : key h = rev h) by (apply key_plain_255; exact Hp).
  assert (Kq : key q = rev q) by (apply key_plain_255; exact Hq).
  assert (Kn : key h <> []).
  { rewrite Kh. intros E0. apply Hne.
    rewrite <- (rev_involutive h), E0. reflexivity. }
  assert (Hk : In (key h) (map key hs)) by (apply in_map; exact Hh).
  pose proof G as (G1 & G2 & G3 & G4 & G5).
  destruct (setNeedle_spec q st ltac:(lia) Nok)
    as (N0 & Nok0 & T0 & C0 & C1 & B0 & By0).
  set (st0 := setNeedle q st) in *.
  assert (G0 : geom st0) by (unfold geom; rewrite T0, C0, C1, B0; exact G).
  destruct Ho as [(_ & _ & _ & _ & _ & _ & Hws)|
                  (t & P & Sgt & Sh & W & Ar & Sz & St)].
  { exfalso. apply Kn. apply Hws. exact Hk. }
  assert (Sh0 : shape 64 (buf st0) (char0 st0) (char1 st0) (trie1 st0) t).
  { rewrite T0. apply (shape_ext 64 (buf st) _ (char0 st) _ (char1 st)).
    - lia.
    - intros x Hx. rewrite By0 by lia. reflexivity.
    - intros i Hi. rewrite C0, By0 by lia. reflexivity.
    - lia.
    - exact Sh. }
  assert (Ht : trie_at st0 t).
  { split; [exact G0|]. split; [exact Nok0|]. split; [exact Sh0|].
    split; [exact W|exact Sgt]. }
  assert (Hy : exists y, key q = key h ++ y /\ boundary y = true).
  { rewrite Kq, Kh. destruct Hm as [->|[p ->]].
    - exists []. rewrite app_nil_r. split; reflexivity.
    - exists (46 :: rev p). rewrite rev_app_distr. cbn [rev].
      rewrite <- app_assoc. split; reflexivity. }
  destruct Hy as (y & Ey & Hby).
  destruct (matchesJS_hit st0 t fuel (key h) y Ht) as (k & Ek & Hk0);
    try assumption.
  - lia.
  - rewrite N0. exact Ey.
  - apply St. split; [exact Hk|exact Kn].
  - exists r, st, k. split; [exact E|]. split; [|exact Hk0].
    unfold ref_matchesJS. cbn [fst]. rewrite Hr, <- P. exact Ek.
Qed.

End ManagerMatch.

(** ** The WebAssembly matcher on the buffer of the container *)

Section WMatch.
Import Trie Container ContainerInv.

Lemma i32_small (z : Z) : 0 <= z < 2 ^ 32 -> Wasm.i32 z = z.
Proof. intros H. unfold Wasm.i32. apply Z.mod_small. exact H. Qed.

Lemma i32_dec (z : Z) :
  1 <= z < 2 ^ 32 -> Wasm.i32 (z + (2 ^ 32 - 1)) = z - 1.
Proof.
  intros H. unfold Wasm.i32.
  replace (z + (2 ^ 32 - 1)) with (z - 1 + 1 * 2 ^ 32) by lia.
  rewrite Z.mod_add by lia. apply Z.mod_small. lia.
Qed.

Lemma i32_shl2 (z : Z) :
  0 <= z < 2 ^ 30 -> Wasm.i32 (Z.shiftl z 2) = 4 * z.
Proof.
  intros H. rewrite Z.shiftl_mul_pow2 by lia. change (2 ^ 2) with 4.
  rewrite i32_small by lia. lia.
Qed.

Lemma load_fld (m : ArrayBuffer) (c k off : Z) :
  off = 4 * k -> 0 <= k < 3 -> 4 * c + 12 <= byteLength m ->
  Wasm.load m (4 * c) off = Some (fld m c k).
Proof.
  intros -> Hk Hc. unfold Wasm.load, fld.
  destruct (4 * c + 4 * k + 4 <=? byteLength m) eqn:E; [|lia].
  do 2 f_equal. lia.
Qed.

Lemma load8_byte (m : ArrayBuffer) (a : Z) :
  a < byteLength m -> Wasm.load8_u m a 0 = Some (byte m a mod 256).
Proof.
  intros H. unfold Wasm.load8_u.
  destruct (a + 0 + 1 <=? byteLength m) eqn:E; [|lia].
  rewrite Z.add_0_r. reflexivity.
Qed.

Lemma seg_land (len off : Z) :
  0 <= len < 256 -> 0 <= off < 2 ^ 24 ->
  Z.land (len * 2 ^ 24 + off) 16777215 = off.
Proof.
  intros Hl Ho. change 16777215 with (Z.ones 24).
  rewrite Z.land_ones by lia.
  rewrite Z.add_comm, Z.mod_add by lia. apply Z.mod_small. lia.
Qed.

Lemma seg_shiftr (len off : Z) :
  0 <= len < 256 -> 0 <= off < 2 ^ 24 ->
  Z.shiftr (len * 2 ^ 24 + off) 24 = len.
Proof.
  intros Hl Ho. rewrite Z.shiftr_div_pow2 by lia.
  rewrite Z.add_comm, Z.div_add by lia. rewrite Z.div_small by lia. lia.
Qed.

Variable st : state.
Hypothesis H0 : 0 <= CHAR0 st.
Hypothesis H1 : CHAR1 st <= byteLength (buf st).
Hypothesis Ht : TRIE1 st <= byteLength (buf st).
Hypothesis Hb : 256 <= byteLength (buf st) <= 2 ^ 30.

Lemma needle_byte (w : list Z) (x : nat) :
  needle_rem st w -> (x < length w)%nat ->
  byte (buf st) (Z.of_nat (length w) - 1 - Z.of_nat x) mod 256 = nth x w 0.
Proof using Hb.
  intros [Hl Hrem] Hx. specialize (Hrem x Hx). unfold read8 in Hrem.
  rewrite get8_in in Hrem by lia. congruence.
Qed.

Lemma seg_byte (off : Z) (s : list Z) (i : nat) :
  bytes_at (buf st) (CHAR0 st + off) (length s) = s -> (i < length s)%nat ->
  byte (buf st) (CHAR0 st + off + Z.of_nat i) mod 256 = nth i s 0.
Proof.
  intros Hs Hi.
  transitivity (nth i (bytes_at (buf st) (CHAR0 st + off) (length s)) 0);
    [|rewrite Hs; reflexivity].
  rewrite bytes_at_nth by exact Hi. reflexivity.
Qed.

(** The search along [down], lines 85-113. *)
Lemma W_findSegment_spec (c : Z) (u : tr) :
  shape 68 (buf st) (CHAR0 st) (CHAR1 st) (TRIE1 st) u -> wf u ->
  is_seg u = true ->
  forall fuel : nat, (Trie.size u <= fuel)%nat ->
    Wasm.findSegment fuel (buf st) (CHAR0 st) c (4 * ptr u)
    = match find_head u c with
      | Seg cc off s _ _ =>
          Wasm.Go (4 * cc, Z.of_nat (length s) * 2 ^ 24 + off, CHAR0 st + off)
      | _ => Wasm.Done (Wasm.Return (-1))
      end.
Proof using H0 H1 Ht Hb.
  induction u as [|cc off s d IHd r IHr|cc r IHr];
    intros Hsh Hwf Hsg fuel Hfuel; try discriminate.
  cbn [shape] in Hsh.
  destruct Hsh as (Hc & Hct & Fd & Fr & Fs & Hls & Hoff & Hend & Hby & Hd & Hr).
  cbn [wf] in Hwf. destruct Hwf as (Hs & Hbd & Hhd & Hwd & Hwr).
  assert (Hls1 : (1 <= length s)%nat) by (destruct s; [congruence|cbn; lia]).
  destruct fuel as [|fuel]; [cbn in Hfuel; lia|]. cbn [Trie.size] in Hfuel.
  cbn [Wasm.findSegment ptr].
  rewrite (load_fld _ cc 2 8) by lia. rewrite Fs.
  rewrite seg_land by lia.
  rewrite i32_small by lia.
  rewrite load8_byte by lia.
  pose proof (seg_byte off s O Hby ltac:(lia)) as Hs0.
  rewrite Z.add_0_r in Hs0.
  replace (off + CHAR0 st) with (CHAR0 st + off) by lia.
  rewrite Hs0. cbn [find_head]. rewrite hd_nth0.
  destruct (nth 0 s 0 =? c) eqn:E; [reflexivity|].
  rewrite (load_fld _ cc 0 0) by lia. rewrite Fd.
  destruct d as [|dc doff ds dd dr|dc dr]; [reflexivity| |discriminate].
  pose proof Hd as Hd'. cbn [shape] in Hd'. destruct Hd' as (Hdc & Hdt & _).
  cbn [ptr]. rewrite i32_shl2 by lia.
  destruct (4 * dc =? 0) eqn:E2; [lia|].
  apply IHd; first [assumption | reflexivity | lia].
Qed.

(** The comparison of the rest of a segment, lines 144-168. *)
Lemma W_compareSegment_spec (off : Z) (s w : list Z) :
  bytes_at (buf st) (CHAR0 st + off) (length s) = s ->
  0 <= off -> off + Z.of_nat (length s) <= CHAR1 st - CHAR0 st ->
  needle_rem st w -> (length s <= length w)%nat ->
  forall (k i : nat),
    (1 <= i <= lcp s w)%nat -> (i < length s)%nat ->
    (length s - i <= k)%nat ->
    Wasm.compareSegment k (buf st) (Z.of_nat (length w) - Z.of_nat i)
      (CHAR0 st + off + Z.of_nat i)
      (CHAR0 st + off + Z.of_nat (length s))
    = if (lcp s w =? length s)%nat
      then Wasm.Go (Z.of_nat (length w) - Z.of_nat (length s))
      else Wasm.Done (Wasm.Return (-1)).
Proof using H0 H1 Ht Hb.
  intros Hby Hoff Hend Hrem Hsw k.
  pose proof (lcp_le_l s w) as Ll.
  pose proof (proj1 Hrem) as Hlw.
  induction k as [|k IH]; intros i Hi His Hk; [lia|].
  cbn [Wasm.compareSegment].
  rewrite i32_dec by lia.
  rewrite !load8_byte by lia.
  replace (Z.of_nat (length w) - Z.of_nat i - 1)
    with (Z.of_nat (length w) - 1 - Z.of_nat i) by lia.
  rewrite (needle_byte w i Hrem) by lia.
  rewrite (seg_byte off s i Hby) by lia.
  destruct (nth i w 0 =? nth i s 0) eqn:E3; cbn [negb].
  - apply Z.eqb_eq in E3.
    assert (i <> lcp s w).
    { intros ->. apply (lcp_nth_ne s w); [lia|lia|congruence]. }
    rewrite i32_small by lia.
    destruct (CHAR0 st + off + Z.of_nat i + 1
              <? CHAR0 st + off + Z.of_nat (length s)) eqn:E4.
    + apply Z.ltb_lt in E4.
      replace (CHAR0 st + off + Z.of_nat i + 1)
        with (CHAR0 st + off + Z.of_nat (S i)) by lia.
      replace (Z.of_nat (length w) - 1 - Z.of_nat i)
        with (Z.of_nat (length w) - Z.of_nat (S i)) by lia.
      apply IH; lia.
    + apply Z.ltb_ge in E4.
      assert (El : lcp s w = length s) by lia.
      rewrite El, Nat.eqb_refl. f_equal. lia.
  - apply Z.eqb_neq in E3.
    assert (i = lcp s w).
    { destruct (Nat.eq_dec i (lcp s w)) as [e|n]; [exact e|].
      exfalso. apply E3. symmetry. apply lcp_nth_eq. lia. }
    destruct (lcp s w =? length s)%nat eqn:E5; [|reflexivity].
    apply Nat.eqb_eq in E5. lia.
Qed.

Lemma W_atBoundary_spec (w : list Z) :
  needle_rem st w ->
  Wasm.atBoundary (buf st) (Z.of_nat (length w))
  = Wasm.Return (if boundary w then Z.of_nat (length w) else -1).
Proof using Hb.
  intros Hrem. pose proof (proj1 Hrem) as Hlw.
  unfold Wasm.atBoundary. destruct w as [|c w]; [reflexivity|].
  destruct (Z.of_nat (length (c :: w)) =? 0) eqn:E;
    [apply Z.eqb_eq in E; cbn [length] in E; lia|].
  rewrite i32_dec by (cbn [length] in *; lia).
  rewrite load8_byte by (cbn [length] in *; lia).
  pose proof (needle_byte (c :: w) O Hrem ltac:(cbn; lia)) as B0.
  rewrite Z.sub_0_r in B0. rewrite B0. cbn [nth boundary].
  destruct (c =? 46); [|reflexivity].
  unfold Wasm.signed.
  destruct (Z.of_nat (length (c :: w)) <? 2 ^ 31) eqn:E1; [reflexivity|lia].
Qed.

(** The loop of [matches] computes [walk]. *)
Lemma W_nextSegment_walk :
  forall (n : nat) (u : tr) (w : list Z),
    (Trie.size u < n)%nat ->
    shape 68 (buf st) (CHAR0 st) (CHAR1 st) (TRIE1 st) u -> wf u ->
    branch u -> is_seg u = true -> needle_rem st w ->
    Wasm.nextSegment n (buf st) (CHAR0 st) (4 * ptr u)
      (Z.of_nat (length w))
    = Wasm.Return (walk u w).
Proof using H0 H1 Ht Hb.
  intros n.
  induction n as [|n IH]; intros u w Hfuel Hsh Hwf Hbr Hsg Hrem; [lia|].
  destruct w as [|c w0].
  { destruct u; try discriminate. reflexivity. }
  set (w := c :: w0) in *.
  assert (Hlw : (1 <= length w <= 255)%nat).
  { destruct Hrem as [Hl _]. subst w. cbn [length] in *. lia. }
  cbn [Wasm.nextSegment].
  destruct (Z.of_nat (length w) =? 0) eqn:E0; [apply Z.eqb_eq in E0; lia|].
  rewrite i32_dec by lia.
  rewrite load8_byte by lia.
  pose proof (needle_byte w O Hrem ltac:(lia)) as Hw0.
  rewrite Z.sub_0_r in Hw0. rewrite Hw0.
  change (nth 0 w 0) with c.
  rewrite (W_findSegment_spec c u Hsh Hwf Hsg n) by lia.
  assert (Hnb : is_bnd u = false) by (destruct u; try discriminate; reflexivity).
  rewrite (walk_find_head u c w0 Hwf Hnb : walk u w = walk (find_head u c) w).
  destruct (find_head_sub 68 (buf st) (CHAR0 st) (CHAR1 st) (TRIE1 st) c u Hsh Hwf)
    as (Lsh & Lwf & Lsz & Lhd).
  assert (Lbr : branch (find_head u c)).
  { clear - Hbr. induction u as [|cc off s d IHd r IHr|cc r IHr];
      cbn [find_head]; try exact I.
    destruct (hd 0 s =? c); [exact Hbr|]. apply IHd. cbn [branch] in Hbr. tauto. }
  destruct (find_head u c) as [|cc off s d r|]; [reflexivity| |destruct Lhd].
  cbn [shape] in Lsh.
  destruct Lsh as (Hc & Hct & Fd & Fr & Fs & Hls & Hoff & Hend & Hby & Hd & Hr).
  cbn [wf] in Lwf. destruct Lwf as (Hs & Hbd & Hhd & Hwd & Hwr).
  cbn [branch] in Lbr. destruct Lbr as (Bf & Bd & Br).
  cbn [Trie.size] in Lsz.
  assert (Hls1 : (1 <= length s)%nat) by (destruct s; [congruence|cbn; lia]).
  rewrite seg_shiftr by lia.
  assert (Hl1 : (1 <= lcp s w)%nat).
  { apply lcp_pos; [exact Hs|discriminate|].
    rewrite <- !hd_nth0. rewrite Lhd. reflexivity. }
  pose proof (lcp_le_l s w) as Ll. pose proof (lcp_le_r s w) as Lr.
  match goal with
  | |- match ?X with Wasm.Go _ => _ | Wasm.Done _ => _ end = _ =>
      assert (Hrest :
        X = if (lcp s w =? length s)%nat
            then Wasm.Go (Z.of_nat (length w) - Z.of_nat (length s))
            else Wasm.Done (Wasm.Return (-1)))
  end.
  { destruct (Z.of_nat (length s) >? 1) eqn:E1.
    - apply Z.gtb_lt in E1.
      rewrite i32_dec by lia.
      destruct (Z.of_nat (length s) - 1 >? Z.of_nat (length w) - 1) eqn:E2.
      + apply Z.gtb_lt in E2.
        destruct (lcp s w =? length s)%nat eqn:E3; [|reflexivity].
        apply Nat.eqb_eq in E3. lia.
      + assert (E2' : Z.of_nat (length s) - 1 <= Z.of_nat (length w) - 1).
        { destruct (Z.gtb_spec (Z.of_nat (length s) - 1)
                      (Z.of_nat (length w) - 1)); [discriminate|lia]. }
        rewrite !i32_small by lia.
        replace (CHAR0 st + off + 1 + (Z.of_nat (length s) - 1))
          with (CHAR0 st + off + Z.of_nat (length s)) by lia.
        replace (Z.to_nat (Z.of_nat (length s) - 1))
          with (length s - 1)%nat by lia.
        exact (W_compareSegment_spec off s w Hby (proj1 Hoff) Hend Hrem
                 ltac:(lia) (length s - 1)%nat 1%nat
                 ltac:(lia) ltac:(lia) ltac:(lia)).
    - assert (El : lcp s w = length s).
      { destruct (Z.gtb_spec (Z.of_nat (length s)) 1); [discriminate|lia]. }
      rewrite El, Nat.eqb_refl. f_equal. lia. }
  rewrite Hrest. clear Hrest.
  rewrite walk_Seg_hd by (subst w; first [discriminate | exact Lhd]).
  destruct (lcp s w =? length s)%nat eqn:E3; [|reflexivity].
  apply Nat.eqb_eq in E3.
  pose proof (lcp_full_split s w E3) as Ew.
  set (w' := skipn (length s) w) in *.
  assert (Hrem' : needle_rem st w').
  { apply (C_needle_rem_app st s). rewrite <- Ew. exact Hrem. }
  assert (Hlw' : Z.of_nat (length w) - Z.of_nat (length s)
                 = Z.of_nat (length w')).
  { rewrite Ew at 1. rewrite length_app. lia. }
  rewrite Hlw'.
  rewrite (load_fld _ cc 1 4) by lia. rewrite Fr.
  destruct r as [|rc roff rs rd rr|rc rr].
  - cbn [ptr]. change (Wasm.i32 (Z.shiftl 0 2) =? 0) with true. cbn iota.
    apply W_atBoundary_spec. exact Hrem'.
  - pose proof Hr as Hr0. cbn [shape] in Hr.
    destruct Hr as (Hrc & Hrt & Frd & _ & _ & _ & _ & _ & _ & Hrd & _).
    cbn [ptr]. rewrite i32_shl2 by lia.
    destruct (4 * rc =? 0) eqn:E4; [lia|].
    rewrite (load_fld _ rc 0 0) by lia. rewrite Frd.
    assert (Hrd0 : ptr rd <> 0).
    { specialize (Bf eq_refl). cbn [forked] in Bf.
      destruct rd as [|? ? ? ? ?|? ?]; [congruence| |];
        cbn [shape ptr] in *; lia. }
    destruct (ptr rd =? 0) eqn:E5; [apply Z.eqb_eq in E5; congruence|].
    apply (IH (Seg rc roff rs rd rr) w');
      first [assumption | reflexivity | (cbn [Trie.size] in *; lia)].
  - cbn [shape] in Hr. destruct Hr as (Hrc & Hrt & Fr0 & Frr & Frs & Hrr).
    cbn [wf] in Hwr. destruct Hwr as (Hrsg & Hwrr).
    cbn [branch] in Br.
    cbn [ptr]. rewrite i32_shl2 by lia.
    destruct (4 * rc =? 0) eqn:E4; [lia|].
    rewrite (load_fld _ rc 0 0) by lia. rewrite Fr0. cbn [Z.eqb].
    cbn [walk].
    pose proof (W_atBoundary_spec w' Hrem') as AB.
    unfold Wasm.atBoundary in AB.
    destruct (Z.of_nat (length w') =? 0) eqn:E6.
    { destruct (boundary w'); [exact AB|].
      apply Z.eqb_eq in E6. destruct w'; [discriminate|cbn in E6; lia]. }
    destruct (Wasm.load8_u (buf st)
                (Wasm.i32 (Z.of_nat (length w') + (2 ^ 32 - 1))) 0)
      as [b|]; [|discriminate].
    destruct (b =? 46).
    + destruct (boundary w'); [exact AB|].
      exfalso. injection AB as AB. unfold Wasm.signed in AB.
      pose proof (proj1 Hrem').
      destruct (Z.of_nat (length w') <? 2 ^ 31) eqn:E7; lia.
    + destruct (boundary w').
      { injection AB as AB. pose proof (proj1 Hrem'). lia. }
      rewrite (load_fld _ rc 1 4) by lia. rewrite Frr.
      assert (Hrr0 : 0 <= ptr rr < 2 ^ 30).
      { destruct rr; cbn [shape ptr] in *; lia. }
      rewrite i32_shl2 by lia.
      apply IH; try assumption. cbn [Trie.size] in *. lia.
Qed.

End WMatch.

Section WBuild.
Import Trie Container ContainerInv.

(** [matches] on a state that holds the trie [t]. *)
Lemma W_matches_walk (st : state) (t : tr) (fuel : nat) :
  trie_at st t -> branch t -> (Trie.size t < fuel)%nat ->
  Wasm.matches fuel (buf st) (ptr t)
  = Wasm.Return (walk t (key (needle st))).
Proof.
  intros (G & Nok & Hsh & Hwf & Hsg) Hbr Hfuel.
  destruct G as (G1 & G2 & G3 & G4 & G5 & G6).
  assert (Hp : 68 <= ptr t /\ 4 * ptr t + 12 <= TRIE1 st).
  { destruct t; try discriminate. cbn [shape ptr] in *. lia. }
  unfold Wasm.matches.
  assert (L0 : Wasm.load (buf st) 264 0 = Some (CHAR0 st)).
  { unfold Wasm.load.
    destruct (264 + 0 + 4 <=? byteLength (buf st)) eqn:E; [reflexivity|lia]. }
  rewrite L0.
  rewrite (i32_small (ptr t)) by lia. rewrite i32_shl2 by lia.
  rewrite load8_byte by lia.
  destruct Nok as [N255 Nb]. rewrite N255.
  replace (length (needle_bytes 254 (needle st)))
    with (length (key (needle st))) by (unfold key; apply length_rev).
  apply (W_nextSegment_walk st); try assumption; try lia.
  apply C_needle_ok_rem; [lia|split; assumption].
Qed.

End WBuild.

Section WasmAgrees.
Import Trie Container ContainerInv.

(** X17 (hnbigtrie.wat, the exported function [matches], lines 45-230,
    against [matchesJS], lines 1581-1622). On the buffer that
    [fromIterable] leaves in a new container, when at least one hostname
    was stored, and for every query: the WebAssembly matcher returns
    normally, with the number that [matchesJS] returns for the same buffer
    and needle. *)
Theorem X17_wasm_matches_agrees_with_matchesJS (hs : list jsstring)
    (q : jsstring) (fuel : nat) :
  Z.of_nat (length hs) <= 65536 -> (2 * length hs + 2 <= fuel)%nat ->
  (exists h, In h hs /\ key h <> []) ->
  exists r st root k,
    build fuel hs = Ret r st /\ iroot r = Num root
    /\ fst (ref_matchesJS fuel r q st) = Some (Num k)
    /\ Wasm.matches fuel (buf (setNeedle q st)) root = Wasm.Return k.
Proof.
  intros Hl Hf Hne.
  destruct (C_build_trie_at hs fuel Hl ltac:(lia) Hne)
    as (r & st & t & E & Hr & Ht & _ & Sz & _ & Br).
  exists r, st, (ptr t), (walk t (key q)).
  split; [exact E|]. split; [exact Hr|].
  split; [apply (C_ref_matchesJS_walk st t r q fuel Ht Hr); lia|].
  destruct (C_setNeedle_trie_at q st t Ht) as [Ht' N].
  rewrite (W_matches_walk _ t fuel Ht' Br) by lia.
  rewrite N. reflexivity.
Qed.

End WasmAgrees.

Section ManagerAdd.
Import Trie Manager ManagerInv.

(** X18 (hnbigtrie.js, [add], lines 134-208, after [create] and any number
    of [setNeedle(hn).add(iroot)]). On a trie of a new manager to which
    fewer than 65536 hostnames were added, one more [add] returns normally,
    with 1 when the hostname is new and 0 when it is empty or was added
    before. Hostnames are compared by the bytes [setNeedle] keeps: the
    first 255 characters, each modulo 256. *)
Theorem X18_manager_add_tells_new (hs : list jsstring) (h : jsstring)
    (fuel : nat) :
  Z.of_nat (length hs) < 65536 -> (2 * length hs + 1 <= fuel)%nat ->
  exists r st res st',
    build fuel hs = Ret r st
    /\ ref_add fuel r h st = Ret res st'
    /\ ((res = Num 0 /\ (key h = [] \/ In (key h) (map key hs)))
        \/ (res = Num 1 /\ key h <> [] /\ ~ In (key h) (map key hs))).
Proof.
  intros Hl Hf. unfold build.
  destruct create_fresh_inv as [Hr Hi0].
  destruct (create fresh) as [r st0]. cbn [fst snd] in Hr, Hi0.
  destruct (add_all_inv r 64 fuel hs Hr 0 st0 [] Hi0) as (st & E & Hi);
    try lia.
  rewrite E. cbn [bind]. cbn [app] in Hi. rewrite Z.add_0_l in Hi.
  destruct (ref_add_inv _ st r 64 _ h fuel Hr Hi) as (res & st' & E' & Hres & _);
    try lia.
  exists r, st, res, st'. split; [reflexivity|]. split; [exact E'|exact Hres].
Qed.

End ManagerAdd.

Lemma X18_manager_add_tells_new_witness :
  Z.of_nat (length example_com) < 65536
  /\ (2 * length example_com + 1 <= fuel)%nat
  /\ exists r st res st',
       Manager.build fuel example_com = Ret r st
       /\ Manager.ref_add fuel r (js "www.example.com") st = Ret res st'
       /\ ((res = Num 0
            /\ (ManagerInv.key (js "www.example.com") = []
                \/ In (ManagerInv.key (js "www.example.com"))
                      (map ManagerInv.key example_com)))
           \/ (res = Num 1
               /\ ManagerInv.key (js "www.example.com") <> []
               /\ ~ In (ManagerInv.key (js "www.example.com"))
                       (map ManagerInv.key example_com))).
Proof.
  assert (H1 : Z.of_nat (length example_com) < 65536)
    by (apply Z.ltb_lt; vm_compute; reflexivity).
  assert (H2 : (2 * length example_com + 1 <= fuel)%nat)
    by (apply Nat.leb_le; vm_compute; reflexivity).
  split; [exact H1|]. split; [exact H2|].
  exact (X18_manager_add_tells_new example_com (js "www.example.com") fuel
           H1 H2).
Defined.

(** ** Two tries in one container *)

Section CTwo.
Import Trie Container ContainerInv.

(** [create] on a container with room for one more cell, and for the first
    hostname of the new trie. *)
Lemma C_create_inv (n : Z) (st : state) (root : Z) (ws : list (list Z)) :
  inv n st root ws -> 0 <= n < 65536 ->
  TRIE1 st + 12 <= CHAR0 st -> CHAR1 st + 254 <= byteLength (buf st) ->
  let root' := TRIE1 st / 4 in
  iroot (fst (create st)) = Num root'
  /\ inv (n + 1) (snd (create st)) root' []
  /\ frame [] st (snd (create st))
  /\ 4 * root' = TRIE1 st.
Proof.
  intros (Se & Wi & Nok & _) Hn Hroom Hfree root'.
  pose proof Se as (S1 & S2 & S3 & S4 & S5 & S6 & S7 & S8 & S9 & S10 & S11).
  pose proof Wi as [W1 W2].
  assert (Ok : ok 1 0 st).
  { split; [|exact Nok]. unfold room. repeat split; lia. }
  destruct (C_addCell_ok (Num 0) (Num 0) (Num 0) 1 0 st Ok)
    as (st' & E & Ok' & F & T & C & E4 & Al & Hlo & V0 & V1 & V2); try lia.
  fold root' in E, E4, Al, Hlo, V0, V1, V2.
  assert (Ec : create st = (mkRef (Num root') 0, st')).
  { change (create st)
      with (mkRef (fst (addCell (Num 0) (Num 0) (Num 0) st)) 0,
            snd (addCell (Num 0) (Num 0) (Num 0) st)).
    rewrite E. reflexivity. }
  rewrite Ec. cbn [fst snd iroot].
  split; [reflexivity|]. split; [|split; [exact F|exact E4]].
  pose proof F as (A1 & A2 & A3 & AW & A4 & A5 & A6 & A7).
  destruct Ok' as ((Q1 & Q2 & _) & Nok').
  split.
  { apply (C_settled_after st); try assumption; lia. }
  split; [unfold within; lia|].
  split; [exact Nok'|].
  left. rewrite V0, V1, V2.
  repeat split; first [assumption | reflexivity | lia | (intros x [])].
Qed.

(** Room in the buffer of a container that holds few hostnames. *)
Lemma C_small_room (n : Z) (st : state) :
  settled st -> within n st -> 0 <= n <= 256 ->
  TRIE1 st + 12 <= CHAR0 st /\ CHAR1 st + 254 <= byteLength (buf st).
Proof.
  intros (S1 & S2 & S3 & S4 & S5 & S6 & S7 & S8 & S9 & S10 & S11) [W1 W2] Hn.
  apply Z.mod_divide in S6; [|lia]. destruct S6 as [a Ha].
  apply Z.mod_divide in S7; [|lia]. destruct S7 as [b Hb].
  split; lia.
Qed.

(** The answers of a trie are those of its strings. *)
Lemma walk_same_strs (t t' : tr) (w : list Z) :
  wf t -> wf t' -> is_seg t = true -> is_seg t' = true ->
  (forall x, In x (strs t) <-> In x (strs t')) ->
  walk t w = walk t' w.
Proof.
  intros W W' Sg Sg' Hs.
  assert (Hn : t <> Nil) by (destruct t; [discriminate|congruence..]).
  assert (Hn' : t' <> Nil) by (destruct t'; [discriminate|congruence..]).
  assert (A : forall u u', wf u -> wf u' -> is_seg u = true ->
                is_seg u' = true -> u' <> Nil ->
                (forall x, In x (strs u) <-> In x (strs u')) ->
                0 <= walk u w -> walk u w <= walk u' w).
  { intros u u' Wu Wu' Su Su' Nu' Hu Hk.
    destruct (walk_sound u Wu w Hk) as (h & x & Hh & Ew & Ek & Hb).
    rewrite Ek, Ew. apply walk_complete; try assumption.
    rewrite (rest_strs_seg u' Su'). apply Hu.
    rewrite <- (rest_strs_seg u Su). exact Hh. }
  pose proof (A t t' W W' Sg Sg' Hn' Hs) as A1.
  pose proof (A t' t W' W Sg' Sg Hn (fun x => iff_sym (Hs x))) as A2.
  destruct (walk_range t w), (walk_range t' w); lia.
Qed.

End CTwo.

Section TwoTries.
Import Trie Container ContainerInv.

(** X19 (hnbigtrie.wat, [create], [fromIterable], [addJS] and [matchesJS]
    of the container, lines 1581-1752). Two tries of one container do not
    disturb each other: when a second trie is created and filled after a
    first one in a new container (at most 256 hostnames in all, at least
    one that is not empty in each), each of the two answers every query as
    the trie that [fromIterable] builds from its own hostnames in a
    container of its own. *)
Theorem X19_tries_of_one_container_are_independent
    (hs1 hs2 : list jsstring) (q : jsstring) (fuel : nat) :
  (length hs1 + length hs2 <= 256)%nat ->
  (2 * (length hs1 + length hs2) + 4 <= fuel)%nat ->
  (exists h, In h hs1 /\ key h <> []) ->
  (exists h, In h hs2 /\ key h <> []) ->
  exists r1 st1 r2 st2 k1 k2,
    fromIterable fuel hs1 fresh = Ret r1 st1
    /\ fromIterable fuel hs2 st1 = Ret r2 st2
    /\ fst (ref_matchesJS fuel r1 q st2) = Some (Num k1)
    /\ query fuel hs1 q = Some (Num k1)
    /\ fst (ref_matchesJS fuel r2 q st2) = Some (Num k2)
    /\ query fuel hs2 q = Some (Num k2).
Proof.
  intros Hl Hf Hne1 Hne2.
  (* the first trie *)
  destruct C_create_fresh_inv as [Hr0 Hi0].
  assert (Eb : fromIterable fuel hs1 fresh = build fuel hs1) by reflexivity.
  unfold query at 1. rewrite Eb. unfold build.
  destruct (create fresh) as [r0 st0]. cbn [fst snd] in Hr0, Hi0.
  destruct (C_add_all_inv 68 fuel hs1 r0 0 st0 [] Hr0 Hi0)
    as (r1 & st1 & E1 & Hr1 & Hi1 & _); try lia.
  rewrite E1. cbn [app] in Hi1. rewrite Z.add_0_l in Hi1.
  pose proof Hi1 as (Se1 & Wi1 & Nok1 & Ho1).
  destruct Ho1 as [(_ & _ & _ & _ & _ & _ & _ & Hws)|
                   (t1 & P1 & Sg1 & Sh1 & W1 & Ar1 & Sz1 & St1 & Br1 & Lo1)].
  { exfalso. destruct Hne1 as (h & Hh & Hk). apply Hk, Hws.
    apply in_map. exact Hh. }
  pose proof (C_settled_geom _ _ Se1 Wi1 ltac:(lia)) as G1.
  assert (Ht1 : trie_at st1 t1).
  { split; [exact G1|]. split; [exact Nok1|]. split; [exact Sh1|].
    split; [exact W1|exact Sg1]. }
  (* the second trie *)
  destruct (C_small_room _ st1 Se1 Wi1 ltac:(lia)) as [Hroom Hfree].
  destruct (C_create_inv _ st1 68 _ Hi1 ltac:(lia) Hroom Hfree)
    as (Hr2 & Hi2 & F2 & E4).
  cbn zeta in Hr2, Hi2, E4. set (root2 := TRIE1 st1 / 4) in *.
  destruct (create st1) as [r2 st1'] eqn:Ec2. cbn [fst snd] in Hr2, Hi2, F2.
  destruct (C_add_all_inv root2 fuel hs2 r2 _ st1' [] Hr2 Hi2)
    as (r2' & st2 & E2 & Hr2' & Hi2' & Kp); try lia.
  cbn [app] in Hi2'.
  pose proof Hi2' as (Se2 & Wi2 & Nok2 & Ho2).
  pose proof (C_settled_geom _ _ Se2 Wi2 ltac:(lia)) as G2.
  destruct Ho2 as [(_ & _ & _ & _ & _ & _ & _ & Hws)|
                   (t2 & P2 & Sg2 & Sh2 & W2 & Ar2 & Sz2 & St2 & Br2 & Lo2)].
  { exfalso. destruct Hne2 as (h & Hh & Hk). apply Hk, Hws.
    apply in_map. exact Hh. }
  exists r1, st1, r2', st2, (walk t1 (key q)), (walk t2 (key q)).
  split; [reflexivity|].
  split; [unfold fromIterable; rewrite Ec2; exact E2|].
  split; [|split; [apply (C_ref_matchesJS_walk st1 t1 r1 q fuel Ht1);
                   (congruence || lia)|]].
  - (* the first trie is where it was *)
    assert (Sh1' : shape 68 (buf st2) (CHAR0 st2) (CHAR1 st2) (TRIE1 st2) t1).
    { apply Kp.
      - apply List.Forall_forall. intros c Hc.
        split; [apply (proj1 (List.Forall_forall _ _) (proj2 Ar1) c Hc)|].
        pose proof (shape_cells 68 _ _ _ _ t1 Sh1 c Hc). lia.
      - apply (C_shape_frame [] st1 st1' t1 F2 Sh1 (proj2 Ar1)).
        intros c _ []. }
    assert (Ht1' : trie_at st2 t1).
    { split; [exact G2|]. split; [exact Nok2|]. split; [exact Sh1'|].
      split; [exact W1|exact Sg1]. }
    apply (C_ref_matchesJS_walk st2 t1 r1 q fuel Ht1'); (congruence || lia).
  - (* the second trie holds its own hostnames *)
    assert (Ht2 : trie_at st2 t2).
    { split; [exact G2|]. split; [exact Nok2|]. split; [exact Sh2|].
      split; [exact W2|exact Sg2]. }
    split; [apply (C_ref_matchesJS_walk st2 t2 r2' q fuel Ht2);
            (congruence || lia)|].
    destruct (C_build_trie_at hs2 fuel ltac:(lia) ltac:(lia) Hne2)
      as (ra & sta & ta & Ea & Hra & Hta & _ & Sza & Sta & _).
    unfold query. rewrite Ea.
    rewrite (C_ref_matchesJS_walk sta ta ra q fuel Hta Hra) by lia.
    do 2 f_equal.
    destruct Hta as (_ & _ & _ & Wa & Sga).
    apply walk_same_strs; try assumption.
    intros x. rewrite St2, Sta. reflexivity.
Qed.

End TwoTries.

Section Queries.
Import Trie Container ContainerInv.

(** X20 (hnbigtrie.wat, [setNeedle] and [matchesJS] of the container, lines
    1567-1622, through [HNBigTrieRef.matchesJS]). Queries leave nothing
    behind: on a trie filled by [fromIterable] in a new container with at
    least one hostname stored, a query made after any number of other
    queries gets the answer it gets when it is the first. *)
Theorem X20_queries_do_not_disturb (hs qs : list jsstring) (q : jsstring)
    (fuel : nat) :
  Z.of_nat (length hs) <= 65536 -> (2 * length hs + 2 <= fuel)%nat ->
  (exists h, In h hs /\ key h <> []) ->
  exists r st k,
    build fuel hs = Ret r st
    /\ fst (ref_matchesJS fuel r q
              (fold_left (fun s q' => snd (ref_matchesJS fuel r q' s)) qs st))
       = Some (Num k)
    /\ fst (ref_matchesJS fuel r q st) = Some (Num k).
Proof.
  intros Hl Hf Hne.
  destruct (C_build_trie_at hs fuel Hl ltac:(lia) Hne)
    as (r & st & t & E & Hr & Ht & _ & Sz & _).
  exists r, st, (walk t (key q)). split; [exact E|].
  assert (Hq : forall s, trie_at s t ->
            trie_at (fold_left
                       (fun s q' => snd (ref_matchesJS fuel r q' s)) qs s) t).
  { induction qs as [|q1 qs IH]; intros s Hs; [exact Hs|].
    cbn [fold_left]. apply IH. unfold ref_matchesJS. cbn [snd].
    apply (C_setNeedle_trie_at q1 s t Hs). }
  split; apply C_ref_matchesJS_walk; first [exact Hr | lia | idtac].
  - apply Hq. exact Ht.
  - exact Ht.
Qed.

End Queries.

Lemma X20_queries_do_not_disturb_witness :
  Z.of_nat (length example_com) <= 65536
  /\ (2 * length example_com + 2 <= fuel)%nat
  /\ (exists h, In h example_com /\ ContainerInv.key h <> [])
  /\ exists r st k,
       Container.build fuel example_com = Ret r st
       /\ fst (Container.ref_matchesJS fuel r (js "a.example.com")
                 (fold_left
                    (fun s q' => snd (Container.ref_matchesJS fuel r q' s))
                    [js "www.sub.example.com"; js "example.org"] st))
          = Some (Num k)
       /\ fst (Container.ref_matchesJS fuel r (js "a.example.com") st)
          = Some (Num k).
Proof.
  assert (H1 : Z.of_nat (length example_com) <= 65536)
    by (apply Z.leb_le; vm_compute; reflexivity).
  assert (H2 : (2 * length example_com + 2 <= fuel)%nat)
    by (apply Nat.leb_le; vm_compute; reflexivity).
  split; [exact H1|]. split; [exact H2|]. split; [exact example_com_keyed|].
  exact (X20_queries_do_not_disturb example_com
           [js "www.sub.example.com"; js "example.org"] (js "a.example.com")
           fuel H1 H2 example_com_keyed).
Defined.

Section OneMore.
Import Trie Container ContainerInv.

(** X21 ([HNBigTrieRef.addJS] and [matchesJS] of hnbigtrie.wat, lines
    1953-1972, with [addJS], lines 1635-1731). One more hostname on a trie
    filled by [fromIterable]: [addJS] returns normally, with [true] and a
    [size] one larger when the hostname is new, with [false] and the same
    [size] when it was stored; after it, [matchesJS] finds the hostname.
    Hostnames are compared by the bytes [setNeedle] keeps. *)
Theorem X21_addJS_tells_new_and_is_found (hs : list jsstring)
    (h : jsstring) (fuel : nat) :
  Z.of_nat (length hs) < 65536 -> (2 * length hs + 4 <= fuel)%nat ->
  key h <> [] ->
  exists r st a st' k,
    build fuel hs = Ret r st
    /\ ref_addJS fuel r h st = Ret a st'
    /\ ((fst a = false /\ Container.size (snd a) = Container.size r
         /\ In (key h) (map key hs))
        \/ (fst a = true /\ Container.size (snd a) = Container.size r + 1
            /\ ~ In (key h) (map key hs)))
    /\ fst (ref_matchesJS fuel (snd a) h st') = Some (Num k)
    /\ 0 <= k.
Proof.
  intros Hl Hf Hk. unfold build.
  destruct C_create_fresh_inv as [Hr0 Hi0].
  destruct (create fresh) as [r0 st0]. cbn [fst snd] in Hr0, Hi0.
  destruct (C_add_all_inv 68 fuel hs r0 0 st0 [] Hr0 Hi0)
    as (r & st & E & Hr & Hi & _); try lia.
  rewrite E. cbn [app] in Hi. rewrite Z.add_0_l in Hi.
  destruct (C_ref_addJS_inv _ st r 68 _ h fuel Hr Hi)
    as (a & st' & E' & Hr' & Hres & Hi' & _); try lia.
  destruct Hi' as (Se & Wi & Nok & Ho).
  destruct Ho as [(_ & _ & _ & _ & _ & _ & _ & Hws)|
                  (t & P & Sg & Sh & W & Ar & Sz & St & Br & Lo)].
  { exfalso. apply Hk, Hws. apply in_or_app. right. left. reflexivity. }
  pose proof (C_settled_geom _ _ Se Wi ltac:(lia)) as G.
  assert (Ht : trie_at st' t).
  { split; [exact G|]. split; [exact Nok|]. split; [exact Sh|].
    split; [exact W|exact Sg]. }
  exists r, st, a, st', (walk t (key h)).
  split; [reflexivity|]. split; [exact E'|]. split.
  - destruct Hres as [(A & B & [C|C])|(A & B & _ & C)];
      [congruence|left; tauto|right; tauto].
  - split.
    + apply (C_ref_matchesJS_walk st' t (snd a) h fuel Ht); [congruence|lia].
    + pose proof (walk_complete t W ltac:(destruct t; [discriminate|congruence..])
                    (key h) [] ) as Hc.
      rewrite app_nil_r in Hc. cbn [length] in Hc. apply Hc; [|reflexivity].
      rewrite (rest_strs_seg t Sg). apply St.
      split; [apply in_or_app; right; left; reflexivity|exact Hk].
Qed.

End OneMore.

Lemma X21_addJS_tells_new_and_is_found_witness :
  Z.of_nat (length example_com) < 65536
  /\ (2 * length example_com + 4 <= fuel)%nat
  /\ ContainerInv.key (js "example.org") <> []
  /\ exists r st a st' k,
       Container.build fuel example_com = Ret r st
       /\ Container.ref_addJS fuel r (js "example.org") st = Ret a st'
       /\ ((fst a = false
            /\ Container.size (snd a) = Container.size r
            /\ In (ContainerInv.key (js "example.org"))
                  (map ContainerInv.key example_com))
           \/ (fst a = true
               /\ Container.size (snd a) = Container.size r + 1
               /\ ~ In (ContainerInv.key (js "example.org"))
                       (map ContainerInv.key example_com)))
       /\ fst (Container.ref_matchesJS fuel (snd a) (js "example.org") st')
          = Some (Num k)
       /\ 0 <= k.
Proof.
  assert (H1 : Z.of_nat (length example_com) < 65536)
    by (apply Z.ltb_lt; vm_compute; reflexivity).
  assert (H2 : (2 * length example_com + 4 <= fuel)%nat)
    by (apply Nat.leb_le; vm_compute; reflexivity).
  assert (H3 : ContainerInv.key (js "example.org") <> [])
    by (vm_compute; discriminate).
  split; [exact H1|]. split; [exact H2|]. split; [exact H3|].
  exact (X21_addJS_tells_new_and_is_found example_com (js "example.org") fuel
           H1 H2 H3).
Defined.

Lemma plain_check_255 (hn : jsstring) :
  (length hn <=? 255)%nat
  && forallb (fun c => (0 <=? c) && (c <? 256)) hn = true ->
  ManagerInv.plain hn.
Proof.
  intros H. apply andb_true_iff in H. destruct H as [H1 H2].
  split; [apply Nat.leb_le; exact H1|apply range_check; exact H2].
Defined.


Lemma X16_manager_matchesJS_never_misses_witness :
  Z.of_nat (length example_com) <= 65536
  /\ (2 * length example_com + 2 <= fuel)%nat
  /\ In (js "example.com") example_com
  /\ js "example.com" <> []
  /\ ManagerInv.plain (js "example.com")
  /\ ManagerInv.plain (js "www.example.com")
  /\ label_match (js "www.example.com") (js "example.com")
  /\ exists r st k,
       Manager.fromIterable fuel example_com Manager.fresh = Ret r st
       /\ fst (Manager.ref_matchesJS fuel r (js "www.example.com") st)
          = Some (Num k)
       /\ 0 <= k.
Proof.
  assert (H1 : Z.of_nat (length example_com) <= 65536)
    by (apply Z.leb_le; vm_compute; reflexivity).
  assert (H2 : (2 * length example_com + 2 <= fuel)%nat)
    by (apply Nat.leb_le; vm_compute; reflexivity).
  assert (H3 : In (js "example.com") example_com) by (left; reflexivity).
  assert (H4 : js "example.com" <> []) by discriminate.
  assert (H5 : ManagerInv.plain (js "example.com"))
    by (apply plain_check_255; vm_compute; reflexivity).
  assert (H6 : ManagerInv.plain (js "www.example.com"))
    by (apply plain_check_255; vm_compute; reflexivity).
  assert (H7 : label_match (js "www.example.com") (js "example.com"))
    by (right; exists (js "www"); reflexivity).
  split; [exact H1|]. split; [exact H2|]. split; [exact H3|].
  split; [exact H4|]. split; [exact H5|]. split; [exact H6|].
  split; [exact H7|].
  exact (X16_manager_matchesJS_never_misses example_com (js "example.com")
           (js "www.example.com") fuel H1 H2 H3 H4 H5 H6 H7).
Defined.

Lemma X17_wasm_matches_agrees_with_matchesJS_witness :
  Z.of_nat (length example_com) <= 65536
  /\ (2 * length example_com + 2 <= fuel)%nat
  /\ (exists h, In h example_com /\ ContainerInv.key h <> [])
  /\ exists r st root k,
       Container.build fuel example_com = Ret r st
       /\ Container.iroot r = Num root
       /\ fst (Container.ref_matchesJS fuel r (js "www.example.com") st)
          = Some (Num k)
       /\ Wasm.matches fuel
            (Container.buf (Container.setNeedle (js "www.example.com") st))
            root
          = Wasm.Return k.
Proof.
  assert (H1 : Z.of_nat (length example_com) <= 65536)
    by (apply Z.leb_le; vm_compute; reflexivity).
  assert (H2 : (2 * length example_com + 2 <= fuel)%nat)
    by (apply Nat.leb_le; vm_compute; reflexivity).
  split; [exact H1|]. split; [exact H2|]. split; [exact example_com_keyed|].
  exact (X17_wasm_matches_agrees_with_matchesJS example_com
           (js "www.example.com") fuel H1 H2 example_com_keyed).
Defined.

Lemma example_org_keyed :
  exists h, In h [js "example.org"] /\ ContainerInv.key h <> [].
Proof.
  exists (js "example.org"). split; [left; reflexivity|].
  vm_compute. discriminate.
Defined.

Lemma X19_tries_of_one_container_are_independent_witness :
  (length example_com + length [js "example.org"] <= 256)%nat
  /\ (2 * (length example_com + length [js "example.org"]) + 4 <= fuel)%nat
  /\ (exists h, In h example_com /\ ContainerInv.key h <> [])
  /\ (exists h, In h [js "example.org"] /\ ContainerInv.key h <> [])
  /\ exists r1 st1 r2 st2 k1 k2,
       Container.fromIterable fuel example_com Container.fresh = Ret r1 st1
       /\ Container.fromIterable fuel [js "example.org"] st1 = Ret r2 st2
       /\ fst (Container.ref_matchesJS fuel r1 (js "www.example.org") st2)
          = Some (Num k1)
       /\ Container.query fuel example_com (js "www.example.org")
          = Some (Num k1)
       /\ fst (Container.ref_matchesJS fuel r2 (js "www.example.org") st2)
          = Some (Num k2)
       /\ Container.query fuel [js "example.org"] (js "www.example.org")
          = Some (Num k2).
Proof.
  assert (H1 : (length example_com + length [js "example.org"] <= 256)%nat)
    by (apply Nat.leb_le; vm_compute; reflexivity).
  assert (H2 : (2 * (length example_com + length [js "example.org"]) + 4
                <= fuel)%nat)
    by (apply Nat.leb_le; vm_compute; reflexivity).
  split; [exact H1|]. split; [exact H2|]. split; [exact example_com_keyed|].
  split; [exact example_org_keyed|].
  exact (X19_tries_of_one_container_are_independent example_com
           [js "example.org"] (js "www.example.org") fuel H1 H2
           example_com_keyed example_org_keyed).
Defined.
